(* ===== verification/_CoqProject ===== *)
-Q . S2P
Prelude.v
Wp.v
OwnedPage.v
SealedRecord.v
OwnedVolume.v
ControlRecord.v
DharaTypes.v
ControlJournal.v
JournalCodec.v
JournalCalls.v
JournalSafety.v
FrameQueue.v
FrameQueueSafety.v
FrameQueueSpec.v
ButtonGesture.v
SegmentHeader.v
Extent.v
RecordTypes.v
Manifest.v
PlainSegment.v
ObjectStore.v
StoreRules.v
StoreJobs.v
StoreSafety.v
StoreOwner.v
RecordingPipeline.v
PipelineSafety.v
PipelineWorld.v
RecordingWorker.v
WorkerSafety.v
WorkerSession.v
WorkerRuns.v
StoreBridge.v
StoreBridgeSafety.v
HostPermit.v
BatteryPower.v
DevicePreferences.v
MicFrameMath.v
LongControl.v
RecordingControl.v
ControlSafety.v
ControlWorker.v
ControlWorkerSafety.v
BleCodec.v
BleTransfer.v
RecoveryAuthorizer.v
RecoverySafety.v
