(* ===== verification/Prelude.v ===== *)
(** * RePendant: the recorder firmware, verified

    RePendant is a wearable recorder.  A microphone task hands 20 ms frames to a
    worker that encodes them with Opus, packs them into segments, seals the
    segments for a recipient and commits them to journaled NAND; a phone and one
    button start and stop recordings.  This library models the portable core of
    the firmware, [src/usb_firmware/src], function by function, and proves what
    that core relies on.  File names below are relative to that directory.

    ** The parts, from the outside in

    - Commands.  [RecordingControl.v] is the coordinator ([recording_control.c]):
      START and STOP commands and button taps become tickets, handed once to the
      worker.  [LongControl.v] is the frame codec of the phone
      ([long_recording_control_codec.c]); [ButtonGesture.v] the tap decoder
      ([button_gesture.h]); [HostPermit.v] the one-use permit of a trusted host
      ([host_permit.c]); [BatteryPower.v] admission by battery
      ([battery_power.c]); [DevicePreferences.v] the preference record
      ([device_preferences.c]).
    - The session.  [RecordingWorker.v] is one session from start to finalized
      stop ([recording_worker.c]): it owns the frame queue, [FrameQueue.v]
      ([recording_frame_queue.c]), and the pipeline, [RecordingPipeline.v] and
      [PlainSegment.v] ([recording_pipeline.c]), and calls the platform through
      hooks.  [ControlWorker.v] joins coordinator and worker
      ([recording_control_worker.c]).  [MicFrameMath.v] is the frame energy of
      the microphone check ([mic_frame_math.h]).
    - Storage.  [StoreBridge.v] ([recording_store_bridge.c]) is the worker's
      storage: it drives the object store, [ObjectStore.v]
      ([recording_object_store.c]), whose backend programs and reads back logical
      pages.  [SegmentHeader.v] ([encrypted_segment_header.c]) is the sealed
      container, [Manifest.v] ([recording_manifest.c]) the signed account of a
      recording, [Extent.v] ([recording_extent.c]) the descriptor of the native
      volume.  [RecordTypes.v] holds the records these share.
    - The owned volume.  [OwnedVolume.v] ([owned_volume_descriptor.c]) maps logical
      pages onto NAND rows, [OwnedPage.v] ([owned_page.c]) is the page format,
      [ControlRecord.v] ([owned_control_record.c]) the append-only control history
      and its selector, [ControlJournal.v] ([owned_control_journal.c]) the journal
      that leases blocks for erasing and programming; [SealedRecord.v] is the
      sealing both 512-byte records use, [DharaTypes.v] the types of
      [owned_dhara.h].
    - Synchronisation.  [BleCodec.v] ([durable_ble_codec.c]) is the frame codec
      with which the phone reads, acknowledges and deletes recordings;
      [RecoveryAuthorizer.v] ([recovery_authorizer.c]) the single-use gate in
      front of the recovery of a volume.
    - Shared: this file (integers, bytes, pointers, CRC-32, the state monad, the
      reading back of what was written) and [Wp.v] (weakest preconditions).

    Each component has its data and operations in the file named after it.  Larger
    proofs are in files of their own: [JournalCodec], [JournalCalls],
    [JournalSafety];
    [FrameQueueSafety], [FrameQueueSpec]; [StoreRules], [StoreJobs],
    [StoreSafety], [StoreOwner]; [PipelineSafety], [PipelineWorld];
    [WorkerSafety], [WorkerSession], [WorkerRuns]; [StoreBridgeSafety];
    [ControlSafety]; [ControlWorkerSafety]; [BleTransfer]; [RecoverySafety].

    ** How the code is rendered

    A structure is a record, an enumeration an inductive type or its values, a
    function a definition of the same name.  Integers are [Z] with their width
    written out at every place where the code can wrap ([u8] to [u64]); [size_t]
    and pointers have 32 bits, as on the target.  Buffers are lists of bytes, a
    pointer argument is NULL or an address with its bytes where the code compares
    addresses.  Code that keeps state is a computation of the state monad [M];
    callbacks act on an arbitrary world [W], and nothing is assumed of what they
    answer: every answer, error and early return is covered.

    Concurrency follows what each component promises.
    - The frame queue's calls are trees of single atomic actions, and any number
      of calls interleave at every action, sequentially consistently.
    - The host permit, the pipeline and the store admit one call at a time by an
      atomic gate that refuses a second: such a call is one step.
    - The coordinator's calls are sequences of sections under its gate, with other
      calls in between, also during its callbacks.
    - The worker is preempted by its producer's calls ([rw_submit],
      [rw_request_stop]) at every access to memory it shares with them and inside
      every hook.
    - In the adapter the coordinator belongs to the world of the hooks, so its
      other actors move it inside every hook and between two of the adapter's
      accesses.

    ** What is proved

    - Durability.  A receipt is given only for a segment that was programmed and
      read back, and nothing committed is written over ([StoreSafety]); the bridge
      polls out what the store made durable, whichever way the calls of codec
      worker, storage worker and canceller interleave, and a fault is final
      ([StoreBridgeSafety]).
    - The session.  Hooks are called in the order of a small automaton: the
      supervisor is armed only when disarmed, capture starts only under the lease
      and is joined before finalization and release, and after a missed deadline
      nothing but the clock and the safety stop is called
      ([WorkerRuns.rw_hooks_supervised]).  A complete stop is one whose recording was finalized with every frame
      accounted for.  An accepted stop ends the session within its steps.  A STOP
      latched before the start keeps the microphone off, and one latched later
      ends the session ([ControlWorkerSafety]).
    - Accounting.  The pipeline keeps its sink's contract whatever Opus and the
      sink answer; every captured sample is stored, dropped or pending once
      ([PipelineSafety]).  The queue delivers in order and exactly what was
      accepted, and refines a bounded queue ([FrameQueueSafety],
      [FrameQueueSpec]).
    - Commands.  A ticket is queued once, STOP stays latched, states progress, and
      the coordinator stays well formed, under every interleaving
      ([ControlSafety]); a permit is consumed once ([HostPermit]); every commit
      of a gesture answers presses that happened ([ButtonGesture]).
    - Synchronisation.  Asking on behind the data received reads an object in
      whole, and a built catalogue reads back as what was put in ([BleTransfer]);
      a recovery is authorized once, lock before permit before settings
      ([RecoverySafety]).
    - The volume.  Journal roots move forward, and the log of a run shows each of
      them programmed and then read back ([JournalSafety]); erase leases never overlap, the
      mapping is injective, a page determines its binding, the control history
      selects one clean head, leases are unique.
    - Formats.  Encoders and decoders are inverse to one another on well-typed
      data and accept canonical bytes only: pages, control records, snapshots,
      segment headers, extents, manifests (streamed, incremental and whole), phone
      requests and responses.
    - Termination and bounds.  Every store job ends, every bridge wait ends, a lease
      of battery power is bounded, and no step of the variance of a frame leaves its
      64 bits.

    Theorems with a hypothesis have a witness on a concrete run of the components
    ([studio], [desk] and the other demonstrations at the end of the files).

    ** Bounds and fuel

    Loops of the code are structural recursions on what they run over, or carry
    the code's own bound: a store job is left within 61 advances and a whole
    request within 102,464 steps, counted down by the measure in [StoreRules];
    the worker drains at most the 8 frames the queue holds; the stream of a
    manifest recurs on its remaining bytes.  The termination theorems say that the
    bound is enough; nowhere does running out of fuel make a theorem vacuous.

    ** Parameters

    Opus and its packet parser, SHA-256 (the code's own provider callback), AEAD
    sealing, the NAND port, the clock, the settings port and every hook are arguments:
    code that is not in the repository, or callbacks the caller supplies.  What a
    theorem needs of one is a named hypothesis in its statement, such as that
    distinct digests come from distinct data; the examples instantiate it.

    ** What is not modelled

    - Platform code: Zephyr threads, drivers, GATT services, shell commands,
      settings and DMIC calls, and the runtime that wires the components
      ([main.c], [recording_runtime.c], [recording_capture.c], [ble_*.c],
      [mic_*.c], [nand_*_commands.c], ...): almost every line is a call into the
      operating system or a driver, whose code is not here.
    - NAND bring-up, qualification and diagnostics ([nand_id.c], [nand_qualify.inc],
      [nand_write_rate.c], the [*_wire.c] framings, ...): laboratory commands that
      the recorder never runs.
    - The Dhara adapter and the volumes over it ([owned_dhara.c],
      [recording_volume.c], [recording_native_*.c], ...): glue to a
      third-party map that is not in the repository.
    - Cryptography ([recording_hpke*.c], [crypto_*.c]): calls into PSA.
    - The Android application, the board files, the tools and their tests.

    Weak memory orderings and compiler reordering are not modelled.  [wipe] has no
    effect beyond the bytes it clears.

    ** What modelling showed

    [recording_extent.c] copies its label fields one byte short, so the version
    digit of a label is never stored; the magic still tells the versions apart.
    A comment of [long_recording_control_codec.h] lists fewer clean reasons than
    the code accepts. *)
From Stdlib Require Export ZArith Lia.
From stdpp Require Export base numbers list sets relations.
#[export] Set Default Goal Selector "!".
Open Scope Z_scope.

(** * Notations and machine integers *)
Declare Scope fw_scope.
Delimit Scope fw_scope with fw.
Open Scope fw_scope.

Definition UINT32_MAX : Z := 0xffffffff.
Definition UINT64_MAX : Z := 0xffffffffffffffff.
Definition INT64_MAX : Z := 0x7fffffffffffffff.
Definition INT32_MAX : Z := 0x7fffffff.
(** The target is a 32-bit Cortex-M33: pointers and [size_t] are 32 bits wide. *)
Definition UINTPTR_MAX : Z := UINT32_MAX.

Definition u8 (v : Z) : Z := v mod 2 ^ 8.
Definition u16 (v : Z) : Z := v mod 2 ^ 16.
Definition u32 (v : Z) : Z := v mod 2 ^ 32.
Definition u64 (v : Z) : Z := v mod 2 ^ 64.

(** * Field update for records.  [Eta R] lists the constructor applied to the
    projections once; [r <| f := v |>] then updates one field. *)
Class Eta (R : Type) := eta : R -> R.
Class FieldUpd {R E : Type} (p : R -> E) := field_upd : (E -> E) -> R -> R.
Arguments field_upd {R E} p {_} g r /.

Ltac derive_field_upd :=
  lazymatch goal with
  | |- @FieldUpd ?R ?E ?p =>
      let inst := constr:(_ : Eta R) in
      let e := eval hnf in inst in
      lazymatch eval pattern p in e with
      | ?u _ =>
          let t := eval cbv beta in (fun (g : E -> E) => u (fun r => g (p r))) in
          exact t
      end
  end.
#[export] Hint Extern 1 (FieldUpd _) => derive_field_upd : typeclass_instances.

Notation "r <| f := v |>" := (field_upd f (fun _ => v) r)
  (at level 1, left associativity, f at level 0, v at level 99,
   format "r  <| f  :=  v |>") : fw_scope.
Notation "r <| f ::= g |>" := (field_upd f g r)
  (at level 1, left associativity, f at level 0, g at level 99,
   format "r  <| f  ::=  g |>") : fw_scope.

(** * Byte strings.  A buffer is a [list Z] of bytes, indexed by [Z]. *)
Abbreviation bytes := (list Z).
Definition is_byte (b : Z) : Prop := 0 <= b < 256.
Definition is_bytes (bs : bytes) : Prop := Forall is_byte bs.

Definition zlen {A} (l : list A) : Z := Z.of_nat (length l).
Definition znth (i : Z) (bs : bytes) : Z := nth (Z.to_nat i) bs 0.
(** The [n] bytes at [p + off]. *)
Definition slice (off n : Z) (p : bytes) : bytes :=
  take (Z.to_nat n) (drop (Z.to_nat off) p).
(** [memcpy(p + off, bs, len bs)]. *)
Definition blit (off : Z) (bs p : bytes) : bytes :=
  take (Z.to_nat off) p ++ bs ++ drop (Z.to_nat (off + zlen bs)) p.
(** [n] copies of [v]: memset. *)
Definition fill {A} (n : Z) (v : A) : list A := replicate (Z.to_nat n) v.
Definition zseq (n : Z) : list Z := seqZ 0 n.

(** Sequential writes to one buffer, in program order. *)
Definition field : Type := Z * bytes.
Fixpoint blits (fs : list field) (p : bytes) : bytes :=
  match fs with
  | [] => p
  | (off, bs) :: fs => blits fs (blit off bs p)
  end.
(** A loop [for (i...) put(p + base + k*i, es[i])]. *)
Fixpoint table (base k : Z) (es : list bytes) : list field :=
  match es with
  | [] => []
  | e :: es => (base, e) :: table (base + k) k es
  end.

(** Little- and big-endian integers. *)
Fixpoint le (n : nat) (v : Z) : bytes :=
  match n with
  | O => []
  | S n => u8 v :: le n (Z.shiftr v 8)
  end.
Fixpoint unle (bs : bytes) : Z :=
  match bs with
  | [] => 0
  | b :: bs => Z.lor b (Z.shiftl (unle bs) 8)
  end.
Definition be (n : nat) (v : Z) : bytes := rev (le n v).
Definition unbe (bs : bytes) : Z := foldl (fun v b => Z.lor (Z.shiftl v 8) b) 0 bs.

Definition put16 (off v : Z) : field := (off, le 2 v).
Definition put32 (off v : Z) : field := (off, le 4 v).
Definition put64 (off v : Z) : field := (off, le 8 v).
Definition get16 (off : Z) (p : bytes) : Z := unle (slice off 2 p).
Definition get32 (off : Z) (p : bytes) : Z := unle (slice off 4 p).
Definition get64 (off : Z) (p : bytes) : Z := unle (slice off 8 p).

(** A loop [for (i = 0; i < n; i++) x[i] = get32(p + off + 4 * i)]. *)
Fixpoint get_table (off : Z) (n : nat) (p : bytes) : list Z :=
  match n with
  | O => []
  | S n => get32 off p :: get_table (off + 4) n p
  end.

(** The accumulate-then-test comparisons the C helpers are written with. *)
Definition equal (a b : bytes) : bool :=
  foldl (fun d '(x, y) => Z.lor d (Z.lxor x y)) 0 (combine a b) =? 0.
Definition all (p : bytes) (v : Z) : bool :=
  foldl (fun d x => Z.lor d (Z.lxor x v)) 0 p =? 0.
(** [identity]: neither all 0x00 nor all 0xff. *)
(** Every byte is zero, with an early exit. *)
Definition zero (p : bytes) : bool := forallb (fun b => b =? 0) p.
Definition identity (p : bytes) : bool := negb (all p 0) && negb (all p 0xff).

(** [m & (1U << i)], for a bit index below the width of the mask. *)
Definition has_bit (m i : Z) : bool := negb (Z.land m (Z.shiftl 1 i) =? 0).
(** [x & mask] as a condition. *)
Definition any_of (x mask : Z) : bool := negb (Z.land x mask =? 0).
(** [b & ~a == 0]: every bit of [a] is in [b]. *)
Definition keeps (a b : Z) : bool := Z.land b a =? a.

(** * Pointers.  A pointer argument is [None] for NULL, otherwise an address and
    the object it designates. *)
Record obj (A : Type) := Obj { addr : Z; deref : A }.
Arguments Obj {A} _ _.
Arguments addr {A} _.
Arguments deref {A} _.
Definition ptr (A : Type) : Type := option (obj A).

(** The [overlap] helper every module of the storage stack repeats. *)
Definition overlap (a an b bn : Z) : bool :=
  (UINTPTR_MAX - a <? an) || (UINTPTR_MAX - b <? bn) || ((a <? b + bn) && (b <? a + an)).
Definition poverlap {A B} (p : ptr A) (an : Z) (q : ptr B) (bn : Z) : bool :=
  match p, q with
  | Some p, Some q => overlap (addr p) an (addr q) bn
  | _, _ => false
  end.

(** * CRC-32 (reflected, polynomial 0xedb88320), with the bytes selected by
    [skip] read as zero: the loop body of every [crc] in the storage stack. *)
Definition crc_bit (v : Z) : Z :=
  Z.lxor (Z.shiftr v 1) (Z.land (u32 (0 - Z.land v 1)) 0xedb88320).
Fixpoint iter_n {A} (n : nat) (f : A -> A) (x : A) : A :=
  match n with O => x | S n => iter_n n f (f x) end.
Definition crc_byte (v b : Z) : Z := iter_n 8 crc_bit (Z.lxor v b).
Fixpoint masked_fold (step : Z -> Z -> Z) (skip : Z -> bool) (i v : Z) (p : bytes) : Z :=
  match p with
  | [] => v
  | b :: p => masked_fold step skip (i + 1) (step v (if skip i then 0 else b)) p
  end.
Definition crc32 (skip : Z -> bool) (p : bytes) : Z :=
  Z.lxor UINT32_MAX (masked_fold crc_byte skip 0 UINT32_MAX p).

(** * Stateful code.  A computation reads and replaces a state [S]; C code that
    returns a result code is an [M S Z], [0] meaning success. *)
Definition M (S A : Type) : Type := S -> A * S.
Definition ret {S A} (a : A) : M S A := fun s => (a, s).
Definition bind {S A B} (m : M S A) (k : A -> M S B) : M S B :=
  fun s => let '(a, s) := m s in k a s.
Definition get {S} : M S S := fun s => (s, s).
Definition upd {S} (f : S -> S) : M S unit := fun s => (tt, f s).
(** [rc = m; if (rc) return rc; k] *)
Definition on_ok {S} (m k : M S Z) : M S Z :=
  bind m (fun rc => if rc =? 0 then k else ret rc).
Notation "'do' x <- m ; k" := (bind m (fun x => k))
  (at level 100, x name, m at level 99, k at level 100, right associativity) : fw_scope.
Notation "'run' m ; k" := (bind m (fun _ => k))
  (at level 100, m at level 99, k at level 100, right associativity) : fw_scope.
Notation "'try' m ; k" := (on_ok m k)
  (at level 100, m at level 99, k at level 100, right associativity) : fw_scope.

(** * Lengths *)
Lemma bind_run {S A B} (m : M S A) (k : A -> M S B) s a s' : m s = (a, s') -> bind m k s = k a s'.
Proof. unfold bind. by intros ->. Qed.

Lemma bind_bind {S A B C} (m : M S A) (k : A -> M S B) (h : B -> M S C) s :
  bind (bind m k) h s = bind m (fun a => bind (k a) h) s.
Proof. unfold bind. by destruct (m s). Qed.

Create Rewrite HintDb zlen.

Lemma zlen_nonneg {A} (l : list A) : 0 <= zlen l.
Proof. unfold zlen; lia. Qed.

Lemma zlen_nil {A} : zlen (@nil A) = 0.
Proof. done. Qed.

Lemma zlen_cons {A} (x : A) l : zlen (x :: l) = zlen l + 1.
Proof. unfold zlen; simpl; lia. Qed.

Lemma zlen_app {A} (l k : list A) : zlen (l ++ k) = zlen l + zlen k.
Proof. unfold zlen; rewrite length_app; lia. Qed.

Lemma zlen_fill {A} n (v : A) : 0 <= n -> zlen (fill n v) = n.
Proof. intros; unfold zlen, fill; rewrite length_replicate; lia. Qed.

Lemma zlen_slice off n p :
  0 <= off -> 0 <= n -> off + n <= zlen p -> zlen (slice off n p) = n.
Proof. unfold zlen, slice; rewrite length_take, length_drop; lia. Qed.

Lemma zlen_blit off bs p :
  0 <= off -> off + zlen bs <= zlen p -> zlen (blit off bs p) = zlen p.
Proof.
  unfold blit; rewrite !zlen_app; unfold zlen; rewrite length_take, length_drop; lia.
Qed.

Lemma zlen_le n v : zlen (le n v) = Z.of_nat n.
Proof.
  unfold zlen; f_equal; revert v; induction n as [|n IH]; intros; [done|].
  change (le (S n) v) with (u8 v :: le n (Z.shiftr v 8)). simpl. by rewrite IH.
Qed.

Lemma zlen_be n v : zlen (be n v) = Z.of_nat n.
Proof. unfold be, zlen; rewrite length_rev. apply zlen_le. Qed.

Lemma zlen_zseq n : 0 <= n -> zlen (zseq n) = n.
Proof. intros; unfold zlen, zseq; rewrite length_seqZ; lia. Qed.

Lemma zlen_map {A B} (f : A -> B) l : zlen (map f l) = zlen l.
Proof. unfold zlen; by rewrite length_map. Qed.

#[export] Hint Rewrite @zlen_nil @zlen_cons @zlen_app zlen_le zlen_be @zlen_map : zlen.
#[export] Hint Rewrite @zlen_fill zlen_zseq zlen_slice zlen_blit using lia : zlen.

(** [lia] with division and remainder by constants. *)
Ltac divlia := Z.to_euclidean_division_equations; lia.

(** Solves goals about lengths, offsets and bounds. *)
Ltac zlia := unfold put16, put32, put64 in *; simpl fst in *; simpl snd in *;
  autorewrite with zlen in *; try lia.

(** * Reading what was written *)
Lemma slice_all p : slice 0 (zlen p) p = p.
Proof. unfold slice, zlen. rewrite Nat2Z.id, drop_0. apply take_ge. lia. Qed.

Lemma slice_all' n p : zlen p = n -> slice 0 n p = p.
Proof. intros <-; apply slice_all. Qed.

Lemma slice_slice a n b m p :
  0 <= a -> 0 <= b -> 0 <= m -> b + m <= n ->
  slice b m (slice a n p) = slice (a + b) m p.
Proof.
  intros. unfold slice.
  rewrite skipn_firstn_comm, take_take, drop_drop. f_equal; [lia|]. f_equal; lia.
Qed.

(** Folds constant offsets after nested slices have been merged. *)
Ltac norm_offsets :=
  repeat match goal with
  | |- context [slice (?a + ?b) ?n ?p] =>
      let c := eval vm_compute in (a + b) in change (slice (a + b) n p) with (slice c n p)
  end.

Lemma get_slice a n o k p :
  0 <= a -> 0 <= o -> 0 <= k -> o + k <= n ->
  unle (slice o k (slice a n p)) = unle (slice (a + o) k p).
Proof. intros. by rewrite slice_slice by lia. Qed.

Lemma znth_slice i v p : slice i 1 p = [v] -> znth i p = v.
Proof.
  unfold slice, znth. change (Z.to_nat 1) with 1%nat. intros H.
  rewrite <- (take_drop (Z.to_nat i) p), app_nth2 by (rewrite length_take; lia).
  rewrite length_take. destruct (drop (Z.to_nat i) p) as [|x l] eqn:E; [done|].
  simpl in H. injection H as <-.
  assert (Z.to_nat i < length p)%nat by (apply (f_equal length) in E; rewrite length_drop in E; simpl in E; lia).
  by replace (Z.to_nat i - Z.to_nat i `min` length p)%nat with O by lia.
Qed.

Lemma slice_app_l off n p q :
  0 <= off -> 0 <= n -> off + n <= zlen p -> slice off n (p ++ q) = slice off n p.
Proof.
  intros ? ? H. unfold slice, zlen in *.
  rewrite drop_app_le by lia. rewrite take_app_le; [done|]. rewrite length_drop; lia.
Qed.

Lemma slice_app_r off n p q :
  zlen p <= off -> slice off n (p ++ q) = slice (off - zlen p) n q.
Proof.
  intros H. unfold slice, zlen in *. rewrite drop_app_ge by lia. do 2 f_equal. lia.
Qed.

Lemma slice_blit_same off bs p :
  0 <= off -> off + zlen bs <= zlen p -> slice off (zlen bs) (blit off bs p) = bs.
Proof.
  intros. unfold blit. rewrite slice_app_r by (unfold zlen in *; rewrite length_take; lia).
  replace (off - _) with 0 by (unfold zlen in *; rewrite length_take; lia).
  rewrite slice_app_l by (pose proof (zlen_nonneg bs); lia). apply slice_all.
Qed.

Lemma slice_blit_sub off bs p o n :
  0 <= off -> off + zlen bs <= zlen p -> off <= o -> 0 <= n -> o + n <= off + zlen bs ->
  slice o n (blit off bs p) = slice (o - off) n bs.
Proof.
  intros. rewrite <- (slice_blit_same off bs p) at 2 by lia.
  rewrite slice_slice by lia. f_equal; lia.
Qed.

Lemma slice_blit_disj off bs p o n :
  0 <= off -> off + zlen bs <= zlen p -> 0 <= o -> 0 <= n ->
  o + n <= off \/ off + zlen bs <= o ->
  slice o n (blit off bs p) = slice o n p.
Proof.
  intros ? ? ? ? Hd. pose proof (zlen_nonneg bs) as Hb.
  assert (Hl : zlen (take (Z.to_nat off) p) = off) by (unfold zlen in *; rewrite length_take; lia).
  unfold blit. destruct Hd.
  - rewrite slice_app_l by lia. unfold slice. rewrite skipn_firstn_comm, take_take. f_equal. lia.
  - rewrite slice_app_r, Hl by lia. rewrite slice_app_r by lia.
    unfold slice. rewrite drop_drop. do 2 f_equal. lia.
Qed.

Lemma lookup_fill {A} n (v : A) i : (i < Z.to_nat n)%nat -> fill n v !! i = Some v.
Proof. apply lookup_replicate_2. Qed.

Lemma slice_fill n (v : Z) o m :
  0 <= o -> 0 <= m -> o + m <= n -> slice o m (fill n v) = fill m v.
Proof.
  intros. unfold slice, fill. rewrite drop_replicate, take_replicate. f_equal. lia.
Qed.

Lemma slice_split off a b p :
  0 <= off -> 0 <= a -> 0 <= b -> slice off (a + b) p = slice off a p ++ slice (off + a) b p.
Proof.
  intros. unfold slice. rewrite Z2Nat.inj_add, <- take_take_drop by lia.
  rewrite drop_drop. do 3 f_equal. lia.
Qed.

Lemma slice_blit_in off bs p n :
  0 <= off -> off + zlen bs <= n -> n <= zlen p ->
  slice 0 n (blit off bs p) = blit off bs (slice 0 n p).
Proof.
  intros. pose proof (zlen_nonneg bs). unfold blit, slice.
  rewrite !drop_0, take_take.
  rewrite !take_app, length_take, (Nat.min_l _ (Z.to_nat n)) by lia.
  rewrite take_take, Nat.min_r by (unfold zlen in *; lia).
  f_equal. unfold zlen in *. rewrite (take_ge bs) by lia. f_equal.
  rewrite skipn_firstn_comm. f_equal. lia.
Qed.

(** ** Several writes: which one a read sees.  [trace] follows a read of
    [(o, n)] through the shape of the writes, by computation. *)
Inductive src := SBase | SField (i : nat) | SMixed.

Fixpoint trace (o n : Z) (shape : list (Z * Z)) (i : nat) (acc : src) : src :=
  match shape with
  | [] => acc
  | (a, k) :: shape =>
      trace o n shape (S i)
        (if (o + n <=? a) || (a + k <=? o) then acc
         else if (a <=? o) && (o + n <=? a + k) then SField i else SMixed)
  end.

Definition shape_of (fs : list field) : list (Z * Z) := map (fun '(o, bs) => (o, zlen bs)) fs.
Definition fits (len : Z) (shape : list (Z * Z)) : bool :=
  forallb (fun '(o, k) => (0 <=? o) && (0 <=? k) && (o + k <=? len)) shape.

Lemma zlen_blits fs p : fits (zlen p) (shape_of fs) = true -> zlen (blits fs p) = zlen p.
Proof.
  revert p; induction fs as [|[o bs] fs IH]; intros p; simpl; [done|].
  rewrite !andb_true_iff, !Z.leb_le. intros [[[? ?] ?] Hf].
  rewrite IH by (by rewrite zlen_blit by lia). by rewrite zlen_blit by lia.
Qed.

Lemma zlen_blits_take k fs p sh :
  shape_of fs = sh -> fits (zlen p) sh = true -> zlen (blits (take k fs) p) = zlen p.
Proof.
  intros <- Hf. apply zlen_blits. unfold shape_of, fits in *. rewrite <- firstn_map.
  rewrite <- (take_drop k (map _ fs)), forallb_app in Hf. by apply andb_true_iff in Hf as [? _].
Qed.

Lemma shape_of_take k fs : shape_of (take k fs) = take k (shape_of fs).
Proof. unfold shape_of. by rewrite firstn_map. Qed.

Definition disjoint_from (o n : Z) (f : field) : Prop := o + n <= fst f \/ fst f + zlen (snd f) <= o.

Lemma fits_spec len fs :
  fits len (shape_of fs) = true <-> Forall (fun f => 0 <= fst f /\ fst f + zlen (snd f) <= len) fs.
Proof.
  induction fs as [|[o bs] fs IH]; [by split; [constructor|]|].
  rewrite Forall_cons, <- IH. cbn [shape_of map fits forallb fst snd].
  rewrite !andb_true_iff, !Z.leb_le. pose proof (zlen_nonneg bs). tauto.
Qed.

Lemma slice_blits_disjoint fs p o n :
  fits (zlen p) (shape_of fs) = true -> 0 <= o -> 0 <= n -> Forall (disjoint_from o n) fs ->
  slice o n (blits fs p) = slice o n p.
Proof.
  rewrite fits_spec. intros Hf Ho Hn Hd. revert p Hf. induction Hd as [|[a bs] fs Ha Hd IH]; intros p Hf; [done|].
  apply Forall_cons in Hf as [[? ?] Hf]. unfold disjoint_from in Ha. cbn [fst snd] in *.
  change (blits ((a, bs) :: fs) p) with (blits fs (blit a bs p)).
  rewrite IH; [by apply slice_blit_disj; lia|]. by rewrite zlen_blit by lia.
Qed.

Definition seen (o n : Z) (p : bytes) (whole : list field) (s : src) (q : bytes) : Prop :=
  match s with
  | SBase => slice o n q = slice o n p
  | SField i => exists off bs, whole !! i = Some (off, bs) /\ slice o n q = slice (o - off) n bs
  | SMixed => True
  end.

Lemma trace_seen o n p whole pre fs acc q :
  whole = pre ++ fs -> 0 <= o -> 0 <= n -> fits (zlen q) (shape_of fs) = true ->
  seen o n p whole acc q ->
  seen o n p whole (trace o n (shape_of fs) (length pre) acc) (blits fs q).
Proof.
  revert pre acc q; induction fs as [|[a bs] fs IH]; intros pre acc q -> Ho Hn; simpl; [done|].
  rewrite !andb_true_iff, !Z.leb_le. intros [[[? ?] ?] Hf] Hs.
  replace (S (length pre)) with (length (pre ++ [(a, bs)])) by (rewrite length_app; simpl; lia).
  apply IH; [by rewrite <- app_assoc|done|done| |].
  { by rewrite zlen_blit by lia. }
  destruct (_ || _) eqn:Hd; [|destruct (_ && _) eqn:Hc; [|done]].
  - rewrite orb_true_iff, !Z.leb_le in Hd.
    destruct acc as [|i|]; simpl in *; [| |done].
    + by rewrite slice_blit_disj by lia.
    + destruct Hs as (off & b & ? & ?). exists off, b. by rewrite slice_blit_disj by lia.
  - rewrite andb_true_iff, !Z.leb_le in Hc. simpl. exists a, bs. split.
    + by rewrite lookup_app_r, Nat.sub_diag by done.
    + by rewrite slice_blit_sub by lia.
Qed.

Lemma blits_read_field fs p sh len o n i off bs :
  shape_of fs = sh -> zlen p = len -> fits len sh = true -> 0 <= o -> 0 <= n ->
  trace o n sh 0 SBase = SField i -> fs !! i = Some (off, bs) ->
  slice o n (blits fs p) = slice (o - off) n bs.
Proof.
  intros <- <- Hf Ho Hn Ht Hi.
  pose proof (trace_seen o n p fs [] fs SBase p eq_refl Ho Hn Hf eq_refl) as Hs.
  simpl in Hs. rewrite Ht in Hs. destruct Hs as (? & ? & Hi' & ->). congruence.
Qed.

Lemma blits_read_base fs p sh len o n :
  shape_of fs = sh -> zlen p = len -> fits len sh = true -> 0 <= o -> 0 <= n ->
  trace o n sh 0 SBase = SBase ->
  slice o n (blits fs p) = slice o n p.
Proof.
  intros <- <- Hf Ho Hn Ht.
  pose proof (trace_seen o n p fs [] fs SBase p eq_refl Ho Hn Hf eq_refl) as Hs.
  simpl in Hs. by rewrite Ht in Hs.
Qed.

Lemma blits_cons o bs fs p : blits ((o, bs) :: fs) p = blits fs (blit o bs p).
Proof. done. Qed.

Lemma blits_nil p : blits [] p = p.
Proof. done. Qed.

Lemma blits_app fs gs p : blits (fs ++ gs) p = blits gs (blits fs p).
Proof. revert p; induction fs as [|[o bs] fs IH]; intros; simpl; auto. Qed.

(** A loop of equally sized consecutive writes is one write. *)
Lemma blit_app off a b p :
  0 <= off -> off + zlen a + zlen b <= zlen p ->
  blit (off + zlen a) b (blit off a p) = blit off (a ++ b) p.
Proof.
  intros. pose proof (zlen_nonneg a). pose proof (zlen_nonneg b).
  unfold blit at 1 3.
  assert (slice 0 (off + zlen a) (blit off a p) = take (Z.to_nat off) p ++ a) as Hl.
  { rewrite slice_split by lia. f_equal; [|by rewrite slice_blit_same by lia].
    rewrite slice_blit_disj by lia. unfold slice. by rewrite drop_0. }
  unfold slice in Hl. rewrite drop_0 in Hl. rewrite Hl, <- !app_assoc.
  do 3 f_equal. unfold blit. rewrite zlen_app, !drop_app.
  unfold zlen in *. rewrite length_take. rewrite !(drop_ge (take _ _)) by (rewrite length_take; lia).
  rewrite (drop_ge a) by lia. simpl. rewrite drop_drop. f_equal. lia.
Qed.

Lemma blits_table base k es p :
  0 <= base -> Forall (fun e => zlen e = k) es -> base + k * zlen es <= zlen p ->
  blits (table base k es) p = match es with [] => p | _ => blit base (concat es) p end.
Proof.
  intros Hb Hk. revert base p Hb. induction Hk as [|e es He Hes IH]; intros base p Hb Hl; [done|].
  simpl. pose proof (zlen_nonneg e). pose proof (zlen_nonneg es). rewrite zlen_cons in Hl.
  rewrite IH; [|lia|rewrite zlen_blit; nia].
  destruct es as [|e' es']; [simpl; by rewrite app_nil_r|].
  assert (Hc : zlen (concat (e' :: es')) = k * zlen (e' :: es')).
  { clear -Hes. induction Hes; simpl; [unfold zlen; simpl; lia|]. rewrite zlen_app, zlen_cons. lia. }
  rewrite <- He at 1. apply blit_app; nia.
Qed.

(** Two buffers that agree on a list of regions tiling them are equal. *)
Fixpoint tiles (at_ : Z) (regions : list (Z * Z)) : option Z :=
  match regions with
  | [] => Some at_
  | (o, n) :: regions => if (o =? at_) && (0 <=? n) then tiles (at_ + n) regions else None
  end.

Lemma bytes_ext_tiles regions len a b :
  tiles 0 regions = Some len -> zlen a = len -> zlen b = len ->
  Forall (fun '(o, n) => slice o n a = slice o n b) regions -> a = b.
Proof.
  intros Ht Ha Hb Hf.
  enough (forall at_, 0 <= at_ -> tiles at_ regions = Some len ->
            at_ <= len /\ slice at_ (len - at_) a = slice at_ (len - at_) b) as H.
  { destruct (H 0 ltac:(lia) Ht) as [_ E]. rewrite Z.sub_0_r in E.
    by rewrite <- (slice_all' len a), <- (slice_all' len b). }
  clear Ht. induction Hf as [|[o n] regions Hon Hf IH]; simpl; intros at_ Hat Ht.
  - injection Ht as ->. split; [lia|]. by rewrite Z.sub_diag.
  - destruct (_ && _) eqn:Hc; [|done]. rewrite andb_true_iff, Z.eqb_eq, Z.leb_le in Hc.
    destruct Hc as [-> Hn]. destruct (IH (at_ + n) ltac:(lia) Ht) as [? E]. split; [lia|].
    replace (len - at_) with (n + (len - (at_ + n))) by lia.
    rewrite !slice_split by lia. by rewrite Hon, E.
Qed.

(** * Integers and their encodings *)
Lemma u8_range v : is_byte (u8 v).
Proof. apply Z.mod_pos_bound; lia. Qed.

Lemma lor_shiftl8 b v : is_byte b -> Z.lor b (Z.shiftl v 8) = b + 256 * v.
Proof.
  intros Hb. assert (Hl : Z.land b (Z.shiftl v 8) = 0).
  { apply Z.bits_inj'; intros i Hi. rewrite Z.land_spec, Z.bits_0.
    destruct (Z.ltb_spec i 8).
    - rewrite (Z.shiftl_spec_low v 8 i) by lia. apply andb_false_r.
    - rewrite <- (Z.mod_small b (2 ^ 8)) by exact Hb. by rewrite Z.mod_pow2_bits_high by lia. }
  rewrite <- (Z.add_nocarry_lor _ _ Hl), Z.shiftl_mul_pow2 by lia. lia.
Qed.

Lemma le_is_bytes n v : is_bytes (le n v).
Proof. revert v; induction n as [|n IH]; intros; simpl; constructor; [apply u8_range|apply IH]. Qed.

Lemma unle_le n v : unle (le n v) = v mod 2 ^ (8 * Z.of_nat n).
Proof.
  revert v; induction n as [|n IH]; intros v; simpl unle; [by rewrite Z.mod_1_r|].
  rewrite lor_shiftl8, IH by apply u8_range.
  rewrite Z.shiftr_div_pow2 by lia. unfold u8.
  replace (8 * Z.of_nat (S n)) with (8 + 8 * Z.of_nat n) by lia.
  rewrite Z.pow_add_r, Z.rem_mul_r by lia. lia.
Qed.

Lemma unle_range bs : is_bytes bs -> 0 <= unle bs < 2 ^ (8 * zlen bs).
Proof.
  induction 1 as [|b bs Hb Hbs IH]; simpl; [done|].
  rewrite lor_shiftl8, zlen_cons by done. pose proof (zlen_nonneg bs).
  replace (8 * (zlen bs + 1)) with (8 + 8 * zlen bs) by lia.
  rewrite Z.pow_add_r by lia. unfold is_byte in Hb. lia.
Qed.

Lemma le_unle bs : is_bytes bs -> le (length bs) (unle bs) = bs.
Proof.
  induction 1 as [|b bs Hb Hbs IH]; simpl; [done|].
  rewrite lor_shiftl8 by done. unfold is_byte in Hb. f_equal.
  - unfold u8. rewrite Z.mul_comm, Z.mod_add by done. by apply Z.mod_small.
  - rewrite Z.shiftr_div_pow2 by lia. change (2 ^ 8) with 256.
    rewrite Z.mul_comm, Z.div_add, Z.div_small by lia. by rewrite Z.add_0_l.
Qed.

Lemma unbe_rev bs : unbe (rev bs) = foldr (fun b v => Z.lor (Z.shiftl v 8) b) 0 bs.
Proof.
  unfold unbe. induction bs as [|b bs IH]; [done|].
  simpl. rewrite foldl_app. simpl. by rewrite IH.
Qed.

Lemma unbe_be n v : unbe (be n v) = v mod 2 ^ (8 * Z.of_nat n).
Proof.
  unfold be. rewrite unbe_rev, <- unle_le. generalize (le n v) as bs.
  induction bs as [|b bs IH]; simpl; [done|]. by rewrite IH, Z.lor_comm.
Qed.

Lemma le_inj n v w :
  0 <= v < 2 ^ (8 * Z.of_nat n) -> 0 <= w < 2 ^ (8 * Z.of_nat n) -> le n v = le n w -> v = w.
Proof. intros ? ? E. apply (f_equal unle) in E. by rewrite !unle_le, !Z.mod_small in E. Qed.

Lemma testbit_above v n i : 0 <= v < 2 ^ n -> 0 <= n <= i -> Z.testbit v i = false.
Proof. intros Hv Hi. rewrite <- (Z.mod_small v (2 ^ n)) by lia. by apply Z.mod_pow2_bits_high. Qed.

Lemma lxor_range a b n : 0 <= n -> 0 <= a < 2 ^ n -> 0 <= b < 2 ^ n -> 0 <= Z.lxor a b < 2 ^ n.
Proof.
  intros Hn Ha Hb.
  assert (Z.lxor a b = Z.lxor a b mod 2 ^ n) as ->; [|apply Z.mod_pos_bound; lia].
  apply Z.bits_inj'; intros i Hi. destruct (Z.ltb_spec i n).
  - by rewrite Z.mod_pow2_bits_low by lia.
  - rewrite Z.mod_pow2_bits_high, Z.lxor_spec by lia. by rewrite !(testbit_above _ n) by lia.
Qed.

Lemma land_range a b n : 0 <= n -> 0 <= b < 2 ^ n -> 0 <= Z.land a b < 2 ^ n.
Proof.
  intros Hn Hb. rewrite <- (Z.mod_small b (2 ^ n)) by lia.
  rewrite <- !Z.land_ones, Z.land_assoc, Z.land_ones by lia. apply Z.mod_pos_bound; lia.
Qed.

Lemma land_63 v : Z.land v 63 = v mod 64.
Proof. change 63 with (Z.ones 6). by rewrite Z.land_ones by lia. Qed.

Lemma shiftr_6 v : Z.shiftr v 6 = v / 64.
Proof. by rewrite Z.shiftr_div_pow2 by lia. Qed.

Lemma u32_small v : 0 <= v < 2 ^ 32 -> u32 v = v.
Proof. apply Z.mod_small. Qed.

Lemma u64_small v : 0 <= v < 2 ^ 64 -> u64 v = v.
Proof. apply Z.mod_small. Qed.

Lemma has_bit_testbit m i : 0 <= i -> has_bit m i = Z.testbit m i.
Proof.
  intros Hi. unfold has_bit. destruct (Z.testbit m i) eqn:E.
  - apply negb_true_iff, Z.eqb_neq. intros H. apply (f_equal (fun v => Z.testbit v i)) in H.
    rewrite Z.land_spec, E, Z.shiftl_spec, Z.sub_diag, Z.bits_0 in H by lia. done.
  - apply negb_false_iff, Z.eqb_eq, Z.bits_inj'. intros k Hk.
    rewrite Z.land_spec, Z.bits_0, Z.shiftl_spec by lia.
    destruct (decide (k = i)) as [->|]; [by rewrite E|].
    destruct (Z.ltb_spec k i); [by rewrite (Z.testbit_neg_r 1 (k - i)), andb_false_r by lia|].
    replace (Z.testbit 1 (k - i)) with false; [apply andb_false_r|].
    symmetry. apply (testbit_above 1 1); lia.
Qed.

Lemma land_lxor a b m : Z.land (Z.lxor a b) m = 0 <-> Z.land a m = Z.land b m.
Proof.
  assert (Z.land (Z.lxor a b) m = Z.lxor (Z.land a m) (Z.land b m)) as ->;
    [|split; intros H; [by apply Z.lxor_eq|rewrite H; apply Z.lxor_nilpotent]].
  apply Z.bits_inj'; intros i _. rewrite Z.lxor_spec, !Z.land_spec, Z.lxor_spec.
  by destruct (Z.testbit a i), (Z.testbit b i), (Z.testbit m i).
Qed.

Lemma keeps_spec a b : keeps a b = true <-> Z.land b a = a.
Proof. apply Z.eqb_eq. Qed.

Lemma keeps_refl a : keeps a a = true.
Proof. apply keeps_spec, Z.land_diag. Qed.

Lemma keeps_trans a b c : keeps a b = true -> keeps b c = true -> keeps a c = true.
Proof. rewrite !keeps_spec. intros H1 H2. by rewrite <- H1, Z.land_assoc, H2. Qed.

(** * The accumulate-then-test comparisons *)
Lemma foldl_lor_0 {A} (f : A -> Z) d l :
  foldl (fun d x => Z.lor d (f x)) d l = 0 <-> d = 0 /\ Forall (fun x => f x = 0) l.
Proof.
  revert d; induction l as [|x l IH]; intros d; simpl.
  - rewrite Forall_nil. tauto.
  - rewrite IH, Z.lor_eq_0_iff, Forall_cons. tauto.
Qed.

Lemma all_spec p v : all p v = true <-> p = fill (zlen p) v.
Proof.
  unfold all. rewrite Z.eqb_eq, (foldl_lor_0 (fun x => Z.lxor x v)).
  unfold fill, zlen. rewrite Nat2Z.id. split.
  - intros [_ H]. induction H as [|x p Hx Hp IH]; simpl; [done|].
    apply Z.lxor_eq in Hx. by rewrite Hx, <- IH.
  - intros H. split; [done|]. rewrite H. apply Forall_replicate. apply Z.lxor_nilpotent.
Qed.

Lemma zero_spec p : zero p = true <-> p = fill (zlen p) 0.
Proof.
  unfold zero, fill, zlen. rewrite Nat2Z.id. induction p as [|b p IH]; simpl; [done|].
  rewrite andb_true_iff, IH, Z.eqb_eq. split; [intros [-> E]; by rewrite <- E|by intros [= -> E]].
Qed.

Lemma identity_not_zero p : identity p = true -> zero p = false.
Proof.
  unfold identity. rewrite andb_true_iff, !negb_true_iff. intros [H _].
  apply not_true_iff_false. rewrite zero_spec. intros E. by rewrite (proj2 (all_spec p 0) E) in H.
Qed.

Lemma equal_spec a b : zlen a = zlen b -> equal a b = true <-> a = b.
Proof.
  unfold equal, zlen. intros Hl. rewrite Z.eqb_eq.
  assert (Hf : forall d l, foldl (fun d '(x, y) => Z.lor d (Z.lxor x y)) d l =
                           foldl (fun d xy => Z.lor d (Z.lxor xy.1 xy.2)) d l).
  { intros d l. revert d. induction l as [|[] l IH]; intros; simpl; auto. }
  rewrite Hf, (foldl_lor_0 (fun xy : Z * Z => Z.lxor xy.1 xy.2)). clear Hf. split.
  - intros [_ H]. revert b Hl H. induction a as [|x a IH]; intros [|y b]; simpl; try done.
    rewrite Forall_cons. simpl. intros ? [E%Z.lxor_eq ?]. f_equal; [done|]. apply IH; [lia|done].
  - intros ->. split; [done|]. clear. induction b; simpl; constructor; simpl; [apply Z.lxor_nilpotent|done].
Qed.

Lemma equal_refl a : equal a a = true.
Proof. by apply equal_spec. Qed.

Lemma all_fill n v : all (fill n v) v = true.
Proof. apply all_spec. unfold fill, zlen. by rewrite length_replicate, Nat2Z.id. Qed.

Lemma fill_1 (v : Z) : fill 1 v = [v].
Proof. done. Qed.

Lemma all_slice n v p : zlen p = n -> all p v = true -> p = fill n v.
Proof. intros <-. apply all_spec. Qed.

(** * CRC *)
Lemma crc_bit_range v : 0 <= v < 2 ^ 32 -> 0 <= crc_bit v < 2 ^ 32.
Proof.
  intros. apply lxor_range; [done| |by apply land_range].
  rewrite Z.shiftr_div_pow2 by lia. divlia.
Qed.

Lemma crc_byte_range v b : 0 <= v < 2 ^ 32 -> is_byte b -> 0 <= crc_byte v b < 2 ^ 32.
Proof.
  unfold is_byte. intros. unfold crc_byte.
  assert (H' : 0 <= Z.lxor v b < 2 ^ 32) by (apply lxor_range; lia).
  revert H'. generalize (Z.lxor v b), 8%nat. intros w n. revert w.
  induction n as [|n IH]; simpl; auto using crc_bit_range.
Qed.

Lemma crc32_range skip p : is_bytes p -> 0 <= crc32 skip p < 2 ^ 32.
Proof.
  intros Hp. apply lxor_range; [lia|done|].
  enough (forall i v, 0 <= v < 2 ^ 32 -> 0 <= masked_fold crc_byte skip i v p < 2 ^ 32) as H by by apply H.
  induction Hp as [|b p Hb Hp IH]; intros i v Hv; simpl; [done|].
  apply IH. apply crc_byte_range; [done|]. destruct (skip i); [done|exact Hb].
Qed.

(** The CRC does not see the bytes it skips. *)
Lemma masked_fold_ext step skip i v p q :
  zlen p = zlen q ->
  (forall k, 0 <= k < zlen p -> skip (i + k) = false -> znth k p = znth k q) ->
  masked_fold step skip i v p = masked_fold step skip i v q.
Proof.
  revert i v q; induction p as [|a p IH]; intros i v [|b q] Hl H;
    [done|unfold zlen in Hl; simpl in Hl; lia..|].
  rewrite !zlen_cons in *. simpl. pose proof (zlen_nonneg p).
  assert ((if skip i then 0 else a) = (if skip i then 0 else b)) as ->.
  { destruct (skip i) eqn:E; [done|]. apply (H 0); [lia|]. by rewrite Z.add_0_r. }
  apply IH; [lia|]. intros k Hk Hs. specialize (H (k + 1)).
  unfold znth in *. rewrite !Z2Nat.inj_add, !Nat.add_1_r in H by lia. apply H; [lia|].
  by replace (i + (k + 1)) with (i + 1 + k) by lia.
Qed.

Lemma znth_blit_disj off bs p k :
  0 <= off -> off + zlen bs <= zlen p -> 0 <= k < off \/ off + zlen bs <= k ->
  znth k (blit off bs p) = znth k p.
Proof.
  intros ? ? Hk. pose proof (zlen_nonneg bs). unfold znth, blit, zlen in *.
  destruct Hk.
  - rewrite app_nth1 by (rewrite length_take; lia).
    rewrite <- (take_drop (Z.to_nat off) p) at 2. by rewrite app_nth1 by (rewrite length_take; lia).
  - rewrite app_nth2 by (rewrite length_take; lia). rewrite app_nth2 by (rewrite length_take; lia).
    rewrite length_take. rewrite nth_skipn. f_equal. lia.
Qed.

Lemma crc32_blit_skipped skip off bs p :
  0 <= off -> off + zlen bs <= zlen p ->
  (forall i, off <= i < off + zlen bs -> skip i = true) ->
  crc32 skip (blit off bs p) = crc32 skip p.
Proof.
  intros ? ? Hs. unfold crc32. f_equal. apply masked_fold_ext.
  { by rewrite zlen_blit by lia. }
  intros k Hk E. rewrite zlen_blit in Hk by lia. apply znth_blit_disj; [lia|lia|].
  destruct (Z.ltb_spec k off); [lia|]. destruct (Z.leb_spec (off + zlen bs) k); [lia|].
  rewrite Hs in E by lia. done.
Qed.

Lemma masked_fold_app step skip i v p q :
  masked_fold step skip i v (p ++ q) = masked_fold step skip (i + zlen p) (masked_fold step skip i v p) q.
Proof.
  revert i v; induction p as [|b p IH]; intros i v; simpl; [by rewrite zlen_nil, Z.add_0_r|].
  rewrite IH, zlen_cons. f_equal. lia.
Qed.

(** Two buffers have the same CRC when every region of a tiling agrees or is skipped. *)
Lemma crc32_agree skip regions len a b :
  tiles 0 regions = Some len -> zlen a = len -> zlen b = len ->
  Forall (fun '(o, n) => slice o n a = slice o n b \/ (forall i, o <= i < o + n -> skip i = true)) regions ->
  crc32 skip a = crc32 skip b.
Proof.
  intros Ht Ha Hb Hf. unfold crc32. f_equal. generalize UINT32_MAX. intros v.
  enough (forall at_ v, 0 <= at_ -> tiles at_ regions = Some len -> at_ <= len /\
            masked_fold crc_byte skip at_ v (slice at_ (len - at_) a) =
            masked_fold crc_byte skip at_ v (slice at_ (len - at_) b)) as H.
  { destruct (H 0 v ltac:(lia) Ht) as [_ E]. rewrite Z.sub_0_r in E.
    by rewrite (slice_all' len a), (slice_all' len b) in E. }
  clear Ht v. induction Hf as [|[o n] regions Hon Hf IH]; simpl; intros at_ v Hat Ht.
  - injection Ht as ->. split; [lia|]. by rewrite Z.sub_diag.
  - destruct (_ && _) eqn:Hc; [|done]. rewrite andb_true_iff, Z.eqb_eq, Z.leb_le in Hc.
    destruct Hc as [-> Hn].
    destruct (IH (at_ + n) 0 ltac:(lia) Ht) as [? _]. split; [lia|].
    replace (len - at_) with (n + (len - (at_ + n))) by lia.
    rewrite !slice_split, !masked_fold_app, !zlen_slice by lia.
    replace (masked_fold crc_byte skip at_ v (slice at_ n b)) with (masked_fold crc_byte skip at_ v (slice at_ n a)).
    { by apply IH; [lia|]. }
    apply masked_fold_ext; [by rewrite !zlen_slice by lia|].
    intros k Hk Hs. rewrite zlen_slice in Hk by lia. destruct Hon as [->|Hskip]; [done|].
    rewrite Hskip in Hs by lia. done.
Qed.

(** * Reading a field back from a sequence of writes.  Each premise but the last
    is solved by computation on the shape of the writes. *)
Section read_back.
Context (fs : list field) (p : bytes) (sh : list (Z * Z)) (len : Z).
Context (Hsh : shape_of fs = sh) (Hlen : zlen p = len) (Hfit : fits len sh = true).

Lemma slice_blits o n i bs :
  0 <= o -> trace o n sh 0 SBase = SField i -> fs !! i = Some (o, bs) -> zlen bs = n ->
  slice o n (blits fs p) = bs.
Proof using All.
  intros Ho Ht Hi <-. pose proof (zlen_nonneg bs).
  erewrite blits_read_field by eauto. rewrite Z.sub_diag. apply slice_all.
Qed.

Lemma slice_blits_sub o n i off bs :
  0 <= o -> 0 <= n -> trace o n sh 0 SBase = SField i -> fs !! i = Some (off, bs) ->
  slice o n (blits fs p) = slice (o - off) n bs.
Proof using All. intros. by eapply blits_read_field. Qed.

Lemma get16_blits o i v :
  0 <= o -> trace o 2 sh 0 SBase = SField i -> fs !! i = Some (put16 o v) ->
  0 <= v < 2 ^ 16 -> get16 o (blits fs p) = v.
Proof using All.
  intros Ho Ht Hi Hv. unfold get16. rewrite (slice_blits o 2 i (le 2 v)) by done.
  rewrite unle_le. by apply Z.mod_small.
Qed.

Lemma get32_blits o i v :
  0 <= o -> trace o 4 sh 0 SBase = SField i -> fs !! i = Some (put32 o v) ->
  0 <= v < 2 ^ 32 -> get32 o (blits fs p) = v.
Proof using All.
  intros Ho Ht Hi Hv. unfold get32. rewrite (slice_blits o 4 i (le 4 v)) by done.
  rewrite unle_le. by apply Z.mod_small.
Qed.

Lemma get64_blits o i v :
  0 <= o -> trace o 8 sh 0 SBase = SField i -> fs !! i = Some (put64 o v) ->
  0 <= v < 2 ^ 64 -> get64 o (blits fs p) = v.
Proof using All.
  intros Ho Ht Hi Hv. unfold get64. rewrite (slice_blits o 8 i (le 8 v)) by done.
  rewrite unle_le. by apply Z.mod_small.
Qed.
End read_back.

(** Reads [slice o n (blits fs p)] or [getN o (blits fs p)] back; the shape and
    the buffer length are hypotheses of the context. *)
Ltac read_back :=
  first
    [ eapply get16_blits | eapply get32_blits | eapply get64_blits | eapply slice_blits ];
  [ eassumption | eassumption | reflexivity | lia | reflexivity | reflexivity | .. ].
Ltac read_zero :=
  erewrite slice_blits_sub;
  [ | eassumption | eassumption | reflexivity | lia | lia | reflexivity | reflexivity ];
  rewrite slice_fill by (first [lia | vm_compute; discriminate]).

Lemma get_le_range n off p :
  0 <= off -> 0 <= n -> off + n <= zlen p -> is_bytes p ->
  0 <= unle (slice off n p) < 2 ^ (8 * n).
Proof.
  intros. rewrite <- (zlen_slice off n p) at 3 by lia.
  apply unle_range. unfold slice. by apply Forall_take, Forall_drop.
Qed.

Lemma is_bytes_slice off n p : is_bytes p -> is_bytes (slice off n p).
Proof. intros. by apply Forall_take, Forall_drop. Qed.

Lemma is_bytes_fill n v : is_byte v -> is_bytes (fill n v).
Proof. intros. by apply Forall_replicate. Qed.

Lemma is_bytes_blit off bs p : is_bytes bs -> is_bytes p -> is_bytes (blit off bs p).
Proof. intros. apply Forall_app; split; [by apply Forall_take|]. apply Forall_app; split; [done|by apply Forall_drop]. Qed.

Lemma is_bytes_blits fs p : Forall (fun f => is_bytes f.2) fs -> is_bytes p -> is_bytes (blits fs p).
Proof.
  intros H. revert p. induction H as [|[o bs] fs Hb Hfs IH]; intros p Hp; simpl; [done|].
  apply IH. by apply is_bytes_blit.
Qed.

(** [is_bytes] by computation, for concrete inputs. *)
Definition is_bytesb (p : bytes) : bool := forallb (fun b => (0 <=? b) && (b <? 256)) p.

Lemma is_bytesb_sound p : is_bytesb p = true -> is_bytes p.
Proof.
  unfold is_bytesb. rewrite forallb_forall. intros H. apply Forall_forall. intros x Hx.
  apply list_elem_of_In, H in Hx. unfold is_byte. lia.
Qed.

(** A region read through [unle] determines its bytes. *)
Lemma slice_of_get n off p v :
  0 <= off -> off + Z.of_nat n <= zlen p -> is_bytes p ->
  unle (slice off (Z.of_nat n) p) = v -> slice off (Z.of_nat n) p = le n v.
Proof.
  intros ? ? Hp <-. rewrite <- (le_unle (slice off (Z.of_nat n) p)) at 1 by by apply is_bytes_slice.
  f_equal. pose proof (zlen_slice off (Z.of_nat n) p). unfold zlen in *. lia.
Qed.

(** ** Buffers read as lists of regions *)
Definition reads_as (p : bytes) (rs : list (Z * Z * bytes)) : Prop :=
  Forall (fun '(o, n, bs) => slice o n p = bs) rs.

(** Two buffers that read as the same regions, tiling them, are equal. *)
Lemma reads_as_eq rs len p q :
  tiles 0 (map fst rs) = Some len -> zlen p = len -> zlen q = len -> reads_as p rs -> reads_as q rs -> p = q.
Proof.
  intros Ht Hp Hq Rp Rq. apply (bytes_ext_tiles (map fst rs) len); [done|done|done|].
  apply Forall_map. unfold reads_as in *. clear Ht. revert Rp Rq.
  induction rs as [|[[o n] bs] rs IH]; intros Rp Rq; [by apply Forall_nil|].
  apply Forall_cons in Rp as [E1 ?], Rq as [E2 ?]. apply Forall_cons. split; [by cbn; rewrite E1, E2|by apply IH].
Qed.

Lemma slice1_znth i v p : 0 <= i < zlen p -> slice i 1 p = [v] <-> znth i p = v.
Proof.
  intros Hi. split; [apply znth_slice|]. intros <-. pose proof (zlen_slice i 1 p ltac:(lia) ltac:(lia) ltac:(lia)) as Hl.
  destruct (slice i 1 p) as [|x [|]] eqn:E; unfold zlen in Hl; simpl in Hl; [lia| |lia].
  by rewrite (znth_slice i x p E).
Qed.

Lemma get_le_slice n off p v :
  0 <= off -> off + Z.of_nat n <= zlen p -> is_bytes p -> 0 <= v < 2 ^ (8 * Z.of_nat n) ->
  slice off (Z.of_nat n) p = le n v <-> unle (slice off (Z.of_nat n) p) = v.
Proof.
  intros ? ? ? Hv. split; [intros ->; rewrite unle_le; by apply Z.mod_small|by apply slice_of_get].
Qed.

Lemma get16_slice off p v :
  0 <= off -> off + 2 <= zlen p -> is_bytes p -> 0 <= v < 2 ^ 16 -> slice off 2 p = le 2 v <-> get16 off p = v.
Proof. intros. by apply (get_le_slice 2). Qed.

Lemma get32_slice off p v :
  0 <= off -> off + 4 <= zlen p -> is_bytes p -> 0 <= v < 2 ^ 32 -> slice off 4 p = le 4 v <-> get32 off p = v.
Proof. intros. by apply (get_le_slice 4). Qed.

Lemma get64_slice off p v :
  0 <= off -> off + 8 <= zlen p -> is_bytes p -> 0 <= v < 2 ^ 64 -> slice off 8 p = le 8 v <-> get64 off p = v.
Proof. intros. by apply (get_le_slice 8). Qed.

Lemma znth_range i p : 0 <= i < zlen p -> is_bytes p -> is_byte (znth i p).
Proof.
  intros Hi Hp. pose proof (is_bytes_slice i 1 p Hp) as H.
  rewrite (proj2 (slice1_znth i (znth i p) p Hi) eq_refl) in H. by apply Forall_inv in H.
Qed.

Lemma znth_insert i k v m : 0 <= i < zlen m -> 0 <= k ->
  znth k (<[Z.to_nat i := v]> m) = if i =? k then v else znth k m.
Proof.
  intros Hi Hk. unfold znth, zlen in *. rewrite !nth_lookup. destruct (Z.eqb_spec i k) as [->|].
  - by rewrite list_lookup_insert_eq by lia.
  - by rewrite list_lookup_insert_ne by lia.
Qed.

(** Reads a region of [blits fs p] that is a field, or untouched zeros. *)
Ltac reads_blits :=
  unfold reads_as; repeat (apply Forall_cons; split); [..|by apply Forall_nil];
  first [ eapply slice_blits; [eassumption|eassumption|reflexivity|lia|reflexivity|reflexivity|];
          rewrite ?zlen_le, ?zlen_be; done
        | read_zero; done
        | erewrite blits_read_base; [|eassumption|eassumption|reflexivity|lia|lia|reflexivity];
          rewrite slice_fill by lia; reflexivity ].

(** ** Tables of 32-bit words *)
Fixpoint words (l : list Z) : bytes :=
  match l with
  | [] => []
  | v :: l => le 4 v ++ words l
  end.
Definition is_word (v : Z) : Prop := 0 <= v < 2 ^ 32.

Lemma zlen_words l : zlen (words l) = 4 * zlen l.
Proof.
  induction l as [|v l IH]; [done|].
  change (words (v :: l)) with (le 4 v ++ words l). rewrite zlen_app, zlen_le, zlen_cons. lia.
Qed.

Lemma words_concat l : words l = concat (map (le 4) l).
Proof. induction l as [|v l IH]; [done|]. cbn [words map concat]. by rewrite IH. Qed.

Lemma is_bytes_words l : is_bytes (words l).
Proof. induction l; cbn [words]; [constructor|]. apply Forall_app; split; [apply le_is_bytes|done]. Qed.

Lemma blits_words base l p :
  0 <= base -> base + 4 * zlen l <= zlen p ->
  blits (table base 4 (map (le 4) l)) p = blit base (words l) p.
Proof.
  intros. rewrite blits_table; [|lia| |rewrite zlen_map; lia].
  - rewrite words_concat. destruct l; [|done]. unfold blit. simpl. rewrite zlen_nil, Z.add_0_r. by rewrite take_drop.
  - apply Forall_map, Forall_true. intros; apply zlen_le.
Qed.

(** Every write of a concrete list of writes writes bytes. *)
Ltac bytes_fields :=
  repeat (apply Forall_cons; split; [cbn [snd];
    first [ apply le_is_bytes | apply is_bytes_words | apply is_bytes_fill; unfold is_byte; lia
          | assumption | by apply is_bytesb_sound ]|]);
  apply Forall_nil; done.

Lemma length_get_table off n p : length (get_table off n p) = n.
Proof. revert off; induction n; intros; simpl; auto. Qed.

Lemma get_table_words off p l :
  0 <= off -> Forall is_word l -> slice off (4 * zlen l) p = words l -> get_table off (length l) p = l.
Proof.
  intros Hoff Hl. revert off Hoff. induction Hl as [|v l Hv Hl IH]; intros off Hoff Hs; [done|].
  pose proof (zlen_nonneg l). rewrite zlen_cons in Hs.
  replace (4 * (zlen l + 1)) with (4 + 4 * zlen l) in Hs by lia. rewrite slice_split in Hs by lia.
  cbn [words] in Hs. pose proof (zlen_le 4 v) as H4.
  apply app_inj_1 in Hs as [H1 H2].
  2:{ pose proof (f_equal length Hs) as Hn. rewrite !length_app in Hn. pose proof (zlen_words l).
      unfold zlen, slice in *. rewrite !length_take, !length_drop in *. lia. }
  cbn [get_table length]. f_equal; [|apply IH; [lia|done]].
  unfold get32. rewrite H1, unle_le. by apply Z.mod_small.
Qed.

Lemma slice_get_table off n p :
  0 <= off -> off + 4 * Z.of_nat n <= zlen p -> is_bytes p ->
  slice off (4 * Z.of_nat n) p = words (get_table off n p).
Proof.
  intros Hoff Hl Hp. revert off Hoff Hl. induction n as [|n IH]; intros off Hoff Hl.
  - done.
  - replace (4 * Z.of_nat (S n)) with (4 + 4 * Z.of_nat n) by lia.
    rewrite slice_split, IH by lia. cbn [words get_table]. f_equal.
    by apply (slice_of_get 4 off); [lia|lia|done|].
Qed.

Lemma get_table_is_word off n p :
  0 <= off -> off + 4 * Z.of_nat n <= zlen p -> is_bytes p -> Forall is_word (get_table off n p).
Proof.
  intros Hoff Hl Hp. revert off Hoff Hl. induction n as [|n IH]; intros off Hoff Hl; simpl; constructor.
  - apply (get_le_range 4); lia || done.
  - apply IH; lia.
Qed.

Lemma forallb_combine_eq l k :
  length l = length k -> forallb (fun '(v, b) => v =? b) (combine l k) = true <-> l = k.
Proof.
  revert k; induction l as [|v l IH]; intros [|b k] Hl; simpl in *; try done.
  rewrite andb_true_iff, Z.eqb_eq, IH by lia. split; [by intros [-> ->]|by intros [= -> ->]].
Qed.

(** ** Consecutive regions *)
Lemma zero_fill p n : zlen p = n -> zero p = true -> p = fill n 0.
Proof. intros <-. apply zero_spec. Qed.

(** A buffer made of consecutive regions reads as them. *)
Lemma reads_as_concat rs : forall at_ pre len, zlen pre = at_ -> tiles at_ (map fst rs) = Some len ->
  Forall (fun r => zlen r.2 = r.1.2) rs ->
  reads_as (pre ++ concat (map snd rs)) rs /\ zlen (pre ++ concat (map snd rs)) = len.
Proof.
  induction rs as [|[[o n] bs] rs IH]; intros at_ pre len Hp Ht Hl.
  - injection Ht as <-. split; [by apply Forall_nil|]. cbn. by rewrite app_nil_r.
  - cbn [map fst snd tiles concat] in *. destruct (_ && _) eqn:E; [|done].
    apply andb_true_iff in E as [->%Z.eqb_eq Hn%Z.leb_le]. apply Forall_cons in Hl as [Hb Hl]. cbn [fst snd] in Hb.
    rewrite app_assoc. destruct (IH (at_ + n) (pre ++ bs) len) as [IH1 IH2]; [rewrite zlen_app; lia|done|done|].
    split; [|done]. apply Forall_cons. split; [|done]. rewrite slice_app_l; [|pose proof (zlen_nonneg pre); lia|lia|rewrite zlen_app; lia].
    rewrite slice_app_r by lia. rewrite Hp, Z.sub_diag, <- Hb. apply slice_all.
Qed.

(** Fields that tile a buffer replace it. *)
Lemma blits_tiled fs : forall at_ p, 0 <= at_ -> tiles at_ (shape_of fs) = Some (zlen p) ->
  blits fs p = slice 0 at_ p ++ concat (map snd fs).
Proof.
  induction fs as [|[o bs] fs IH]; intros at_ p Hat Ht.
  - injection Ht as ->. rewrite slice_all. cbn. by rewrite app_nil_r.
  - cbn [shape_of map tiles] in Ht. destruct (_ && _) eqn:E; [|done]. apply andb_true_iff in E as [->%Z.eqb_eq Hn%Z.leb_le].
    assert (Hl : at_ + zlen bs <= zlen p).
    { clear -Ht. revert Ht. generalize (at_ + zlen bs). change (map _ fs) with (shape_of fs). induction (shape_of fs) as [|[o n] sh IH]; cbn; intros a; [intros [= ->]; lia|].
      destruct (_ && _) eqn:E; [|done]. intros H%IH. lia. }
    rewrite blits_cons. rewrite (IH (at_ + zlen bs)); [|lia|by rewrite zlen_blit by lia].
    rewrite slice_split, slice_blit_disj, slice_blit_same by lia. cbn [map snd concat]. by rewrite <- app_assoc.
Qed.

Lemma slice_none o p : 0 <= o <= zlen p -> slice o 0 p = [].
Proof. intros. apply nil_length_inv. pose proof (zlen_slice o 0 p ltac:(lia) ltac:(lia) ltac:(lia)). unfold zlen in *. lia. Qed.

Lemma blits_whole fs p : tiles 0 (shape_of fs) = Some (zlen p) -> blits fs p = concat (map snd fs).
Proof. intros H. rewrite (blits_tiled fs 0), slice_none by (done || (pose proof (zlen_nonneg p); lia)). done. Qed.

Lemma slice_concat k es : forall i e, 0 <= k -> Forall (fun e => zlen e = k) es -> es !! i = Some e ->
  slice (k * Z.of_nat i) k (concat es) = e.
Proof.
  induction es as [|x es IH]; intros [|i] e Hk Hf H; try done; apply Forall_cons in Hf as [Hx Hf]; cbn in *.
  - injection H as ->. rewrite Z.mul_0_r, slice_app_l by lia. by apply slice_all'.
  - rewrite slice_app_r by nia. rewrite <- (IH i e Hk Hf H). f_equal. lia.
Qed.

Lemma blit_nil off p : blit off [] p = p.
Proof. unfold blit. simpl app. rewrite zlen_nil, Z.add_0_r. apply take_drop. Qed.

#[global] Arguments le : simpl never.
#[global] Arguments zlen : simpl never.
#[global] Arguments fill : simpl never.
#[global] Arguments slice : simpl never.
#[global] Arguments blits : simpl never.
#[global] Arguments blit : simpl never.
#[global] Arguments crc32 : simpl never.
(** Reasoning goes through the lemmas above; evaluation through [vm_compute]. *)
#[global] Opaque slice blit fill crc32.
