(* ===== verification/Wp.v ===== *)
(** Weakest preconditions for the state monad [M]: the proof rules the
    components that thread a state through callbacks share. *)
From S2P Require Import Prelude.

Section Rules.
Context {S : Type}.

(** [m] run in [s] ends in a state and with a result that satisfy [Q]. *)
Definition wp {A} (m : M S A) (Q : A -> S -> Prop) (s : S) : Prop := Q (fst (m s)) (snd (m s)).

Lemma wp_elim {A} (m : M S A) Q s a s' : wp m Q s -> m s = (a, s') -> Q a s'.
Proof. unfold wp. intros H E. by rewrite E in H. Qed.

Lemma wp_intro {A} (m : M S A) (Q : A -> S -> Prop) s : (forall a s', m s = (a, s') -> Q a s') -> wp m Q s.
Proof. unfold wp. intros H. apply H. by destruct (m s). Qed.

Lemma wp_mono {A} (m : M S A) (P Q : A -> S -> Prop) s :
  wp m P s -> (forall a s', P a s' -> Q a s') -> wp m Q s.
Proof. unfold wp. auto. Qed.

Lemma wp_ret {A} (a : A) (Q : A -> S -> Prop) s : Q a s -> wp (ret a) Q s.
Proof. done. Qed.

Lemma wp_bind {A B} (m : M S A) (k : A -> M S B) Q s :
  wp m (fun a => wp (k a) Q) s -> wp (bind m k) Q s.
Proof. unfold wp, bind. by destruct (m s). Qed.

Lemma wp_get (Q : S -> S -> Prop) s : Q s s -> wp get Q s.
Proof. done. Qed.

Lemma wp_upd f (Q : unit -> S -> Prop) s : Q tt (f s) -> wp (upd f) Q s.
Proof. done. Qed.

Lemma wp_on_ok (m k : M S Z) Q s :
  wp m (fun rc s => if rc =? 0 then wp k Q s else Q rc s) s -> wp (on_ok m k) Q s.
Proof. unfold wp, on_ok, bind, ret. destruct (m s) as [rc s']. cbn. by destruct (rc =? 0). Qed.

(** A step of any state transformer written out as a function. *)
Lemma wp_fun {A} (f : S -> A * S) (Q : A -> S -> Prop) s : Q (fst (f s)) (snd (f s)) -> wp f Q s.
Proof. done. Qed.
End Rules.

Arguments wp : simpl never.

(** Moves through the sequential structure of a call, splitting on its conditions. *)
Ltac wp_step :=
  match goal with
  | |- wp (bind _ _) _ _ => apply wp_bind
  | |- wp (on_ok _ _) _ _ => apply wp_on_ok
  | |- wp (ret _) _ _ => apply wp_ret
  | |- wp get _ _ => apply wp_get
  | |- wp (upd _) _ _ => apply wp_upd
  | |- wp (if ?c then _ else _) _ _ => let E := fresh "C" in destruct c eqn:E
  end.

(** Names the state a run has reached. *)
Ltac name_context c E :=
  match goal with
  | |- wp _ _ (?x, _) => remember x as c eqn:E
  | |- _ (?x, _) => remember x as c eqn:E
  end.

(** * A component over a world: its own state beside whatever its callbacks act on *)
Section Component.
Context {C W : Type}.
Definition own {A} (k : C -> M (C * W) A) : M (C * W) A := fun s => k (fst s) s.
Definition change (f : C -> C) : M (C * W) unit := fun s => (tt, (f (fst s), snd s)).
(** A callback sees and changes only the world. *)
Definition call {A} (f : W -> A * W) : M (C * W) A := fun s => let '(a, w) := f (snd s) in (a, (fst s, w)).

Lemma wp_own {A} (k : C -> M (C * W) A) Q c w : wp (k c) Q (c, w) -> wp (own k) Q (c, w).
Proof. done. Qed.

Lemma wp_change f (Q : unit -> C * W -> Prop) c w : Q tt (f c, w) -> wp (change f) Q (c, w).
Proof. done. Qed.

Lemma wp_call {A} (f : W -> A * W) (Q : A -> C * W -> Prop) c w :
  (forall a w', f w = (a, w') -> Q a (c, w')) -> wp (call f) Q (c, w).
Proof. intros H. unfold wp, call. cbn. destruct (f w) as [a w'] eqn:E. by apply H. Qed.
End Component.
