(* ===== verification/OwnedPage.v ===== *)
(** The owned-volume page format ([owned_page.c], [owned_page.h]): a 4096-byte
    NAND page carrying a 96-byte header bound to a device, volume, generation,
    logical page, physical row and lease, a 2048-byte payload, a SHA-256 digest
    and 0xff padding; DATA pages and the COMMIT page that seals one. *)
From S2P Require Import Prelude.

Definition OWNED_PAGE_BYTES : Z := 4096.
Definition OWNED_PAGE_HEADER_BYTES : Z := 96.
Definition OWNED_PAGE_PAYLOAD_BYTES : Z := 2048.
Definition OWNED_PAGE_DIGEST_OFFSET : Z := 2144.
Definition OWNED_PAGE_PADDING_OFFSET : Z := 2176.
Definition OWNED_PAGE_ROW_LIMIT : Z := 131072.
Definition OWNED_PAGE_DATA : Z := 1.
Definition OWNED_PAGE_COMMIT : Z := 2.

Inductive owned_page_result :=
| OWNED_PAGE_VALID
| OWNED_PAGE_ERASED_LOOKING
| OWNED_PAGE_NOT_VALID
| OWNED_PAGE_ARGUMENT
| OWNED_PAGE_HASH_ERROR.
#[export] Instance owned_page_result_eq : EqDecision owned_page_result.
Proof. solve_decision. Defined.

Record owned_page_binding := {
  pb_device_id : bytes;
  pb_volume_id : bytes;
  pb_generation : Z;
  pb_logical_page : Z;
  pb_physical_row : Z;
  pb_lease_id : Z;
  pb_kind : Z
}.

(** One call of the SHA-256 provider: its return code, the bytes it wrote to the
    32-byte output span and the length it reported.  The provider itself is
    outside the repository and stays a parameter. *)
Record sha_result := { sha_rc : Z; sha_out : bytes; sha_written : Z }.
Definition sha_provider := bytes -> sha_result.
Record owned_page_hash := { sha256 : option sha_provider }.

Record owned_page_view := { view_payload : option bytes; view_digest : bytes }.

(** Sizes under the target ABI (ILP32, 8-byte alignment of [uint64_t]). *)
Definition sizeof_owned_page_binding : Z := 64.
Definition sizeof_owned_page_hash : Z := 8.
Definition sizeof_owned_page_view : Z := 36.

Definition page_magic : bytes := [0x4f; 0x50; 0x4e; 0x44; 0x50; 0x47; 0x31; 0].
Definition commit_magic : bytes := [0x4f; 0x50; 0x4e; 0x44; 0x43; 0x4d; 0x31; 0].

Definition binding_valid (b : ptr owned_page_binding) : bool :=
  match b with
  | None => false
  | Some b =>
      let b := deref b in
      identity (pb_device_id b) && identity (pb_volume_id b) &&
      negb (pb_generation b =? 0) && (pb_generation b <=? INT64_MAX) &&
      negb (pb_lease_id b =? 0) &&
      (pb_logical_page b <? OWNED_PAGE_ROW_LIMIT) &&
      (pb_physical_row b <? OWNED_PAGE_ROW_LIMIT) &&
      (Z.land (pb_logical_page b) 63 =? Z.land (pb_physical_row b) 63) &&
      ((pb_kind b =? OWNED_PAGE_DATA) || (pb_kind b =? OWNED_PAGE_COMMIT))
  end.

Definition hash_valid (hash : ptr owned_page_hash) : bool :=
  match hash with
  | Some h => match sha256 (deref h) with Some _ => true | None => false end
  | None => false
  end.

Definition page_crc (p : bytes) (header : bool) : Z :=
  crc32 (fun i => header && (76 <=? i) && (i <? 80)) p.

Definition output_safe (out : ptr bytes) (n : Z) (b : ptr owned_page_binding)
    (hash : ptr owned_page_hash) : bool :=
  match out with
  | None => false
  | Some _ =>
      (n =? OWNED_PAGE_BYTES) && binding_valid b && hash_valid hash &&
      negb (poverlap out n b sizeof_owned_page_binding) &&
      negb (poverlap out n hash sizeof_owned_page_hash)
  end.

(** The 32-byte output buffer after the provider ran on it, pre-filled with 0. *)
Definition digest_buffer (written : bytes) : bytes :=
  slice 0 32 (map u8 written ++ fill 32 0).

(** [Some value] is OWNED_PAGE_VALID with the digest, [None] OWNED_PAGE_HASH_ERROR
    (the buffer wiped).  The other modules repeat it over their own extents. *)
Definition sha_digest (hash : owned_page_hash) (input : bytes) : option bytes :=
  match sha256 hash with
  | None => None
  | Some f =>
      let r := f input in
      if negb (sha_rc r =? 0) || negb (sha_written r =? 32) then None
      else Some (digest_buffer (sha_out r))
  end.

Definition digest (hash : owned_page_hash) (page : bytes) : option bytes :=
  sha_digest hash (slice 0 OWNED_PAGE_DIGEST_OFFSET page).

Definition header_fields (b : owned_page_binding) : list field :=
  [(0, fill OWNED_PAGE_HEADER_BYTES 0);
   (0, page_magic); put16 8 1; put16 10 (pb_kind b);
   put16 12 OWNED_PAGE_HEADER_BYTES; put16 14 OWNED_PAGE_PAYLOAD_BYTES;
   (16, pb_device_id b); (32, pb_volume_id b);
   put64 48 (pb_generation b); put32 56 (pb_logical_page b);
   put32 60 (pb_physical_row b); put64 64 (pb_lease_id b)].

Definition header (out : bytes) (b : owned_page_binding) : bytes :=
  let out := blits (header_fields b) out in
  let out := blits [put32 72 (page_crc (slice OWNED_PAGE_HEADER_BYTES OWNED_PAGE_PAYLOAD_BYTES out) false)] out in
  blits [put32 76 (page_crc (slice 0 OWNED_PAGE_HEADER_BYTES out) true)] out.

Definition seal (out : bytes) (b : owned_page_binding) (hash : owned_page_hash)
  : owned_page_result * bytes :=
  let out := header out b in
  match digest hash out with
  | Some value => (OWNED_PAGE_VALID, blit OWNED_PAGE_DIGEST_OFFSET value out)
  | None => (OWNED_PAGE_HASH_ERROR, fill OWNED_PAGE_BYTES 0)
  end.

(** Builders return the result code and what is written to the output buffer;
    [None] means the buffer is left untouched. *)
Definition owned_page_build_data (out : ptr bytes) (out_length : Z)
    (binding : ptr owned_page_binding) (payload : ptr bytes) (payload_length : Z)
    (hash : ptr owned_page_hash) : owned_page_result * option bytes :=
  match binding, payload, hash with
  | Some b, Some p, Some h =>
      if negb (output_safe out out_length binding hash) ||
         negb (pb_kind (deref b) =? OWNED_PAGE_DATA) ||
         negb (payload_length =? OWNED_PAGE_PAYLOAD_BYTES) ||
         poverlap out out_length payload payload_length
      then (OWNED_PAGE_ARGUMENT, None)
      else
        let page := fill out_length 0xff in
        let page := blit OWNED_PAGE_HEADER_BYTES (slice 0 payload_length (deref p)) page in
        let '(rc, page) := seal page (deref b) (deref h) in
        (rc, Some page)
  | _, _, _ => (OWNED_PAGE_ARGUMENT, None)
  end.

Definition header_matches (p : bytes) (b : owned_page_binding) : bool :=
  equal (slice 0 8 p) page_magic && (get16 8 p =? 1) && (get16 10 p =? pb_kind b) &&
  (get16 12 p =? OWNED_PAGE_HEADER_BYTES) && (get16 14 p =? OWNED_PAGE_PAYLOAD_BYTES) &&
  equal (slice 16 16 p) (pb_device_id b) && equal (slice 32 16 p) (pb_volume_id b) &&
  (get64 48 p =? pb_generation b) && (get32 56 p =? pb_logical_page b) &&
  (get32 60 p =? pb_physical_row b) && (get64 64 p =? pb_lease_id b) &&
  all (slice 80 16 p) 0.

(** [p] is the 2048-byte payload of the COMMIT page. *)
Definition commit_syntax (p : bytes) (b : owned_page_binding) : bool :=
  equal (slice 0 8 p) commit_magic && (get16 8 p =? 1) && (get16 10 p =? 96) &&
  (get32 12 p =? OWNED_PAGE_PAYLOAD_BYTES) && identity (slice 16 16 p) &&
  (0 <? pb_logical_page b) && (0 <? pb_physical_row b) &&
  negb (Z.land (pb_logical_page b) 63 =? 0) &&
  (get32 32 p =? u32 (pb_logical_page b - 1)) && (get32 36 p =? u32 (pb_physical_row b - 1)) &&
  (get64 40 p =? pb_lease_id b) && all (slice 80 16 p) 0 &&
  all (slice 96 (OWNED_PAGE_PAYLOAD_BYTES - 96) p) 0xff.

Definition cleared_view : owned_page_view :=
  {| view_payload := None; view_digest := fill 32 0 |}.

(** The checks on the page bytes themselves, in the order of the code. *)
Definition validate_page (page : bytes) (expected : owned_page_binding) (hash : owned_page_hash)
  : owned_page_result * owned_page_view :=
  if all page 0xff then (OWNED_PAGE_ERASED_LOOKING, cleared_view)
  else if negb (header_matches page expected) ||
     negb (all (slice OWNED_PAGE_PADDING_OFFSET (OWNED_PAGE_BYTES - OWNED_PAGE_PADDING_OFFSET) page) 0xff) ||
     negb (get32 76 page =? page_crc (slice 0 OWNED_PAGE_HEADER_BYTES page) true) ||
     negb (get32 72 page =? page_crc (slice OWNED_PAGE_HEADER_BYTES OWNED_PAGE_PAYLOAD_BYTES page) false) ||
     ((pb_kind expected =? OWNED_PAGE_COMMIT) &&
      negb (commit_syntax (slice OWNED_PAGE_HEADER_BYTES OWNED_PAGE_PAYLOAD_BYTES page) expected))
  then (OWNED_PAGE_NOT_VALID, cleared_view)
  else match digest hash page with
       | None => (OWNED_PAGE_HASH_ERROR, cleared_view)
       | Some value =>
           if negb (equal value (slice OWNED_PAGE_DIGEST_OFFSET 32 page))
           then (OWNED_PAGE_NOT_VALID, cleared_view)
           else (OWNED_PAGE_VALID,
                 {| view_payload := Some (slice OWNED_PAGE_HEADER_BYTES OWNED_PAGE_PAYLOAD_BYTES page);
                    view_digest := value |})
       end.

Definition owned_page_validate (page : ptr bytes) (page_length : Z)
    (expected : ptr owned_page_binding) (hash : ptr owned_page_hash)
    (view : ptr owned_page_view) : owned_page_result * option owned_page_view :=
  match view with
  | None => (OWNED_PAGE_ARGUMENT, None)
  | Some _ =>
      if poverlap view sizeof_owned_page_view page page_length ||
         poverlap view sizeof_owned_page_view expected sizeof_owned_page_binding ||
         poverlap view sizeof_owned_page_view hash sizeof_owned_page_hash
      then (OWNED_PAGE_ARGUMENT, None)
      else
        match page, expected, hash with
        | Some p, Some b, Some h =>
            if negb (page_length =? OWNED_PAGE_BYTES) || negb (binding_valid expected) ||
               negb (hash_valid hash)
            then (OWNED_PAGE_ARGUMENT, Some cleared_view)
            else if poverlap page page_length expected sizeof_owned_page_binding ||
                    poverlap page page_length hash sizeof_owned_page_hash
            then (OWNED_PAGE_ARGUMENT, Some cleared_view)
            else let '(rc, v) := validate_page (slice 0 page_length (deref p)) (deref b) (deref h) in
                 (rc, Some v)
        | _, _, _ => (OWNED_PAGE_ARGUMENT, Some cleared_view)
        end
  end.

Definition pair (c d : ptr owned_page_binding) : bool :=
  binding_valid c && binding_valid d &&
  match c, d with
  | Some c, Some d =>
      let c := deref c in let d := deref d in
      (pb_kind c =? OWNED_PAGE_COMMIT) && (pb_kind d =? OWNED_PAGE_DATA) &&
      equal (pb_device_id c) (pb_device_id d) && equal (pb_volume_id c) (pb_volume_id d) &&
      (pb_generation c =? pb_generation d) && (pb_lease_id c =? pb_lease_id d) &&
      (pb_logical_page c =? u32 (pb_logical_page d + 1)) &&
      (pb_physical_row c =? u32 (pb_physical_row d + 1)) &&
      (Z.shiftr (pb_logical_page c) 6 =? Z.shiftr (pb_logical_page d) 6) &&
      (Z.shiftr (pb_physical_row c) 6 =? Z.shiftr (pb_physical_row d) 6)
  | _, _ => false
  end.

(** The error mapping shared by the two commit functions. *)
Definition erased_is_invalid (rc : owned_page_result) : owned_page_result :=
  match rc with OWNED_PAGE_ERASED_LOOKING => OWNED_PAGE_NOT_VALID | _ => rc end.

Definition commit_fields (object_id : bytes) (d : owned_page_binding) (data_digest : bytes) : list field :=
  [(96 + 0, fill 96 0); (96 + 0, commit_magic); put16 (96 + 8) 1; put16 (96 + 10) 96;
   put32 (96 + 12) OWNED_PAGE_PAYLOAD_BYTES; (96 + 16, object_id);
   put32 (96 + 32) (pb_logical_page d); put32 (96 + 36) (pb_physical_row d);
   put64 (96 + 40) (pb_lease_id d); (96 + 48, data_digest)].

(** [view_addr] is the address of the function's own [struct owned_page_view]. *)
Definition owned_page_build_commit (view_addr : Z) (out : ptr bytes) (out_length : Z)
    (commit_binding : ptr owned_page_binding) (object_id : ptr bytes)
    (data_page : ptr bytes) (data_length : Z) (data_binding : ptr owned_page_binding)
    (hash : ptr owned_page_hash) : owned_page_result * option bytes :=
  match commit_binding, object_id, data_page, data_binding, hash with
  | Some c, Some oid, Some _, Some d, Some h =>
      if negb (output_safe out out_length commit_binding hash) ||
         negb (pair commit_binding data_binding) || negb (identity (deref oid)) ||
         negb (data_length =? OWNED_PAGE_BYTES) ||
         poverlap out out_length object_id 16 || poverlap out out_length data_page data_length ||
         poverlap out out_length data_binding sizeof_owned_page_binding
      then (OWNED_PAGE_ARGUMENT, None)
      else
        match owned_page_validate data_page data_length data_binding hash (Some (Obj view_addr cleared_view)) with
        | (OWNED_PAGE_VALID, Some data) =>
            let page := fill out_length 0xff in
            let page := blits (commit_fields (deref oid) (deref d) (view_digest data)) page in
            let '(rc, page) := seal page (deref c) (deref h) in
            (rc, Some page)
        | (rc, _) =>
            (erased_is_invalid rc,
             if decide (rc = OWNED_PAGE_HASH_ERROR) then Some (fill out_length 0) else None)
        end
  | _, _, _, _, _ => (OWNED_PAGE_ARGUMENT, None)
  end.

Definition owned_page_match_commit (commit_view_addr data_view_addr : Z)
    (commit_page : ptr bytes) (commit_length : Z) (commit_binding : ptr owned_page_binding)
    (object_id : ptr bytes) (data_page : ptr bytes) (data_length : Z)
    (data_binding : ptr owned_page_binding) (hash : ptr owned_page_hash) : owned_page_result :=
  match object_id with
  | None => OWNED_PAGE_ARGUMENT
  | Some oid =>
      if negb (pair commit_binding data_binding) || negb (identity (deref oid))
      then OWNED_PAGE_ARGUMENT
      else
        match owned_page_validate commit_page commit_length commit_binding hash
                (Some (Obj commit_view_addr cleared_view)) with
        | (OWNED_PAGE_VALID, Some {| view_payload := Some cp |}) =>
            match owned_page_validate data_page data_length data_binding hash
                    (Some (Obj data_view_addr cleared_view)) with
            | (OWNED_PAGE_VALID, Some data) =>
                if negb (equal (slice 16 16 cp) (deref oid)) ||
                   negb (equal (slice 48 32 cp) (view_digest data))
                then OWNED_PAGE_NOT_VALID else OWNED_PAGE_VALID
            | (rc, _) => erased_is_invalid rc
            end
        | (rc, _) => erased_is_invalid rc
        end
  end.

(** * Well-typed bindings and the layout lemmas *)

(** What the C types of the fields say. *)
Record binding_wf (b : owned_page_binding) : Prop := {
  wf_device : zlen (pb_device_id b) = 16 /\ is_bytes (pb_device_id b);
  wf_volume : zlen (pb_volume_id b) = 16 /\ is_bytes (pb_volume_id b);
  wf_generation : 0 <= pb_generation b < 2 ^ 64;
  wf_logical : 0 <= pb_logical_page b < 2 ^ 32;
  wf_physical : 0 <= pb_physical_row b < 2 ^ 32;
  wf_lease : 0 <= pb_lease_id b < 2 ^ 64;
  wf_kind : 0 <= pb_kind b < 2 ^ 16
}.

Lemma zlen_digest_buffer w : zlen (digest_buffer w) = 32.
Proof. apply zlen_slice; zlia. pose proof (zlen_nonneg w). lia. Qed.

Lemma is_bytes_digest_buffer w : is_bytes (digest_buffer w).
Proof.
  apply is_bytes_slice. apply Forall_app; split.
  - apply Forall_map, Forall_true. intros; apply u8_range.
  - by apply is_bytes_fill.
Qed.

Lemma sha_digest_wf h m v : sha_digest h m = Some v -> zlen v = 32 /\ is_bytes v.
Proof.
  unfold sha_digest. destruct (sha256 h) as [f|]; [|done]. destruct (_ || _); [done|].
  intros [= <-]. split; [apply zlen_digest_buffer|apply is_bytes_digest_buffer].
Qed.

(** The sealed page as one list of writes. *)
Definition sealed_fields (b : owned_page_binding) (c1 c2 : Z) (value : bytes) : list field :=
  header_fields b ++ [put32 72 c1; put32 76 c2; (OWNED_PAGE_DIGEST_OFFSET, value)].
Definition sealed_shape : list (Z * Z) :=
  [(0, 96); (0, 8); (8, 2); (10, 2); (12, 2); (14, 2); (16, 16); (32, 16); (48, 8); (56, 4);
   (60, 4); (64, 8); (72, 4); (76, 4); (2144, 32)].

Lemma sealed_fields_shape b c1 c2 value :
  binding_wf b -> zlen value = 32 -> shape_of (sealed_fields b c1 c2 value) = sealed_shape.
Proof.
  intros [[Hd _] [Hv _] _ _ _ _ _] Hval. unfold shape_of, sealed_fields. simpl.
  by rewrite Hd, Hv, Hval.
Qed.

Lemma sealed_page_shape b c1 c2 value page :
  binding_wf b -> zlen value = 32 -> zlen page = 4096 ->
  zlen (blits (sealed_fields b c1 c2 value) page) = 4096.
Proof.
  intros Hb Hv Hp. rewrite zlen_blits; [done|]. by rewrite sealed_fields_shape, Hp.
Qed.

Lemma header_fields_shape b : binding_wf b -> shape_of (header_fields b) = take 12 sealed_shape.
Proof. intros [[Hd _] [Hv _] _ _ _ _ _]. unfold shape_of. simpl. by rewrite Hd, Hv. Qed.

Lemma header_eq page b (Hb : binding_wf b) (Hl : zlen page = 4096) :
  exists c2, let c1 := page_crc (slice 96 2048 page) false in
    let page' := blits (header_fields b ++ [put32 72 c1; put32 76 c2]) page in
    header page b = page' /\ c2 = page_crc (slice 0 96 page') true.
Proof.
  assert (Hl1 : zlen (blits (header_fields b) page) = 4096).
  { rewrite zlen_blits; [done|]. by rewrite header_fields_shape, Hl. }
  eexists. cbv zeta. split.
  - unfold header. rewrite blits_app. unfold OWNED_PAGE_HEADER_BYTES, OWNED_PAGE_PAYLOAD_BYTES.
    rewrite (blits_read_base (header_fields b) page _ _ 96 2048 (header_fields_shape b Hb) Hl) by done.
    reflexivity.
  - unfold put32. rewrite blits_app, !blits_cons, !blits_nil. set (q := blit 72 _ _).
    assert (Hq : zlen q = 4096) by (unfold q; rewrite zlen_blit; rewrite ?zlen_le; lia).
    rewrite (slice_blit_in 76) by (rewrite ?zlen_le; lia).
    unfold page_crc. rewrite crc32_blit_skipped; [done|lia| |].
    + rewrite zlen_slice, zlen_le by lia. lia.
    + intros i. rewrite zlen_le. lia.
Qed.

(** What [seal] leaves in the buffer when it succeeds. *)
Lemma seal_valid page b h page' :
  binding_wf b -> zlen page = 4096 -> seal page b h = (OWNED_PAGE_VALID, page') ->
  exists value c1 c2,
    page' = blits (sealed_fields b c1 c2 value) page /\ zlen value = 32 /\
    digest h page' = Some value /\
    c1 = page_crc (slice 96 2048 page') false /\ c2 = page_crc (slice 0 96 page') true.
Proof.
  intros Hb Hl. unfold seal. destruct (header_eq page b Hb Hl) as (c2 & -> & Hc2).
  cbv zeta in Hc2. set (c1 := page_crc (slice 96 2048 page) false) in *.
  set (q := blits _ page) in *. destruct (digest h q) as [value|] eqn:Hd; [|done].
  intros [= <-]. destruct (sha_digest_wf _ _ _ Hd) as [Hv _].
  assert (Hlq : zlen q = 4096).
  { unfold q. rewrite zlen_blits; [done|]. rewrite Hl. unfold shape_of.
    rewrite map_app. fold (shape_of (header_fields b)). by rewrite header_fields_shape. }
  exists value, c1, c2. unfold OWNED_PAGE_DIGEST_OFFSET.
  assert (Hpre : forall o n, 0 <= o -> 0 <= n -> o + n <= 2144 -> slice o n (blit 2144 value q) = slice o n q)
    by (intros; apply slice_blit_disj; lia).
  split; [|split; [done|split; [|split]]].
  - unfold sealed_fields.
    change ([put32 72 c1; put32 76 c2; (OWNED_PAGE_DIGEST_OFFSET, value)])
      with ([put32 72 c1; put32 76 c2] ++ [(2144, value)]).
    rewrite app_assoc, blits_app. by rewrite blits_cons, blits_nil.
  - unfold digest, OWNED_PAGE_DIGEST_OFFSET. rewrite Hpre by lia. exact Hd.
  - rewrite Hpre by lia. unfold q, c1. f_equal. symmetry.
    eapply (blits_read_base _ page (take 14 sealed_shape)); [|done|done|done|done|done].
    unfold shape_of. rewrite map_app. fold (shape_of (header_fields b)). by rewrite header_fields_shape.
  - by rewrite Hpre by lia.
Qed.

Lemma sealed_is_bytes b c1 c2 value page :
  binding_wf b -> is_bytes value -> is_bytes page ->
  is_bytes (blits (sealed_fields b c1 c2 value) page).
Proof.
  intros [[_ Hd] [_ Hv] _ _ _ _ _] Hval Hp. apply is_bytes_blits; [|done].
  unfold sealed_fields, header_fields, put16, put32, put64. simpl. bytes_fields.
Qed.

(** Sealing a page makes it valid for its binding. *)
Lemma seal_validates page b h page' :
  binding_wf b -> is_bytes page -> zlen page = 4096 ->
  slice 2176 1920 page = fill 1920 0xff ->
  (pb_kind b = OWNED_PAGE_COMMIT -> commit_syntax (slice 96 2048 page) b = true) ->
  seal page b h = (OWNED_PAGE_VALID, page') ->
  exists value,
    zlen page' = 4096 /\ digest h page' = Some value /\ slice 2144 32 page' = value /\
    slice 96 2048 page' = slice 96 2048 page /\
    validate_page page' b h =
      (OWNED_PAGE_VALID, {| view_payload := Some (slice 96 2048 page); view_digest := value |}).
Proof.
  intros Hb Hbytes Hl Hpad Hcommit Hs.
  destruct (seal_valid _ _ _ _ Hb Hl Hs) as (value & c1 & c2 & Hp & Hval & Hdig & Hc1 & Hc2).
  destruct (sha_digest_wf _ _ _ Hdig) as [_ Hvb].
  pose proof (sealed_fields_shape b c1 c2 value Hb Hval) as Hsh.
  pose proof (sealed_is_bytes b c1 c2 value page Hb Hvb Hbytes) as Hpb. rewrite <- Hp in Hpb.
  assert (Hr1 : 0 <= c1 < 2 ^ 32) by (rewrite Hc1; apply crc32_range, is_bytes_slice, Hpb).
  assert (Hr2 : 0 <= c2 < 2 ^ 32) by (rewrite Hc2; apply crc32_range, is_bytes_slice, Hpb).
  assert (Hl' : zlen page' = 4096) by (rewrite Hp; by apply sealed_page_shape).
  assert (Hv : slice 2144 32 page' = value) by (rewrite Hp; read_back; done).
  assert (Hpay : slice 96 2048 page' = slice 96 2048 page)
    by (rewrite Hp; eapply blits_read_base; [exact Hsh|exact Hl|done..]).
  exists value. split_and!; [done..|]. unfold validate_page.
  assert (Hmagic : slice 0 8 page' = page_magic) by (rewrite Hp; read_back; done).
  destruct (all page' 0xff) eqn:Hff.
  { apply all_spec in Hff. rewrite Hff, Hl', slice_fill in Hmagic by lia. by vm_compute in Hmagic. }
  assert (header_matches page' b = true) as ->.
  { destruct Hb as [[Hd _] [Hvo _] ? ? ? ? ?]. unfold header_matches.
    assert (slice 80 16 page' = fill 16 0) as -> by (rewrite Hp; read_zero; done).
    assert (slice 16 16 page' = pb_device_id b) as -> by (rewrite Hp; read_back; done).
    assert (slice 32 16 page' = pb_volume_id b) as -> by (rewrite Hp; read_back; done).
    rewrite all_fill, Hmagic, !equal_refl, Hp, !andb_true_iff, !Z.eqb_eq.
    split_and!; try done; read_back; done. }
  unfold OWNED_PAGE_PADDING_OFFSET, OWNED_PAGE_BYTES, OWNED_PAGE_HEADER_BYTES, OWNED_PAGE_PAYLOAD_BYTES,
    OWNED_PAGE_DIGEST_OFFSET.
  assert (slice 2176 (4096 - 2176) page' = fill 1920 0xff) as ->.
  { rewrite <- Hpad, Hp. eapply blits_read_base; [exact Hsh|exact Hl|done..]. }
  rewrite all_fill, <- Hc1, <- Hc2, Hpay, Hdig, Hv, equal_refl.
  assert (get32 76 page' = c2) as -> by (rewrite Hp; read_back; done).
  assert (get32 72 page' = c1) as -> by (rewrite Hp; read_back; done).
  rewrite !Z.eqb_refl. cbn [negb andb orb].
  destruct (Z.eqb_spec (pb_kind b) OWNED_PAGE_COMMIT) as [E|_]; [|done]. by rewrite Hcommit.
Qed.

(** What a matching header says, slice by slice. *)
Definition header_regions (b : owned_page_binding) : list field :=
  [(0, page_magic); put16 8 1; put16 10 (pb_kind b);
   put16 12 OWNED_PAGE_HEADER_BYTES; put16 14 OWNED_PAGE_PAYLOAD_BYTES;
   (16, pb_device_id b); (32, pb_volume_id b);
   put64 48 (pb_generation b); put32 56 (pb_logical_page b);
   put32 60 (pb_physical_row b); put64 64 (pb_lease_id b); (80, fill 16 0)].

Lemma header_matches_regions p b :
  binding_wf b -> is_bytes p -> zlen p = 4096 -> header_matches p b = true ->
  Forall (fun '(o, bs) => slice o (zlen bs) p = bs) (header_regions b).
Proof.
  intros [[Hd _] [Hv _] ? ? ? ? ?] Hp Hl. unfold header_matches.
  rewrite !andb_true_iff, !Z.eqb_eq.
  intros [[[[[[[[[[[H0 ?] ?] ?] ?] H16] H32] ?] ?] ?] ?] H80].
  apply equal_spec in H0; [|by rewrite zlen_slice by lia].
  apply equal_spec in H16; [|rewrite zlen_slice; lia].
  apply equal_spec in H32; [|rewrite zlen_slice; lia].
  apply (all_slice 16) in H80; [|by rewrite zlen_slice by lia].
  unfold header_regions, put16, put32, put64.
  repeat apply Forall_cons_2; try (by apply Forall_nil);
    rewrite ?zlen_le, ?Hd, ?Hv; try assumption; by apply slice_of_get; [lia|lia|done|].
Qed.

Lemma header_matches_inj p b1 b2 :
  binding_wf b1 -> binding_wf b2 -> is_bytes p -> zlen p = 4096 ->
  header_matches p b1 = true -> header_matches p b2 = true -> b1 = b2.
Proof.
  intros W1 W2 Hp Hl H1 H2.
  apply header_matches_regions in H1, H2; try done.
  destruct W1 as [[D1 _] [V1 _] G1 L1 P1 E1 K1], W2 as [[D2 _] [V2 _] G2 L2 P2 E2 K2].
  unfold header_regions, put16, put32, put64 in *.
  rewrite !Forall_cons in H1, H2. simpl in *. rewrite ?zlen_le, ?D1, ?V1, ?D2, ?V2 in *.
  destruct_and?. destruct b1, b2; simpl in *.
  f_equal; try congruence;
    first [ solve [apply (le_inj 8); [done|done|congruence]]
          | solve [apply (le_inj 4); [done|done|congruence]]
          | apply (le_inj 2); [done|done|congruence] ].
Qed.

(** What a VALID verdict of [owned_page_validate] rests on. *)
Lemma owned_page_validate_inv page n b h v r :
  owned_page_validate page n b h v = (OWNED_PAGE_VALID, r) ->
  exists p b0 h0 w, page = Some p /\ b = Some b0 /\ h = Some h0 /\ r = Some w /\ n = OWNED_PAGE_BYTES /\
    binding_valid b = true /\ hash_valid h = true /\
    validate_page (slice 0 n (deref p)) (deref b0) (deref h0) = (OWNED_PAGE_VALID, w).
Proof.
  unfold owned_page_validate. destruct v as [v|]; [|done].
  destruct (_ || _); [done|].
  destruct page as [p|], b as [b0|], h as [h0|]; try done.
  destruct (_ || _) eqn:Hg; [done|]. rewrite !orb_false_iff, !negb_false_iff, Z.eqb_eq in Hg.
  destruct Hg as [[-> Hb] Hh]. destruct (_ || _); [done|].
  destruct (validate_page _ _ _) as [rc w] eqn:Hv. intros [= -> <-].
  by exists p, b0, h0, w.
Qed.

Lemma validate_page_inv page b h w :
  validate_page page b h = (OWNED_PAGE_VALID, w) ->
  all page 0xff = false /\ header_matches page b = true /\
  all (slice 2176 1920 page) 0xff = true /\
  get32 76 page = page_crc (slice 0 96 page) true /\
  get32 72 page = page_crc (slice 96 2048 page) false /\
  (pb_kind b = OWNED_PAGE_COMMIT -> commit_syntax (slice 96 2048 page) b = true) /\
  exists value, digest h page = Some value /\ equal value (slice 2144 32 page) = true /\
    w = {| view_payload := Some (slice 96 2048 page); view_digest := value |}.
Proof.
  unfold validate_page. destruct (all page 0xff); [done|].
  destruct (_ || _) eqn:Hg; [done|].
  rewrite !orb_false_iff, !negb_false_iff, !Z.eqb_eq in Hg.
  destruct Hg as [[[[? ?] ?] ?] Hc].
  destruct (digest h page) as [value|]; [|done].
  destruct (equal value _) eqn:He; [|done]. intros [= <-]. split_and!; try done.
  - intros E. rewrite E in Hc. by apply negb_false_iff in Hc.
  - by exists value.
Qed.

(** The slices of a valid page, the digest last. *)
Lemma validate_page_slices page b h w :
  binding_wf b -> is_bytes page -> zlen page = 4096 ->
  validate_page page b h = (OWNED_PAGE_VALID, w) ->
  Forall (fun '(o, bs) => slice o (zlen bs) page = bs) (header_regions b) /\
  slice 2176 1920 page = fill 1920 0xff /\
  digest h page = Some (slice 2144 32 page) /\
  w = {| view_payload := Some (slice 96 2048 page); view_digest := slice 2144 32 page |}.
Proof.
  intros Hb Hp Hl Hv. destruct (validate_page_inv _ _ _ _ Hv) as (_ & Hh & Hpad & _ & _ & _ & value & Hd & He & ->).
  destruct (sha_digest_wf _ _ _ Hd) as [Hlv _].
  apply equal_spec in He; [|by rewrite zlen_slice, Hlv by lia]. subst value.
  split_and!; [by apply header_matches_regions|by apply (all_slice 1920); [rewrite zlen_slice by lia|]|done|done].
Qed.

Lemma header_slices page b :
  binding_wf b -> zlen page = 4096 ->
  Forall (fun '(o, bs) => slice o (zlen bs) (header page b) = bs) (header_regions b) /\
  zlen (header page b) = 4096 /\
  (exists c2, slice 72 4 (header page b) = le 4 (page_crc (slice 96 2048 page) false) /\
    slice 76 4 (header page b) = le 4 c2 /\ c2 = page_crc (slice 0 96 (header page b)) true) /\
  (forall o n, 96 <= o -> 0 <= n -> slice o n (header page b) = slice o n page).
Proof.
  intros Hb Hl. destruct (header_eq page b Hb Hl) as (c2 & -> & Hc2). cbv zeta in Hc2.
  set (fs := _ ++ _) in *.
  assert (Hsh : shape_of fs = take 14 sealed_shape).
  { unfold fs, shape_of. rewrite map_app. fold (shape_of (header_fields b)). by rewrite header_fields_shape. }
  assert (Hfit : fits 4096 (take 14 sealed_shape) = true) by done.
  split_and!.
  - destruct Hb as [[Hd _] [Hv _] _ _ _ _ _]. unfold header_regions, put16, put32, put64.
    repeat apply Forall_cons_2; try (by apply Forall_nil); rewrite ?zlen_le, ?Hd, ?Hv;
      try (read_back; done).
    rewrite zlen_fill by lia. by read_zero.
  - rewrite zlen_blits; [done|]. by rewrite Hsh, Hl.
  - exists c2. split_and!; [read_back; done|read_back; done|done].
  - intros o n Ho Hn. eapply blits_read_base; [exact Hsh|exact Hl|done|lia|lia|].
    cbn [take sealed_shape trace].
    repeat match goal with |- context [(?a + ?b <=? o)] =>
      rewrite (proj2 (Z.leb_le (a + b) o)) by lia; rewrite orb_true_r end. done.
Qed.

Definition agreeing_regions : list (Z * Z) :=
  [(0, 8); (8, 2); (10, 2); (12, 2); (14, 2); (16, 16); (32, 16); (48, 8); (56, 4); (60, 4);
   (64, 8); (72, 4); (80, 16); (96, 2048); (2176, 1920)].

Definition crc_regions : list (Z * Z) :=
  [(0, 8); (8, 2); (10, 2); (12, 2); (14, 2); (16, 16); (32, 16); (48, 8); (56, 4); (60, 4);
   (64, 8); (72, 4); (76, 4); (80, 16)].

(** The header rebuilt for a valid page agrees with the page everywhere but on
    the second CRC and the digest. *)
Lemma header_agrees page b h w base :
  binding_wf b -> is_bytes page -> zlen page = 4096 ->
  validate_page page b h = (OWNED_PAGE_VALID, w) ->
  base = blit 96 (slice 96 2048 page) (fill 4096 0xff) ->
  Forall (fun '(o, n) => slice o n (header base b) = slice o n page) agreeing_regions /\
  zlen (header base b) = 4096 /\
  slice 76 4 (header base b) = le 4 (page_crc (slice 0 96 (header base b)) true).
Proof.
  intros Hb Hp Hl Hv Hbase0.
  destruct (validate_page_slices _ _ _ _ Hb Hp Hl Hv) as (Hr & Hpad & _ & _).
  destruct (validate_page_inv _ _ _ _ Hv) as (_ & _ & _ & _ & Hc1 & _).
  assert (Hlb : zlen base = 4096) by (rewrite Hbase0, zlen_blit; rewrite ?zlen_fill, ?zlen_slice; lia).
  assert (Hbase : slice 96 2048 base = slice 96 2048 page).
  { rewrite Hbase0, slice_blit_sub; rewrite ?zlen_slice, ?zlen_fill; try lia.
    by apply slice_all', zlen_slice; lia. }
  assert (Hbpad : slice 2176 1920 base = fill 1920 0xff).
  { rewrite Hbase0, slice_blit_disj; rewrite ?zlen_slice, ?zlen_fill; try lia.
    by rewrite slice_fill by lia. }
  destruct (header_slices base b Hb Hlb) as (Hr' & Hlh & (c2 & H72 & H76 & Hcc) & Hrest).
  set (hd := header base b) in *.
  assert (H72' : slice 72 4 page = slice 72 4 hd).
  { rewrite H72, Hbase, <- Hc1. by apply (slice_of_get 4 72); [lia|lia|done|]. }
  split; [|by rewrite H76, Hcc].
  destruct Hb as [[Hbd _] [Hbv _] _ _ _ _ _]. unfold header_regions, put16, put32, put64 in *.
  rewrite !Forall_cons in Hr, Hr'. rewrite ?zlen_le, ?zlen_fill, ?Hbd, ?Hbv in * by lia.
  destruct_and?. unfold agreeing_regions. repeat apply Forall_cons_2; try by apply Forall_nil.
  all: first [congruence | by etrans; [eassumption|] | rewrite Hrest by lia; congruence].
Qed.

(** A page valid for a DATA binding is, byte for byte, the page the builder
    makes of its payload. *)
Lemma sealed_page_canonical page b h w :
  binding_wf b -> is_bytes page -> zlen page = 4096 ->
  validate_page page b h = (OWNED_PAGE_VALID, w) ->
  seal (blit 96 (slice 96 2048 page) (fill 4096 0xff)) b h = (OWNED_PAGE_VALID, page).
Proof.
  intros Hb Hp Hl Hv. set (base := blit 96 _ _).
  destruct (header_agrees page b h w base Hb Hp Hl Hv eq_refl) as (Hag & Hlh & H76).
  destruct (validate_page_slices _ _ _ _ Hb Hp Hl Hv) as (_ & _ & Hd & _).
  destruct (validate_page_inv _ _ _ _ Hv) as (_ & _ & _ & Hc2 & _).
  set (hd := header base b) in *.
  unfold agreeing_regions in Hag. rewrite !Forall_cons in Hag. destruct_and? Hag.
  assert (Hcrc : page_crc (slice 0 96 hd) true = page_crc (slice 0 96 page) true).
  { unfold page_crc. eapply (crc32_agree _ crc_regions 96); [done|by rewrite zlen_slice by lia..|].
    unfold crc_regions.
    repeat apply Forall_cons_2; try by apply Forall_nil.
    all: first [left; rewrite !slice_slice by lia; assumption | right; intros; lia]. }
  assert (H76' : slice 76 4 hd = slice 76 4 page).
  { rewrite H76, Hcrc, <- Hc2. symmetry. by apply (slice_of_get 4 76); [lia|lia|done|]. }
  unfold seal. fold hd.
  assert (digest h hd = Some (slice 2144 32 page)) as ->.
  { rewrite <- Hd. unfold digest. f_equal. change OWNED_PAGE_DIGEST_OFFSET with 2144.
    apply (bytes_ext_tiles (crc_regions ++ [(96, 2048)]) 2144); [done|by rewrite zlen_slice by lia..|].
    unfold crc_regions. simpl. repeat apply Forall_cons_2; try by apply Forall_nil.
    all: rewrite !slice_slice by lia; assumption. }
  f_equal. change OWNED_PAGE_DIGEST_OFFSET with 2144.
  apply (bytes_ext_tiles (crc_regions ++ [(96, 2048); (2144, 32); (2176, 1920)]) 4096);
    [done|rewrite zlen_blit; rewrite ?zlen_slice; lia|done|].
  unfold crc_regions. simpl. repeat apply Forall_cons_2; try by apply Forall_nil.
  all: try (rewrite slice_blit_disj by (rewrite ?zlen_slice by lia; lia); assumption).
  rewrite slice_blit_sub by (rewrite ?zlen_slice by lia; lia).
  by apply slice_all', zlen_slice; lia.
Qed.

(** The memory a validation call touches: none of the arguments overlap. *)
Definition args_separate (view : ptr owned_page_view) (page : ptr bytes)
    (b : ptr owned_page_binding) (h : ptr owned_page_hash) : bool :=
  negb (poverlap view sizeof_owned_page_view page OWNED_PAGE_BYTES) &&
  negb (poverlap view sizeof_owned_page_view b sizeof_owned_page_binding) &&
  negb (poverlap view sizeof_owned_page_view h sizeof_owned_page_hash) &&
  negb (poverlap page OWNED_PAGE_BYTES b sizeof_owned_page_binding) &&
  negb (poverlap page OWNED_PAGE_BYTES h sizeof_owned_page_hash).

Lemma owned_page_validate_apart v page b h :
  zlen (deref page) = OWNED_PAGE_BYTES ->
  args_separate (Some v) (Some page) (Some b) (Some h) = true ->
  binding_valid (Some b) = true -> hash_valid (Some h) = true ->
  owned_page_validate (Some page) OWNED_PAGE_BYTES (Some b) (Some h) (Some v) =
    let '(rc, w) := validate_page (deref page) (deref b) (deref h) in (rc, Some w).
Proof.
  unfold args_separate. intros Hl. rewrite !andb_true_iff, !negb_true_iff.
  intros [[[[H1 H2] H3] H4] H5] Hb Hh. unfold owned_page_validate.
  rewrite H1, H2, H3, Hb, Hh, Z.eqb_refl. cbn [negb orb]. by rewrite H4, H5, (slice_all' _ _ Hl).
Qed.

(** The two ways a builder can end after its argument checks. *)
Lemma seal_cases page b h :
  (exists page', seal page b h = (OWNED_PAGE_VALID, page')) \/
  seal page b h = (OWNED_PAGE_HASH_ERROR, fill OWNED_PAGE_BYTES 0).
Proof. unfold seal. destruct (digest h (header page b)); eauto. Qed.

Lemma output_safe_inv out n b h :
  output_safe out n b h = true -> n = OWNED_PAGE_BYTES /\ binding_valid b = true /\ hash_valid h = true.
Proof.
  unfold output_safe. destruct out; [|done]. rewrite !andb_true_iff, Z.eqb_eq. tauto.
Qed.

Lemma build_data_inv out n b p pn h rc w :
  owned_page_build_data out n b p pn h = (rc, Some w) ->
  exists b0 p0 h0, b = Some b0 /\ p = Some p0 /\ h = Some h0 /\ n = 4096 /\ pn = 2048 /\
    binding_valid b = true /\ hash_valid h = true /\ pb_kind (deref b0) = OWNED_PAGE_DATA /\
    seal (blit 96 (slice 0 2048 (deref p0)) (fill 4096 0xff)) (deref b0) (deref h0) = (rc, w).
Proof.
  unfold owned_page_build_data. destruct b as [b0|], p as [p0|], h as [h0|]; try done.
  destruct (_ || _) eqn:Hg; [done|].
  rewrite !orb_false_iff, !negb_false_iff, !Z.eqb_eq in Hg. destruct Hg as [[[Ho Hk] Hn] _].
  destruct (output_safe_inv _ _ _ _ Ho) as (-> & ? & ?).
  destruct (seal _ _ _) as [rc' w'] eqn:Hs. intros [= -> ->]. rewrite Hn in Hs.
  exists b0, p0, h0. by split_and!.
Qed.

(** The page image the DATA builder seals. *)
Lemma data_image_facts payload :
  zlen payload = 2048 -> is_bytes payload ->
  let image := blit 96 payload (fill 4096 0xff) in
  zlen image = 4096 /\ is_bytes image /\ slice 96 2048 image = payload /\
  slice 2176 1920 image = fill 1920 0xff.
Proof.
  intros Hl Hp. cbv zeta. split_and!.
  - rewrite zlen_blit; rewrite ?zlen_fill; lia.
  - apply is_bytes_blit; [done|]. apply is_bytes_fill. unfold is_byte; lia.
  - rewrite slice_blit_sub by (rewrite ?zlen_fill; lia). by apply slice_all'.
  - rewrite slice_blit_disj by (rewrite ?zlen_fill; lia). by rewrite slice_fill by lia.
Qed.

(** A page built by [owned_page_build_data] validates under the binding it
    was built for, exposes exactly the payload it was given, and the exposed
    digest is the provider's digest of the page's first 2144 bytes. *)
Theorem owned_page_data_roundtrip out n b p pn h page at_ v
    (Hwf : binding_wf (deref b)) (Hlen : zlen (deref p) = 2048) (Hbytes : is_bytes (deref p))
    (Hbuild : owned_page_build_data out n (Some b) (Some p) pn (Some h) = (OWNED_PAGE_VALID, Some page))
    (Hsep : args_separate (Some v) (Some (Obj at_ page)) (Some b) (Some h) = true) :
  exists d,
    owned_page_validate (Some (Obj at_ page)) OWNED_PAGE_BYTES (Some b) (Some h) (Some v) =
      (OWNED_PAGE_VALID, Some {| view_payload := Some (deref p); view_digest := d |}) /\
    digest (deref h) page = Some d.
Proof.
  destruct (build_data_inv _ _ _ _ _ _ _ _ Hbuild) as (b0 & p0 & h0 & [= <-] & [= <-] & [= <-] & _ & _ & Hb & Hh & Hk & Hs).
  rewrite (slice_all' 2048) in Hs by done.
  destruct (data_image_facts _ Hlen Hbytes) as (Hl & Hib & Hpay & Hpad).
  destruct (seal_validates _ _ _ _ Hwf Hib Hl Hpad ltac:(by rewrite Hk) Hs) as (d & Hl' & Hd & _ & _ & Hv).
  exists d. split; [|done]. rewrite owned_page_validate_apart by done. simpl. by rewrite Hv, Hpay.
Qed.

(** C32. A page is valid for at most one binding: device, volume, generation,
    logical page, physical row, lease and kind are all fixed by its bytes, so a
    page cannot be replayed at another place or under another lease. *)
Theorem owned_page_binding_unique page n b1 b2 h1 h2 v1 v2 r1 r2
    (Hpage : is_bytes (deref page)) (Hlen : zlen (deref page) = OWNED_PAGE_BYTES)
    (W1 : binding_wf (deref b1)) (W2 : binding_wf (deref b2))
    (V1 : owned_page_validate (Some page) n (Some b1) h1 v1 = (OWNED_PAGE_VALID, r1))
    (V2 : owned_page_validate (Some page) n (Some b2) h2 v2 = (OWNED_PAGE_VALID, r2)) :
  deref b1 = deref b2.
Proof.
  apply owned_page_validate_inv in V1 as (? & ? & ? & ? & [= <-] & [= <-] & _ & _ & -> & _ & _ & V1).
  apply owned_page_validate_inv in V2 as (? & ? & ? & ? & [= <-] & [= <-] & _ & _ & _ & _ & _ & V2).
  rewrite (slice_all' _ _ Hlen) in V1, V2.
  apply validate_page_inv in V1 as (_ & H1 & _), V2 as (_ & H2 & _).
  by eapply header_matches_inj.
Qed.

(** C35. The DATA format is canonical: a page that validates under a DATA binding
    is exactly the page [owned_page_build_data] builds from its payload, so every
    one of its 4096 bytes is determined by binding, payload and provider. *)
Theorem owned_page_data_canonical page n b h v r out pay
    (Hpage : is_bytes (deref page)) (Hlen : zlen (deref page) = OWNED_PAGE_BYTES)
    (Hwf : binding_wf (deref b)) (Hkind : pb_kind (deref b) = OWNED_PAGE_DATA)
    (Hv : owned_page_validate (Some page) n (Some b) (Some h) v = (OWNED_PAGE_VALID, r))
    (Hpay : deref pay = slice OWNED_PAGE_HEADER_BYTES OWNED_PAGE_PAYLOAD_BYTES (deref page))
    (Hsafe : output_safe out OWNED_PAGE_BYTES (Some b) (Some h) = true)
    (Hsep : poverlap out OWNED_PAGE_BYTES (Some pay) OWNED_PAGE_PAYLOAD_BYTES = false) :
  owned_page_build_data out OWNED_PAGE_BYTES (Some b) (Some pay) OWNED_PAGE_PAYLOAD_BYTES (Some h) =
    (OWNED_PAGE_VALID, Some (deref page)).
Proof.
  apply owned_page_validate_inv in Hv as (? & ? & ? & w & [= <-] & [= <-] & [= <-] & _ & -> & _ & _ & Hv).
  rewrite (slice_all' _ _ Hlen) in Hv.
  unfold owned_page_build_data. rewrite Hsafe, Hkind, Hsep. cbn [negb orb Z.eqb OWNED_PAGE_DATA Pos.eqb].
  rewrite Z.eqb_refl. cbn [negb orb].
  rewrite Hpay, (slice_all' OWNED_PAGE_PAYLOAD_BYTES) by (apply zlen_slice; rewrite ?Hlen; done).
  pose proof (sealed_page_canonical _ _ _ _ Hwf Hpage Hlen Hv) as Hc.
  unfold OWNED_PAGE_HEADER_BYTES, OWNED_PAGE_PAYLOAD_BYTES, OWNED_PAGE_BYTES. by rewrite Hc.
Qed.

(** ** Commit pages *)
Lemma pair_inv c d :
  pair c d = true ->
  exists c0 d0, c = Some c0 /\ d = Some d0 /\ binding_valid c = true /\ binding_valid d = true /\
    pb_kind (deref c0) = OWNED_PAGE_COMMIT /\ pb_kind (deref d0) = OWNED_PAGE_DATA /\
    equal (pb_device_id (deref c0)) (pb_device_id (deref d0)) = true /\
    equal (pb_volume_id (deref c0)) (pb_volume_id (deref d0)) = true /\
    pb_generation (deref c0) = pb_generation (deref d0) /\
    pb_lease_id (deref c0) = pb_lease_id (deref d0) /\
    pb_logical_page (deref c0) = u32 (pb_logical_page (deref d0) + 1) /\
    pb_physical_row (deref c0) = u32 (pb_physical_row (deref d0) + 1) /\
    pb_logical_page (deref c0) / 64 = pb_logical_page (deref d0) / 64 /\
    pb_physical_row (deref c0) / 64 = pb_physical_row (deref d0) / 64.
Proof.
  unfold pair. rewrite !andb_true_iff. intros [[Hc Hd] Hp].
  destruct c as [c0|]; [|done]. destruct d as [d0|]; [|done].
  rewrite !andb_true_iff, !Z.eqb_eq, !shiftr_6 in Hp. destruct_and? Hp.
  exists c0, d0. by split_and!.
Qed.

Lemma binding_valid_rows b :
  binding_valid (Some b) = true -> binding_wf (deref b) ->
  0 <= pb_logical_page (deref b) < OWNED_PAGE_ROW_LIMIT /\
  0 <= pb_physical_row (deref b) < OWNED_PAGE_ROW_LIMIT.
Proof.
  unfold binding_valid. rewrite !andb_true_iff, !Z.ltb_lt. intros H [_ _ _ ? ? _ _]. lia.
Qed.

(** The commit page follows its DATA page in the same erase block. *)
Lemma pair_adjacent c d :
  pair (Some c) (Some d) = true -> binding_wf (deref c) -> binding_wf (deref d) ->
  pb_logical_page (deref c) = pb_logical_page (deref d) + 1 /\
  pb_physical_row (deref c) = pb_physical_row (deref d) + 1 /\
  pb_logical_page (deref d) mod 64 < 63.
Proof.
  intros Hp Wc Wd. apply pair_inv in Hp as (? & ? & [= <-] & [= <-] & _ & Hd & _ & _ & _ & _ & _ & _ & Hl & Hr & Hlb & _).
  pose proof (binding_valid_rows _ Hd Wd) as [? ?]. unfold OWNED_PAGE_ROW_LIMIT in *.
  rewrite u32_small in Hl, Hr by (change (2 ^ 32) with 4294967296; lia).
  split; [done|split; [done|]]. rewrite Hl in Hlb. divlia.
Qed.

Definition commit_shape : list (Z * Z) :=
  [(96, 96); (96, 8); (104, 2); (106, 2); (108, 4); (112, 16); (128, 4); (132, 4); (136, 8); (144, 32)].

Definition commit_image (oid : bytes) (d : owned_page_binding) (dg : bytes) : bytes :=
  blits (commit_fields oid d dg) (fill 4096 0xff).

Lemma commit_fields_shape oid d dg :
  zlen oid = 16 -> zlen dg = 32 -> shape_of (commit_fields oid d dg) = commit_shape.
Proof. intros Ho Hd. unfold shape_of. simpl. by rewrite Ho, Hd. Qed.

Lemma commit_image_facts oid d dg :
  zlen oid = 16 -> zlen dg = 32 -> is_bytes oid -> is_bytes dg ->
  let image := commit_image oid d dg in
  zlen image = 4096 /\ is_bytes image /\ slice 2176 1920 image = fill 1920 0xff /\
  slice 16 16 (slice 96 2048 image) = oid /\ slice 48 32 (slice 96 2048 image) = dg.
Proof.
  intros Ho Hd Hob Hdb. cbv zeta. unfold commit_image.
  pose proof (commit_fields_shape oid d dg Ho Hd) as Hsh.
  assert (Hf : zlen (fill 4096 0xff) = 4096) by (by rewrite zlen_fill by lia).
  rewrite !slice_slice by lia. change (96 + 16) with 112. change (96 + 48) with 144. split_and!.
  - rewrite zlen_blits; [done|]. by rewrite Hsh, Hf.
  - apply is_bytes_blits; [|apply is_bytes_fill; unfold is_byte; lia].
    unfold commit_fields, commit_magic, put16, put32, put64. bytes_fields.
  - erewrite blits_read_base; [|exact Hsh|exact Hf|done..]. by rewrite slice_fill by lia.
  - read_back; done.
  - read_back; done.
Qed.

Lemma commit_image_syntax oid c d dg :
  zlen oid = 16 -> zlen dg = 32 -> identity oid = true ->
  binding_wf c -> binding_wf d ->
  pb_logical_page c = pb_logical_page d + 1 -> pb_physical_row c = pb_physical_row d + 1 ->
  pb_logical_page d mod 64 < 63 -> pb_lease_id c = pb_lease_id d ->
  commit_syntax (slice 96 2048 (commit_image oid d dg)) c = true.
Proof.
  intros Ho Hd Hid [_ _ _ ? ? ? _] [_ _ _ ? ? ? _] Hl Hr Hm Hlease.
  pose proof (commit_fields_shape oid d dg Ho Hd) as Hsh.
  assert (Hf : zlen (fill 4096 0xff) = 4096) by (by rewrite zlen_fill by lia).
  unfold commit_syntax, commit_image, get16, get32, get64.
  change (OWNED_PAGE_PAYLOAD_BYTES - 96) with 1952. rewrite !slice_slice by lia. norm_offsets.
  assert (slice 96 8 (blits (commit_fields oid d dg) (fill 4096 255)) = commit_magic) as -> by (read_back; done).
  assert (slice 112 16 (blits (commit_fields oid d dg) (fill 4096 255)) = oid) as -> by (read_back; done).
  assert (slice 176 16 (blits (commit_fields oid d dg) (fill 4096 255)) = fill 16 0) as -> by (read_zero; done).
  assert (slice 192 1952 (blits (commit_fields oid d dg) (fill 4096 255)) = fill 1952 255) as ->.
  { erewrite blits_read_base; [|exact Hsh|exact Hf|done..]. by rewrite slice_fill by lia. }
  fold (get16 104 (blits (commit_fields oid d dg) (fill 4096 255))).
  fold (get16 106 (blits (commit_fields oid d dg) (fill 4096 255))).
  fold (get32 108 (blits (commit_fields oid d dg) (fill 4096 255))).
  fold (get32 128 (blits (commit_fields oid d dg) (fill 4096 255))).
  fold (get32 132 (blits (commit_fields oid d dg) (fill 4096 255))).
  fold (get64 136 (blits (commit_fields oid d dg) (fill 4096 255))).
  rewrite equal_refl, !all_fill, Hid, !andb_true_iff, negb_true_iff, !Z.eqb_eq, Z.eqb_neq, !Z.ltb_lt, land_63.
  rewrite Hl, Hr, Hlease, !Z.add_simpl_r, !u32_small by lia.
  split_and!; try done; try lia; try divlia; read_back; done.
Qed.

Lemma build_commit_inv va out n c oid dp dn d h page :
  owned_page_build_commit va out n c oid dp dn d h = (OWNED_PAGE_VALID, Some page) ->
  exists c0 oid0 dp0 d0 h0 data,
    c = Some c0 /\ oid = Some oid0 /\ dp = Some dp0 /\ d = Some d0 /\ h = Some h0 /\
    pair c d = true /\ identity (deref oid0) = true /\ dn = OWNED_PAGE_BYTES /\
    hash_valid h = true /\
    validate_page (slice 0 dn (deref dp0)) (deref d0) (deref h0) = (OWNED_PAGE_VALID, data) /\
    seal (commit_image (deref oid0) (deref d0) (view_digest data)) (deref c0) (deref h0) =
      (OWNED_PAGE_VALID, page).
Proof.
  unfold owned_page_build_commit.
  destruct c as [c0|], oid as [oid0|], dp as [dp0|], d as [d0|], h as [h0|]; try done.
  destruct (_ || _) eqn:Hg; [done|].
  rewrite !orb_false_iff, !negb_false_iff, Z.eqb_eq in Hg.
  destruct Hg as [[[[[[Ho Hp] Hi] Hn] _] _] _].
  destruct (owned_page_validate _ _ _ _ _) as [rc [data|]] eqn:Hv;
    [|by destruct rc; simpl; try case_decide].
  destruct rc; try (simpl; try case_decide; done).
  apply owned_page_validate_inv in Hv as (? & ? & ? & w & [= <-] & [= <-] & [= <-] & [= ->] & _ & _ & Hh & Hv).
  apply output_safe_inv in Ho as (-> & _ & _).
  destruct (seal _ _ _) as [rc' page'] eqn:Hs. intros [= -> ->].
  exists c0, oid0, dp0, d0, h0, w. by split_and!.
Qed.

(** A COMMIT page built for a DATA page matches that DATA page and the same
    object id in [owned_page_match_commit]. *)
Theorem owned_page_commit_roundtrip va out n c oid dp dn d h page at_ cva dva
    (Wc : binding_wf (deref c)) (Wd : binding_wf (deref d))
    (Hdp : zlen (deref dp) = OWNED_PAGE_BYTES)
    (Hoid : zlen (deref oid) = 16 /\ is_bytes (deref oid))
    (Hbuild : owned_page_build_commit va out n (Some c) (Some oid) (Some dp) dn (Some d) (Some h) =
                (OWNED_PAGE_VALID, Some page))
    (Hsepc : args_separate (Some (Obj cva cleared_view)) (Some (Obj at_ page)) (Some c) (Some h) = true)
    (Hsepd : args_separate (Some (Obj dva cleared_view)) (Some dp) (Some d) (Some h) = true) :
  owned_page_match_commit cva dva (Some (Obj at_ page)) OWNED_PAGE_BYTES (Some c) (Some oid)
    (Some dp) dn (Some d) (Some h) = OWNED_PAGE_VALID.
Proof.
  apply build_commit_inv in Hbuild as (? & ? & ? & ? & ? & data & [= <-] & [= <-] & [= <-] & [= <-] & [= <-] & Hp & Hi & -> & Hh & Hv & Hs).
  rewrite (slice_all' _ _ Hdp) in Hv. destruct Hoid as [Ho Hob].
  destruct (validate_page_inv _ _ _ _ Hv) as (_ & _ & _ & _ & _ & _ & dg & Hdig & _ & Edata).
  destruct (sha_digest_wf _ _ _ Hdig) as [Hdg Hdgb]. rewrite Edata in Hs. cbn [view_digest] in Hs.
  destruct (pair_adjacent _ _ Hp Wc Wd) as (Hl & Hr & Hm).
  destruct (pair_inv _ _ Hp) as (? & ? & [= <-] & [= <-] & Hbc & Hbd & _ & _ & _ & _ & _ & Hlease & _).
  destruct (commit_image_facts _ (deref d) dg Ho Hdg Hob Hdgb) as (Hil & Hib & Hipad & Hioid & Hidg).
  pose proof (commit_image_syntax _ _ _ dg Ho Hdg Hi Wc Wd Hl Hr Hm Hlease) as Hsyn.
  destruct (seal_validates _ _ _ _ Wc Hib Hil Hipad (fun _ => Hsyn) Hs) as (cd & Hcl & _ & _ & _ & Hcv).
  unfold owned_page_match_commit. rewrite Hp, Hi. cbn [negb orb].
  rewrite (owned_page_validate_apart _ (Obj at_ page)) by done. simpl deref. rewrite Hcv.
  rewrite owned_page_validate_apart by done. rewrite Hv, Edata. cbn [view_payload view_digest].
  by rewrite Hioid, Hidg, !equal_refl.
Qed.

(** A matching COMMIT page really seals the DATA page: it sits in the next
    logical page and the next physical row of the same erase block under the same
    lease, and its bytes hold the object id and the digest of the DATA page. *)
Theorem owned_page_match_commit_sound cva dva cp cn c oid dp dn d h
    (Wc : binding_wf (deref c)) (Wd : binding_wf (deref d))
    (Hcp : zlen (deref cp) = OWNED_PAGE_BYTES) (Hdp : zlen (deref dp) = OWNED_PAGE_BYTES)
    (Hoid : zlen (deref oid) = 16)
    (Hm : owned_page_match_commit cva dva (Some cp) cn (Some c) (Some oid) (Some dp) dn (Some d) (Some h) =
            OWNED_PAGE_VALID) :
  pb_logical_page (deref c) = pb_logical_page (deref d) + 1 /\
  pb_physical_row (deref c) = pb_physical_row (deref d) + 1 /\
  pb_logical_page (deref c) / 64 = pb_logical_page (deref d) / 64 /\
  pb_physical_row (deref c) / 64 = pb_physical_row (deref d) / 64 /\
  pb_lease_id (deref c) = pb_lease_id (deref d) /\
  pb_generation (deref c) = pb_generation (deref d) /\
  slice (96 + 16) 16 (deref cp) = deref oid /\
  digest (deref h) (deref dp) = Some (slice (96 + 48) 32 (deref cp)).
Proof.
  unfold owned_page_match_commit in Hm. destruct (_ || _) eqn:Hg; [done|].
  rewrite orb_false_iff, !negb_false_iff in Hg. destruct Hg as [Hp Hi].
  destruct (owned_page_validate _ cn _ _ _) as [rc cv] eqn:Hcv.
  destruct (decide (rc = OWNED_PAGE_VALID)) as [->|]; [|by destruct rc, cv as [[[]]|]].
  apply owned_page_validate_inv in Hcv as (? & ? & ? & ? & [= <-] & [= <-] & [= <-] & -> & -> & _ & _ & Hcv).
  rewrite (slice_all' _ _ Hcp) in Hcv.
  apply validate_page_inv in Hcv as (_ & _ & _ & _ & _ & _ & ? & _ & _ & ->).
  destruct (owned_page_validate _ dn _ _ _) as [rd dv] eqn:Hdv.
  destruct (decide (rd = OWNED_PAGE_VALID)) as [->|]; [|by destruct rd, dv].
  apply owned_page_validate_inv in Hdv as (? & ? & ? & ? & [= <-] & [= <-] & [= <-] & -> & -> & _ & _ & Hdv).
  rewrite (slice_all' _ _ Hdp) in Hdv.
  apply validate_page_inv in Hdv as (_ & _ & _ & _ & _ & _ & dg & Hdig & _ & ->).
  destruct (_ || _) eqn:He; [done|].
  rewrite orb_false_iff, !negb_false_iff in He. destruct He as [He1 He2].
  destruct (sha_digest_wf _ _ _ Hdig) as [Hdg _]. unfold OWNED_PAGE_BYTES in *.
  rewrite slice_slice in He1, He2 by lia. cbn [view_digest] in He2.
  apply equal_spec in He1; [|by rewrite Hoid, zlen_slice by lia].
  apply equal_spec in He2; [|by rewrite Hdg, zlen_slice by lia].
  destruct (pair_adjacent _ _ Hp Wc Wd) as (? & ? & _).
  destruct (pair_inv _ _ Hp) as (? & ? & [= <-] & [= <-] & _ & _ & _ & _ & _ & _ & ? & ? & _ & _ & ? & ?).
  split_and!; try done. by rewrite He2.
Qed.

(** Both builders fail closed: an argument error leaves the output buffer
    untouched, a digest-provider failure wipes all 4096 bytes, and nothing but a
    VALID result leaves a page image behind. *)
Theorem owned_page_build_fails_closed out n b p pn va c oid dp dn d h :
  match owned_page_build_data out n b p pn h with
  | (OWNED_PAGE_VALID, Some _) => hash_valid h = true /\ binding_valid b = true
  | (OWNED_PAGE_HASH_ERROR, Some w) => w = fill 4096 0
  | (OWNED_PAGE_ARGUMENT, None) => True
  | _ => False
  end /\
  match owned_page_build_commit va out n c oid dp dn d h with
  | (OWNED_PAGE_VALID, Some _) => hash_valid h = true /\ pair c d = true
  | (OWNED_PAGE_HASH_ERROR, Some w) => w = fill 4096 0
  | (OWNED_PAGE_NOT_VALID, None) | (OWNED_PAGE_ARGUMENT, None) => True
  | _ => False
  end.
Proof.
  split.
  - unfold owned_page_build_data. destruct b as [b0|], p as [p0|], h as [h0|]; try done.
    destruct (_ || _) eqn:Hg; [done|]. rewrite !orb_false_iff, !negb_false_iff in Hg.
    destruct Hg as [[[Ho _] _] _]. apply output_safe_inv in Ho as (-> & ? & ?).
    by match goal with |- context [seal ?p ?b ?h] => destruct (seal_cases p b h) as [[page' ->]| ->] end.
  - unfold owned_page_build_commit.
    destruct c as [c0|], oid as [oid0|], dp as [dp0|], d as [d0|], h as [h0|]; try done.
    destruct (_ || _) eqn:Hg; [done|]. rewrite !orb_false_iff, !negb_false_iff in Hg.
    destruct Hg as [[[[[[Ho Hp] _] _] _] _] _]. apply output_safe_inv in Ho as (-> & ? & ?).
    destruct (owned_page_validate _ _ _ _ _) as [rc data] eqn:Hv.
    destruct rc; try (destruct data; simpl; try case_decide; done).
    destruct data as [data|]; [|by apply owned_page_validate_inv in Hv as (? & ? & ? & ? & _ & _ & _ & ? & _)].
    by match goal with |- context [seal ?p ?b ?h] => destruct (seal_cases p b h) as [[page' ->]| ->] end.
Qed.

(** * Concrete instances *)

(** A stand-in provider: deterministic, 32 bytes, always successful. *)
Definition sample_hash : owned_page_hash :=
  {| sha256 := Some (fun m => {| sha_rc := 0; sha_out := le 32 (crc32 (fun _ => false) m); sha_written := 32 |}) |}.
Definition sample_data_binding : owned_page_binding :=
  {| pb_device_id := fill 16 0x11; pb_volume_id := fill 16 0x22; pb_generation := 1;
     pb_logical_page := 130; pb_physical_row := 65602; pb_lease_id := 7; pb_kind := OWNED_PAGE_DATA |}.
Definition sample_commit_binding : owned_page_binding :=
  {| pb_device_id := fill 16 0x11; pb_volume_id := fill 16 0x22; pb_generation := 1;
     pb_logical_page := 131; pb_physical_row := 65603; pb_lease_id := 7; pb_kind := OWNED_PAGE_COMMIT |}.
Definition sample_payload : bytes := fill 2048 0x5a.
Definition sample_oid : bytes := fill 16 0x33.
Definition at_out : ptr bytes := Some (Obj 0x10000 []).
Definition p_binding : obj owned_page_binding := Obj 0x20000 sample_data_binding.
Definition p_commit : obj owned_page_binding := Obj 0x20100 sample_commit_binding.
Definition p_hash : obj owned_page_hash := Obj 0x20200 sample_hash.
Definition p_payload : obj bytes := Obj 0x21000 sample_payload.
Definition p_oid : obj bytes := Obj 0x22000 sample_oid.
Definition p_view : obj owned_page_view := Obj 0x23000 cleared_view.
Definition written {R} (r : R * option bytes) : bytes := default [] (snd r).
Definition sample_data_page : bytes :=
  written (owned_page_build_data at_out 4096 (Some p_binding) (Some p_payload) 2048 (Some p_hash)).
Definition p_data_page : obj bytes := Obj 0x30000 sample_data_page.
Definition sample_commit_page : bytes :=
  written (owned_page_build_commit 0x23000 at_out 4096 (Some p_commit) (Some p_oid) (Some p_data_page) 4096
             (Some p_binding) (Some p_hash)).
Definition p_commit_page : obj bytes := Obj 0x40000 sample_commit_page.

Lemma sample_data_binding_wf : binding_wf sample_data_binding.
Proof. constructor; try (split; [done|by apply is_bytesb_sound]); done. Qed.

Lemma sample_commit_binding_wf : binding_wf sample_commit_binding.
Proof. constructor; try (split; [done|by apply is_bytesb_sound]); done. Qed.

Lemma owned_page_data_roundtrip_witness :
  exists d,
    owned_page_validate (Some p_data_page) OWNED_PAGE_BYTES (Some p_binding) (Some p_hash) (Some p_view) =
      (OWNED_PAGE_VALID, Some {| view_payload := Some sample_payload; view_digest := d |}) /\
    digest sample_hash sample_data_page = Some d.
Proof.
  apply (owned_page_data_roundtrip at_out 4096 p_binding p_payload 2048 p_hash sample_data_page 0x30000 p_view).
  - exact sample_data_binding_wf.
  - vm_compute. reflexivity.
  - apply is_bytesb_sound. vm_compute. reflexivity.
  - vm_compute. reflexivity.
  - vm_compute. reflexivity.
Defined.

Lemma owned_page_binding_unique_witness : sample_data_binding = deref (Obj 0x50000 sample_data_binding).
Proof.
  apply (owned_page_binding_unique p_data_page 4096 p_binding (Obj 0x50000 sample_data_binding)
    (Some p_hash) (Some p_hash) (Some p_view) (Some p_view)
    (snd (owned_page_validate (Some p_data_page) 4096 (Some p_binding) (Some p_hash) (Some p_view)))
    (snd (owned_page_validate (Some p_data_page) 4096 (Some p_binding) (Some p_hash) (Some p_view)))).
  - apply is_bytesb_sound. vm_compute. reflexivity.
  - vm_compute. reflexivity.
  - exact sample_data_binding_wf.
  - exact sample_data_binding_wf.
  - vm_compute. reflexivity.
  - vm_compute. reflexivity.
Defined.

Lemma owned_page_data_canonical_witness :
  owned_page_build_data at_out OWNED_PAGE_BYTES (Some p_binding) (Some p_payload) OWNED_PAGE_PAYLOAD_BYTES
    (Some p_hash) = (OWNED_PAGE_VALID, Some sample_data_page).
Proof.
  apply (owned_page_data_canonical p_data_page 4096 p_binding p_hash (Some p_view)
    (snd (owned_page_validate (Some p_data_page) 4096 (Some p_binding) (Some p_hash) (Some p_view)))).
  - apply is_bytesb_sound. vm_compute. reflexivity.
  - vm_compute. reflexivity.
  - exact sample_data_binding_wf.
  - reflexivity.
  - vm_compute. reflexivity.
  - vm_compute. reflexivity.
  - vm_compute. reflexivity.
  - vm_compute. reflexivity.
Defined.

Lemma owned_page_commit_roundtrip_witness :
  owned_page_match_commit 0x23000 0x23100 (Some p_commit_page) OWNED_PAGE_BYTES (Some p_commit) (Some p_oid)
    (Some p_data_page) 4096 (Some p_binding) (Some p_hash) = OWNED_PAGE_VALID.
Proof.
  apply (owned_page_commit_roundtrip 0x23000 at_out 4096 p_commit p_oid p_data_page 4096 p_binding p_hash
    sample_commit_page 0x40000 0x23000 0x23100).
  - exact sample_commit_binding_wf.
  - exact sample_data_binding_wf.
  - vm_compute. reflexivity.
  - split; [reflexivity|]. apply is_bytesb_sound. vm_compute. reflexivity.
  - vm_compute. reflexivity.
  - vm_compute. reflexivity.
  - vm_compute. reflexivity.
Defined.

Lemma owned_page_match_commit_sound_witness :
  digest sample_hash sample_data_page = Some (slice (96 + 48) 32 sample_commit_page).
Proof.
  apply (owned_page_match_commit_sound 0x23000 0x23100 p_commit_page 4096 p_commit p_oid p_data_page 4096
    p_binding p_hash).
  - exact sample_commit_binding_wf.
  - exact sample_data_binding_wf.
  - vm_compute. reflexivity.
  - vm_compute. reflexivity.
  - reflexivity.
  - vm_compute. reflexivity.
Defined.
