(* ===== verification/SealedRecord.v ===== *)
(** The sealing scheme the 512-byte volume descriptor and the control records
    share: the fields are written, then a CRC-32 of the header with its own four
    bytes read as zero, then the provider's SHA-256 of the header behind it. *)
From S2P Require Import Prelude OwnedPage.

Section Sealing.
(** Header length, and the offsets of the CRC and of the digest. *)
Context (hdr crc_at dig_at : Z).

Definition record_crc (p : bytes) : Z := crc32 (fun i => (crc_at <=? i) && (i <? crc_at + 4)) p.

(** [None] when the digest provider fails. *)
Definition seal_record (h : owned_page_hash) (fs : list field) (base : bytes) : option bytes :=
  let p := blits fs base in
  let p := blits [put32 crc_at (record_crc (slice 0 hdr p))] p in
  match sha_digest h (slice 0 hdr p) with
  | Some value => Some (blit dig_at value p)
  | None => None
  end.

Definition sealed_record_fields (fs : list field) (c : Z) (value : bytes) : list field :=
  fs ++ [put32 crc_at c; (dig_at, value)].

Context (Hcrc : 0 <= crc_at) (Hhdr : crc_at + 4 <= hdr) (Hdig : hdr <= dig_at).

(** What a sealed record looks like: all its writes in one list, and the CRC
    and digest it carries are those of its own header. *)
Lemma seal_record_inv h fs base q :
  zlen (blits fs base) = zlen base -> dig_at + 32 <= zlen base ->
  seal_record h fs base = Some q ->
  exists c value,
    q = blits (sealed_record_fields fs c value) base /\
    zlen value = 32 /\ is_bytes value /\
    c = record_crc (slice 0 hdr q) /\ sha_digest h (slice 0 hdr q) = Some value.
Proof using All.
  intros Hf Hl. unfold seal_record. set (p := blits fs base).
  assert (Hp : zlen p = zlen base) by done.
  set (c := record_crc (slice 0 hdr p)). set (p2 := blits _ p).
  assert (Hp2 : zlen p2 = zlen base).
  { unfold p2, put32. rewrite blits_cons, blits_nil, zlen_blit; rewrite ?zlen_le; lia. }
  destruct (sha_digest h (slice 0 hdr p2)) as [value|] eqn:Hd; [|done]. intros [= <-].
  destruct (sha_digest_wf _ _ _ Hd) as [Hv Hvb].
  assert (Hpre : slice 0 hdr (blit dig_at value p2) = slice 0 hdr p2)
    by (apply slice_blit_disj; lia).
  exists c, value. rewrite Hpre. split_and!; [|done|done| |done].
  - unfold sealed_record_fields, p2, p, put32. rewrite !blits_app.
    by rewrite !blits_cons, !blits_nil.
  - unfold p2, put32. rewrite blits_cons, blits_nil.
    rewrite (slice_blit_in crc_at) by (rewrite ?zlen_le; lia).
    unfold c, record_crc. rewrite crc32_blit_skipped; [done|lia| |].
    + rewrite zlen_slice, zlen_le by lia. lia.
    + intros i. rewrite zlen_le. lia.
Qed.

Lemma record_crc_range p : is_bytes p -> 0 <= record_crc p < 2 ^ 32.
Proof using. apply crc32_range. Qed.
End Sealing.
