(* ===== verification/OwnedVolume.v ===== *)
(** The owned-volume descriptor ([owned_volume_descriptor.c/.h]): a 512-byte
    record that binds a device, a volume, its recipient and preservation digests
    and an ordered table of 32 map blocks and 2 control blocks, and the mapping
    of the 2048 logical pages onto physical rows. *)
From S2P Require Import Prelude OwnedPage SealedRecord.

Definition OWNED_VOLUME_DESCRIPTOR_BYTES : Z := 512.
Definition OWNED_VOLUME_HEADER_BYTES : Z := 352.
Definition OWNED_VOLUME_DIGEST_OFFSET : Z := 352.
Definition OWNED_VOLUME_PADDING_OFFSET : Z := 384.
Definition OWNED_VOLUME_MAP_BLOCKS : Z := 32.
Definition OWNED_VOLUME_CONTROL_BLOCKS : Z := 2.
Definition OWNED_VOLUME_PAGES_PER_BLOCK : Z := 64.
Definition OWNED_VOLUME_LOGICAL_PAGES : Z := 2048.
Definition OWNED_VOLUME_BLOCK_LIMIT : Z := 1536.

Inductive owned_volume_result :=
| OWNED_VOLUME_VALID
| OWNED_VOLUME_NOT_VALID
| OWNED_VOLUME_ARGUMENT
| OWNED_VOLUME_HASH_ERROR.
#[export] Instance owned_volume_result_eq : EqDecision owned_volume_result.
Proof. solve_decision. Defined.

Record owned_volume_spec := {
  vs_device_id : bytes;
  vs_volume_id : bytes;
  vs_generation : Z;
  vs_recipient_fingerprint : bytes;
  vs_preservation_manifest_sha256 : bytes;
  vs_map_blocks : list Z;
  vs_control_blocks : list Z
}.
Record owned_volume_decoded := { vd_spec : owned_volume_spec; vd_digest : bytes }.

Definition sizeof_owned_volume_spec : Z := 240.
Definition sizeof_owned_volume_decoded : Z := 272.

Definition volume_magic : bytes := [0x4f; 0x50; 0x4e; 0x44; 0x56; 0x44; 0x31; 0].
Definition owned_volume_dhara_sha256 : bytes :=
  [0xfc; 0x38; 0x49; 0x09; 0x4b; 0x35; 0x4c; 0x7b; 0xc4; 0x74; 0xa1; 0x65; 0xcf; 0x08; 0xcf; 0xf0;
   0xe3; 0x6a; 0x9e; 0x33; 0x95; 0x4a; 0xf8; 0x5f; 0xb7; 0x8b; 0xfd; 0x6b; 0xac; 0x3a; 0x3c; 0xbd].

Definition block_valid (b : Z) : bool :=
  (b <? OWNED_VOLUME_BLOCK_LIMIT) && negb ((1549 <=? b) && (b <=? 1569)).

(** The three loops of [spec_valid]: every block valid, no block repeats an
    earlier one, no map block is a control block. *)
Fixpoint blocks_ok (earlier blocks control : list Z) : bool :=
  match blocks with
  | [] => true
  | b :: blocks =>
      block_valid b && forallb (fun a => negb (b =? a)) earlier &&
      forallb (fun c => negb (b =? c)) control && blocks_ok (earlier ++ [b]) blocks control
  end.

Definition spec_valid (s : ptr owned_volume_spec) : bool :=
  match s with
  | None => false
  | Some s =>
      let s := deref s in
      identity (vs_device_id s) && identity (vs_volume_id s) &&
      negb (vs_generation s =? 0) && (vs_generation s <=? INT64_MAX) &&
      identity (vs_recipient_fingerprint s) && identity (vs_preservation_manifest_sha256 s) &&
      blocks_ok [] (vs_map_blocks s) (vs_control_blocks s) &&
      blocks_ok [] (vs_control_blocks s) []
  end.

Definition volume_crc (p : bytes) : Z := crc32 (fun i => (320 <=? i) && (i <? 324)) p.
Definition volume_digest (h : owned_page_hash) (p : bytes) : option bytes :=
  sha_digest h (slice 0 OWNED_VOLUME_HEADER_BYTES p).

Definition volume_fields (s : owned_volume_spec) : list field :=
  [(0, fill OWNED_VOLUME_HEADER_BYTES 0); (0, volume_magic);
   put16 8 1; put16 10 OWNED_VOLUME_HEADER_BYTES;
   put32 12 OWNED_VOLUME_DESCRIPTOR_BYTES;
   (16, vs_device_id s); (32, vs_volume_id s); put64 48 (vs_generation s);
   put32 56 4096; put16 60 256; put16 62 64; put32 64 2048;
   put16 68 32; put16 70 2; (72, [1]); (73, [1]); put16 74 1;
   (76, owned_volume_dhara_sha256);
   (108, vs_recipient_fingerprint s); (140, vs_preservation_manifest_sha256 s)] ++
  table 172 4 (map (le 4) (vs_map_blocks s)) ++
  table 300 4 (map (le 4) (vs_control_blocks s)) ++
  [put16 308 OWNED_VOLUME_BLOCK_LIMIT].

Definition volume_encode (p : bytes) (s : owned_volume_spec) : bytes :=
  let p := blits (volume_fields s) p in
  blits [put32 320 (volume_crc (slice 0 OWNED_VOLUME_HEADER_BYTES p))] p.

Definition volume_matches (p : bytes) (s : owned_volume_spec) : bool :=
  equal (slice 0 8 p) volume_magic && (get16 8 p =? 1) && (get16 10 p =? OWNED_VOLUME_HEADER_BYTES) &&
  (get32 12 p =? OWNED_VOLUME_DESCRIPTOR_BYTES) && equal (slice 16 16 p) (vs_device_id s) &&
  equal (slice 32 16 p) (vs_volume_id s) && (get64 48 p =? vs_generation s) &&
  (get32 56 p =? 4096) && (get16 60 p =? 256) && (get16 62 p =? 64) && (get32 64 p =? 2048) &&
  (get16 68 p =? 32) && (get16 70 p =? 2) && (znth 72 p =? 1) && (znth 73 p =? 1) && (get16 74 p =? 1) &&
  equal (slice 76 32 p) owned_volume_dhara_sha256 &&
  equal (slice 108 32 p) (vs_recipient_fingerprint s) &&
  equal (slice 140 32 p) (vs_preservation_manifest_sha256 s) &&
  (get16 308 p =? OWNED_VOLUME_BLOCK_LIMIT) && all (slice 310 10 p) 0 && all (slice 324 28 p) 0 &&
  forallb (fun '(v, b) => v =? b) (combine (get_table 172 32 p) (vs_map_blocks s)) &&
  forallb (fun '(v, b) => v =? b) (combine (get_table 300 2 p) (vs_control_blocks s)).

(** Builders and decoders return what they write; [None] is an untouched output. *)
Definition owned_volume_descriptor_build (out : ptr bytes) (out_size : Z)
    (spec : ptr owned_volume_spec) (hash : ptr owned_page_hash) : owned_volume_result * option bytes :=
  match out, spec, hash with
  | Some _, Some s, Some h =>
      if negb (out_size =? OWNED_VOLUME_DESCRIPTOR_BYTES) || negb (spec_valid spec) ||
         negb (hash_valid hash) || poverlap out out_size spec sizeof_owned_volume_spec ||
         poverlap out out_size hash sizeof_owned_page_hash
      then (OWNED_VOLUME_ARGUMENT, None)
      else
        let p := volume_encode (fill out_size 0xff) (deref s) in
        match volume_digest (deref h) p with
        | Some value => (OWNED_VOLUME_VALID, Some (blit OWNED_VOLUME_DIGEST_OFFSET value p))
        | None => (OWNED_VOLUME_HASH_ERROR, Some (fill out_size 0))
        end
  | _, _, _ => (OWNED_VOLUME_ARGUMENT, None)
  end.

Definition empty_spec : owned_volume_spec :=
  {| vs_device_id := fill 16 0; vs_volume_id := fill 16 0; vs_generation := 0;
     vs_recipient_fingerprint := fill 32 0; vs_preservation_manifest_sha256 := fill 32 0;
     vs_map_blocks := fill OWNED_VOLUME_MAP_BLOCKS 0; vs_control_blocks := fill OWNED_VOLUME_CONTROL_BLOCKS 0 |}.
Definition cleared_decoded : owned_volume_decoded := {| vd_spec := empty_spec; vd_digest := fill 32 0 |}.

Definition decode_spec (p : bytes) : owned_volume_spec :=
  {| vs_device_id := slice 16 16 p; vs_volume_id := slice 32 16 p; vs_generation := get64 48 p;
     vs_recipient_fingerprint := slice 108 32 p; vs_preservation_manifest_sha256 := slice 140 32 p;
     vs_map_blocks := get_table 172 32 p;
     vs_control_blocks := get_table 300 2 p |}.

(** The checks on the bytes, once the arguments are accepted. *)
Definition validate_descriptor (p : bytes) (s : owned_volume_spec) (h : owned_page_hash)
  : owned_volume_result * owned_volume_decoded :=
  if negb (volume_matches p s) ||
     negb (get32 320 p =? volume_crc (slice 0 OWNED_VOLUME_HEADER_BYTES p)) ||
     negb (all (slice OWNED_VOLUME_PADDING_OFFSET 128 p) 0xff)
  then (OWNED_VOLUME_NOT_VALID, cleared_decoded)
  else match volume_digest h p with
       | None => (OWNED_VOLUME_HASH_ERROR, cleared_decoded)
       | Some value =>
           if negb (equal value (slice OWNED_VOLUME_DIGEST_OFFSET 32 p))
           then (OWNED_VOLUME_NOT_VALID, cleared_decoded)
           else (OWNED_VOLUME_VALID, {| vd_spec := decode_spec p; vd_digest := value |})
       end.

Definition owned_volume_descriptor_validate (p : ptr bytes) (size : Z)
    (expected : ptr owned_volume_spec) (hash : ptr owned_page_hash)
    (decoded : ptr owned_volume_decoded) : owned_volume_result * option owned_volume_decoded :=
  match decoded with
  | None => (OWNED_VOLUME_ARGUMENT, None)
  | Some _ =>
      if poverlap decoded sizeof_owned_volume_decoded p size ||
         poverlap decoded sizeof_owned_volume_decoded expected sizeof_owned_volume_spec ||
         poverlap decoded sizeof_owned_volume_decoded hash sizeof_owned_page_hash
      then (OWNED_VOLUME_ARGUMENT, None)
      else
        match p, expected, hash with
        | Some b, Some s, Some h =>
            if negb (size =? OWNED_VOLUME_DESCRIPTOR_BYTES) || negb (spec_valid expected) ||
               negb (hash_valid hash) || poverlap p size expected sizeof_owned_volume_spec ||
               poverlap p size hash sizeof_owned_page_hash
            then (OWNED_VOLUME_ARGUMENT, Some cleared_decoded)
            else let '(rc, d) := validate_descriptor (slice 0 size (deref b)) (deref s) (deref h) in
                 (rc, Some d)
        | _, _, _ => (OWNED_VOLUME_ARGUMENT, Some cleared_decoded)
        end
  end.

(** [decoded_addr] is the address of the function's own decoded descriptor; the
    result carries the row stored to [*physical_row], if any. *)
Definition owned_volume_descriptor_map (decoded_addr : Z) (p : ptr bytes) (size : Z)
    (expected : ptr owned_volume_spec) (hash : ptr owned_page_hash) (logical_page : Z)
    (physical_row : ptr Z) : owned_volume_result * option Z :=
  match physical_row with
  | None => (OWNED_VOLUME_ARGUMENT, None)
  | Some _ =>
      if (OWNED_VOLUME_LOGICAL_PAGES <=? logical_page) || poverlap physical_row 4 p size ||
         poverlap physical_row 4 expected sizeof_owned_volume_spec ||
         poverlap physical_row 4 hash sizeof_owned_page_hash
      then (OWNED_VOLUME_ARGUMENT, None)
      else
        match owned_volume_descriptor_validate p size expected hash (Some (Obj decoded_addr cleared_decoded)) with
        | (OWNED_VOLUME_VALID, Some d) =>
            let block := znth (logical_page / OWNED_VOLUME_PAGES_PER_BLOCK) (vs_map_blocks (vd_spec d)) in
            if negb (block_valid block) || ((UINT32_MAX - 63) / OWNED_VOLUME_PAGES_PER_BLOCK <? block)
            then (OWNED_VOLUME_NOT_VALID, None)
            else (OWNED_VOLUME_VALID,
                  Some (u32 (block * OWNED_VOLUME_PAGES_PER_BLOCK + logical_page mod OWNED_VOLUME_PAGES_PER_BLOCK)))
        | (rc, _) => (rc, None)
        end
  end.

(** * Well-typed specifications and the layout of a descriptor *)
Record spec_wf (s : owned_volume_spec) : Prop := {
  vwf_device : zlen (vs_device_id s) = 16 /\ is_bytes (vs_device_id s);
  vwf_volume : zlen (vs_volume_id s) = 16 /\ is_bytes (vs_volume_id s);
  vwf_generation : 0 <= vs_generation s < 2 ^ 64;
  vwf_recipient : zlen (vs_recipient_fingerprint s) = 32 /\ is_bytes (vs_recipient_fingerprint s);
  vwf_manifest : zlen (vs_preservation_manifest_sha256 s) = 32 /\ is_bytes (vs_preservation_manifest_sha256 s);
  vwf_map : zlen (vs_map_blocks s) = 32 /\ Forall is_word (vs_map_blocks s);
  vwf_control : zlen (vs_control_blocks s) = 2 /\ Forall is_word (vs_control_blocks s)
}.

(** The writes of [volume_encode] with each table as one write. *)
Definition volume_flat (s : owned_volume_spec) (c : Z) : list field :=
  [(0, fill OWNED_VOLUME_HEADER_BYTES 0); (0, volume_magic);
   put16 8 1; put16 10 OWNED_VOLUME_HEADER_BYTES;
   put32 12 OWNED_VOLUME_DESCRIPTOR_BYTES;
   (16, vs_device_id s); (32, vs_volume_id s); put64 48 (vs_generation s);
   put32 56 4096; put16 60 256; put16 62 64; put32 64 2048;
   put16 68 32; put16 70 2; (72, [1]); (73, [1]); put16 74 1;
   (76, owned_volume_dhara_sha256);
   (108, vs_recipient_fingerprint s); (140, vs_preservation_manifest_sha256 s);
   (172, words (vs_map_blocks s)); (300, words (vs_control_blocks s));
   put16 308 OWNED_VOLUME_BLOCK_LIMIT; put32 320 c].
Definition volume_shape : list (Z * Z) :=
  [(0, 352); (0, 8); (8, 2); (10, 2); (12, 4); (16, 16); (32, 16); (48, 8); (56, 4); (60, 2); (62, 2);
   (64, 4); (68, 2); (70, 2); (72, 1); (73, 1); (74, 2); (76, 32); (108, 32); (140, 32); (172, 128);
   (300, 8); (308, 2); (320, 4)].

Lemma volume_flat_shape s c : spec_wf s -> shape_of (volume_flat s c) = volume_shape.
Proof.
  intros [[Hd _] [Hv _] _ [Hr _] [Hm _] [Hb _] [Hc _]]. unfold shape_of. simpl.
  by rewrite Hd, Hv, Hr, Hm, !zlen_words, Hb, Hc.
Qed.

Lemma volume_fields_flat s p :
  spec_wf s -> zlen p = 512 -> blits (volume_fields s) p = blits (take 23 (volume_flat s 0)) p.
Proof.
  intros Hs Hp. pose proof (volume_flat_shape s 0 Hs) as Hsh.
  assert (Hz : forall k, zlen (blits (take k (volume_flat s 0)) p) = 512).
  { intros k. by rewrite (zlen_blits_take k _ p _ Hsh) by by rewrite Hp. }
  destruct Hs as [_ _ _ _ _ [Hm _] [Hc _]].
  unfold volume_fields. rewrite !blits_app.
  rewrite (blits_words 172); [|lia|etrans; [|apply Z.eq_le_incl; symmetry; apply (Hz 20%nat)]; lia].
  rewrite (blits_words 300); [|lia|etrans; [|apply Z.eq_le_incl; symmetry; apply (Hz 21%nat)]; lia].
  change (take 23 (volume_flat s 0)) with
    (take 20 (volume_flat s 0) ++ [(172, words (vs_map_blocks s))] ++ [(300, words (vs_control_blocks s))] ++
     [put16 308 OWNED_VOLUME_BLOCK_LIMIT]).
  rewrite !blits_app, !(blits_cons 172), !(blits_cons 300), !blits_nil. reflexivity.
Qed.

Definition sealed_volume (s : owned_volume_spec) (c : Z) (value : bytes) : bytes :=
  blits (volume_flat s c ++ [(352, value)]) (fill 512 0xff).

Lemma volume_sealed_shape s c value :
  spec_wf s -> zlen value = 32 ->
  shape_of (volume_flat s c ++ [(352, value)]) = volume_shape ++ [(352, 32)].
Proof.
  intros Hs Hv. unfold shape_of. rewrite map_app. fold (shape_of (volume_flat s c)).
  rewrite volume_flat_shape by done. simpl. by rewrite Hv.
Qed.

(** The two ways a descriptor build ends once its arguments are accepted. *)
Lemma volume_seal s h :
  spec_wf s ->
  let p := volume_encode (fill 512 0xff) s in
  seal_record 352 320 352 h (take 23 (volume_flat s 0)) (fill 512 0xff) =
    match volume_digest h p with
    | Some value => Some (blit OWNED_VOLUME_DIGEST_OFFSET value p)
    | None => None
    end.
Proof.
  intros Hs. cbv zeta. unfold seal_record, volume_encode, volume_digest.
  rewrite <- (volume_fields_flat s (fill 512 255)); [reflexivity|done|by rewrite zlen_fill by lia].
Qed.

Lemma volume_build_inv out n s h q :
  owned_volume_descriptor_build out n s h = (OWNED_VOLUME_VALID, Some q) ->
  exists s0 h0, s = Some s0 /\ h = Some h0 /\ n = 512 /\ spec_valid s = true /\ hash_valid h = true /\
    (spec_wf (deref s0) ->
     exists c value, q = sealed_volume (deref s0) c value /\ zlen value = 32 /\ is_bytes value /\
       c = volume_crc (slice 0 352 q) /\ volume_digest (deref h0) q = Some value).
Proof.
  unfold owned_volume_descriptor_build. destruct out as [o|], s as [s0|], h as [h0|]; try done.
  destruct (_ || _) eqn:Hg; [done|]. rewrite !orb_false_iff, !negb_false_iff, Z.eqb_eq in Hg.
  destruct Hg as [[[[-> Hs] Hh] _] _]. intros Hq. exists s0, h0. split_and!; [done..|].
  intros Hw. pose proof (volume_seal _ (deref h0) Hw) as Hseal. cbv zeta in Hseal.
  change (fill OWNED_VOLUME_DESCRIPTOR_BYTES 255) with (fill 512 255) in Hq.
  destruct (volume_digest _ _) as [value|]; [|done]. injection Hq as Hq. rewrite Hq in Hseal. clear Hq.
  apply seal_record_inv in Hseal as (c & v & Hq & ? & ? & Hc & ?); [|lia|lia|lia| |].
  - by exists c, v.
  - apply (zlen_blits_take _ _ _ volume_shape); [by apply volume_flat_shape|by rewrite zlen_fill by lia].
  - rewrite zlen_fill; lia.
Qed.

(** The arguments of a validation call do not overlap. *)
Definition volume_args_separate (d : ptr owned_volume_decoded) (p : ptr bytes)
    (s : ptr owned_volume_spec) (h : ptr owned_page_hash) : bool :=
  negb (poverlap d sizeof_owned_volume_decoded p OWNED_VOLUME_DESCRIPTOR_BYTES) &&
  negb (poverlap d sizeof_owned_volume_decoded s sizeof_owned_volume_spec) &&
  negb (poverlap d sizeof_owned_volume_decoded h sizeof_owned_page_hash) &&
  negb (poverlap p OWNED_VOLUME_DESCRIPTOR_BYTES s sizeof_owned_volume_spec) &&
  negb (poverlap p OWNED_VOLUME_DESCRIPTOR_BYTES h sizeof_owned_page_hash).

Lemma owned_volume_validate_apart d p s h :
  zlen (deref p) = 512 -> volume_args_separate (Some d) (Some p) (Some s) (Some h) = true ->
  spec_valid (Some s) = true -> hash_valid (Some h) = true ->
  owned_volume_descriptor_validate (Some p) 512 (Some s) (Some h) (Some d) =
    let '(rc, w) := validate_descriptor (deref p) (deref s) (deref h) in (rc, Some w).
Proof.
  unfold volume_args_separate, OWNED_VOLUME_DESCRIPTOR_BYTES. intros Hl.
  rewrite !andb_true_iff, !negb_true_iff. intros [[[[H1 H2] H3] H4] H5] Hs Hh.
  unfold owned_volume_descriptor_validate, OWNED_VOLUME_DESCRIPTOR_BYTES.
  rewrite H1, H2, H3, Hs, Hh, Z.eqb_refl, H4, H5. cbn [negb orb]. by rewrite (slice_all' _ _ Hl).
Qed.

Lemma owned_volume_validate_inv p n s h d r :
  owned_volume_descriptor_validate p n s h d = (OWNED_VOLUME_VALID, r) ->
  exists p0 s0 h0 w, p = Some p0 /\ s = Some s0 /\ h = Some h0 /\ r = Some w /\ n = 512 /\
    spec_valid s = true /\ validate_descriptor (slice 0 n (deref p0)) (deref s0) (deref h0) = (OWNED_VOLUME_VALID, w).
Proof.
  unfold owned_volume_descriptor_validate. destruct d as [d|]; [|done]. destruct (_ || _); [done|].
  destruct p as [p0|], s as [s0|], h as [h0|]; try done.
  destruct (_ || _) eqn:Hg; [done|]. rewrite !orb_false_iff, !negb_false_iff, Z.eqb_eq in Hg.
  destruct Hg as [[[[-> ?] _] _] _]. destruct (validate_descriptor _ _ _) as [rc w] eqn:Hv.
  intros [= -> <-]. by exists p0, s0, h0, w.
Qed.

Lemma validate_descriptor_inv p s h w :
  validate_descriptor p s h = (OWNED_VOLUME_VALID, w) ->
  volume_matches p s = true /\
  volume_digest h p = Some (vd_digest w) /\ equal (vd_digest w) (slice 352 32 p) = true /\
  vd_spec w = decode_spec p.
Proof.
  unfold validate_descriptor. destruct (_ || _) eqn:Hg; [done|].
  rewrite !orb_false_iff, !negb_false_iff in Hg. destruct Hg as [[? _] _].
  destruct (volume_digest _ _) as [value|]; [|done].
  destruct (equal _ _) eqn:He; [|done]. by intros [= <-].
Qed.

(** A descriptor that matches a specification decodes to it. *)
Lemma volume_matches_decode p s :
  spec_wf s -> zlen p = 512 -> volume_matches p s = true -> decode_spec p = s.
Proof.
  intros [[Hd _] [Hv _] _ [Hr _] [Hm _] [Hb _] [Hc _]] Hl. unfold volume_matches.
  rewrite !andb_true_iff, !Z.eqb_eq. intros H. destruct_and! H.
  repeat match goal with
  | He : equal (slice ?o ?n p) ?x = true |- _ =>
      apply equal_spec in He; [|rewrite zlen_slice by lia; (done || by vm_compute || lia)]
  | He : forallb _ (combine _ _) = true |- _ =>
      apply forallb_combine_eq in He; [|rewrite length_get_table; unfold zlen in *; lia]
  end.
  unfold decode_spec. destruct s; simpl in *. congruence.
Qed.

(** A sealed descriptor matches its specification. *)
Lemma sealed_volume_matches s c value :
  spec_wf s -> zlen value = 32 -> 0 <= c < 2 ^ 32 ->
  let p := sealed_volume s c value in
  zlen p = 512 /\ volume_matches p s = true /\ get32 320 p = c /\
  slice 352 32 p = value /\ slice 384 128 p = fill 128 0xff.
Proof.
  intros Hs Hval Hc. cbv zeta. unfold sealed_volume.
  pose proof (volume_sealed_shape s c value Hs Hval) as Hsh.
  set (fs := volume_flat s c ++ _) in *. set (base := fill 512 _).
  assert (Hbl : zlen base = 512) by by apply zlen_fill.
  assert (Hl : zlen (blits fs base) = 512) by (rewrite zlen_blits; [done|]; by rewrite Hsh, Hbl).
  assert (Hfit : fits 512 (volume_shape ++ [(352, 32)]) = true) by done.
  destruct Hs as [[? _] [? _] ? [? _] [? _] [Hm Hmw] [Hcl Hcw]].
  split_and!; [done| |read_back; done|read_back; done|].
  2:{ erewrite blits_read_base; [|eassumption|eassumption|done..]. unfold base. by rewrite slice_fill by lia. }
  unfold volume_matches.
  assert (get_table 172 32 (blits fs base) = vs_map_blocks s) as ->.
  { replace 32%nat with (length (vs_map_blocks s)) by (unfold zlen in Hm; lia).
    apply get_table_words; [lia|done|]. rewrite Hm. read_back. by rewrite zlen_words, Hm. }
  assert (get_table 300 2 (blits fs base) = vs_control_blocks s) as ->.
  { replace 2%nat with (length (vs_control_blocks s)) by (unfold zlen in Hcl; lia).
    apply get_table_words; [lia|done|]. rewrite Hcl. read_back. by rewrite zlen_words, Hcl. }
  assert (znth 72 (blits fs base) = 1) as -> by (apply znth_slice; read_back; done).
  assert (znth 73 (blits fs base) = 1) as -> by (apply znth_slice; read_back; done).
  assert (slice 310 10 (blits fs base) = fill 10 0) as -> by (read_zero; done).
  assert (slice 324 28 (blits fs base) = fill 28 0) as -> by (read_zero; done).
  assert (slice 0 8 (blits fs base) = volume_magic) as -> by (read_back; done).
  assert (slice 16 16 (blits fs base) = vs_device_id s) as -> by (read_back; done).
  assert (slice 32 16 (blits fs base) = vs_volume_id s) as -> by (read_back; done).
  assert (slice 76 32 (blits fs base) = owned_volume_dhara_sha256) as -> by (read_back; done).
  assert (slice 108 32 (blits fs base) = vs_recipient_fingerprint s) as -> by (read_back; done).
  assert (slice 140 32 (blits fs base) = vs_preservation_manifest_sha256 s) as -> by (read_back; done).
  rewrite !equal_refl, !all_fill, !(proj2 (forallb_combine_eq _ _ eq_refl)) by done.
  rewrite !andb_true_iff, !Z.eqb_eq. split_and!; try done; read_back; done.
Qed.

Lemma validate_sealed_volume s h c value :
  spec_wf s -> zlen value = 32 -> is_bytes value -> 
  c = volume_crc (slice 0 352 (sealed_volume s c value)) ->
  volume_digest h (sealed_volume s c value) = Some value ->
  validate_descriptor (sealed_volume s c value) s h =
    (OWNED_VOLUME_VALID, {| vd_spec := s; vd_digest := value |}).
Proof.
  intros Hs Hv Hvb Hc Hd.
  assert (Hb : is_bytes (sealed_volume s c value)).
  { apply is_bytes_blits; [|by apply is_bytes_fill].
    destruct Hs as [[_ ?] [_ ?] _ [_ ?] [_ ?] _ _].
    unfold volume_flat, put16, put32, put64. cbn [app]. bytes_fields. }
  assert (0 <= c < 2 ^ 32) by (rewrite Hc; by apply crc32_range, is_bytes_slice).
  destruct (sealed_volume_matches s c value) as (Hl & Hm & Hcrc & Hdg & Hpad); [done..|].
  pose proof (volume_matches_decode _ _ Hs Hl Hm) as Hdec.
  set (p := sealed_volume s c value) in *. unfold validate_descriptor.
  unfold OWNED_VOLUME_HEADER_BYTES, OWNED_VOLUME_PADDING_OFFSET, OWNED_VOLUME_DIGEST_OFFSET.
  by rewrite Hm, Hcrc, <- Hc, Hpad, Z.eqb_refl, all_fill, Hd, Hdg, equal_refl, Hdec.
Qed.

Lemma forallb_neq_spec b l : forallb (fun a => negb (b =? a)) l = true <-> b ∉ l.
Proof.
  rewrite forallb_forall; split.
  - intros H Hin. apply list_elem_of_In in Hin. specialize (H _ Hin). lia.
  - intros H a Ha. apply list_elem_of_In in Ha. destruct (Z.eqb_spec b a); [by subst|done].
Qed.

Lemma blocks_ok_spec earlier blocks control :
  blocks_ok earlier blocks control = true ->
  NoDup blocks /\ Forall (fun b => block_valid b = true /\ (b ∉ earlier) /\ (b ∉ control)) blocks.
Proof.
  revert earlier. induction blocks as [|b blocks IH]; intros earlier; cbn [blocks_ok].
  { intros _. split; constructor. }
  rewrite !andb_true_iff, !forallb_neq_spec. intros [[[Hb He] Hc] [Hn Hf]%IH].
  split; [apply NoDup_cons|apply Forall_cons]; split.
  - intros Hin. rewrite Forall_forall in Hf. apply Hf in Hin as (_ & Hin & _). set_solver.
  - done.
  - done.
  - eapply Forall_impl; [exact Hf|]. intros x (? & ? & ?). set_solver.
Qed.

Lemma spec_valid_blocks s :
  spec_valid (Some s) = true ->
  NoDup (vs_map_blocks (deref s)) /\
  Forall (fun b => block_valid b = true /\ b ∉ vs_control_blocks (deref s)) (vs_map_blocks (deref s)).
Proof.
  cbn [spec_valid]. rewrite !andb_true_iff. intros [[_ H] _].
  apply blocks_ok_spec in H as [? H]. split; [done|]. eapply Forall_impl; [exact H|]. by intros x (? & _ & ?).
Qed.

Lemma znth_lookup i (l : list Z) : 0 <= i < zlen l -> l !! Z.to_nat i = Some (znth i l).
Proof.
  intros Hi. unfold znth, zlen in *. destruct (l !! Z.to_nat i) as [x|] eqn:E.
  - by rewrite (nth_lookup_Some _ _ _ _ E).
  - apply lookup_ge_None in E. lia.
Qed.

Lemma map_block_facts s i :
  spec_valid (Some s) = true -> spec_wf (deref s) -> 0 <= i < 32 ->
  let b := znth i (vs_map_blocks (deref s)) in
  0 <= b < 1536 /\ block_valid b = true /\ (b ∉ vs_control_blocks (deref s)) /\
  (forall k, 0 <= k < 32 -> znth k (vs_map_blocks (deref s)) = b -> k = i).
Proof.
  intros Hs [_ _ _ _ _ [Hl Hw] _] Hi. cbv zeta.
  destruct (spec_valid_blocks s Hs) as [Hn Hf].
  pose proof (znth_lookup i (vs_map_blocks (deref s)) ltac:(lia)) as Hb.
  pose proof (Forall_lookup_1 _ _ _ _ Hf Hb) as [Hv Hc].
  pose proof (Forall_lookup_1 _ _ _ _ Hw Hb) as Hr. unfold is_word in Hr.
  split; [|split; [done|split; [done|]]].
  - unfold block_valid, OWNED_VOLUME_BLOCK_LIMIT in Hv. lia.
  - intros k Hk E. pose proof (znth_lookup k (vs_map_blocks (deref s)) ltac:(lia)) as Hkb.
    rewrite E in Hkb. pose proof (NoDup_lookup _ _ _ _ Hn Hb Hkb). lia.
Qed.

Lemma block_row_range b l :
  0 <= b < 1536 -> u32 (b * 64 + l mod 64) = b * 64 + l mod 64 /\ 0 <= b * 64 + l mod 64 < 98304.
Proof. intros. assert (0 <= l mod 64 < 64) by divlia. split; [apply u32_small; lia|lia]. Qed.

(** The mapping of an accepted descriptor, in closed form. *)
Lemma owned_volume_map_eq da p n s h l r row
    (Hwf : spec_wf (deref s)) (Hl : zlen (deref p) = 512) (Hlp : 0 <= l)
    (Hm : owned_volume_descriptor_map da (Some p) n (Some s) h l r = (OWNED_VOLUME_VALID, Some row)) :
  spec_valid (Some s) = true /\ l < 2048 /\
  row = znth (l / 64) (vs_map_blocks (deref s)) * 64 + l mod 64.
Proof.
  unfold owned_volume_descriptor_map in Hm. destruct r as [r|]; [|done].
  destruct (_ || _) eqn:Hg; [done|]. rewrite !orb_false_iff, Z.leb_gt in Hg.
  destruct Hg as [[[Hlt _] _] _].
  destruct (owned_volume_descriptor_validate _ _ _ _ _) as [rc d] eqn:Hv.
  destruct (decide (rc = OWNED_VOLUME_VALID)) as [->|]; [|by destruct rc].
  apply owned_volume_validate_inv in Hv as (? & ? & ? & w & [= <-] & [= <-] & -> & -> & -> & Hs & Hv).
  rewrite (slice_all' _ _ Hl) in Hv. apply validate_descriptor_inv in Hv as (Hmt & _ & _ & Hd).
  rewrite Hd, (volume_matches_decode _ _ Hwf Hl Hmt) in Hm.
  unfold OWNED_VOLUME_LOGICAL_PAGES, OWNED_VOLUME_PAGES_PER_BLOCK in *.
  destruct (map_block_facts s (l / 64) Hs Hwf ltac:(divlia)) as (Hr & _).
  destruct (block_row_range _ l Hr) as [E _]. rewrite E in Hm.
  destruct (_ || _) eqn:Hb in Hm; [done|]. by injection Hm as <-.
Qed.

(** A descriptor built for a specification validates against it and decodes
    to exactly that specification, with the provider's digest of its header. *)
Theorem owned_volume_descriptor_roundtrip out n s h q at_ d
    (Hwf : spec_wf (deref s))
    (Hbuild : owned_volume_descriptor_build out n (Some s) (Some h) = (OWNED_VOLUME_VALID, Some q))
    (Hsep : volume_args_separate (Some d) (Some (Obj at_ q)) (Some s) (Some h) = true) :
  exists value,
    volume_digest (deref h) q = Some value /\
    owned_volume_descriptor_validate (Some (Obj at_ q)) OWNED_VOLUME_DESCRIPTOR_BYTES (Some s) (Some h) (Some d) =
      (OWNED_VOLUME_VALID, Some {| vd_spec := deref s; vd_digest := value |}).
Proof.
  apply volume_build_inv in Hbuild as (? & ? & [= <-] & [= <-] & -> & Hs & Hh & Hq).
  destruct (Hq Hwf) as (c & value & Eq & Hv & Hvb & Hc & Hd). clear Hq.
  rewrite Eq in Hc, Hd. pose proof (validate_sealed_volume _ _ _ _ Hwf Hv Hvb Hc Hd) as Hval.
  rewrite <- Eq in Hval, Hd, Hc. exists value. split; [done|].
  change OWNED_VOLUME_DESCRIPTOR_BYTES with 512.
  rewrite owned_volume_validate_apart; [by cbn [deref]; rewrite Hval| |done..].
  cbn [deref]. rewrite Eq. apply sealed_volume_matches; [done..|].
  rewrite Hc. apply crc32_range, is_bytes_slice. rewrite Eq.
  unfold sealed_volume. apply is_bytes_blits; [|by apply is_bytes_fill].
  destruct Hwf as [[_ ?] [_ ?] _ [_ ?] [_ ?] _ _].
  unfold volume_flat, put16, put32, put64. cbn [app]. bytes_fields.
Qed.

(** The volume map never leaves the volume: the row it returns for a logical
    page is page [l mod 64] of map block [l / 64] of the trusted specification,
    below row 98304, in a usable block, and never in a control block. *)
Theorem owned_volume_map_correct da p n s h l r row
    (Hwf : spec_wf (deref s)) (Hl : zlen (deref p) = OWNED_VOLUME_DESCRIPTOR_BYTES) (Hlp : 0 <= l)
    (Hm : owned_volume_descriptor_map da (Some p) n (Some s) h l r = (OWNED_VOLUME_VALID, Some row)) :
  row = znth (l / 64) (vs_map_blocks (deref s)) * 64 + l mod 64 /\
  0 <= row < OWNED_VOLUME_BLOCK_LIMIT * OWNED_VOLUME_PAGES_PER_BLOCK /\
  block_valid (row / 64) = true /\ (row / 64 ∉ vs_control_blocks (deref s)) /\ row mod 64 = l mod 64.
Proof.
  destruct (owned_volume_map_eq da p n s h l r row Hwf Hl Hlp Hm) as (Hs & Hlt & ->).
  destruct (map_block_facts s (l / 64) Hs Hwf ltac:(divlia)) as (Hr & Hv & Hc & _).
  set (b := znth _ _) in *. destruct (block_row_range b l Hr) as [_ ?].
  assert (E : (b * 64 + l mod 64) / 64 = b) by divlia.
  assert (E2 : (b * 64 + l mod 64) mod 64 = l mod 64) by divlia.
  rewrite E, E2. split_and!; try done; unfold OWNED_VOLUME_BLOCK_LIMIT, OWNED_VOLUME_PAGES_PER_BLOCK; lia.
Qed.

(** C31. Two logical pages of one volume never share a physical row. *)
Theorem owned_volume_map_injective da1 da2 p1 p2 n1 n2 s h1 h2 l1 l2 r1 r2 row
    (Hwf : spec_wf (deref s))
    (Hl1 : zlen (deref p1) = OWNED_VOLUME_DESCRIPTOR_BYTES)
    (Hl2 : zlen (deref p2) = OWNED_VOLUME_DESCRIPTOR_BYTES)
    (Hp1 : 0 <= l1) (Hp2 : 0 <= l2)
    (M1 : owned_volume_descriptor_map da1 (Some p1) n1 (Some s) h1 l1 r1 = (OWNED_VOLUME_VALID, Some row))
    (M2 : owned_volume_descriptor_map da2 (Some p2) n2 (Some s) h2 l2 r2 = (OWNED_VOLUME_VALID, Some row)) :
  l1 = l2.
Proof.
  apply owned_volume_map_eq in M1 as (Hs & Hlt1 & E1); [|done..].
  apply owned_volume_map_eq in M2 as (_ & Hlt2 & E2); [|done..].
  destruct (map_block_facts s (l1 / 64) Hs Hwf ltac:(divlia)) as (_ & _ & _ & Hinj).
  specialize (Hinj (l2 / 64) ltac:(divlia) ltac:(divlia)). divlia.
Qed.

(** * Concrete instances *)
Definition sample_spec : owned_volume_spec :=
  {| vs_device_id := fill 16 0x11; vs_volume_id := fill 16 0x22; vs_generation := 3;
     vs_recipient_fingerprint := fill 32 0x44; vs_preservation_manifest_sha256 := fill 32 0x55;
     vs_map_blocks := map (fun i => 100 + 7 * i) (zseq 32); vs_control_blocks := [40; 41] |}.
Definition p_spec : obj owned_volume_spec := Obj 0x24000 sample_spec.
Definition sample_descriptor : bytes :=
  written (owned_volume_descriptor_build at_out 512 (Some p_spec) (Some p_hash)).
Definition p_descriptor : obj bytes := Obj 0x25000 sample_descriptor.
Definition p_decoded : obj owned_volume_decoded := Obj 0x26000 cleared_decoded.
Definition p_row : obj Z := Obj 0x27000 0.

Lemma sample_spec_wf : spec_wf sample_spec.
Proof.
  constructor; try (split; [done|by apply is_bytesb_sound]); [done|split; [done|]..].
  - apply Forall_map, Forall_seqZ. intros x Hx. unfold is_word. lia.
  - repeat constructor; done.
Qed.

Lemma owned_volume_descriptor_roundtrip_witness :
  exists value,
    volume_digest sample_hash sample_descriptor = Some value /\
    owned_volume_descriptor_validate (Some p_descriptor) OWNED_VOLUME_DESCRIPTOR_BYTES (Some p_spec) (Some p_hash)
      (Some p_decoded) = (OWNED_VOLUME_VALID, Some {| vd_spec := sample_spec; vd_digest := value |}).
Proof.
  apply (owned_volume_descriptor_roundtrip at_out 512 p_spec p_hash sample_descriptor 0x25000 p_decoded).
  - exact sample_spec_wf.
  - vm_compute. reflexivity.
  - vm_compute. reflexivity.
Defined.

Lemma owned_volume_map_correct_witness :
  owned_volume_descriptor_map 0x26000 (Some p_descriptor) 512 (Some p_spec) (Some p_hash) 131 (Some p_row) =
    (OWNED_VOLUME_VALID, Some 7299) /\ block_valid (7299 / 64) = true /\ 7299 mod 64 = 131 mod 64.
Proof.
  split; [vm_compute; reflexivity|].
  destruct (owned_volume_map_correct 0x26000 p_descriptor 512 p_spec (Some p_hash) 131 (Some p_row) 7299)
    as (_ & _ & H & _ & H').
  - exact sample_spec_wf.
  - vm_compute. reflexivity.
  - lia.
  - vm_compute. reflexivity.
  - by split.
Defined.

Lemma owned_volume_map_injective_witness : 131 = 128 + 3.
Proof.
  apply (owned_volume_map_injective 0x26000 0x26000 p_descriptor p_descriptor 512 512 p_spec (Some p_hash)
    (Some p_hash) 131 (128 + 3) (Some p_row) (Some p_row) 7299).
  - exact sample_spec_wf.
  - vm_compute. reflexivity.
  - vm_compute. reflexivity.
  - lia.
  - lia.
  - vm_compute. reflexivity.
  - vm_compute. reflexivity.
Defined.
