(* ===== verification/ControlRecord.v ===== *)
(** The owned control record ([owned_control_record.c/.h]): a sealed 4096-byte
    page per step of an append-only history of volume states and leases, and the
    selector that decides from 128 observed slots whether the visible history is
    complete and clean. *)
From S2P Require Import Prelude OwnedPage SealedRecord OwnedVolume.

Definition OWNED_CONTROL_PAGE_BYTES : Z := 4096.
Definition OWNED_CONTROL_HEADER_BYTES : Z := 192.
Definition OWNED_CONTROL_DIGEST_OFFSET : Z := 192.
Definition OWNED_CONTROL_PADDING_OFFSET : Z := 224.
Definition OWNED_CONTROL_RECORDS : Z := 128.
Definition OWNED_CONTROL_NO_TARGET : Z := UINT32_MAX.

(** [enum owned_control_state], [_lease], [_resolution]: stored as [uint32_t]. *)
Definition OWNED_CONTROL_PROVISIONING : Z := 1.
Definition OWNED_CONTROL_ACTIVE : Z := 2.
Definition OWNED_CONTROL_READ_ONLY : Z := 3.
Definition OWNED_CONTROL_NO_LEASE : Z := 0.
Definition OWNED_CONTROL_ERASE_BLOCK : Z := 1.
Definition OWNED_CONTROL_PROGRAM_PAGE : Z := 2.
Definition OWNED_CONTROL_UNRESOLVED : Z := 0.
Definition OWNED_CONTROL_VERIFIED_COMPLETE : Z := 1.
Definition OWNED_CONTROL_ABANDONED_RETIRED : Z := 2.

Inductive owned_control_result :=
| OWNED_CONTROL_VALID
| OWNED_CONTROL_NOT_VALID
| OWNED_CONTROL_ARGUMENT
| OWNED_CONTROL_HASH_ERROR.
#[export] Instance owned_control_result_eq : EqDecision owned_control_result.
Proof. solve_decision. Defined.

Record owned_control_record := {
  cr_sequence : Z;
  cr_previous_sequence : Z;
  cr_previous_digest : bytes;
  cr_state : Z;
  cr_lease_kind : Z;
  cr_lease_id : Z;
  cr_target_map_slot : Z;
  cr_target_page : Z;
  cr_target_physical_row : Z;
  cr_bank : Z;
  cr_slot : Z;
  cr_physical_row : Z;
  cr_retired_map : Z;
  cr_retired_control : Z;
  cr_resolution : Z;
  cr_resolved_lease_id : Z;
  cr_lease_high_water : Z
}.
Record owned_control_decoded := { cd_record : owned_control_record; cd_digest : bytes }.

Definition sizeof_owned_control_record : Z := 120.
Definition sizeof_owned_control_decoded : Z := 152.

Definition control_magic : bytes := [0x4f; 0x50; 0x4e; 0x44; 0x43; 0x54; 0x31; 0].

(** A block's row in 32-bit arithmetic: [block*64U+page]. *)
Definition row_of (block page : Z) : Z := u32 (block * 64 + page).

Definition ct_history_valid (r : owned_control_record) : bool :=
  if cr_sequence r =? 1 then
    (cr_previous_sequence r =? 0) && all (cr_previous_digest r) 0 &&
    (cr_state r =? OWNED_CONTROL_PROVISIONING) && (cr_lease_kind r =? 0) &&
    (cr_lease_high_water r =? 0) && (cr_resolved_lease_id r =? 0) && (cr_resolution r =? 0)
  else
    (cr_previous_sequence r =? u64 (cr_sequence r - 1)) && negb (all (cr_previous_digest r) 0) &&
    negb (all (cr_previous_digest r) 0xff).

Definition ct_lease_valid (r : owned_control_record) (s : owned_volume_spec) : bool :=
  if cr_lease_kind r =? OWNED_CONTROL_NO_LEASE then
    if negb (cr_lease_id r =? 0) || negb (cr_target_map_slot r =? OWNED_CONTROL_NO_TARGET) ||
       negb (cr_target_page r =? OWNED_CONTROL_NO_TARGET) ||
       negb (cr_target_physical_row r =? OWNED_CONTROL_NO_TARGET) then false
    else if cr_resolution r =? OWNED_CONTROL_UNRESOLVED then cr_resolved_lease_id r =? 0
    else negb (cr_resolved_lease_id r =? 0) && (cr_resolved_lease_id r =? cr_lease_high_water r) &&
         (negb (cr_resolution r =? OWNED_CONTROL_ABANDONED_RETIRED) || (cr_state r =? OWNED_CONTROL_READ_ONLY))
  else if (cr_lease_id r =? 0) || negb (cr_lease_id r =? cr_lease_high_water r) ||
          negb (cr_resolution r =? 0) || negb (cr_resolved_lease_id r =? 0) ||
          (32 <=? cr_target_map_slot r) || (64 <=? cr_target_page r) ||
          ((cr_lease_kind r =? OWNED_CONTROL_ERASE_BLOCK) && negb (cr_target_page r =? 0)) ||
          negb (cr_target_physical_row r =?
                row_of (znth (cr_target_map_slot r) (vs_map_blocks s)) (cr_target_page r))
  then false
  else negb (has_bit (cr_retired_map r) (cr_target_map_slot r)) || (cr_state r =? OWNED_CONTROL_READ_ONLY).

Definition ct_record_valid (r : owned_control_record) (s : owned_volume_spec) : bool :=
  if (cr_sequence r =? 0) || (INT64_MAX <? cr_sequence r) || (INT64_MAX <? cr_previous_sequence r) ||
     (cr_state r <? OWNED_CONTROL_PROVISIONING) || (OWNED_CONTROL_READ_ONLY <? cr_state r) ||
     (2 <=? cr_bank r) || (64 <=? cr_slot r) || (3 <? cr_retired_control r) ||
     negb (cr_physical_row r =? row_of (znth (cr_bank r) (vs_control_blocks s)) (cr_slot r)) ||
     (OWNED_CONTROL_PROGRAM_PAGE <? cr_lease_kind r) ||
     (OWNED_CONTROL_ABANDONED_RETIRED <? cr_resolution r)
  then false
  else ct_history_valid r && ct_lease_valid r s.

Definition ct_crc (p : bytes) : Z :=
  crc32 (fun i => (184 <=? i) && (i <? 188)) (slice 0 OWNED_CONTROL_HEADER_BYTES p).
Definition ct_digest (h : owned_page_hash) (p : bytes) : option bytes :=
  sha_digest h (slice 0 OWNED_CONTROL_HEADER_BYTES p).

Definition ct_fields (r : owned_control_record) (dd : bytes) : list field :=
  [(0, fill OWNED_CONTROL_HEADER_BYTES 0); (0, control_magic);
   put32 8 1; put32 12 OWNED_CONTROL_HEADER_BYTES; (16, dd);
   put64 48 (cr_sequence r); put64 56 (cr_previous_sequence r); (64, cr_previous_digest r);
   put32 96 (cr_state r); put32 100 (cr_lease_kind r); put64 104 (cr_lease_id r);
   put32 112 (cr_target_map_slot r); put32 116 (cr_target_page r); put32 120 (cr_target_physical_row r);
   put32 124 (cr_bank r); put32 128 (cr_slot r); put32 132 (cr_physical_row r);
   put32 136 (cr_retired_map r); put32 140 (cr_retired_control r);
   put32 144 (cr_resolution r); put64 148 (cr_resolved_lease_id r); put64 156 (cr_lease_high_water r);
   put32 164 OWNED_CONTROL_PAGE_BYTES].
Definition ct_encode (p : bytes) (r : owned_control_record) (dd : bytes) : bytes :=
  let p := blits (ct_fields r dd) p in
  blits [put32 184 (ct_crc p)] p.
Definition ct_decode (p : bytes) : owned_control_record :=
  {| cr_sequence := get64 48 p; cr_previous_sequence := get64 56 p;
     cr_previous_digest := slice 64 32 p; cr_state := get32 96 p; cr_lease_kind := get32 100 p;
     cr_lease_id := get64 104 p; cr_target_map_slot := get32 112 p; cr_target_page := get32 116 p;
     cr_target_physical_row := get32 120 p; cr_bank := get32 124 p; cr_slot := get32 128 p;
     cr_physical_row := get32 132 p; cr_retired_map := get32 136 p; cr_retired_control := get32 140 p;
     cr_resolution := get32 144 p; cr_resolved_lease_id := get64 148 p; cr_lease_high_water := get64 156 p |}.

(** [da] is the address of the caller's local decoded descriptor. *)
Definition ct_descriptor (da : Z) (d : ptr bytes) (n : Z) (s : ptr owned_volume_spec)
    (h : ptr owned_page_hash) : owned_control_result * option owned_volume_decoded :=
  match owned_volume_descriptor_validate d n s h (Some (Obj da cleared_decoded)) with
  | (OWNED_VOLUME_HASH_ERROR, w) => (OWNED_CONTROL_HASH_ERROR, w)
  | (OWNED_VOLUME_ARGUMENT, w) => (OWNED_CONTROL_ARGUMENT, w)
  | (OWNED_VOLUME_VALID, w) => (OWNED_CONTROL_VALID, w)
  | (OWNED_VOLUME_NOT_VALID, w) => (OWNED_CONTROL_NOT_VALID, w)
  end.

Definition ct_alias_inputs {A} (o : ptr A) (n : Z) (d : ptr bytes) (dn : Z)
    (s : ptr owned_volume_spec) (h : ptr owned_page_hash) : bool :=
  poverlap o n d dn || poverlap o n s sizeof_owned_volume_spec || poverlap o n h sizeof_owned_page_hash.

Definition owned_control_record_build (da : Z) (out : ptr bytes) (n : Z)
    (r : ptr owned_control_record) (d : ptr bytes) (dn : Z)
    (s : ptr owned_volume_spec) (h : ptr owned_page_hash) : owned_control_result * option bytes :=
  match out, r, h with
  | Some _, Some r0, Some h0 =>
      if negb (n =? OWNED_CONTROL_PAGE_BYTES) || negb (hash_valid h) ||
         poverlap out n r sizeof_owned_control_record || ct_alias_inputs out n d dn s h
      then (OWNED_CONTROL_ARGUMENT, None)
      else
        match ct_descriptor da d dn s h with
        | (OWNED_CONTROL_VALID, Some descriptor) =>
            if negb (ct_record_valid (deref r0) (vd_spec descriptor)) then (OWNED_CONTROL_ARGUMENT, None)
            else
              let p := ct_encode (fill n 0xff) (deref r0) (vd_digest descriptor) in
              match ct_digest (deref h0) p with
              | Some value => (OWNED_CONTROL_VALID, Some (blit OWNED_CONTROL_DIGEST_OFFSET value p))
              | None => (OWNED_CONTROL_HASH_ERROR, Some (fill n 0))
              end
        | (OWNED_CONTROL_HASH_ERROR, _) => (OWNED_CONTROL_HASH_ERROR, Some (fill n 0))
        | (rc, _) => (rc, None)
        end
  | _, _, _ => (OWNED_CONTROL_ARGUMENT, None)
  end.

Definition empty_record : owned_control_record :=
  {| cr_sequence := 0; cr_previous_sequence := 0; cr_previous_digest := fill 32 0; cr_state := 0;
     cr_lease_kind := 0; cr_lease_id := 0; cr_target_map_slot := 0; cr_target_page := 0;
     cr_target_physical_row := 0; cr_bank := 0; cr_slot := 0; cr_physical_row := 0; cr_retired_map := 0;
     cr_retired_control := 0; cr_resolution := 0; cr_resolved_lease_id := 0; cr_lease_high_water := 0 |}.
Definition empty_decoded : owned_control_decoded := {| cd_record := empty_record; cd_digest := fill 32 0 |}.

Definition ct_page_syntax (p : bytes) (bank slot : Z) (d : owned_volume_decoded) : bool :=
  equal (slice 0 8 p) control_magic && (get32 8 p =? 1) && (get32 12 p =? OWNED_CONTROL_HEADER_BYTES) &&
  equal (slice 16 32 p) (vd_digest d) && (get32 124 p =? bank) && (get32 128 p =? slot) &&
  (get32 164 p =? OWNED_CONTROL_PAGE_BYTES) && all (slice 168 16 p) 0 && all (slice 188 4 p) 0 &&
  all (slice OWNED_CONTROL_PADDING_OFFSET (OWNED_CONTROL_PAGE_BYTES - OWNED_CONTROL_PADDING_OFFSET) p) 0xff &&
  (get32 184 p =? ct_crc p).

Definition ct_validate_page (p : bytes) (bank slot : Z) (d : owned_volume_decoded) (h : owned_page_hash)
  : owned_control_result * owned_control_decoded :=
  if negb (ct_page_syntax p bank slot d) then (OWNED_CONTROL_NOT_VALID, empty_decoded)
  else
    let r := ct_decode p in
    if negb (ct_record_valid r (vd_spec d)) then (OWNED_CONTROL_NOT_VALID, empty_decoded)
    else match ct_digest h p with
         | None => (OWNED_CONTROL_HASH_ERROR, empty_decoded)
         | Some value =>
             if negb (equal value (slice OWNED_CONTROL_DIGEST_OFFSET 32 p))
             then (OWNED_CONTROL_NOT_VALID, empty_decoded)
             else (OWNED_CONTROL_VALID, {| cd_record := r; cd_digest := value |})
         end.

Definition owned_control_record_validate (da : Z) (p : ptr bytes) (n bank slot : Z)
    (d : ptr bytes) (dn : Z) (s : ptr owned_volume_spec) (h : ptr owned_page_hash)
    (out : ptr owned_control_decoded) : owned_control_result * option owned_control_decoded :=
  match out with
  | None => (OWNED_CONTROL_ARGUMENT, None)
  | Some _ =>
      if poverlap out sizeof_owned_control_decoded p n ||
         ct_alias_inputs out sizeof_owned_control_decoded d dn s h
      then (OWNED_CONTROL_ARGUMENT, None)
      else
        match p, h with
        | Some p0, Some h0 =>
            if negb (n =? OWNED_CONTROL_PAGE_BYTES) || (2 <=? bank) || (64 <=? slot) ||
               negb (hash_valid h) || ct_alias_inputs p n d dn s h
            then (OWNED_CONTROL_ARGUMENT, Some empty_decoded)
            else
              match ct_descriptor da d dn s h with
              | (OWNED_CONTROL_VALID, Some descriptor) =>
                  let '(rc, w) := ct_validate_page (slice 0 n (deref p0)) bank slot descriptor (deref h0) in
                  (rc, Some w)
              | (rc, _) => (rc, Some empty_decoded)
              end
        | _, _ => (OWNED_CONTROL_ARGUMENT, Some empty_decoded)
        end
  end.

(** ** Histories *)
Definition ct_transition (a b : owned_control_record) : bool :=
  if negb (keeps (cr_retired_map a) (cr_retired_map b)) ||
     negb (keeps (cr_retired_control a) (cr_retired_control b)) ||
     ((cr_state a =? OWNED_CONTROL_READ_ONLY) && negb (cr_state b =? OWNED_CONTROL_READ_ONLY)) ||
     ((cr_state a =? OWNED_CONTROL_ACTIVE) && (cr_state b =? OWNED_CONTROL_PROVISIONING)) ||
     (cr_lease_high_water b <? cr_lease_high_water a) then false
  else if (cr_lease_kind a =? 0) && (cr_lease_kind b =? 0) then
    (cr_resolution b =? 0) && (cr_resolved_lease_id b =? 0) &&
    (cr_lease_high_water b =? cr_lease_high_water a)
  else if cr_lease_kind a =? 0 then
    (cr_lease_high_water a <? cr_lease_id b) && negb (has_bit (cr_retired_map b) (cr_target_map_slot b)) &&
    (cr_state b =? cr_state a) && negb (cr_state b =? OWNED_CONTROL_READ_ONLY)
  else if negb (cr_lease_kind b =? 0) then
    (cr_lease_kind b =? cr_lease_kind a) && (cr_lease_id b =? cr_lease_id a) &&
    (cr_target_map_slot b =? cr_target_map_slot a) && (cr_target_page b =? cr_target_page a) &&
    (cr_target_physical_row b =? cr_target_physical_row a) &&
    (cr_lease_high_water b =? cr_lease_high_water a) &&
    ((cr_state b =? cr_state a) || (cr_state b =? OWNED_CONTROL_READ_ONLY))
  else if negb (cr_resolved_lease_id b =? cr_lease_id a) ||
          negb (cr_lease_high_water b =? cr_lease_high_water a) then false
  else if cr_resolution b =? OWNED_CONTROL_VERIFIED_COMPLETE then
    negb (has_bit (cr_retired_map b) (cr_target_map_slot a)) &&
    ((cr_state b =? cr_state a) || (cr_state b =? OWNED_CONTROL_READ_ONLY))
  else (cr_resolution b =? OWNED_CONTROL_ABANDONED_RETIRED) &&
       has_bit (cr_retired_map b) (cr_target_map_slot a) && (cr_state b =? OWNED_CONTROL_READ_ONLY).

Definition OWNED_CONTROL_UNKNOWN_OBSERVATION : Z := 0.
Definition OWNED_CONTROL_PROVEN_UNUSED : Z := 1.
Definition OWNED_CONTROL_PAGE_PRESENT : Z := 2.
Definition OWNED_CONTROL_ERASED_LOOKING : Z := 3.
Definition OWNED_CONTROL_UNREADABLE : Z := 4.
Record owned_control_observation := { obs_kind : Z; obs_page : ptr bytes }.
Definition sizeof_owned_control_observation : Z := 8.

Definition OWNED_CONTROL_NO_CANDIDATE : Z := 0.
Definition OWNED_CONTROL_CLEAN_CANDIDATE : Z := 1.
Definition OWNED_CONTROL_RECOVER_READ_ONLY : Z := 2.
Definition OWNED_CONTROL_UNKNOWN : Z := 1.
Definition OWNED_CONTROL_BAD_RECORD : Z := 2.
Definition OWNED_CONTROL_DUPLICATE_SEQUENCE : Z := 4.
Definition OWNED_CONTROL_CHAIN_GAP : Z := 8.
Definition OWNED_CONTROL_BAD_TRANSITION : Z := 16.
Definition OWNED_CONTROL_PENDING_LEASE : Z := 32.
Definition OWNED_CONTROL_RETIRED_CONTROL : Z := 64.
Definition OWNED_CONTROL_NOT_ACTIVE : Z := 128.
Definition OWNED_CONTROL_INCOMPLETE_HISTORY : Z := 256.

Record owned_control_selection := {
  os_kind : Z; os_reasons : Z; os_latest_valid : Z; os_latest_bank : Z; os_latest_slot : Z;
  os_latest_sequence : Z; os_latest_digest : bytes; os_retired_map : Z; os_retired_control : Z;
  os_quarantine_all_map_tails : Z; os_pending_lease_valid : Z; os_pending_lease_id : Z;
  os_pending_map_slot : Z; os_pending_physical_block : Z
}.
Definition empty_selection : owned_control_selection :=
  {| os_kind := 0; os_reasons := 0; os_latest_valid := 0; os_latest_bank := 0; os_latest_slot := 0;
     os_latest_sequence := 0; os_latest_digest := fill 32 0; os_retired_map := 0; os_retired_control := 0;
     os_quarantine_all_map_tails := 0; os_pending_lease_valid := 0; os_pending_lease_id := 0;
     os_pending_map_slot := 0; os_pending_physical_block := 0 |}.
Definition sizeof_owned_control_selection : Z := 96.

(** The workspace: [records[i]] where [valid[i]] is set. *)
Definition owned_control_workspace : Type := list (option owned_control_decoded).
Definition sizeof_owned_control_workspace : Z := 19584.

Definition work_at (w : owned_control_workspace) (i : Z) : option owned_control_decoded :=
  if i <? 0 then None else default None (w !! Z.to_nat i).
(** [work->records[i]]: cleared where nothing valid was stored. *)
Definition record_at (w : owned_control_workspace) (i : Z) : owned_control_decoded :=
  default empty_decoded (work_at w i).

(** State of the first loop: the workspace filled so far and the locals. *)
Record scan_state := {
  sc_work : owned_control_workspace; sc_best : Z; sc_valid_count : Z;
  sc_reasons : Z; sc_retired_map : Z; sc_retired_control : Z
}.
Definition scan_start : scan_state :=
  {| sc_work := []; sc_best := 0; sc_valid_count := 0; sc_reasons := 0;
     sc_retired_map := 0; sc_retired_control := 0 |}.

Definition same_sequence (d : owned_control_decoded) (w : option owned_control_decoded) : bool :=
  match w with Some e => cr_sequence (cd_record e) =? cr_sequence (cd_record d) | None => false end.

(** A slot that adds a reason but no record; [0] for a proven-unused slot. *)
Definition scan_skip (st : scan_state) (reason : Z) : scan_state :=
  {| sc_work := sc_work st ++ [None]; sc_best := sc_best st;
     sc_valid_count := sc_valid_count st; sc_reasons := Z.lor (sc_reasons st) reason;
     sc_retired_map := sc_retired_map st; sc_retired_control := sc_retired_control st |}.
Definition scan_accept (st : scan_state) (i : Z) (d : owned_control_decoded) : scan_state :=
  let r := cd_record d in
  let better := (sc_valid_count st =? 0) || (cr_sequence (cd_record (record_at (sc_work st) (sc_best st))) <? cr_sequence r) in
  {| sc_work := sc_work st ++ [Some d];
     sc_best := if better then i else sc_best st;
     sc_valid_count := sc_valid_count st + 1;
     sc_reasons := Z.lor (sc_reasons st)
       (if existsb (same_sequence d) (sc_work st) then OWNED_CONTROL_DUPLICATE_SEQUENCE else 0);
     sc_retired_map := Z.lor (sc_retired_map st) (cr_retired_map r);
     sc_retired_control := Z.lor (sc_retired_control st) (cr_retired_control r) |}.

(** [None]: a digest-provider failure aborts the scan. *)
Definition scan_slot (desc : owned_volume_decoded) (h : owned_page_hash) (i : Z)
    (o : owned_control_observation) (st : scan_state) : option scan_state :=
  if obs_kind o =? OWNED_CONTROL_PROVEN_UNUSED then Some (scan_skip st 0)
  else if negb (obs_kind o =? OWNED_CONTROL_PAGE_PRESENT) then Some (scan_skip st OWNED_CONTROL_UNKNOWN)
  else
    let page := match obs_page o with Some p => deref p | None => [] end in
    match ct_validate_page page (i / 64) (i mod 64) desc h with
    | (OWNED_CONTROL_HASH_ERROR, _) => None
    | (OWNED_CONTROL_VALID, d) => Some (scan_accept st i d)
    | (_, _) => Some (scan_skip st OWNED_CONTROL_BAD_RECORD)
    end.
Fixpoint scan (desc : owned_volume_decoded) (h : owned_page_hash) (i : Z)
    (obs : list owned_control_observation) (st : scan_state) : option scan_state :=
  match obs with
  | [] => Some st
  | o :: obs =>
      match scan_slot desc h i o st with
      | Some st => scan desc h (i + 1) obs st
      | None => None
      end
  end.

(** The body of the second loop for one valid slot. *)
Definition chain_reasons (w : owned_control_workspace) (i : Z) : Z :=
  match work_at w i with
  | None => 0
  | Some d =>
      let r := cd_record d in
      Z.lor (if negb (cr_sequence r =? i + 1) then OWNED_CONTROL_INCOMPLETE_HISTORY else 0)
        (if i =? 0 then 0
         else match work_at w (i - 1) with
              | None => OWNED_CONTROL_CHAIN_GAP
              | Some p =>
                  if negb (cr_previous_sequence r =? cr_sequence (cd_record p)) ||
                     negb (equal (cr_previous_digest r) (cd_digest p)) then OWNED_CONTROL_CHAIN_GAP
                  else if negb (ct_transition (cd_record p) r) then OWNED_CONTROL_BAD_TRANSITION else 0
              end)
  end.

Definition history_reasons (st : scan_state) : Z :=
  foldl (fun rs i => Z.lor rs (chain_reasons (sc_work st) i))
    (Z.lor (sc_reasons st)
       (if match work_at (sc_work st) 0 with
           | Some d => negb (cr_sequence (cd_record d) =? 1) | None => true end ||
           negb (sc_best st + 1 =? sc_valid_count st)
        then OWNED_CONTROL_INCOMPLETE_HISTORY else 0))
    (zseq OWNED_CONTROL_RECORDS).

Definition QUARANTINE_REASONS : Z :=
  Z.lor OWNED_CONTROL_UNKNOWN (Z.lor OWNED_CONTROL_BAD_RECORD (Z.lor OWNED_CONTROL_DUPLICATE_SEQUENCE
    (Z.lor OWNED_CONTROL_CHAIN_GAP (Z.lor OWNED_CONTROL_BAD_TRANSITION OWNED_CONTROL_INCOMPLETE_HISTORY)))).

(** What follows the first loop: the selection, from the final scan state. *)
Definition conclude (desc : owned_volume_decoded) (st : scan_state) : owned_control_selection :=
  if negb (sc_valid_count st =? 0) then
    let last := record_at (sc_work st) (sc_best st) in
    let r := cd_record last in
    let pending := negb (cr_lease_kind r =? 0) in
    let reasons := history_reasons st in
    let reasons := Z.lor reasons (if pending then OWNED_CONTROL_PENDING_LEASE else 0) in
    let reasons := Z.lor reasons
      (if sc_retired_control st =? 0 then 0 else OWNED_CONTROL_RETIRED_CONTROL) in
    let reasons := Z.lor reasons
      (if cr_state r =? OWNED_CONTROL_ACTIVE then 0 else OWNED_CONTROL_NOT_ACTIVE) in
    {| os_kind := if reasons =? 0 then OWNED_CONTROL_CLEAN_CANDIDATE else OWNED_CONTROL_RECOVER_READ_ONLY;
       os_reasons := reasons;
       os_latest_valid := 1; os_latest_bank := cr_bank r; os_latest_slot := cr_slot r;
       os_latest_sequence := cr_sequence r; os_latest_digest := cd_digest last;
       os_retired_map := sc_retired_map st; os_retired_control := sc_retired_control st;
       os_quarantine_all_map_tails := if Z.land reasons QUARANTINE_REASONS =? 0 then 0 else 1;
       os_pending_lease_valid := if pending then 1 else 0;
       os_pending_lease_id := if pending then cr_lease_id r else 0;
       os_pending_map_slot := if pending then cr_target_map_slot r else 0;
       os_pending_physical_block :=
         if pending then znth (cr_target_map_slot r) (vs_map_blocks (vd_spec desc)) else 0 |}
  else
    let reasons := sc_reasons st in
    {| os_kind := if reasons =? 0 then OWNED_CONTROL_NO_CANDIDATE else OWNED_CONTROL_RECOVER_READ_ONLY;
     os_reasons := reasons;
     os_latest_valid := 0; os_latest_bank := 0; os_latest_slot := 0; os_latest_sequence := 0;
     os_latest_digest := fill 32 0; os_retired_map := 0; os_retired_control := 0;
     os_quarantine_all_map_tails := if Z.land reasons QUARANTINE_REASONS =? 0 then 0 else 1;
     os_pending_lease_valid := 0; os_pending_lease_id := 0; os_pending_map_slot := 0;
     os_pending_physical_block := 0 |}.

Definition observation_ok (o : owned_control_observation) : bool :=
  negb (OWNED_CONTROL_UNREADABLE <? obs_kind o) &&
  Bool.eqb (obs_kind o =? OWNED_CONTROL_PAGE_PRESENT) (match obs_page o with Some _ => true | None => false end).

(** [None] for the selection: the output is left untouched. *)
Definition owned_control_select (da : Z) (obs : ptr (list owned_control_observation)) (count : Z)
    (d : ptr bytes) (dn : Z) (s : ptr owned_volume_spec) (h : ptr owned_page_hash)
    (work : ptr owned_control_workspace) (out : ptr owned_control_selection)
  : owned_control_result * option owned_control_selection :=
  match obs, work, out, h with
  | Some obs0, Some _, Some _, Some h0 =>
      let obs_bytes := count * sizeof_owned_control_observation in
      if negb (count =? OWNED_CONTROL_RECORDS) || negb (hash_valid h) ||
         poverlap work sizeof_owned_control_workspace out sizeof_owned_control_selection ||
         poverlap work sizeof_owned_control_workspace obs obs_bytes ||
         poverlap out sizeof_owned_control_selection obs obs_bytes ||
         ct_alias_inputs work sizeof_owned_control_workspace d dn s h ||
         ct_alias_inputs out sizeof_owned_control_selection d dn s h
      then (OWNED_CONTROL_ARGUMENT, None)
      else if existsb (fun o =>
          negb (observation_ok o) ||
          poverlap work sizeof_owned_control_workspace (obs_page o) OWNED_CONTROL_PAGE_BYTES ||
          poverlap out sizeof_owned_control_selection (obs_page o) OWNED_CONTROL_PAGE_BYTES ||
          poverlap obs obs_bytes (obs_page o) OWNED_CONTROL_PAGE_BYTES ||
          (match obs_page o with Some _ => ct_alias_inputs (obs_page o) OWNED_CONTROL_PAGE_BYTES d dn s h
           | None => false end)) (deref obs0)
      then (OWNED_CONTROL_ARGUMENT, None)
      else
        match ct_descriptor da d dn s h with
        | (OWNED_CONTROL_VALID, Some descriptor) =>
            match scan descriptor (deref h0) 0 (deref obs0) scan_start with
            | None => (OWNED_CONTROL_HASH_ERROR, Some empty_selection)
            | Some st => (OWNED_CONTROL_VALID, Some (conclude descriptor st))
            end
        | (rc, _) => (rc, Some empty_selection)
        end
  | _, _, _, _ => (OWNED_CONTROL_ARGUMENT, None)
  end.

(** * Encoding *)

(** What the C types of the fields say. *)
Record record_wf (r : owned_control_record) : Prop := {
  rwf_sequence : 0 <= cr_sequence r < 2 ^ 64;
  rwf_previous : 0 <= cr_previous_sequence r < 2 ^ 64;
  rwf_digest : zlen (cr_previous_digest r) = 32 /\ is_bytes (cr_previous_digest r);
  rwf_state : 0 <= cr_state r < 2 ^ 32;
  rwf_lease_kind : 0 <= cr_lease_kind r < 2 ^ 32;
  rwf_lease_id : 0 <= cr_lease_id r < 2 ^ 64;
  rwf_target_map_slot : 0 <= cr_target_map_slot r < 2 ^ 32;
  rwf_target_page : 0 <= cr_target_page r < 2 ^ 32;
  rwf_target_row : 0 <= cr_target_physical_row r < 2 ^ 32;
  rwf_bank : 0 <= cr_bank r < 2 ^ 32;
  rwf_slot : 0 <= cr_slot r < 2 ^ 32;
  rwf_row : 0 <= cr_physical_row r < 2 ^ 32;
  rwf_retired_map : 0 <= cr_retired_map r < 2 ^ 32;
  rwf_retired_control : 0 <= cr_retired_control r < 2 ^ 32;
  rwf_resolution : 0 <= cr_resolution r < 2 ^ 32;
  rwf_resolved : 0 <= cr_resolved_lease_id r < 2 ^ 64;
  rwf_high_water : 0 <= cr_lease_high_water r < 2 ^ 64
}.

Definition ct_shape : list (Z * Z) :=
  [(0, 192); (0, 8); (8, 4); (12, 4); (16, 32); (48, 8); (56, 8); (64, 32); (96, 4); (100, 4); (104, 8);
   (112, 4); (116, 4); (120, 4); (124, 4); (128, 4); (132, 4); (136, 4); (140, 4); (144, 4); (148, 8);
   (156, 8); (164, 4)].

Lemma ct_fields_shape r dd : record_wf r -> zlen dd = 32 -> shape_of (ct_fields r dd) = ct_shape.
Proof. intros [_ _ [Hd _]] Hdd. unfold shape_of. simpl. by rewrite Hd, Hdd. Qed.

Definition sealed_control (r : owned_control_record) (dd : bytes) (c : Z) (value : bytes) : bytes :=
  blits (sealed_record_fields 184 192 (ct_fields r dd) c value) (fill 4096 0xff).

Lemma sealed_control_shape r dd c value :
  record_wf r -> zlen dd = 32 -> zlen value = 32 ->
  shape_of (sealed_record_fields 184 192 (ct_fields r dd) c value) = ct_shape ++ [(184, 4); (192, 32)].
Proof.
  intros Hr Hdd Hv. unfold sealed_record_fields, shape_of, put32. rewrite map_app.
  fold (shape_of (ct_fields r dd)). rewrite ct_fields_shape by done. simpl. by rewrite Hv.
Qed.

(** A sealed page decodes to its record, field by field. *)
Lemma sealed_control_decode r dd c value :
  record_wf r -> zlen dd = 32 -> zlen value = 32 -> 0 <= c < 2 ^ 32 ->
  let p := sealed_control r dd c value in
  zlen p = 4096 /\ ct_decode p = r /\ get32 184 p = c /\ slice 192 32 p = value /\ slice 16 32 p = dd.
Proof.
  intros Hr Hdd Hv Hc. cbv zeta. unfold sealed_control.
  pose proof (sealed_control_shape r dd c value Hr Hdd Hv) as Hsh.
  set (fs := sealed_record_fields _ _ _ _ _) in *. set (base := fill 4096 _).
  assert (Hbl : zlen base = 4096) by by apply zlen_fill.
  assert (Hfit : fits 4096 (ct_shape ++ [(184, 4); (192, 32)]) = true) by done.
  split; [rewrite zlen_blits; [done|]; by rewrite Hsh, Hbl|].
  split_and!; [|read_back; done..].
  destruct Hr as [? ? [? ?] ? ? ? ? ? ? ? ? ? ? ? ? ? ?].
  transitivity {| cr_sequence := cr_sequence r; cr_previous_sequence := cr_previous_sequence r;
    cr_previous_digest := cr_previous_digest r; cr_state := cr_state r; cr_lease_kind := cr_lease_kind r;
    cr_lease_id := cr_lease_id r; cr_target_map_slot := cr_target_map_slot r;
    cr_target_page := cr_target_page r; cr_target_physical_row := cr_target_physical_row r;
    cr_bank := cr_bank r; cr_slot := cr_slot r; cr_physical_row := cr_physical_row r;
    cr_retired_map := cr_retired_map r; cr_retired_control := cr_retired_control r;
    cr_resolution := cr_resolution r; cr_resolved_lease_id := cr_resolved_lease_id r;
    cr_lease_high_water := cr_lease_high_water r |}; [|by destruct r].
  unfold ct_decode. f_equal; read_back; done.
Qed.

Lemma sealed_control_syntax r d c value :
  record_wf r -> zlen (vd_digest d) = 32 -> zlen value = 32 -> 0 <= c < 2 ^ 32 ->
  let p := sealed_control r (vd_digest d) c value in
  c = ct_crc p -> ct_page_syntax p (cr_bank r) (cr_slot r) d = true.
Proof.
  intros Hr Hdd Hv Hc. cbv zeta. intros Ec.
  destruct (sealed_control_decode r _ c value Hr Hdd Hv Hc) as (_ & _ & H184 & _ & Hdg).
  unfold ct_page_syntax. rewrite <- Ec, H184, Hdg. unfold sealed_control.
  pose proof (sealed_control_shape r _ c value Hr Hdd Hv) as Hsh.
  set (fs := sealed_record_fields _ _ _ _ _) in *. set (base := fill 4096 _).
  assert (Hbl : zlen base = 4096) by by apply zlen_fill.
  assert (Hfit : fits 4096 (ct_shape ++ [(184, 4); (192, 32)]) = true) by done.
  destruct Hr as [? ? [? ?] ? ? ? ? ? ? ? ? ? ? ? ? ? ?].
  assert (slice 0 8 (blits fs base) = control_magic) as -> by (read_back; done).
  assert (slice 168 16 (blits fs base) = fill 16 0) as -> by (read_zero; done).
  assert (slice 188 4 (blits fs base) = fill 4 0) as -> by (read_zero; done).
  unfold OWNED_CONTROL_PADDING_OFFSET, OWNED_CONTROL_PAGE_BYTES.
  assert (slice 224 (4096 - 224) (blits fs base) = fill 3872 0xff) as ->.
  { erewrite blits_read_base; [|eassumption|eassumption|done..]. unfold base. by rewrite slice_fill by lia. }
  rewrite !equal_refl, !all_fill, !andb_true_iff, !Z.eqb_eq. split_and!; try done; read_back; done.
Qed.

Lemma ct_descriptor_inv da d dn s h w :
  ct_descriptor da d dn s h = (OWNED_CONTROL_VALID, w) ->
  exists w0, w = Some w0 /\ zlen (vd_digest w0) = 32 /\ is_bytes (vd_digest w0).
Proof.
  unfold ct_descriptor. destruct (owned_volume_descriptor_validate _ _ _ _ _) as [rc w1] eqn:Hv.
  destruct rc; [|done..]. intros [= <-].
  apply owned_volume_validate_inv in Hv as (? & ? & h0 & w0 & _ & _ & _ & -> & _ & _ & Hv).
  apply validate_descriptor_inv in Hv as (_ & Hd & _). apply sha_digest_wf in Hd as [? ?]. by exists w0.
Qed.

Lemma control_seal r h dd :
  let p := ct_encode (fill 4096 0xff) r dd in
  seal_record 192 184 192 h (ct_fields r dd) (fill 4096 0xff) =
    match ct_digest h p with
    | Some value => Some (blit OWNED_CONTROL_DIGEST_OFFSET value p)
    | None => None
    end.
Proof. reflexivity. Qed.

Lemma control_build_inv da out n r d dn s h q :
  owned_control_record_build da out n r d dn s h = (OWNED_CONTROL_VALID, Some q) ->
  exists r0 h0 w, r = Some r0 /\ h = Some h0 /\ n = 4096 /\ hash_valid h = true /\
    ct_descriptor da d dn s h = (OWNED_CONTROL_VALID, Some w) /\
    ct_record_valid (deref r0) (vd_spec w) = true /\
    seal_record 192 184 192 (deref h0) (ct_fields (deref r0) (vd_digest w)) (fill 4096 0xff) = Some q.
Proof.
  unfold owned_control_record_build. destruct out as [o|], r as [r0|], h as [h0|]; try done.
  destruct (_ || _) eqn:Hg; [done|]. rewrite !orb_false_iff, !negb_false_iff, Z.eqb_eq in Hg.
  destruct Hg as [[[-> Hh] _] _].
  destruct (ct_descriptor da d dn s (Some h0)) as [rc w1] eqn:Hd. destruct rc; try done.
  destruct w1 as [w|]; [|done]. destruct (ct_record_valid _ _) eqn:Hr; [|done]. cbn [negb].
  intros H. exists r0, h0, w. split_and!; try done.
  rewrite control_seal. cbv zeta. change OWNED_CONTROL_PAGE_BYTES with 4096 in H.
  destruct (ct_digest _ _) as [value|]; [|done]. by injection H as <-.
Qed.

(** The arguments of a record validation do not overlap. *)
Definition record_args_separate (out : ptr owned_control_decoded) (p d : ptr bytes) (dn : Z)
    (s : ptr owned_volume_spec) (h : ptr owned_page_hash) : bool :=
  negb (poverlap out sizeof_owned_control_decoded p OWNED_CONTROL_PAGE_BYTES) &&
  negb (ct_alias_inputs out sizeof_owned_control_decoded d dn s h) &&
  negb (ct_alias_inputs p OWNED_CONTROL_PAGE_BYTES d dn s h).

(** What a VALID page of a trusted descriptor carries. *)
Lemma ct_validate_page_inv p bank slot d h w :
  ct_validate_page p bank slot d h = (OWNED_CONTROL_VALID, w) ->
  ct_page_syntax p bank slot d = true /\ cd_record w = ct_decode p /\
  ct_record_valid (cd_record w) (vd_spec d) = true /\ ct_digest h p = Some (cd_digest w) /\
  cr_bank (cd_record w) = bank /\ cr_slot (cd_record w) = slot.
Proof.
  unfold ct_validate_page. destruct (ct_page_syntax p bank slot d) eqn:Hs; [|done].
  destruct (ct_record_valid _ _) eqn:Hr; [|done]. cbn [negb].
  destruct (ct_digest h p) as [value|]; [|done]. destruct (equal _ _); [|done]. intros [= <-].
  unfold ct_page_syntax in Hs. rewrite !andb_true_iff, !Z.eqb_eq in Hs. destruct_and! Hs.
  by split_and!.
Qed.

Lemma is_bytes_sealed_control r dd c value :
  record_wf r -> is_bytes dd -> is_bytes value -> is_bytes (sealed_control r dd c value).
Proof.
  intros [_ _ [_ Hd]] Hdd Hv. apply is_bytes_blits; [|by apply is_bytes_fill].
  unfold sealed_record_fields, ct_fields, put32, put64. cbn [app]. bytes_fields.
Qed.

Lemma ct_record_valid_place r s :
  ct_record_valid r s = true -> cr_bank r < 2 /\ cr_slot r < 64.
Proof.
  unfold ct_record_valid. destruct (_ || _) eqn:H; [done|]. intros _.
  rewrite !orb_false_iff in H. destruct_and! H. lia.
Qed.

(** A control record built from a valid descriptor validates at its own bank
    and slot and decodes to exactly the record it was built from, with the
    provider's digest of its header. *)
Theorem owned_control_record_roundtrip da out n r d dn s h q at_ dec
    (Hwf : record_wf (deref r))
    (Hbuild : owned_control_record_build da out n (Some r) d dn s (Some h) = (OWNED_CONTROL_VALID, Some q))
    (Hsep : record_args_separate (Some dec) (Some (Obj at_ q)) d dn s (Some h) = true) :
  exists value,
    ct_digest (deref h) q = Some value /\
    owned_control_record_validate da (Some (Obj at_ q)) OWNED_CONTROL_PAGE_BYTES
        (cr_bank (deref r)) (cr_slot (deref r)) d dn s (Some h) (Some dec) =
      (OWNED_CONTROL_VALID, Some {| cd_record := deref r; cd_digest := value |}).
Proof.
  apply control_build_inv in Hbuild as (? & ? & w & [= <-] & [= <-] & -> & Hh & Hd & Hr & Hq).
  destruct (ct_descriptor_inv _ _ _ _ _ _ Hd) as (? & [= <-] & Hdl & Hdb).
  apply seal_record_inv in Hq as (c & value & Hq & Hv & Hvb & Hc & Hdig);
    [|lia|lia|lia|by rewrite zlen_blits; rewrite ?ct_fields_shape, ?zlen_fill by (done || lia)|rewrite zlen_fill; lia].
  change (blits _ _) with (sealed_control (deref r) (vd_digest w) c value) in Hq.
  assert (Hb : is_bytes q) by (rewrite Hq; by apply is_bytes_sealed_control).
  assert (Hcr : 0 <= c < 2 ^ 32) by (rewrite Hc; by apply record_crc_range, is_bytes_slice).
  destruct (sealed_control_decode _ _ c value Hwf Hdl Hv Hcr) as (Hl & Hdec & _ & Hsv & _).
  pose proof (sealed_control_syntax _ _ c value Hwf Hdl Hv Hcr) as Hsyn. cbv zeta in Hsyn.
  rewrite <- Hq in Hl, Hdec, Hsv, Hsyn. specialize (Hsyn Hc).
  exists value. split; [exact Hdig|].
  unfold record_args_separate in Hsep. rewrite !andb_true_iff, !negb_true_iff in Hsep.
  destruct Hsep as [[H1 H2] H3]. destruct (ct_record_valid_place _ _ Hr) as [Hbank Hslot].
  unfold owned_control_record_validate. rewrite H1, H2, H3, Hh, Hd, Z.eqb_refl.
  rewrite (proj2 (Z.leb_gt _ _) Hbank), (proj2 (Z.leb_gt _ _) Hslot). cbn [negb orb deref].
  rewrite (slice_all' OWNED_CONTROL_PAGE_BYTES) by done.
  unfold ct_validate_page. rewrite Hsyn, Hdec, Hr. cbn [negb].
  change (ct_digest (deref h) q) with (sha_digest (deref h) (slice 0 192 q)). rewrite Hdig.
  change (slice OWNED_CONTROL_DIGEST_OFFSET 32 q) with (slice 192 32 q). by rewrite Hsv, equal_refl.
Qed.

(** * Selection *)

(** What a slot without complaint was seen as. *)
Definition slot_seen (desc : owned_volume_decoded) (h : owned_page_hash) (i : Z)
    (o : owned_control_observation) (w : option owned_control_decoded) : Prop :=
  match w with
  | None => obs_kind o = OWNED_CONTROL_PROVEN_UNUSED
  | Some d =>
      obs_kind o = OWNED_CONTROL_PAGE_PRESENT /\
      ct_validate_page (match obs_page o with Some p => deref p | None => [] end) (i / 64) (i mod 64) desc h =
        (OWNED_CONTROL_VALID, d)
  end.

Definition count_valid (w : owned_control_workspace) : Z := zlen (omap id w).

Definition union_retired (w : owned_control_workspace) : Z :=
  foldl (fun m d => Z.lor m (cr_retired_map (cd_record d))) 0 (omap id w).

(** One slot of the scan: it appends one workspace entry. *)
Lemma scan_slot_spec desc h i o st st' :
  scan_slot desc h i o st = Some st' ->
  exists w, sc_work st' = sc_work st ++ [w] /\
    sc_valid_count st' = sc_valid_count st + count_valid [w] /\
    sc_retired_map st' = foldl (fun m d => Z.lor m (cr_retired_map (cd_record d))) (sc_retired_map st) (omap id [w]) /\
    (forall d, w = Some d -> slot_seen desc h i o w) /\
    (obs_kind o = OWNED_CONTROL_PAGE_PRESENT -> forall d,
       ct_validate_page (match obs_page o with Some p => deref p | None => [] end) (i / 64) (i mod 64) desc h =
         (OWNED_CONTROL_VALID, d) -> w = Some d) /\
    (sc_reasons st' = 0 -> sc_reasons st = 0 /\ slot_seen desc h i o w).
Proof.
  unfold scan_slot, slot_seen.
  destruct (Z.eqb_spec (obs_kind o) OWNED_CONTROL_PROVEN_UNUSED) as [E|_].
  { intros [= <-]. exists None. cbn. split_and!; try done; [by rewrite Z.add_0_r|by rewrite E|].
    intros [? _]%Z.lor_eq_0_iff. done. }
  destruct (Z.eqb_spec (obs_kind o) OWNED_CONTROL_PAGE_PRESENT) as [E|]; cbn [negb].
  2:{ intros [= <-]. exists None. cbn. split_and!; try done; [by rewrite Z.add_0_r|].
      intros [_ ?]%Z.lor_eq_0_iff. done. }
  destruct (ct_validate_page _ _ _ _ _) as [rc d] eqn:Hv. destruct rc; try done; intros [= <-].
  - exists (Some d). cbn. split_and!; try done.
    + by intros _ ? [= ->].
    + intros [? _]%Z.lor_eq_0_iff. done.
  - exists None. cbn. split_and!; try done; [by rewrite Z.add_0_r|].
    intros [_ ?]%Z.lor_eq_0_iff. done.
  - exists None. cbn. split_and!; try done; [by rewrite Z.add_0_r|].
    intros [_ ?]%Z.lor_eq_0_iff. done.
Qed.

Lemma scan_spec desc h i obs st st' :
  scan desc h i obs st = Some st' ->
  exists ws, sc_work st' = sc_work st ++ ws /\ length ws = length obs /\
    sc_valid_count st' = sc_valid_count st + count_valid ws /\
    sc_retired_map st' = foldl (fun m d => Z.lor m (cr_retired_map (cd_record d))) (sc_retired_map st) (omap id ws) /\
    (forall k o d, obs !! k = Some o -> obs_kind o = OWNED_CONTROL_PAGE_PRESENT ->
       ct_validate_page (match obs_page o with Some p => deref p | None => [] end)
         ((i + Z.of_nat k) / 64) ((i + Z.of_nat k) mod 64) desc h = (OWNED_CONTROL_VALID, d) ->
       ws !! k = Some (Some d)) /\
    (sc_reasons st' = 0 -> sc_reasons st = 0 /\
       forall k o w, obs !! k = Some o -> ws !! k = Some w -> slot_seen desc h (i + Z.of_nat k) o w).
Proof.
  revert i st; induction obs as [|o obs IH]; intros i st; cbn [scan].
  { intros [= <-]. exists []. rewrite app_nil_r. split_and!; try done. unfold count_valid. simpl. rewrite zlen_nil. lia. }
  destruct (scan_slot desc h i o st) as [st1|] eqn:H1; [|done]. intros H.
  destruct (scan_slot_spec _ _ _ _ _ _ H1) as (w & Hw1 & Hc1 & Hm1 & _ & Hp1 & Hr1).
  destruct (IH _ _ H) as (ws & Hw & Hl & Hc & Hm & Hp & Hr).
  exists (w :: ws). split_and!.
  - by rewrite Hw, Hw1, <- app_assoc.
  - simpl. by rewrite Hl.
  - rewrite Hc, Hc1. unfold count_valid. destruct w; cbn; rewrite ?zlen_cons, ?zlen_nil; lia.
  - rewrite Hm, Hm1. by destruct w.
  - intros [|k] o' d' Hk HP Hv; [injection Hk as <-|].
    + rewrite Z.add_0_r in Hv. by rewrite (Hp1 HP d' Hv).
    + apply (Hp k o'); [exact Hk|exact HP|]. by replace (i + 1 + Z.of_nat k) with (i + Z.of_nat (S k)) by lia.
  - intros H0. destruct (Hr H0) as [H1' Hs]. destruct (Hr1 H1') as [? Hs1]. split; [done|].
    intros [|k] o' w' Ho' Hw'; [injection Ho' as <-; injection Hw' as <-; by rewrite Z.add_0_r|].
    replace (i + Z.of_nat (S k)) with (i + 1 + Z.of_nat k) by lia. by apply Hs.
Qed.

(** A workspace without gaps is a list of records followed by empty slots. *)
Lemma gapless {A} (l : list (option A)) :
  (forall k x, l !! S k = Some (Some x) -> exists y, l !! k = Some (Some y)) ->
  exists rs m, l = map Some rs ++ replicate m None.
Proof.
  induction l as [|[x|] l IH]; intros H; [by exists [], 0%nat|..].
  - destruct IH as (rs & m & ->); [|by exists (x :: rs), m].
    intros k y Hk. apply (H (S k) y Hk).
  - exists [], (S (length l)). cbn. f_equal.
    assert (Hn : forall k, ~ exists x, (None :: l) !! k = Some (Some x)).
    { intros k. induction k as [|k IHk]; [by intros [? ?]|]. intros [x Hx]. apply IHk.
      destruct (H k x Hx) as [y Hy]. by exists y. }
    clear -Hn. apply list_eq. intros k. destruct (l !! k) as [[x|]|] eqn:E.
    + exfalso. apply (Hn (S k)). by exists x.
    + rewrite lookup_replicate_2; [done|]. by eapply lookup_lt_Some.
    + symmetry. apply lookup_replicate_None. by apply lookup_ge_None.
Qed.

Lemma foldl_lor_le {A} (f : A -> Z) l m : foldl (fun m d => Z.lor m (f d)) m l = Z.lor m (foldl (fun m d => Z.lor m (f d)) 0 l).
Proof.
  revert m; induction l as [|d l IH]; intros m; cbn [foldl]; [by rewrite Z.lor_0_r|].
  rewrite IH, (IH (Z.lor 0 (f d))). by rewrite Z.lor_0_l, Z.lor_assoc.
Qed.

Lemma foldl_lor_keeps {A} (f : A -> Z) l d m :
  d ∈ l -> keeps (f d) (foldl (fun m d => Z.lor m (f d)) m l) = true.
Proof.
  intros Hd. apply keeps_spec. revert m. induction Hd as [x l|x y l Hd IH]; intros m; simpl; [|by apply IH].
  rewrite foldl_lor_le. apply Z.bits_inj'; intros k Hk.
  rewrite Z.land_spec, !Z.lor_spec. destruct (Z.testbit (f x) k); [|by rewrite andb_false_r].
  by rewrite orb_true_r, orb_true_l.
Qed.

Lemma chain_foldl (f : Z -> Z) l m :
  foldl (fun rs i => Z.lor rs (f i)) m l = 0 -> m = 0 /\ forall i, i ∈ l -> f i = 0.
Proof. rewrite (foldl_lor_0 f). by rewrite Forall_forall. Qed.

Lemma work_at_nat w k : work_at w (Z.of_nat k) = default None (w !! k).
Proof. unfold work_at. rewrite (proj2 (Z.ltb_ge _ _)) by lia. by rewrite Nat2Z.id. Qed.

(** What one slot without chain complaints says. *)
Lemma chain_reasons_0 w k d :
  chain_reasons w (Z.of_nat k) = 0 -> w !! k = Some (Some d) ->
  cr_sequence (cd_record d) = Z.of_nat k + 1 /\
  (forall j, k = S j -> exists p, w !! j = Some (Some p) /\
     cr_previous_sequence (cd_record d) = cr_sequence (cd_record p) /\
     equal (cr_previous_digest (cd_record d)) (cd_digest p) = true /\
     ct_transition (cd_record p) (cd_record d) = true).
Proof.
  unfold chain_reasons. rewrite work_at_nat. intros H Hk. rewrite Hk in H. simpl in H.
  apply Z.lor_eq_0_iff in H as [H1 H2]. split.
  { destruct (Z.eqb_spec (cr_sequence (cd_record d)) (Z.of_nat k + 1)); done. }
  intros j ->. destruct (Z.eqb_spec (Z.of_nat (S j)) 0); [lia|].
  replace (Z.of_nat (S j) - 1) with (Z.of_nat j) in H2 by lia. rewrite work_at_nat in H2.
  destruct (w !! j) as [[p|]|] eqn:Hj; simpl in H2; [|done..].
  destruct (_ || _) eqn:Hg; [done|]. rewrite orb_false_iff, !negb_false_iff, Z.eqb_eq in Hg.
  destruct (ct_transition _ _) eqn:Ht; [|done]. exists p. destruct Hg. by split_and!.
Qed.

(** The abstract content of a clean selection: the visible history. *)
Record clean_history (desc : owned_volume_decoded) (h : owned_page_hash)
    (obs : list owned_control_observation) (rs : list owned_control_decoded) : Prop := {
  ch_slots : forall k o, obs !! k = Some o -> slot_seen desc h (Z.of_nat k) o (rs !! k);
  ch_sequence : forall k d, rs !! k = Some d -> cr_sequence (cd_record d) = Z.of_nat k + 1;
  ch_chain : forall k p d, rs !! k = Some p -> rs !! S k = Some d ->
    equal (cr_previous_digest (cd_record d)) (cd_digest p) = true /\
    ct_transition (cd_record p) (cd_record d) = true
}.

Lemma omap_id_some {A} (rs : list A) m : omap id (map Some rs ++ replicate m None) = rs.
Proof.
  induction rs as [|x rs IH]; cbn; [|by f_equal].
  by induction m.
Qed.

Lemma lookup_padded {A} (rs : list A) m k :
  (k < length rs + m)%nat -> (map Some rs ++ replicate m None) !! k = Some (rs !! k).
Proof.
  intros Hk. destruct (decide (k < length rs)%nat).
  - rewrite lookup_app_l by (rewrite length_map; lia).
    change (map Some rs) with (Some <$> rs). rewrite list_lookup_fmap.
    destruct (lookup_lt_is_Some_2 rs k) as [x ->]; done.
  - rewrite lookup_app_r by (rewrite length_map; lia).
    rewrite lookup_replicate_2 by (rewrite length_map; lia).
    by rewrite (proj2 (lookup_ge_None rs k)) by lia.
Qed.

Lemma conclude_clean desc st :
  os_kind (conclude desc st) = OWNED_CONTROL_CLEAN_CANDIDATE ->
  let last := record_at (sc_work st) (sc_best st) in
  sc_valid_count st <> 0 /\ history_reasons st = 0 /\ cr_lease_kind (cd_record last) = 0 /\
  sc_retired_control st = 0 /\ cr_state (cd_record last) = OWNED_CONTROL_ACTIVE /\
  os_latest_sequence (conclude desc st) = cr_sequence (cd_record last) /\
  os_latest_digest (conclude desc st) = cd_digest last /\
  os_retired_map (conclude desc st) = sc_retired_map st /\
  os_latest_bank (conclude desc st) = cr_bank (cd_record last) /\
  os_latest_slot (conclude desc st) = cr_slot (cd_record last).
Proof.
  unfold conclude. destruct (Z.eqb_spec (sc_valid_count st) 0); cbn [negb].
  { cbn [os_kind]. by destruct (_ =? 0). }
  cbn [os_kind os_latest_sequence os_latest_digest os_retired_map os_latest_bank os_latest_slot]. intros H.
  match type of H with (if ?b then _ else _) = _ => destruct b eqn:E; [|done] end.
  rewrite Z.eqb_eq, !Z.lor_eq_0_iff in E.
  destruct E as [[[Hh Hp] Hr] Ha]. cbv zeta. split_and!; try done.
  - by destruct (Z.eqb_spec (cr_lease_kind (cd_record (record_at (sc_work st) (sc_best st)))) 0).
  - by destruct (Z.eqb_spec (sc_retired_control st) 0).
  - by destruct (Z.eqb_spec (cr_state (cd_record (record_at (sc_work st) (sc_best st)))) OWNED_CONTROL_ACTIVE).
Qed.

Lemma elem_of_zseq n i : i ∈ zseq n <-> 0 <= i < n.
Proof. unfold zseq. rewrite elem_of_seqZ. lia. Qed.

Lemma history_reasons_0 st :
  history_reasons st = 0 ->
  sc_reasons st = 0 /\ sc_best st + 1 = sc_valid_count st /\
  forall i, 0 <= i < OWNED_CONTROL_RECORDS -> chain_reasons (sc_work st) i = 0.
Proof.
  unfold history_reasons. intros [Hs Hall]%chain_foldl. apply Z.lor_eq_0_iff in Hs as [Hs0 Hs1].
  split_and!; [done| |].
  - destruct (_ || _) eqn:Hg in Hs1; [done|].
    rewrite orb_false_iff, negb_false_iff, Z.eqb_eq in Hg. by destruct Hg.
  - intros i Hi. by apply Hall, elem_of_zseq.
Qed.

Lemma work_at_last (rs : list owned_control_decoded) ws :
  rs <> [] -> (forall k, (k < length rs)%nat -> ws !! k = Some (rs !! k)) ->
  last rs = Some (record_at ws (zlen rs - 1)).
Proof.
  intros Hne Hpad. rewrite last_lookup. unfold record_at.
  destruct rs as [|r0 rs]; [done|].
  replace (zlen (r0 :: rs) - 1) with (Z.of_nat (length rs)) by (unfold zlen; cbn [length]; lia).
  rewrite work_at_nat, Hpad by (cbn [length]; lia). cbn [length Nat.pred default].
  destruct (lookup_lt_is_Some_2 (r0 :: rs) (length rs)) as [x Hx]; [cbn [length]; lia|by rewrite Hx].
Qed.

(** A scan of 128 slots whose history raises no reason found a clean history. *)
Lemma scan_clean desc h obs st
    (Hlen : length obs = 128%nat)
    (Hscan : scan desc h 0 obs scan_start = Some st)
    (Hn : sc_valid_count st <> 0) (H0 : history_reasons st = 0) :
  exists rs, clean_history desc h obs rs /\ last rs = Some (record_at (sc_work st) (sc_best st)) /\
    sc_retired_map st = foldl (fun m d => Z.lor m (cr_retired_map (cd_record d))) 0 rs /\
    (length rs <= length obs)%nat.
Proof.
  destruct (scan_spec _ _ _ _ _ _ Hscan) as (ws & Hw & Hl & Hc & Hm & _ & Hr).
  apply history_reasons_0 in H0 as (Hs0 & Hbest & Hall). destruct (Hr Hs0) as [_ Hseen].
  cbn [sc_work sc_retired_map sc_valid_count scan_start app] in Hw, Hm, Hc. rewrite Z.add_0_l in Hc.
  assert (Hchain : forall k d, ws !! k = Some (Some d) -> chain_reasons ws (Z.of_nat k) = 0).
  { intros k d Hk. rewrite <- Hw. apply Hall.
    apply lookup_lt_Some in Hk. unfold OWNED_CONTROL_RECORDS. lia. }
  destruct (gapless ws) as (rs & m & E).
  { intros k d Hk. destruct (chain_reasons_0 _ _ _ (Hchain _ _ Hk) Hk) as [_ Hprev].
    destruct (Hprev k eq_refl) as (p & ? & _). by exists p. }
  assert (Hpad : forall k, (k < 128)%nat -> ws !! k = Some (rs !! k)).
  { intros k Hk. rewrite E. apply lookup_padded. rewrite E, length_app, length_map, length_replicate in Hl. lia. }
  assert (Hcount : sc_valid_count st = zlen rs).
  { rewrite Hc. unfold count_valid. by rewrite E, omap_id_some. }
  assert (Hbound : (length rs <= 128)%nat).
  { rewrite E, length_app, length_map, length_replicate in Hl. lia. }
  exists rs. split; [constructor|split; [|split; [|lia]]].
  - intros k o Ho. pose proof (lookup_lt_Some _ _ _ Ho). apply (Hseen k o); [done|]. apply Hpad. lia.
  - intros k d Hk. pose proof (lookup_lt_Some _ _ _ Hk).
    assert (Hwk : ws !! k = Some (Some d)) by (rewrite Hpad, Hk by lia; done).
    by apply (chain_reasons_0 _ _ _ (Hchain _ _ Hwk) Hwk).
  - intros k p d Hp Hd. pose proof (lookup_lt_Some _ _ _ Hd).
    assert (Hwk : ws !! S k = Some (Some d)) by (rewrite Hpad, Hd by lia; done).
    destruct (chain_reasons_0 _ _ _ (Hchain _ _ Hwk) Hwk) as [_ Hprev].
    destruct (Hprev k eq_refl) as (p' & Hp' & _ & ? & ?).
    rewrite Hpad, Hp in Hp' by lia. by injection Hp' as ->.
  - rewrite Hw. replace (sc_best st) with (zlen rs - 1) by lia. apply work_at_last.
    + intros ->. by rewrite zlen_nil in Hcount.
    + intros k Hk. apply Hpad. lia.
  - by rewrite Hm, E, omap_id_some.
Qed.

Lemma control_select_inv da obs n d dn s h work out sel :
  owned_control_select da (Some obs) n d dn s (Some h) work out = (OWNED_CONTROL_VALID, Some sel) ->
  exists desc st, ct_descriptor da d dn s (Some h) = (OWNED_CONTROL_VALID, Some desc) /\ n = 128 /\
    scan desc (deref h) 0 (deref obs) scan_start = Some st /\ sel = conclude desc st /\
    Forall (fun o => obs_kind o = OWNED_CONTROL_PAGE_PRESENT <-> obs_page o <> None) (deref obs).
Proof.
  unfold owned_control_select. destruct work as [wk|], out as [ou|]; try done.
  destruct (_ || _) eqn:Hg; [done|]. rewrite !orb_false_iff, negb_false_iff, Z.eqb_eq in Hg.
  destruct Hg as [[[[[[-> _] _] _] _] _] _]. destruct (existsb _ _) eqn:He; [done|].
  destruct (ct_descriptor _ _ _ _ _) as [rc w] eqn:Hd. destruct rc; try done.
  destruct (ct_descriptor_inv _ _ _ _ _ _ Hd) as (desc & -> & _).
  destruct (scan _ _ _ _ _) as [st|] eqn:Hs; [|done]. intros [= <-]. exists desc, st. split_and!; try done.
  apply Forall_forall. intros o Ho. apply list_elem_of_In in Ho.
  assert (Hok : observation_ok o = true).
  { destruct (observation_ok o) eqn:E; [done|]. rewrite <- not_true_iff_false in He. destruct He.
    apply existsb_exists. exists o. split; [done|]. by rewrite E. }
  unfold observation_ok in Hok. rewrite andb_true_iff in Hok. destruct Hok as [_ Hok].
  apply eqb_prop in Hok. destruct (obs_page o), (Z.eqb_spec (obs_kind o) OWNED_CONTROL_PAGE_PRESENT); naive_solver.
Qed.

(** C22. The selector never promotes a doubtful history.  A CLEAN_CANDIDATE means
    that the slots hold exactly one gapless history from sequence 1: slot [k]
    validated as the record of sequence [k+1], each record naming the digest of
    the previous one and following it by a legal transition, every later slot
    proven unused, and the last record ACTIVE with no lease pending. *)
Theorem owned_control_select_clean da obs n d dn s h work out sel
    (Hlen : length (deref obs) = 128%nat)
    (Hsel : owned_control_select da (Some obs) n d dn s (Some h) work out = (OWNED_CONTROL_VALID, Some sel))
    (Hclean : os_kind sel = OWNED_CONTROL_CLEAN_CANDIDATE) :
  exists desc rs final,
    ct_descriptor da d dn s (Some h) = (OWNED_CONTROL_VALID, Some desc) /\
    clean_history desc (deref h) (deref obs) rs /\ last rs = Some final /\
    cr_state (cd_record final) = OWNED_CONTROL_ACTIVE /\
    cr_lease_kind (cd_record final) = OWNED_CONTROL_NO_LEASE /\
    os_latest_sequence sel = zlen rs /\ os_latest_digest sel = cd_digest final.
Proof.
  destruct (control_select_inv _ _ _ _ _ _ _ _ _ _ Hsel) as (desc & st & Hd & _ & Hs & -> & _).
  destruct (conclude_clean _ _ Hclean) as (Hn & H0 & Hk & _ & Ha & Hseq & Hdg & _).
  destruct (scan_clean _ _ _ _ Hlen Hs Hn H0) as (rs & Hch & Hlast & _).
  exists desc, rs, (record_at (sc_work st) (sc_best st)). split_and!; try done.
  rewrite Hseq. rewrite last_lookup in Hlast. rewrite (ch_sequence _ _ _ _ Hch _ _ Hlast).
  apply lookup_lt_Some in Hlast. unfold zlen. lia.
Qed.

(** Retirement evidence survives everything but a provider failure: every
    bit that any individually valid record of any slot retires is retired in the
    selection, even when the history is broken, reordered or duplicated. *)
Theorem owned_control_select_keeps_retired da obs n d dn s h work out sel desc k o dec
    (Hsel : owned_control_select da (Some obs) n d dn s (Some h) work out = (OWNED_CONTROL_VALID, Some sel))
    (Hd : ct_descriptor da d dn s (Some h) = (OWNED_CONTROL_VALID, Some desc))
    (Ho : deref obs !! k = Some o) (Hkind : obs_kind o = OWNED_CONTROL_PAGE_PRESENT)
    (Hpage : ct_validate_page (match obs_page o with Some p => deref p | None => [] end)
               (Z.of_nat k / 64) (Z.of_nat k mod 64) desc (deref h) = (OWNED_CONTROL_VALID, dec)) :
  keeps (cr_retired_map (cd_record dec)) (os_retired_map sel) = true.
Proof.
  destruct (control_select_inv _ _ _ _ _ _ _ _ _ _ Hsel) as (desc' & st & Hd' & _ & Hs & -> & _).
  rewrite Hd in Hd'. injection Hd' as <-.
  destruct (scan_spec _ _ _ _ _ _ Hs) as (ws & _ & _ & Hc & Hm & Hp & _).
  specialize (Hp k o dec Ho Hkind Hpage).
  assert (Hin : dec ∈ omap id ws).
  { apply list_elem_of_omap. exists (Some dec). split; [by eapply list_elem_of_lookup_2|done]. }
  unfold conclude. destruct (Z.eqb_spec (sc_valid_count st) 0) as [E|]; cbn [negb os_retired_map].
  - exfalso. rewrite Hc in E. cbn in E. unfold count_valid, zlen in E.
    destruct (omap id ws); [by apply not_elem_of_nil in Hin|simpl in E; lia].
  - rewrite Hm. by apply (foldl_lor_keeps (fun d => cr_retired_map (cd_record d))).
Qed.

(** ** Leases along a history *)
Lemma lease_valid_high_water r s :
  ct_record_valid r s = true -> cr_lease_kind r <> 0 -> cr_lease_id r = cr_lease_high_water r.
Proof.
  unfold ct_record_valid. destruct (_ || _); [done|]. rewrite andb_true_iff. intros [_ H] Hk.
  unfold ct_lease_valid, OWNED_CONTROL_NO_LEASE in H. rewrite (proj2 (Z.eqb_neq _ _) Hk) in H.
  destruct (_ || _) eqn:Hg in H; [done|]. rewrite !orb_false_iff, !negb_false_iff in Hg. lia.
Qed.

(** One legal transition: the high-water mark never falls, and a lease in the
    successor either continues the predecessor's or is new and above its mark. *)
Lemma ct_transition_lease a b :
  ct_transition a b = true ->
  cr_lease_high_water a <= cr_lease_high_water b /\ keeps (cr_retired_map a) (cr_retired_map b) = true /\
  (cr_lease_kind b <> 0 ->
     (cr_lease_kind a = cr_lease_kind b /\ cr_lease_id a = cr_lease_id b /\
      cr_target_physical_row a = cr_target_physical_row b) \/
     cr_lease_high_water a < cr_lease_id b).
Proof.
  unfold ct_transition. destruct (_ || _) eqn:Hg; [done|].
  rewrite !orb_false_iff, !negb_false_iff, Z.ltb_ge in Hg. destruct Hg as [[[[Hm _] _] _] Hw].
  intros H. split_and!; [done|done|]. intros Hk. rewrite (proj2 (Z.eqb_neq _ _) Hk) in H.
  rewrite andb_false_r in H. cbn [negb] in H. destruct (Z.eqb_spec (cr_lease_kind a) 0).
  - right. rewrite !andb_true_iff, Z.ltb_lt in H. tauto.
  - left. rewrite !andb_true_iff, !Z.eqb_eq in H. naive_solver.
Qed.

Section History.
Context (desc : owned_volume_decoded) (h : owned_page_hash).
Context (obs : list owned_control_observation) (rs : list owned_control_decoded).
Context (Hch : clean_history desc h obs rs) (Hlen : (length rs <= length obs)%nat).

Lemma history_valid k d : rs !! k = Some d -> ct_record_valid (cd_record d) (vd_spec desc) = true.
Proof using All.
  intros Hk. pose proof (lookup_lt_Some _ _ _ Hk).
  destruct (lookup_lt_is_Some_2 obs k) as [o Ho]; [lia|].
  pose proof (ch_slots _ _ _ _ Hch k o Ho) as Hs. rewrite Hk in Hs. destruct Hs as [_ Hv].
  by apply ct_validate_page_inv in Hv as (_ & _ & ? & _).
Qed.

Lemma history_high_water i n a b :
  rs !! i = Some a -> rs !! (i + n)%nat = Some b ->
  cr_lease_high_water (cd_record a) <= cr_lease_high_water (cd_record b).
Proof using All.
  intros Ha. revert b. induction n as [|n IH]; intros b Hb.
  { rewrite Nat.add_0_r, Ha in Hb. injection Hb as <-. lia. }
  replace (i + S n)%nat with (S (i + n)) in Hb by lia.
  destruct (lookup_lt_is_Some_2 rs (i + n)) as [m Hm]; [apply lookup_lt_Some in Hb; lia|].
  destruct (ch_chain _ _ _ _ Hch _ _ _ Hm Hb) as [_ Ht].
  apply ct_transition_lease in Ht as [? _]. specialize (IH m Hm). lia.
Qed.

Lemma history_lease i n a b :
  rs !! i = Some a -> rs !! (i + n)%nat = Some b ->
  cr_lease_kind (cd_record a) <> 0 -> cr_lease_kind (cd_record b) <> 0 ->
  (cr_lease_kind (cd_record a) = cr_lease_kind (cd_record b) /\
   cr_lease_id (cd_record a) = cr_lease_id (cd_record b) /\
   cr_target_physical_row (cd_record a) = cr_target_physical_row (cd_record b)) \/
  cr_lease_id (cd_record a) < cr_lease_id (cd_record b).
Proof using All.
  intros Ha. revert b. induction n as [|n IH]; intros b Hb Hka Hkb.
  { rewrite Nat.add_0_r, Ha in Hb. injection Hb as <-. by left. }
  replace (i + S n)%nat with (S (i + n)) in Hb by lia.
  destruct (lookup_lt_is_Some_2 rs (i + n)) as [m Hm]; [apply lookup_lt_Some in Hb; lia|].
  destruct (ch_chain _ _ _ _ Hch _ _ _ Hm Hb) as [_ Ht].
  apply ct_transition_lease in Ht as (_ & _ & Ht). destruct (Ht Hkb) as [(E1 & E2 & E3)|Hlt].
  - destruct (IH m Hm Hka) as [(? & ? & ?)|?]; [congruence|left; split_and!; congruence|right; congruence].
  - right. pose proof (history_high_water i n a m Ha Hm).
    rewrite (lease_valid_high_water _ _ (history_valid _ _ Ha) Hka). lia.
Qed.
End History.

(** C34. A lease id never names two targets: in a history the selector calls
    clean, two records holding a lease with the same id hold the same kind of
    lease on the same physical row, and ids never decrease from slot to slot. *)
Theorem owned_control_lease_unique da obs n d dn s h work out sel desc i j a b oa ob
    (Hlen : length (deref obs) = 128%nat)
    (Hsel : owned_control_select da (Some obs) n d dn s (Some h) work out = (OWNED_CONTROL_VALID, Some sel))
    (Hclean : os_kind sel = OWNED_CONTROL_CLEAN_CANDIDATE)
    (Hd : ct_descriptor da d dn s (Some h) = (OWNED_CONTROL_VALID, Some desc))
    (Hi : deref obs !! i = Some oa) (Hj : deref obs !! j = Some ob) (Hij : (i <= j)%nat)
    (Hsa : slot_seen desc (deref h) (Z.of_nat i) oa (Some a))
    (Hsb : slot_seen desc (deref h) (Z.of_nat j) ob (Some b))
    (Hka : cr_lease_kind (cd_record a) <> OWNED_CONTROL_NO_LEASE)
    (Hkb : cr_lease_kind (cd_record b) <> OWNED_CONTROL_NO_LEASE) :
  cr_lease_id (cd_record a) <= cr_lease_id (cd_record b) /\
  (cr_lease_id (cd_record a) = cr_lease_id (cd_record b) ->
   cr_lease_kind (cd_record a) = cr_lease_kind (cd_record b) /\
   cr_target_physical_row (cd_record a) = cr_target_physical_row (cd_record b)).
Proof.
  destruct (control_select_inv _ _ _ _ _ _ _ _ _ _ Hsel) as (desc' & st & Hd' & _ & Hs & -> & _).
  rewrite Hd in Hd'. injection Hd' as <-.
  destruct (conclude_clean _ _ Hclean) as (Hn & H0 & _).
  destruct (scan_clean _ _ _ _ Hlen Hs Hn H0) as (rs & Hch & _ & _ & Hle).
  assert (Hin : forall k o x, deref obs !! k = Some o ->
            slot_seen desc (deref h) (Z.of_nat k) o (Some x) -> rs !! k = Some x).
  { intros k o x Ho [Hk Hv]. pose proof (ch_slots _ _ _ _ Hch k o Ho) as Hs'.
    destruct (rs !! k) as [y|]; [destruct Hs' as [_ Hv']; congruence|].
    cbn in Hs'. rewrite Hs' in Hk. done. }
  pose proof (Hin _ _ _ Hi Hsa) as Ha. pose proof (Hin _ _ _ Hj Hsb) as Hb.
  replace j with (i + (j - i))%nat in Hb by lia.
  destruct (history_lease _ _ _ _ Hch Hle _ _ _ _ Ha Hb Hka Hkb) as [(? & ? & ?)|?]; [|lia].
  split; [lia|done].
Qed.

(** * Concrete instances: a history of five records, the third and fourth holding
    an erase lease on map slot 2. *)
Definition base_record (seq prev_state : Z) (prev : bytes) : owned_control_record :=
  {| cr_sequence := seq; cr_previous_sequence := seq - 1; cr_previous_digest := prev; cr_state := prev_state;
     cr_lease_kind := 0; cr_lease_id := 0; cr_target_map_slot := OWNED_CONTROL_NO_TARGET;
     cr_target_page := OWNED_CONTROL_NO_TARGET; cr_target_physical_row := OWNED_CONTROL_NO_TARGET;
     cr_bank := 0; cr_slot := seq - 1; cr_physical_row := 40 * 64 + (seq - 1); cr_retired_map := 0;
     cr_retired_control := 0; cr_resolution := 0; cr_resolved_lease_id := 0; cr_lease_high_water := 0 |}.
Definition lease_record (seq : Z) (prev : bytes) : owned_control_record :=
  {| cr_sequence := seq; cr_previous_sequence := seq - 1; cr_previous_digest := prev; cr_state := OWNED_CONTROL_ACTIVE;
     cr_lease_kind := OWNED_CONTROL_ERASE_BLOCK; cr_lease_id := 9; cr_target_map_slot := 2;
     cr_target_page := 0; cr_target_physical_row := 114 * 64;
     cr_bank := 0; cr_slot := seq - 1; cr_physical_row := 40 * 64 + (seq - 1); cr_retired_map := 0;
     cr_retired_control := 0; cr_resolution := 0; cr_resolved_lease_id := 0; cr_lease_high_water := 9 |}.
Definition resolved_record (seq : Z) (prev : bytes) : owned_control_record :=
  {| cr_sequence := seq; cr_previous_sequence := seq - 1; cr_previous_digest := prev; cr_state := OWNED_CONTROL_ACTIVE;
     cr_lease_kind := 0; cr_lease_id := 0; cr_target_map_slot := OWNED_CONTROL_NO_TARGET;
     cr_target_page := OWNED_CONTROL_NO_TARGET; cr_target_physical_row := OWNED_CONTROL_NO_TARGET;
     cr_bank := 0; cr_slot := seq - 1; cr_physical_row := 40 * 64 + (seq - 1); cr_retired_map := 0;
     cr_retired_control := 0; cr_resolution := OWNED_CONTROL_VERIFIED_COMPLETE; cr_resolved_lease_id := 9;
     cr_lease_high_water := 9 |}.
Definition sample_build (r : owned_control_record) : bytes :=
  written (owned_control_record_build 0x26000 at_out 4096 (Some (Obj 0x2a000 r)) (Some p_descriptor) 512
             (Some p_spec) (Some p_hash)).
Definition page_digest (p : bytes) : bytes := slice OWNED_CONTROL_DIGEST_OFFSET 32 p.
Definition r1 : owned_control_record := base_record 1 OWNED_CONTROL_PROVISIONING (fill 32 0).
Definition g1 : bytes := Eval vm_compute in page_digest (sample_build r1).
Definition r2 : owned_control_record := base_record 2 OWNED_CONTROL_ACTIVE g1.
Definition g2 : bytes := Eval vm_compute in page_digest (sample_build r2).
Definition r3 : owned_control_record := lease_record 3 g2.
Definition g3 : bytes := Eval vm_compute in page_digest (sample_build r3).
Definition r4 : owned_control_record := lease_record 4 g3.
Definition g4 : bytes := Eval vm_compute in page_digest (sample_build r4).
Definition r5 : owned_control_record := resolved_record 5 g4.
Definition sample_observations : list owned_control_observation :=
  imap (fun i r => {| obs_kind := OWNED_CONTROL_PAGE_PRESENT;
                      obs_page := Some (Obj (0x100000 + 4096 * Z.of_nat i) (sample_build r)) |}) [r1; r2; r3; r4; r5] ++
  replicate 123 {| obs_kind := OWNED_CONTROL_PROVEN_UNUSED; obs_page := None |}.
Definition p_observations : obj (list owned_control_observation) := Obj 0x60000 sample_observations.
Definition p_work : obj owned_control_workspace := Obj 0x70000 [].
Definition p_selection : obj owned_control_selection := Obj 0x78000 empty_selection.
Definition p_control_decoded : obj owned_control_decoded := Obj 0x79000 empty_decoded.
Definition sample_select : owned_control_result * option owned_control_selection :=
  owned_control_select 0x26000 (Some p_observations) 128 (Some p_descriptor) 512 (Some p_spec) (Some p_hash)
    (Some p_work) (Some p_selection).
Definition sample_selection : owned_control_selection := default empty_selection (snd sample_select).
Definition sample_decoded_volume : owned_volume_decoded :=
  default cleared_decoded (snd (ct_descriptor 0x26000 (Some p_descriptor) 512 (Some p_spec) (Some p_hash))).
Definition sample_observation (i : nat) : owned_control_observation :=
  default {| obs_kind := 0; obs_page := None |} (sample_observations !! i).

Lemma base_record_wf seq st prev :
  1 <= seq < 100 -> 0 <= st < 4 -> zlen prev = 32 -> is_bytes prev -> record_wf (base_record seq st prev).
Proof.
  intros. constructor; unfold base_record, OWNED_CONTROL_NO_TARGET, UINT32_MAX; cbn; try lia. by split.
Qed.

Lemma owned_control_record_roundtrip_witness :
  exists value,
    ct_digest sample_hash (sample_build r2) = Some value /\
    owned_control_record_validate 0x26000 (Some (Obj 0x50000 (sample_build r2))) OWNED_CONTROL_PAGE_BYTES 0 1
        (Some p_descriptor) 512 (Some p_spec) (Some p_hash) (Some p_control_decoded) =
      (OWNED_CONTROL_VALID, Some {| cd_record := r2; cd_digest := value |}).
Proof.
  apply (owned_control_record_roundtrip 0x26000 at_out 4096 (Obj 0x2a000 r2) (Some p_descriptor) 512 (Some p_spec)
    p_hash (sample_build r2) 0x50000 p_control_decoded).
  - apply base_record_wf; [lia|done|done|]. by apply is_bytesb_sound.
  - vm_compute. reflexivity.
  - vm_compute. reflexivity.
Defined.

Lemma owned_control_select_clean_witness :
  exists desc rs final,
    ct_descriptor 0x26000 (Some p_descriptor) 512 (Some p_spec) (Some p_hash) = (OWNED_CONTROL_VALID, Some desc) /\
    clean_history desc sample_hash sample_observations rs /\ last rs = Some final /\
    cr_state (cd_record final) = OWNED_CONTROL_ACTIVE /\
    cr_lease_kind (cd_record final) = OWNED_CONTROL_NO_LEASE /\
    os_latest_sequence sample_selection = zlen rs /\ os_latest_digest sample_selection = cd_digest final.
Proof.
  apply (owned_control_select_clean 0x26000 p_observations 128 (Some p_descriptor) 512 (Some p_spec) p_hash
    (Some p_work) (Some p_selection) sample_selection).
  - vm_compute. reflexivity.
  - vm_compute. reflexivity.
  - vm_compute. reflexivity.
Defined.

Lemma owned_control_select_keeps_retired_witness :
  keeps (cr_retired_map r3) (os_retired_map sample_selection) = true.
Proof.
  apply (owned_control_select_keeps_retired 0x26000 p_observations 128 (Some p_descriptor) 512 (Some p_spec) p_hash
    (Some p_work) (Some p_selection) sample_selection sample_decoded_volume 2 (sample_observation 2)
    {| cd_record := r3; cd_digest := g3 |}).
  - vm_compute. reflexivity.
  - vm_compute. reflexivity.
  - vm_compute. reflexivity.
  - vm_compute. reflexivity.
  - vm_compute. reflexivity.
Defined.

Lemma owned_control_lease_unique_witness :
  cr_lease_id r3 = cr_lease_id r4 /\ cr_target_physical_row r3 = cr_target_physical_row r4.
Proof.
  split; [reflexivity|].
  apply (owned_control_lease_unique 0x26000 p_observations 128 (Some p_descriptor) 512 (Some p_spec) p_hash
    (Some p_work) (Some p_selection) sample_selection sample_decoded_volume 2 3
    {| cd_record := r3; cd_digest := g3 |} {| cd_record := r4; cd_digest := g4 |}
    (sample_observation 2) (sample_observation 3)).
  - vm_compute. reflexivity.
  - vm_compute. reflexivity.
  - vm_compute. reflexivity.
  - vm_compute. reflexivity.
  - vm_compute. reflexivity.
  - vm_compute. reflexivity.
  - lia.
  - split; vm_compute; reflexivity.
  - split; vm_compute; reflexivity.
  - done.
  - done.
  - reflexivity.
Defined.
