(* ===== verification/DharaTypes.v ===== *)
(** The data [owned_dhara.h] declares and the control journal shares with the
    Dhara adapter: capabilities, leases, page history and their codes. *)
From S2P Require Import Prelude.

(** [enum owned_dhara_result]. *)
Definition OD_OK : Z := 0.
Definition OD_MISSING : Z := 1.
Definition OD_NO_JOURNAL : Z := 2.
Definition OD_ARGUMENT : Z := -1.
Definition OD_READ_ONLY : Z := -2.
Definition OD_FATAL : Z := -3.
Definition OD_LIBRARY : Z := -4.
Definition OD_BUSY : Z := -5.

(** [enum owned_dhara_page_state]. *)
Definition OD_PAGE_UNKNOWN : Z := 0.
Definition OD_PAGE_UNUSED : Z := 1.
Definition OD_PAGE_COMMITTED : Z := 2.
Definition OD_PAGE_ABANDONED : Z := 3.

Record owned_dhara_page_info := { pi_state : Z; pi_lease_id : Z }.
Record owned_dhara_capability := {
  cap_descriptor_digest : bytes;
  cap_control_digest : bytes;
  cap_sequence : Z;
  cap_lease_high_water : Z;
  cap_state : Z;
  cap_retired_map : Z
}.
Record owned_dhara_lease := {
  ls_descriptor_digest : bytes;
  ls_sequence : Z;
  ls_lease_id : Z;
  ls_range_base : Z;
  ls_kind : Z;
  ls_map_slot : Z;
  ls_physical_row : Z
}.
Definition empty_lease : owned_dhara_lease :=
  {| ls_descriptor_digest := fill 32 0; ls_sequence := 0; ls_lease_id := 0; ls_range_base := 0;
     ls_kind := 0; ls_map_slot := 0; ls_physical_row := 0 |}.

(** [memcmp] of two structures whose padding is cleared: field by field. *)
Definition lease_eqb (a b : owned_dhara_lease) : bool :=
  equal (ls_descriptor_digest a) (ls_descriptor_digest b) && (ls_sequence a =? ls_sequence b) &&
  (ls_lease_id a =? ls_lease_id b) && (ls_range_base a =? ls_range_base b) && (ls_kind a =? ls_kind b) &&
  (ls_map_slot a =? ls_map_slot b) && (ls_physical_row a =? ls_physical_row b).
Definition capability_eqb (a b : owned_dhara_capability) : bool :=
  equal (cap_descriptor_digest a) (cap_descriptor_digest b) &&
  equal (cap_control_digest a) (cap_control_digest b) && (cap_sequence a =? cap_sequence b) &&
  (cap_lease_high_water a =? cap_lease_high_water b) && (cap_state a =? cap_state b) &&
  (cap_retired_map a =? cap_retired_map b).
