(* ===== verification/ControlJournal.v ===== *)
(** The owned control journal ([owned_control_journal.c/.h]): the v2 persistent
    snapshot of epochs, block lease ranges and volume state, its codec and
    transition relation, and the state machine that boots it from two control
    banks, publishes new snapshots and hands out erase and program leases.

    The physical callbacks ([struct ocj_io]) are a record of functions over an
    arbitrary world [W]: every result they may return is covered. *)
From S2P Require Import Prelude OwnedPage SealedRecord OwnedVolume ControlRecord DharaTypes.

Definition OCJ_MAGIC : Z := 0x4f434a32.
Definition OCJ_BODY_BYTES : Z := 1280.
Definition OCJ_DIGEST_OFFSET : Z := 1280.
Definition OCJ_PADDING_OFFSET : Z := 1312.

(** [enum ocj_rc]. *)
Definition OCJ_OK : Z := 0.
Definition OCJ_NO_ROOT : Z := 1.
Definition OCJ_ARGUMENT : Z := -1.
Definition OCJ_REFUSED : Z := -2.
Definition OCJ_FAULT : Z := -3.
Definition OCJ_CONFLICT : Z := -4.
Definition OCJ_BUSY : Z := -5.
(** [enum ocj_admission]. *)
Definition OCJ_ADMIT_BOOT : Z := 1.
Definition OCJ_ADMIT_PROVISION : Z := 2.
Definition OCJ_ADMIT_RECYCLE : Z := 3.
Definition OCJ_ADMIT_MAP : Z := 4.
Definition OCJ_ADMIT_ACTIVE : Z := 5.
(** [enum ocj_io_rc]. *)
Definition OCJ_IO_OK : Z := 0.
Definition OCJ_IO_CHECKED_RAW : Z := 1.
Definition OCJ_IO_MEDIA : Z := 2.
Definition OCJ_IO_ERROR : Z := -1.
Definition OCJ_IO_UNCERTAIN : Z := -2.

Record ocj_block := { jb_base : Z; jb_valid : Z; jb_range_sequence : Z; jb_consumed : Z }.
#[export] Instance eta_block : Eta ocj_block :=
  fun b => Build_ocj_block (jb_base b) (jb_valid b) (jb_range_sequence b) (jb_consumed b).
Definition empty_block : ocj_block :=
  {| jb_base := 0; jb_valid := 0; jb_range_sequence := 0; jb_consumed := 0 |}.

Record ocj_snapshot := {
  js_epoch : Z;
  js_previous_epoch : Z;
  js_high_water : Z;
  js_previous_digest : bytes;
  js_digest : bytes;
  js_state : Z;
  js_bank : Z;
  js_slot : Z;
  js_retired : Z;
  js_quarantine : Z;
  js_open : Z;
  js_pending_kind : Z;
  js_pending_slot : Z;
  js_pending_lease : Z;
  js_blocks : list ocj_block
}.
#[export] Instance eta_snapshot : Eta ocj_snapshot :=
  fun s => Build_ocj_snapshot (js_epoch s) (js_previous_epoch s) (js_high_water s) (js_previous_digest s)
    (js_digest s) (js_state s) (js_bank s) (js_slot s) (js_retired s) (js_quarantine s) (js_open s)
    (js_pending_kind s) (js_pending_slot s) (js_pending_lease s) (js_blocks s).
Definition empty_snapshot : ocj_snapshot :=
  {| js_epoch := 0; js_previous_epoch := 0; js_high_water := 0; js_previous_digest := fill 32 0;
     js_digest := fill 32 0; js_state := 0; js_bank := 0; js_slot := 0; js_retired := 0; js_quarantine := 0;
     js_open := 0; js_pending_kind := 0; js_pending_slot := 0; js_pending_lease := 0;
     js_blocks := fill 32 empty_block |}.
Definition sizeof_ocj_snapshot : Z := 1152.

Definition journal_magic : bytes := [0x4f; 0x50; 0x4e; 0x44; 0x43; 0x4a; 0x32; 0].

Definition block_at (l : list ocj_block) (i : Z) : ocj_block := nth (Z.to_nat i) l empty_block.
Definition set_block (l : list ocj_block) (i : Z) (b : ocj_block) : list ocj_block := <[Z.to_nat i := b]> l.
(** [1U << i] *)
Definition bit (i : Z) : Z := Z.shiftl 1 i.

(** ** [syntax]: the checks on a snapshot by itself *)
Definition syntax_header (s : ocj_snapshot) : bool :=
  negb (js_epoch s =? 0) && (js_epoch s <=? INT64_MAX) && (js_previous_epoch s =? u64 (js_epoch s - 1)) &&
  (js_bank s <=? 1) && (js_slot s <=? 63) && (1 <=? js_state s) && (js_state s <=? 3) &&
  (negb (js_epoch s =? 1) ||
   ((js_bank s =? 0) && (js_slot s =? 0) && (js_high_water s =? 0) && (js_pending_kind s =? 0) &&
    (js_state s =? OWNED_CONTROL_PROVISIONING) && (js_retired s =? 0) && (js_quarantine s =? 0) &&
    (js_open s =? 0))) &&
  (if js_epoch s =? 1 then all (js_previous_digest s) 0 else negb (all (js_previous_digest s) 0)) &&
  keeps (js_retired s) (js_quarantine s) && (Z.land (js_open s) (js_quarantine s) =? 0).

Definition syntax_pending (s : ocj_snapshot) : bool :=
  ((js_pending_kind s =? 0) || (js_pending_kind s =? OWNED_CONTROL_ERASE_BLOCK)) &&
  (if js_pending_kind s =? 0 then (js_pending_slot s =? UINT32_MAX) && (js_pending_lease s =? 0)
   else (js_pending_slot s <? 32) && negb (js_pending_lease s =? 0) &&
        has_bit (js_quarantine s) (js_pending_slot s) && negb (has_bit (js_retired s) (js_pending_slot s))).

(** No reserved range of an earlier slot touches [b]'s. *)
Definition ranges_apart (s : ocj_snapshot) (i : Z) (b : ocj_block) : bool :=
  forallb (fun k =>
    let a := block_at (js_blocks s) k in
    (jb_base a =? 0) || negb ((jb_base b <=? u64 (jb_base a + 64)) && (jb_base a <=? u64 (jb_base b + 64))))
    (zseq i).

Definition syntax_block (s : ocj_snapshot) (i : Z) : bool :=
  let b := block_at (js_blocks s) i in
  (jb_consumed b <=? 64) &&
  (negb (jb_base b =? 0) || ((jb_valid b =? 0) && (jb_range_sequence b =? 0) && (jb_consumed b =? 64))) &&
  ((jb_base b =? 0) ||
   ((jb_base b <=? UINT64_MAX - 64) && (u64 (jb_base b + 64) <=? js_high_water s) &&
    negb (jb_range_sequence b =? 0) && (jb_range_sequence b <=? js_epoch s))) &&
  ((64 <=? jb_consumed b) || (Z.shiftr (jb_valid b) (jb_consumed b) =? 0)) &&
  (negb (has_bit (js_open s) i) || (negb (jb_base b =? 0) && negb (jb_consumed b =? 64))) &&
  ((jb_base b =? 0) || ranges_apart s i b).

Definition syntax (s : ocj_snapshot) : bool :=
  syntax_header s && syntax_pending s && forallb (syntax_block s) (zseq 32) &&
  (if js_pending_kind s =? 0 then true
   else let b := block_at (js_blocks s) (js_pending_slot s) in
        (jb_base b =? js_pending_lease s) && (jb_valid b =? 0) && (jb_consumed b =? 64)).

(** ** The 4096-byte codec *)
Definition journal_crc (p : bytes) : Z :=
  crc32 (fun i => (252 <=? i) && (i <? 256)) (slice 0 OCJ_BODY_BYTES p).
Definition journal_sha (h : owned_page_hash) (p : bytes) : option bytes :=
  sha_digest h (slice 0 OCJ_BODY_BYTES p).

(** The row recorded for the pending erase: [map_blocks[slot]*64U], or none. *)
Definition pending_row (v : owned_volume_decoded) (s : ocj_snapshot) : Z :=
  if js_pending_kind s =? 0 then UINT32_MAX
  else row_of (znth (js_pending_slot s) (vs_map_blocks (vd_spec v))) 0.

Definition journal_header (v : owned_volume_decoded) (s : ocj_snapshot) : list field :=
  [(0, fill OCJ_BODY_BYTES 0); (0, journal_magic);
   put32 8 2; put32 12 256; (16, vd_digest v);
   put64 48 (js_epoch s); put64 56 (js_previous_epoch s); (64, js_previous_digest s);
   put32 96 (js_state s); put32 100 (js_bank s); put32 104 (js_slot s);
   put32 108 (row_of (znth (js_bank s) (vs_control_blocks (vd_spec v))) (js_slot s));
   put32 112 (u32 (1 - js_bank s));
   put32 116 (js_retired s); put32 120 (js_quarantine s); put32 124 (js_open s);
   put64 128 (js_high_water s); put32 136 (js_pending_kind s); put32 140 (js_pending_slot s);
   put32 144 (pending_row v s);
   put64 152 (js_pending_lease s); put32 160 4096; put32 164 OCJ_BODY_BYTES].
Fixpoint journal_blocks (p : Z) (bs : list ocj_block) : list field :=
  match bs with
  | [] => []
  | b :: bs =>
      [put64 p (jb_base b); put64 (p + 8) (jb_valid b); put64 (p + 16) (jb_range_sequence b);
       put32 (p + 24) (jb_consumed b)] ++ journal_blocks (p + 32) bs
  end.
Definition journal_body (v : owned_volume_decoded) (s : ocj_snapshot) (p : bytes) : bytes :=
  let p := blits (journal_header v s ++ journal_blocks 256 (js_blocks s)) p in
  blits [put32 252 (journal_crc p)] p.

(** The encoder behind its pointer checks; [None] leaves [out] as it was. *)
Definition encode (v : owned_volume_decoded) (s : ocj_snapshot) (h : owned_page_hash) : Z * option bytes :=
  if negb (syntax s) then (OCJ_ARGUMENT, None)
  else
    let p := journal_body v s (fill 4096 0xff) in
    match journal_sha h p with
    | Some value => (0, Some (blit OCJ_DIGEST_OFFSET value p))
    | None => (OCJ_FAULT, Some (fill 4096 0))
    end.
Definition ocj_encode (v : ptr owned_volume_decoded) (s : ptr ocj_snapshot) (h : ptr owned_page_hash)
    (out : ptr bytes) : Z * option bytes :=
  match v, s, h, out with
  | Some v0, Some s0, Some h0, Some _ =>
      if negb (syntax (deref s0)) || poverlap out 4096 v sizeof_owned_volume_decoded ||
         poverlap out 4096 s sizeof_ocj_snapshot || poverlap out 4096 h sizeof_owned_page_hash
      then (OCJ_ARGUMENT, None)
      else encode (deref v0) (deref s0) (deref h0)
  | _, _, _, _ => (OCJ_ARGUMENT, None)
  end.

Definition decode_block (p : bytes) (o : Z) : ocj_block :=
  {| jb_base := get64 o p; jb_valid := get64 (o + 8) p; jb_range_sequence := get64 (o + 16) p;
     jb_consumed := get32 (o + 24) p |}.
Definition decode_snapshot (p : bytes) (bank slot : Z) : ocj_snapshot :=
  {| js_epoch := get64 48 p; js_previous_epoch := get64 56 p; js_high_water := get64 128 p;
     js_previous_digest := slice 64 32 p; js_digest := fill 32 0;
     js_state := get32 96 p; js_bank := bank; js_slot := slot; js_retired := get32 116 p;
     js_quarantine := get32 120 p; js_open := get32 124 p; js_pending_kind := get32 136 p;
     js_pending_slot := get32 140 p; js_pending_lease := get64 152 p;
     js_blocks := map (fun i => decode_block p (256 + i * 32)) (zseq 32) |}.

(** The decoder behind its pointer checks: the result code and the snapshot it
    leaves in [*s], cleared on every failure. *)
Definition decode (v : owned_volume_decoded) (bank slot : Z) (h : owned_page_hash) (p : bytes)
  : Z * ocj_snapshot :=
  if equal (slice 0 7 p) (slice 0 7 control_magic) then (OCJ_CONFLICT, empty_snapshot)
  else if negb (equal (slice 0 8 p) journal_magic) || negb (get32 8 p =? 2) || negb (get32 12 p =? 256) ||
     negb (get32 252 p =? journal_crc p) ||
     negb (all (slice OCJ_PADDING_OFFSET (4096 - OCJ_PADDING_OFFSET) p) 0xff)
  then (1, empty_snapshot)
  else match journal_sha h p with
  | None => (OCJ_FAULT, empty_snapshot)
  | Some digest =>
      if negb (equal digest (slice OCJ_DIGEST_OFFSET 32 p)) then (1, empty_snapshot)
      else if negb (equal (slice 16 32 p) (vd_digest v)) || negb (get32 100 p =? bank) ||
         negb (get32 104 p =? slot) ||
         negb (get32 108 p =? row_of (znth bank (vs_control_blocks (vd_spec v))) slot) ||
         negb (get32 112 p =? u32 (1 - bank)) || negb (get32 160 p =? 4096) ||
         negb (get32 164 p =? OCJ_BODY_BYTES) || negb (all (slice 148 4 p) 0) || negb (all (slice 168 84 p) 0)
      then (OCJ_CONFLICT, empty_snapshot)
      else
        let s := decode_snapshot p bank slot in
        if negb (forallb (fun i => all (slice (256 + i * 32 + 28) 4 p) 0) (zseq 32))
        then (OCJ_CONFLICT, empty_snapshot)
        else if syntax s && (get32 144 p =? pending_row v s) then (0, s <| js_digest := digest |>)
        else (OCJ_CONFLICT, empty_snapshot)
  end.
Definition ocj_decode (v : ptr owned_volume_decoded) (bank slot : Z) (h : ptr owned_page_hash)
    (p : ptr bytes) (s : ptr ocj_snapshot) : Z * option ocj_snapshot :=
  match v, h, p, s with
  | Some v0, Some h0, Some p0, Some _ =>
      if (1 <? bank) || (63 <? slot) || poverlap s sizeof_ocj_snapshot p 4096 ||
         poverlap s sizeof_ocj_snapshot v sizeof_owned_volume_decoded ||
         poverlap s sizeof_ocj_snapshot h sizeof_owned_page_hash
      then (OCJ_ARGUMENT, None)
      else let '(rc, w) := decode (deref v0) bank slot (deref h0) (deref p0) in (rc, Some w)
  | _, _, _, _ => (OCJ_ARGUMENT, None)
  end.

(** ** [transition]: when [b] may follow [a] *)
Definition transition_header (a b : ocj_snapshot) : bool :=
  (js_epoch b =? u64 (js_epoch a + 1)) && (js_previous_epoch b =? js_epoch a) &&
  equal (js_previous_digest b) (js_digest a) &&
  (if js_bank b =? js_bank a then js_slot b =? u32 (js_slot a + 1) else js_slot b =? 0) &&
  keeps (js_retired a) (js_retired b) && (js_high_water a <=? js_high_water b) &&
  negb ((js_state a =? OWNED_CONTROL_ACTIVE) && (js_state b =? OWNED_CONTROL_PROVISIONING)) &&
  negb ((js_state a =? OWNED_CONTROL_READ_ONLY) && negb (js_state b =? OWNED_CONTROL_READ_ONLY)).

(** Slot [i] gets a new range: it must be the one just reserved. *)
Definition new_range_ok (a b : ocj_snapshot) (i : Z) : bool :=
  let y := block_at (js_blocks b) i in
  (js_pending_kind b =? OWNED_CONTROL_ERASE_BLOCK) && (js_pending_slot b =? i) &&
  (js_high_water a <=? UINT64_MAX - 65) && (jb_base y =? u64 (js_high_water a + 1)) && (jb_valid y =? 0) &&
  (jb_range_sequence y =? js_epoch b) && (js_high_water b =? u64 (jb_base y + 64)).
(** Slot [i] keeps its range: pages stay valid, consumption never falls unless
    the pending erase of this slot is being resolved. *)
Definition same_range_ok (a b : ocj_snapshot) (i : Z) : bool :=
  let x := block_at (js_blocks a) i in
  let y := block_at (js_blocks b) i in
  keeps (jb_valid x) (jb_valid y) && (jb_range_sequence y =? jb_range_sequence x) &&
  (negb (jb_consumed y <? jb_consumed x) ||
   (negb (js_pending_kind a =? 0) && (js_pending_slot a =? i) && (js_pending_kind b =? 0))).
(** Leaving quarantine or opening is only the resolution of the slot's erase. *)
Definition release_ok (a b : ocj_snapshot) (i : Z) : bool :=
  let y := block_at (js_blocks b) i in
  negb (js_pending_kind a =? 0) && (js_pending_slot a =? i) && (js_pending_kind b =? 0) &&
  (jb_consumed y =? 0) && (jb_valid y =? 0) && has_bit (js_open b) i && negb (has_bit (js_quarantine b) i).
Definition released (a b : ocj_snapshot) (i : Z) : bool :=
  (has_bit (js_quarantine a) i && negb (has_bit (js_quarantine b) i)) ||
  (has_bit (js_open b) i && negb (has_bit (js_open a) i)).
Definition range_changed (a b : ocj_snapshot) (i : Z) : bool :=
  negb (jb_base (block_at (js_blocks b) i) =? jb_base (block_at (js_blocks a) i)).
Definition transition_slot (a b : ocj_snapshot) (i : Z) : bool :=
  (if range_changed a b i then new_range_ok a b i else same_range_ok a b i) &&
  (if released a b i then release_ok a b i else true).
Definition changed_count (a b : ocj_snapshot) : Z := zlen (List.filter (range_changed a b) (zseq 32)).

Definition transition (a b : ocj_snapshot) : bool :=
  transition_header a b &&
  negb (negb (js_pending_kind a =? 0) && negb (js_pending_kind b =? 0)) &&
  forallb (transition_slot a b) (zseq 32) &&
  negb ((1 <? changed_count a b) ||
        ((changed_count a b =? 0) && negb (js_high_water b =? js_high_water a)) ||
        (negb (js_pending_kind b =? 0) && (changed_count a b =? 0))).

(** * The state machine *)

(** [struct ocj_io].  Each callback takes the caller's world and returns its
    result code, the data it delivered and the new world; [user] is the world. *)
Record ocj_io (W : Type) := {
  io_now_ms : W -> Z * W;
  io_admit : Z -> bytes -> Z -> Z -> Z -> W -> Z * W;
  io_read : Z -> Z -> W -> Z * bytes * W;
  io_raw : Z -> Z -> W -> Z * bytes * W;
  io_erase : Z -> Z -> W -> Z * W;
  io_program : Z -> bytes -> Z -> W -> Z * W;
  io_fault_latched : W -> Z * W;
  io_latch_fault : Z -> Z -> W -> Z * W
}.
Arguments io_now_ms {W} _ _.
Arguments io_admit {W} _ _ _ _ _ _ _.
Arguments io_read {W} _ _ _ _.
Arguments io_raw {W} _ _ _ _.
Arguments io_erase {W} _ _ _ _.
Arguments io_program {W} _ _ _ _ _.
Arguments io_fault_latched {W} _ _.
Arguments io_latch_fault {W} _ _ _ _.

Record owned_control_journal := {
  j_initialized : Z; j_busy : Z; j_fault : Z; j_retained : Z; j_booted : Z; j_reconciled : Z;
  j_tail_fresh : Z; j_next_slot : Z; j_fresh_map : Z; j_map_inflight : Z;
  j_deadline : Z; j_last_now : Z;
  j_volume : owned_volume_decoded;
  j_hash : owned_page_hash;
  j_current : ocj_snapshot;
  j_candidate : ocj_snapshot;
  j_first : Z -> ocj_snapshot;
  j_last : Z -> ocj_snapshot;
  j_working : list ocj_block;
  j_inflight : owned_dhara_lease;
  j_tx : bytes; j_rx : bytes; j_raw : bytes
}.
#[export] Instance eta_journal : Eta owned_control_journal :=
  fun j => Build_owned_control_journal (j_initialized j) (j_busy j) (j_fault j) (j_retained j) (j_booted j)
    (j_reconciled j) (j_tail_fresh j) (j_next_slot j) (j_fresh_map j) (j_map_inflight j) (j_deadline j)
    (j_last_now j) (j_volume j) (j_hash j) (j_current j) (j_candidate j) (j_first j) (j_last j) (j_working j)
    (j_inflight j) (j_tx j) (j_rx j) (j_raw j).
Definition sizeof_owned_control_journal : Z := 20928.

(** The two-element arrays [first] and [last]. *)
Definition set_bank {A} (f : Z -> A) (bank : Z) (v : A) : Z -> A := fun b => if b =? bank then v else f b.

Section Machine.
Context {W : Type} (io : ocj_io W).
Definition J : Type := owned_control_journal * W.
Definition st (s : J) : owned_control_journal := fst s.

Definition journal : M J owned_control_journal := fun s => (fst s, s).
Definition change (f : owned_control_journal -> owned_control_journal) : M J unit :=
  fun s => (tt, (f (fst s), snd s)).
(** A callback: it sees and changes only the world. *)
Definition call {A} (f : W -> A * W) : M J A := fun s => let '(a, w) := f (snd s) in (a, (fst s, w)).

Definition fault (code : Z) : M J Z :=
  run change (fun j => j <| j_fault := 1 |> <| j_reconciled := 0 |>);
  ret (if code <? 0 then code else OCJ_FAULT).

Definition check : M J Z :=
  do n <- call (io_now_ms io);
  do j <- journal;
  if negb (j_fault j =? 0) || (n <? j_last_now j) || (j_deadline j <=? n) then fault OCJ_FAULT
  else run change (fun j => j <| j_last_now := n |>); ret 0.

Definition begin (deadline : Z) : M J Z :=
  do j <- journal;
  if negb (j_initialized j =? OCJ_MAGIC) then ret OCJ_ARGUMENT
  else if negb (j_busy j =? 0) then ret OCJ_BUSY
  else if negb (j_fault j =? 0) then ret OCJ_FAULT
  else
    do now <- call (io_now_ms io);
    if (now <? j_last_now j) || (deadline <=? now) || (120000 <? deadline - now) then fault OCJ_FAULT
    else run change (fun j => j <| j_deadline := deadline |> <| j_last_now := now |> <| j_busy := 1 |>); ret 0.

Definition finish (rc : Z) : M J Z :=
  run change (fun j =>
    if j_retained j =? 0
    then j <| j_tx := fill 4096 0 |> <| j_rx := fill 4096 0 |> <| j_raw := fill 4352 0 |> else j);
  run change (fun j => j <| j_busy := 0 |>);
  do j <- journal;
  ret (if negb (j_fault j =? 0) then (if rc <? 0 then rc else OCJ_FAULT) else rc).

(** Every public operation: [begin], a body whose every return is [finish]ed. *)
Definition operation (deadline : Z) (body : M J Z) : M J Z :=
  try begin deadline; do rc <- body; finish rc.

(** [if (m) return OCJ_FAULT; k] *)
Definition or_fault (m k : M J Z) : M J Z :=
  do rc <- m; if rc =? 0 then k else ret OCJ_FAULT.
(** [rc = m; if (rc) return fault(j, rc); k] *)
Definition or_faulted (m k : M J Z) : M J Z :=
  do rc <- m; if rc =? 0 then k else fault rc.

Definition control_block (j : owned_control_journal) (bank : Z) : Z :=
  znth bank (vs_control_blocks (vd_spec (j_volume j))).

Definition admitted (reason bank : Z) : M J Z :=
  or_fault check (
  do latched <- call (io_fault_latched io);
  if negb (latched =? 0) then fault OCJ_FAULT
  else
    do j <- journal;
    do refused <- call (io_admit io reason (vd_digest (j_volume j))
      (if bank <? 2 then control_block j bank else UINT32_MAX) (js_epoch (j_current j)) (j_deadline j));
    if negb (refused =? 0) then ret OCJ_REFUSED else check).

Definition latch (bank : Z) : M J Z :=
  do j <- journal;
  run call (io_latch_fault io bank (j_deadline j));
  fault OCJ_FAULT.

Definition io_result (rc bank : Z) (reading : bool) : M J Z :=
  run change (fun j => if rc =? OCJ_IO_UNCERTAIN then j <| j_retained := 1 |> else j);
  if rc =? OCJ_IO_MEDIA then latch bank
  else if negb (rc =? OCJ_IO_OK) && negb (reading && (rc =? OCJ_IO_CHECKED_RAW)) then fault OCJ_FAULT
  else check.

Definition read_control (bank slot : Z) : M J Z :=
  or_fault check (
  do j <- journal;
  do r <- call (io_read io (row_of (control_block j bank) slot) (j_deadline j));
  run change (fun j => j <| j_rx := snd r |>);
  io_result (fst r) bank true).

(** The caller's local: the highest epoch and brokenness of one bank. *)
Record boot_bank := { bb_broken : bool; bb_highest : Z; bb_gap : bool }.

(** One slot of the boot scan; [inr] carries on, [inl rc] returns [rc]. *)
Definition boot_slot (bank slot : Z) (b : boot_bank) : M J (Z + boot_bank) :=
  do rc <- read_control bank slot;
  if negb (rc =? 0) then ret (inl OCJ_FAULT)
  else
    do j <- journal;
    let '(rc, s) := decode (j_volume j) bank slot (j_hash j) (j_rx j) in
    run change (fun j => j <| j_candidate := s |>);
    if rc <? 0 then do rc <- fault rc; ret (inl rc)
    else if rc =? 1 then ret (inr {| bb_broken := bb_broken b; bb_highest := bb_highest b; bb_gap := true |})
    else
      let prev := j_last j bank in
      let broken := bb_gap b || (negb (js_epoch prev =? 0) && negb (transition prev s)) in
      run change (fun j =>
        (if js_epoch (j_first j bank) =? 0 then j <| j_first := set_bank (j_first j) bank s |> else j)
          <| j_last := set_bank (j_last j) bank s |>);
      ret (inr {| bb_broken := bb_broken b || broken; bb_highest := Z.max (bb_highest b) (js_epoch s);
                  bb_gap := bb_gap b |}).
Fixpoint boot_slots (bank : Z) (slots : list Z) (b : boot_bank) : M J (Z + boot_bank) :=
  match slots with
  | [] => ret (inr b)
  | slot :: slots =>
      do r <- boot_slot bank slot b;
      match r with
      | inl rc => ret (inl rc)
      | inr b => boot_slots bank slots b
      end
  end.
Definition boot_start : boot_bank := {| bb_broken := false; bb_highest := 0; bb_gap := false |}.

(** The decision after both banks are scanned. *)
Definition boot_select (b0 b1 : boot_bank) : M J Z :=
  do j <- journal;
  let selected := if js_epoch (j_last j 0) <? js_epoch (j_last j 1) then 1 else 0 in
  if js_epoch (j_last j selected) =? 0 then ret OCJ_NO_ROOT
  else
    let other := 1 - selected in
    let bs := if selected =? 0 then b0 else b1 in
    let bo := if selected =? 0 then b1 else b0 in
    let first := j_first j selected in
    if bb_broken bs || negb (js_slot first =? 0) ||
       ((js_epoch first <=? bb_highest bo) && negb (bb_highest bo =? 0)) ||
       ((js_epoch (j_last j other) =? js_previous_epoch first) && negb (js_epoch (j_last j other) =? 0) &&
        negb (transition (j_last j other) first))
    then fault OCJ_CONFLICT
    else
      run change (fun j => j <| j_current := j_last j selected |>
        <| j_working := js_blocks (j_last j selected) |> <| j_booted := 1 |> <| j_tail_fresh := 0 |>
        <| j_fresh_map := 0 |> <| j_reconciled := 0 |>);
      ret 0.

Definition ocj_boot (deadline : Z) : M J Z :=
  operation deadline (
    do j <- journal;
    if negb (j_booted j =? 0) then ret OCJ_REFUSED
    else try admitted OCJ_ADMIT_BOOT 2;
      run change (fun j => j <| j_first := fun _ => empty_snapshot |> <| j_last := fun _ => empty_snapshot |>);
      do r0 <- boot_slots 0 (zseq 64) boot_start;
      match r0 with
      | inl rc => ret rc
      | inr b0 =>
          do r1 <- boot_slots 1 (zseq 64) boot_start;
          match r1 with
          | inl rc => ret rc
          | inr b1 => boot_select b0 b1
          end
      end).

(** The raw check of one erased page. *)
Definition erased_page (bank block p : Z) : M J Z :=
  or_fault check (
  do j <- journal;
  do r <- call (io_raw io (row_of block p) (j_deadline j));
  run change (fun j => j <| j_raw := snd r |>);
  or_fault (io_result (fst r) bank false) (
  do j <- journal;
  if negb (all (j_raw j) 0xff) then latch bank else ret 0)).
Fixpoint erased_pages (bank block : Z) (ps : list Z) : M J Z :=
  match ps with
  | [] => ret 0
  | p :: ps => try erased_page bank block p; erased_pages bank block ps
  end.
Definition erase_fresh (bank reason : Z) : M J Z :=
  try admitted reason bank;
  do j <- journal;
  let block := control_block j bank in
  do rc <- call (io_erase io block (j_deadline j));
  or_fault (io_result rc bank false) (erased_pages bank block (zseq 64)).

(** Where the next snapshot goes: the next slot of a fresh tail, or the start of
    the other bank. *)
Definition place (j : owned_control_journal) (s : ocj_snapshot) : ocj_snapshot :=
  let bank := if negb (j_tail_fresh j =? 0) && (j_next_slot j <? 64) then js_bank (j_current j)
              else u32 (1 - js_bank (j_current j)) in
  s <| js_epoch := u64 (js_epoch (j_current j) + 1) |>
    <| js_previous_epoch := js_epoch (j_current j) |>
    <| js_previous_digest := js_digest (j_current j) |>
    <| js_bank := bank |>
    <| js_slot := if bank =? js_bank (j_current j) then j_next_slot j else 0 |>.

(** Consume the tail, program the encoded candidate, read it back, compare, and
    only then make it current. *)
Definition program_candidate (s : ocj_snapshot) : M J Z :=
  or_fault check (
  run change (fun j => j <| j_tail_fresh := 0 |>);
  do j <- journal;
  do rc <- call (io_program io (row_of (control_block j (js_bank s)) (js_slot s)) (j_tx j) (j_deadline j));
  or_fault (io_result rc (js_bank s) false) (
  or_fault (read_control (js_bank s) (js_slot s)) (
  do j <- journal;
  if negb (equal (j_tx j) (j_rx j)) then latch (js_bank s)
  else
    run change (fun j => j <| j_candidate := (j_candidate j) <| js_digest := slice OCJ_DIGEST_OFFSET 32 (j_tx j) |> |>);
    or_fault check (
    run change (fun j => j <| j_current := j_candidate j |> <| j_tail_fresh := 1 |>
                           <| j_next_slot := u32 (js_slot (j_candidate j) + 1) |>);
    ret 0)))).

(** The second half of [publish], once the candidate is placed: encode, check the
    transition, recycle the other bank if it moves there, then program it. *)
Definition commit_candidate (genesis : bool) : M J Z :=
  do j <- journal;
  let s := j_candidate j in
  let '(rc, page) := encode (j_volume j) s (j_hash j) in
  run change (fun j => j <| j_tx := default (j_tx j) page |>);
  if negb (rc =? 0) then fault OCJ_CONFLICT
  else if negb genesis && negb (transition (j_current j) s) then fault OCJ_CONFLICT
  else
    or_faulted (if negb genesis && negb (js_bank s =? js_bank (j_current j))
                then erase_fresh (js_bank s) OCJ_ADMIT_RECYCLE else ret 0)
      (program_candidate s).
Definition publish (genesis : bool) : M J Z :=
  if genesis then commit_candidate true
  else
    or_faulted (admitted OCJ_ADMIT_MAP 2) (
    do j <- journal;
    if js_epoch (j_current j) =? INT64_MAX then fault OCJ_REFUSED
    else run change (fun j => j <| j_candidate := place j (j_candidate j) |>); commit_candidate false).

Definition set_working : M J unit := change (fun j => j <| j_working := js_blocks (j_current j) |>).
Definition set_candidate (f : ocj_snapshot -> ocj_snapshot) : M J unit :=
  change (fun j => j <| j_candidate := f (j_current j) |>).
(** The three fields that say no erase is pending. *)
Definition no_pending (s : ocj_snapshot) : ocj_snapshot :=
  s <| js_pending_kind := 0 |> <| js_pending_slot := UINT32_MAX |> <| js_pending_lease := 0 |>.

Definition genesis_snapshot : ocj_snapshot :=
  empty_snapshot <| js_epoch := 1 |> <| js_state := OWNED_CONTROL_PROVISIONING |>
    <| js_pending_slot := UINT32_MAX |> <| js_blocks := fill 32 (empty_block <| jb_consumed := 64 |>) |>.
Definition ocj_provision (deadline : Z) : M J Z :=
  operation deadline (
    do j <- journal;
    if negb (j_booted j =? 0) || negb (js_epoch (j_current j) =? 0) then ret OCJ_REFUSED
    else
      or_faulted (try erase_fresh 1 OCJ_ADMIT_PROVISION; erase_fresh 0 OCJ_ADMIT_PROVISION) (
      run change (fun j => j <| j_candidate := genesis_snapshot |>);
      try publish true;
      run change (fun j => j <| j_booted := 1 |> <| j_reconciled := 1 |>);
      run set_working; ret 0)).

Definition reconciled_candidate (c : ocj_snapshot) : ocj_snapshot :=
  let q := Z.lor (js_quarantine c) (js_open c) in
  let q := if negb (js_pending_kind c =? 0) then Z.lor q (bit (js_pending_slot c)) else q in
  no_pending (c <| js_quarantine := q |> <| js_open := 0 |>).
Definition ocj_reconcile (deadline : Z) : M J Z :=
  operation deadline (
    do j <- journal;
    if (j_booted j =? 0) || negb (j_reconciled j =? 0) || negb (j_map_inflight j =? 0) then ret OCJ_REFUSED
    else
      run set_candidate reconciled_candidate;
      try publish false;
      run change (fun j => j <| j_reconciled := 1 |>);
      run set_working; ret 0).

Definition ocj_activate (deadline : Z) : M J Z :=
  operation deadline (
    do j <- journal;
    if (j_booted j =? 0) || (j_reconciled j =? 0) || negb (j_map_inflight j =? 0) ||
       negb (js_pending_kind (j_current j) =? 0) ||
       negb (js_state (j_current j) =? OWNED_CONTROL_PROVISIONING) then ret OCJ_REFUSED
    else
      try admitted OCJ_ADMIT_ACTIVE 2;
      run set_candidate (fun c => c <| js_state := OWNED_CONTROL_ACTIVE |>);
      publish false).

(** [None]: the capability is not written. *)
Definition ocj_capability (j_addr : Z) (c : ptr owned_dhara_capability)
    (j : owned_control_journal) : Z * option owned_dhara_capability :=
  match c with
  | None => (OCJ_ARGUMENT, None)
  | Some c0 =>
      if negb (j_initialized j =? OCJ_MAGIC) || overlap (addr c0) 88 j_addr sizeof_owned_control_journal
      then (OCJ_ARGUMENT, None)
      else if negb (j_busy j =? 0) then (OCJ_BUSY, None)
      else if negb (j_fault j =? 0) || (j_booted j =? 0) || (j_reconciled j =? 0) ||
         negb (j_map_inflight j =? 0) || negb (js_pending_kind (j_current j) =? 0) ||
         (js_state (j_current j) =? OWNED_CONTROL_READ_ONLY) then (OCJ_REFUSED, None)
      else (0, Some {| cap_descriptor_digest := vd_digest (j_volume j);
                       cap_control_digest := js_digest (j_current j);
                       cap_sequence := js_epoch (j_current j);
                       cap_lease_high_water := js_high_water (j_current j);
                       cap_state := js_state (j_current j); cap_retired_map := js_retired (j_current j) |})
  end.

(** [j_addr] and [local] are the addresses of the journal and of the local copy. *)
Definition ocj_validate_capability (j_addr local : Z) (c : option owned_dhara_capability) (deadline : Z) : M J Z :=
  do j <- journal;
  match ocj_capability j_addr (Some (Obj local {| cap_descriptor_digest := []; cap_control_digest := [];
      cap_sequence := 0; cap_lease_high_water := 0; cap_state := 0; cap_retired_map := 0 |})) j, c with
  | (0, Some actual), Some c =>
      if negb (capability_eqb c actual) then ret OCJ_REFUSED
      else operation deadline
        (admitted (if cap_state c =? OWNED_CONTROL_ACTIVE then OCJ_ADMIT_ACTIVE else OCJ_ADMIT_MAP) 2)
  | _, _ => ret OCJ_REFUSED
  end.

(** [mapped]: the first map slot whose block holds the row. *)
Definition find_slot (j : owned_control_journal) (row : Z) : option Z :=
  List.find (fun b => znth b (vs_map_blocks (vd_spec (j_volume j))) =? row / 64) (zseq 32).

Definition page_state (j : owned_control_journal) (b p : Z) : owned_dhara_page_info :=
  let block := block_at (j_working j) b in
  if has_bit (jb_valid block) p
  then {| pi_state := OD_PAGE_COMMITTED; pi_lease_id := u64 (jb_base block + 1 + p) |}
  else if has_bit (j_fresh_map j) b && negb (has_bit (js_retired (j_current j)) b) && (jb_consumed block <=? p)
  then {| pi_state := OD_PAGE_UNUSED; pi_lease_id := 0 |}
  else {| pi_state := OD_PAGE_ABANDONED; pi_lease_id := 0 |}.

(** [write] receives what is stored to [*i]; [i_ok] says the pointer is usable. *)
Definition ocj_page_info (i_ok : bool) (row : Z) (deadline : Z) : M J (Z * option owned_dhara_page_info) :=
  do rc <- begin deadline;
  if negb (rc =? 0) then ret (rc, None)
  else
    do j <- journal;
    if negb i_ok || (j_booted j =? 0) then do rc <- finish OCJ_ARGUMENT; ret (rc, None)
    else match find_slot j row with
    | None => run fault OCJ_ARGUMENT; do rc <- finish OCJ_ARGUMENT; ret (rc, None)
    | Some b =>
        do rc <- check;
        do rc <- finish rc;
        ret (rc, Some (page_state j b (row mod 64)))
    end.

Definition ticket (j : owned_control_journal) (kind b row : Z) : owned_dhara_lease :=
  let base := jb_base (block_at (j_working j) b) in
  {| ls_descriptor_digest := vd_digest (j_volume j);
     ls_sequence := js_epoch (j_current j);
     ls_lease_id := u64 (base + (if kind =? OWNED_CONTROL_PROGRAM_PAGE then 1 + row mod 64 else 0));
     ls_range_base := base; ls_kind := kind; ls_map_slot := b; ls_physical_row := row |}.

(** [memset(x,0); x->base=...]: the candidate that reserves a new range. *)
Definition reserve_candidate (b : Z) (c : ocj_snapshot) : ocj_snapshot :=
  let base := u64 (js_high_water c + 1) in
  c <| js_blocks := set_block (js_blocks c) b
         {| jb_base := base; jb_valid := 0; jb_range_sequence := u64 (js_epoch c + 1); jb_consumed := 64 |} |>
    <| js_high_water := u64 (base + 64) |>
    <| js_pending_kind := OWNED_CONTROL_ERASE_BLOCK |>
    <| js_pending_slot := b |>
    <| js_pending_lease := base |>
    <| js_quarantine := Z.lor (js_quarantine c) (bit b) |>
    <| js_open := Z.ldiff (js_open c) (bit b) |>.
Definition take_block (b : Z) (j : owned_control_journal) : owned_control_journal :=
  j <| j_working := set_block (j_working j) b (block_at (js_blocks (j_current j)) b) |>.
Definition issue (kind b row : Z) : M J (Z * option owned_dhara_lease) :=
  do j <- journal;
  let l := ticket j kind b row in
  run change (fun j => j <| j_inflight := l |> <| j_map_inflight := 1 |>);
  do rc <- check;
  do rc <- finish rc;
  ret (rc, Some l).
Definition not_issued (m : M J Z) : M J (Z * option owned_dhara_lease) :=
  do rc <- m; do rc <- finish rc; ret (rc, None).

(** The lease stored to [*l], if any, comes with the result code. *)
Definition ocj_acquire (kind b row : Z) (l_ok : bool) (deadline : Z) : M J (Z * option owned_dhara_lease) :=
  do rc <- begin deadline;
  if negb (rc =? 0) then ret (rc, None)
  else
    do j <- journal;
    if negb l_ok || (32 <=? b) ||
       negb (row =? row_of (znth b (vs_map_blocks (vd_spec (j_volume j)))) (row mod 64)) ||
       (j_booted j =? 0) || (j_reconciled j =? 0) || negb (j_map_inflight j =? 0) ||
       negb (js_pending_kind (j_current j) =? 0) || (js_state (j_current j) =? OWNED_CONTROL_READ_ONLY) ||
       has_bit (js_retired (j_current j)) b
    then not_issued (ret OCJ_REFUSED)
    else
      do rc <- admitted OCJ_ADMIT_MAP 2;
      if negb (rc =? 0) then not_issued (ret rc)
      else
        do j <- journal;
        if kind =? OWNED_CONTROL_ERASE_BLOCK then
          if negb (row mod 64 =? 0) || (UINT64_MAX - 65 <? js_high_water (j_current j))
          then not_issued (fault OCJ_REFUSED)
          else
            run set_candidate (reserve_candidate b);
            do rc <- publish false;
            if negb (rc =? 0) then not_issued (ret rc)
            else
              run change (take_block b);
              run change (fun j => j <| j_fresh_map := Z.ldiff (j_fresh_map j) (bit b) |>);
              issue kind b row
        else if kind =? OWNED_CONTROL_PROGRAM_PAGE then
          if negb (has_bit (j_fresh_map j) b) || (row mod 64 <? jb_consumed (block_at (j_working j) b))
          then not_issued (fault OCJ_REFUSED)
          else
            run change (fun j => j <| j_working := set_block (j_working j) b
                   ((block_at (j_working j) b) <| jb_consumed := row mod 64 + 1 |>) |>);
            issue kind b row
        else not_issued (ret OCJ_ARGUMENT).

Definition settle : M J Z :=
  run change (fun j => j <| j_map_inflight := 0 |> <| j_inflight := empty_lease |>); check.
Definition resolved_candidate (b : Z) (c : ocj_snapshot) : ocj_snapshot :=
  (no_pending c)
    <| js_blocks := set_block (js_blocks c) b ((block_at (js_blocks c) b) <| jb_consumed := 0 |>) |>
    <| js_quarantine := Z.ldiff (js_quarantine c) (bit b) |>
    <| js_open := Z.lor (js_open c) (bit b) |>.
Definition ocj_resolve (l : option owned_dhara_lease) (deadline : Z) : M J Z :=
  operation deadline (
    do j <- journal;
    match l with
    | None => fault OCJ_REFUSED
    | Some l =>
        if (j_map_inflight j =? 0) || negb (lease_eqb l (j_inflight j)) then fault OCJ_REFUSED
        else
          let b := ls_map_slot l in
          if ls_kind l =? OWNED_CONTROL_ERASE_BLOCK then
            run set_candidate (resolved_candidate b);
            try publish false;
            run change (take_block b);
            run change (fun j => j <| j_fresh_map := Z.lor (j_fresh_map j) (bit b) |>);
            settle
          else
            run change (fun j => j <| j_working := set_block (j_working j) b
                   (let x := block_at (j_working j) b in
                    x <| jb_valid := Z.lor (jb_valid x) (bit (ls_physical_row l mod 64)) |>) |>);
            settle
    end).

(** Slots whose working range is used up leave [open]. *)
Definition close_full (working : list ocj_block) (open : Z) : Z :=
  foldl (fun o b => if jb_consumed (block_at working b) =? 64 then Z.ldiff o (bit b) else o) open (zseq 32).
Definition ocj_history_sync (deadline : Z) : M J Z :=
  operation deadline (
    do j <- journal;
    if (j_booted j =? 0) || (j_reconciled j =? 0) || negb (j_map_inflight j =? 0) ||
       negb (js_pending_kind (j_current j) =? 0) || (js_state (j_current j) =? OWNED_CONTROL_READ_ONLY)
    then ret OCJ_REFUSED
    else
      run change (fun j => j <| j_candidate := (j_current j) <| js_blocks := j_working j |>
        <| js_open := close_full (j_working j) (js_open (j_current j)) |> |>);
      publish false).

Definition retired_candidate (b bitmap consumed : Z) (c : ocj_snapshot) : ocj_snapshot :=
  (no_pending c)
    <| js_retired := bitmap |> <| js_quarantine := Z.lor (js_quarantine c) (bit b) |>
    <| js_open := Z.ldiff (js_open c) (bit b) |>
    <| js_blocks := set_block (js_blocks c) b ((block_at (js_blocks c) b) <| jb_consumed := consumed |>) |>.
Definition ocj_retire (b block bitmap : Z) (l : option owned_dhara_lease) (deadline : Z) : M J Z :=
  operation deadline (
    do j <- journal;
    if (32 <=? b) || negb (block =? znth b (vs_map_blocks (vd_spec (j_volume j)))) ||
       negb (bitmap =? Z.lor (js_retired (j_current j)) (bit b)) ||
       match l with None => true | Some l => (j_map_inflight j =? 0) || negb (lease_eqb l (j_inflight j)) end
    then fault OCJ_REFUSED
    else
      run set_candidate (retired_candidate b bitmap (jb_consumed (block_at (j_working j) b)));
      try publish false;
      run change (fun j => j <| j_fresh_map := Z.ldiff (j_fresh_map j) (bit b) |>
                             <| j_map_inflight := 0 |> <| j_inflight := empty_lease |>);
      ret 0).

(** ** The operations as one alphabet *)
Inductive op :=
| Boot
| Provision
| Reconcile
| Activate
| Validate (j_addr local : Z) (c : option owned_dhara_capability)
| PageInfo (i_ok : bool) (row : Z)
| Acquire (kind b row : Z) (l_ok : bool)
| Resolve (l : option owned_dhara_lease)
| HistorySync
| Retire (b block bitmap : Z) (l : option owned_dhara_lease).
Definition run_op (o : op) (deadline : Z) : M J Z :=
  match o with
  | Boot => ocj_boot deadline
  | Provision => ocj_provision deadline
  | Reconcile => ocj_reconcile deadline
  | Activate => ocj_activate deadline
  | Validate a l c => ocj_validate_capability a l c deadline
  | PageInfo i row => do r <- ocj_page_info i row deadline; ret (fst r)
  | Acquire kind b row ok => do r <- ocj_acquire kind b row ok deadline; ret (fst r)
  | Resolve l => ocj_resolve l deadline
  | HistorySync => ocj_history_sync deadline
  | Retire b block bitmap l => ocj_retire b block bitmap l deadline
  end.
(** A sequence of calls, each with its deadline. *)
Fixpoint run_ops (os : list (op * Z)) (s : J) : J :=
  match os with
  | [] => s
  | (o, deadline) :: os => run_ops os (snd (run_op o deadline s))
  end.
End Machine.

Definition empty_journal (v : owned_volume_decoded) (h : owned_page_hash) : owned_control_journal :=
  {| j_initialized := OCJ_MAGIC; j_busy := 0; j_fault := 0; j_retained := 0; j_booted := 0; j_reconciled := 0;
     j_tail_fresh := 0; j_next_slot := 0; j_fresh_map := 0; j_map_inflight := 0; j_deadline := 0; j_last_now := 0;
     j_volume := v; j_hash := h; j_current := empty_snapshot; j_candidate := empty_snapshot;
     j_first := fun _ => empty_snapshot; j_last := fun _ => empty_snapshot;
     j_working := fill 32 empty_block; j_inflight := empty_lease; j_tx := fill 4096 0; j_rx := fill 4096 0;
     j_raw := fill 4352 0 |}.
(** [io_addr] is the address of the caller's callback table, all of whose entries
    are present; [None]: the journal is left as it was. *)
Definition ocj_init (local : Z) (j : ptr owned_control_journal) (descriptor : ptr bytes)
    (spec : ptr owned_volume_spec) (hash : ptr owned_page_hash) (io_addr : ptr unit)
  : Z * option owned_control_journal :=
  match j, descriptor, spec, hash, io_addr with
  | Some j0, Some _, Some _, Some h0, Some _ =>
      if negb (j_initialized (deref j0) =? 0) || poverlap j sizeof_owned_control_journal descriptor 512 ||
         poverlap j sizeof_owned_control_journal spec sizeof_owned_volume_spec ||
         poverlap j sizeof_owned_control_journal hash sizeof_owned_page_hash ||
         poverlap j sizeof_owned_control_journal io_addr 36
      then (OCJ_ARGUMENT, None)
      else match owned_volume_descriptor_validate descriptor 512 spec hash (Some (Obj local cleared_decoded)) with
      | (OWNED_VOLUME_VALID, Some v) => (0, Some (empty_journal v (deref h0)))
      | _ => (OCJ_ARGUMENT, None)
      end
  | _, _, _, _, _ => (OCJ_ARGUMENT, None)
  end.

(** The digest a snapshot carries is not part of what is checked. *)
Lemma transition_digest a c d : transition a (c <| js_digest := d |>) = transition a c.
Proof.
  unfold transition, transition_slot, changed_count, released, release_ok, range_changed, same_range_ok,
    new_range_ok, transition_header.
  cbn [field_upd eta_snapshot js_epoch js_previous_epoch js_high_water js_previous_digest js_state js_bank js_slot
    js_retired js_quarantine js_open js_pending_kind js_pending_slot js_blocks]. reflexivity.
Qed.
Lemma syntax_digest c d : syntax (c <| js_digest := d |>) = syntax c.
Proof.
  unfold syntax, syntax_header, syntax_pending, syntax_block, ranges_apart.
  cbn [field_upd eta_snapshot js_epoch js_previous_epoch js_high_water js_previous_digest js_state js_bank js_slot
    js_retired js_quarantine js_open js_pending_kind js_pending_slot js_pending_lease js_blocks]. reflexivity.
Qed.

