(* ===== verification/JournalCodec.v ===== *)
(** The control journal's 4096-byte codec: reading back what [ocj_encode] wrote,
    and what [syntax] guarantees about the reserved lease ranges. *)
From S2P Require Import Prelude OwnedPage SealedRecord OwnedVolume ControlRecord DharaTypes ControlJournal.

(** * Well-typed snapshots *)
Record block_wf (b : ocj_block) : Prop := {
  bwf_base : 0 <= jb_base b < 2 ^ 64;
  bwf_valid : 0 <= jb_valid b < 2 ^ 64;
  bwf_sequence : 0 <= jb_range_sequence b < 2 ^ 64;
  bwf_consumed : 0 <= jb_consumed b < 2 ^ 32
}.
Record snapshot_wf (s : ocj_snapshot) : Prop := {
  swf_epoch : 0 <= js_epoch s < 2 ^ 64;
  swf_previous : 0 <= js_previous_epoch s < 2 ^ 64;
  swf_high_water : 0 <= js_high_water s < 2 ^ 64;
  swf_previous_digest : zlen (js_previous_digest s) = 32 /\ is_bytes (js_previous_digest s);
  swf_state : 0 <= js_state s < 2 ^ 32;
  swf_bank : 0 <= js_bank s < 2 ^ 32;
  swf_slot : 0 <= js_slot s < 2 ^ 32;
  swf_retired : 0 <= js_retired s < 2 ^ 32;
  swf_quarantine : 0 <= js_quarantine s < 2 ^ 32;
  swf_open : 0 <= js_open s < 2 ^ 32;
  swf_pending_kind : 0 <= js_pending_kind s < 2 ^ 32;
  swf_pending_slot : 0 <= js_pending_slot s < 2 ^ 32;
  swf_pending_lease : 0 <= js_pending_lease s < 2 ^ 64;
  swf_blocks : length (js_blocks s) = 32%nat /\ Forall block_wf (js_blocks s)
}.

(** * The block table *)
Definition block_puts (p : Z) (b : ocj_block) : list field :=
  [put64 p (jb_base b); put64 (p + 8) (jb_valid b); put64 (p + 16) (jb_range_sequence b);
   put32 (p + 24) (jb_consumed b)].

Lemma block_puts_fit p b len : 0 <= p -> p + 28 <= len -> fits len (shape_of (block_puts p b)) = true.
Proof.
  intros. apply fits_spec. unfold block_puts, put64, put32.
  repeat (apply Forall_cons; split; [cbn [fst snd]; rewrite zlen_le; lia|]). constructor.
Qed.

Lemma block_puts_apart p b o n :
  o + n <= p \/ p + 28 <= o -> Forall (disjoint_from o n) (block_puts p b).
Proof.
  intros H. unfold block_puts, put64, put32, disjoint_from.
  repeat (apply Forall_cons; split; [cbn [fst snd]; rewrite zlen_le; lia|]). constructor.
Qed.

Lemma blocks_frame bs p q :
  0 <= p -> p + 32 * zlen bs <= zlen q ->
  zlen (blits (journal_blocks p bs) q) = zlen q /\
  forall o n, 0 <= o -> 0 <= n -> o + n <= p \/ p + 32 * zlen bs <= o ->
    slice o n (blits (journal_blocks p bs) q) = slice o n q.
Proof.
  revert p q. induction bs as [|b bs IH]; intros p q Hp Hl; [by split|].
  pose proof (zlen_nonneg bs). rewrite zlen_cons in *.
  change (journal_blocks p (b :: bs)) with (block_puts p b ++ journal_blocks (p + 32) bs). rewrite blits_app.
  assert (Hfit : fits (zlen q) (shape_of (block_puts p b)) = true) by (apply block_puts_fit; lia).
  pose proof (zlen_blits _ _ Hfit) as Hz.
  destruct (IH (p + 32) (blits (block_puts p b) q) ltac:(lia) ltac:(lia)) as [Hz' Hs].
  split; [lia|]. intros o n Ho Hn Hd. rewrite Hs by lia.
  apply slice_blits_disjoint; try done. apply block_puts_apart. lia.
Qed.

Lemma block_puts_read p b q :
  block_wf b -> 0 <= p -> p + 28 <= zlen q -> decode_block (blits (block_puts p b) q) p = b.
Proof.
  intros [? ? ? ?] Hp Hl. unfold block_puts, put64, put32. rewrite !blits_cons, blits_nil.
  set (q1 := blit p _ q). set (q2 := blit (p + 8) _ q1). set (q3 := blit (p + 16) _ q2). set (q4 := blit (p + 24) _ q3).
  assert (Z1 : zlen q1 = zlen q) by (apply zlen_blit; rewrite ?zlen_le; lia).
  assert (Z2 : zlen q2 = zlen q) by (rewrite <- Z1; apply zlen_blit; rewrite ?zlen_le; lia).
  assert (Z3 : zlen q3 = zlen q) by (rewrite <- Z2; apply zlen_blit; rewrite ?zlen_le; lia).
  assert (Hsame : forall o n v x, 0 <= o -> Z.of_nat n = zlen (le n v) -> o + Z.of_nat n <= zlen x ->
            0 <= v < 2 ^ (8 * Z.of_nat n) -> unle (slice o (Z.of_nat n) (blit o (le n v) x)) = v).
  { intros o n v x ? E ? ?. rewrite E, slice_blit_same by (rewrite ?zlen_le; lia). rewrite unle_le.
    by apply Z.mod_small. }
  unfold decode_block, get64, get32. transitivity (Build_ocj_block (jb_base b) (jb_valid b) (jb_range_sequence b) (jb_consumed b));
    [|by destruct b].
  assert (D4 : forall o n, 0 <= o -> 0 <= n -> o + n <= p + 24 -> slice o n q4 = slice o n q3)
    by (intros; apply slice_blit_disj; rewrite ?zlen_le; lia).
  assert (D3 : forall o n, 0 <= o -> 0 <= n -> o + n <= p + 16 -> slice o n q3 = slice o n q2)
    by (intros; apply slice_blit_disj; rewrite ?zlen_le; lia).
  assert (D2 : forall o n, 0 <= o -> 0 <= n -> o + n <= p + 8 -> slice o n q2 = slice o n q1)
    by (intros; apply slice_blit_disj; rewrite ?zlen_le; lia).
  f_equal.
  - rewrite D4, D3, D2 by lia. by apply (Hsame p 8%nat); [lia|rewrite zlen_le|lia|].
  - rewrite D4, D3 by lia. by apply (Hsame (p + 8) 8%nat); [lia|rewrite zlen_le|lia|].
  - rewrite D4 by lia. by apply (Hsame (p + 16) 8%nat); [lia|rewrite zlen_le|lia|].
  - by apply (Hsame (p + 24) 4%nat); [lia|rewrite zlen_le|lia|].
Qed.

Lemma decode_block_frame p x y :
  slice p 28 x = slice p 28 y -> 0 <= p -> decode_block x p = decode_block y p.
Proof.
  intros H Hp. assert (E : forall o n, 0 <= o -> 0 <= n -> o + n <= 28 -> slice (p + o) n x = slice (p + o) n y).
  { intros o n ? ? ?. rewrite <- !(slice_slice p 28 o n) by lia. by rewrite H. }
  unfold decode_block, get64, get32. rewrite <- (Z.add_0_r p) at 1 5. rewrite !E by lia. by rewrite !Z.add_0_r.
Qed.

(** Block [i] reads back, and its four reserved bytes are those underneath. *)
Lemma blocks_read bs p q i b :
  Forall block_wf bs -> 0 <= p -> p + 32 * zlen bs <= zlen q -> bs !! i = Some b ->
  decode_block (blits (journal_blocks p bs) q) (p + 32 * Z.of_nat i) = b /\
  slice (p + 32 * Z.of_nat i + 28) 4 (blits (journal_blocks p bs) q) = slice (p + 32 * Z.of_nat i + 28) 4 q.
Proof.
  revert p q i. induction bs as [|b0 bs IH]; intros p q i Hw Hp Hl Hi; [done|].
  apply Forall_cons in Hw as [Hb Hw]. pose proof (zlen_nonneg bs). rewrite zlen_cons in Hl.
  change (journal_blocks p (b0 :: bs)) with (block_puts p b0 ++ journal_blocks (p + 32) bs). rewrite blits_app.
  assert (Hfit : fits (zlen q) (shape_of (block_puts p b0)) = true) by (apply block_puts_fit; lia).
  pose proof (zlen_blits _ _ Hfit) as Hz. destruct i as [|i].
  - injection Hi as ->. rewrite Z.mul_0_r, Z.add_0_r.
    destruct (blocks_frame bs (p + 32) (blits (block_puts p b) q) ltac:(lia) ltac:(lia)) as [_ Hs]. split.
    + rewrite (decode_block_frame p _ (blits (block_puts p b) q)); [|by rewrite Hs by lia|lia].
      by apply block_puts_read; [done|lia|lia].
    + rewrite Hs by lia. apply slice_blits_disjoint; try done; try lia. apply block_puts_apart. lia.
  - replace (p + 32 * Z.of_nat (S i)) with (p + 32 + 32 * Z.of_nat i) by lia.
    destruct (IH (p + 32) (blits (block_puts p b0) q) i Hw ltac:(lia) ltac:(lia) Hi) as [H1 H2].
    split; [done|]. rewrite H2. apply slice_blits_disjoint; try done; try lia. apply block_puts_apart. lia.
Qed.

(** * The whole page *)
Definition journal_shape : list (Z * Z) :=
  [(0, 1280); (0, 8); (8, 4); (12, 4); (16, 32); (48, 8); (56, 8); (64, 32); (96, 4); (100, 4); (104, 4);
   (108, 4); (112, 4); (116, 4); (120, 4); (124, 4); (128, 8); (136, 4); (140, 4); (144, 4); (152, 8);
   (160, 4); (164, 4)].

Lemma journal_header_shape v s :
  snapshot_wf s -> zlen (vd_digest v) = 32 -> shape_of (journal_header v s) = journal_shape.
Proof. intros [_ _ _ [Hd _]] Hv. unfold shape_of. simpl. by rewrite Hd, Hv. Qed.

Section Page.
Context (v : owned_volume_decoded) (s : ocj_snapshot) (c : Z) (value : bytes).
Context (Hs : snapshot_wf s) (Hv : zlen (vd_digest v) = 32) (Hval : zlen value = 32).

Definition base_page : bytes := fill 4096 0xff.
Definition header_page : bytes := blits (journal_header v s) base_page.
Definition body_page : bytes := blits (journal_blocks 256 (js_blocks s)) header_page.
Definition sealed_journal : bytes := blits [put32 252 c; (1280, value)] body_page.

Lemma zlen_header_page : zlen header_page = 4096.
Proof using Hs Hv.
  assert (Hbl : zlen base_page = 4096) by by apply zlen_fill.
  unfold header_page. rewrite zlen_blits; [done|]. by rewrite journal_header_shape, Hbl.
Qed.

Lemma zlen_blocks : zlen (js_blocks s) = 32.
Proof using Hs. destruct (swf_blocks _ Hs) as [H _]. unfold zlen. lia. Qed.

Lemma body_facts :
  zlen body_page = 4096 /\
  forall o n, 0 <= o -> 0 <= n -> o + n <= 256 \/ 1280 <= o -> slice o n body_page = slice o n header_page.
Proof using Hs Hv.
  destruct (blocks_frame (js_blocks s) 256 header_page) as [Hz H];
    rewrite ?zlen_blocks, ?zlen_header_page in *; [lia|lia|].
  split; [done|]. intros. apply H; lia.
Qed.

Lemma sealed_facts :
  zlen sealed_journal = 4096 /\
  (forall o n, 0 <= o -> 0 <= n -> o + n <= 252 \/ 256 <= o -> o + n <= 1280 \/ 1312 <= o ->
     slice o n sealed_journal = slice o n body_page) /\
  slice 252 4 sealed_journal = le 4 c /\ slice 1280 32 sealed_journal = value.
Proof using Hs Hv Hval.
  destruct body_facts as [Hz _].
  assert (Hsh : shape_of [put32 252 c; (1280, value)] = [(252, 4); (1280, 32)])
    by (unfold shape_of; simpl; by rewrite Hval).
  assert (Hfit : fits 4096 [(252, 4); (1280, 32)] = true) by done.
  split_and!.
  - unfold sealed_journal. rewrite zlen_blits; [done|]. by rewrite Hsh, Hz.
  - intros o n ? ? ? ?. apply slice_blits_disjoint; [by rewrite Hsh, Hz|done|done|].
    unfold put32. repeat (apply Forall_cons; split; [unfold disjoint_from; cbn [fst snd]; rewrite ?zlen_le, ?Hval; lia|]).
    constructor.
  - unfold sealed_journal. read_back. done.
  - unfold sealed_journal. read_back. done.
Qed.

(** Reads below the CRC see the header writes only. *)
Lemma sealed_header o n :
  0 <= o -> 0 <= n -> o + n <= 252 -> slice o n sealed_journal = slice o n header_page.
Proof using Hs Hv Hval.
  intros. destruct sealed_facts as (_ & Hsl & _). destruct body_facts as [_ H'].
  rewrite Hsl by lia. apply H'; lia.
Qed.

Lemma is_bytes_sealed : is_bytes (vd_digest v) -> is_bytes value -> is_bytes sealed_journal.
Proof using Hs.
  intros Hvb Hvalb. apply is_bytes_blits.
  { unfold put32. bytes_fields. }
  apply is_bytes_blits.
  { assert (forall p bs, Forall (fun f : field => is_bytes f.2) (journal_blocks p bs)) as Hjb; [|apply Hjb].
    intros p bs. revert p. induction bs as [|b bs IH]; intros p; cbn [journal_blocks app]; [constructor|].
    unfold put64, put32. repeat (apply Forall_cons; split; [apply le_is_bytes|]). apply IH. }
  apply is_bytes_blits; [|by apply is_bytes_fill].
  destruct (swf_previous_digest _ Hs) as [_ ?]. unfold journal_header, put64, put32. bytes_fields.
Qed.

(** The header fields as the decoder reads them. *)
Lemma sealed_decode :
  decode_snapshot sealed_journal (js_bank s) (js_slot s) = s <| js_digest := fill 32 0 |>.
Proof using All.
  pose proof (journal_header_shape v s Hs Hv) as Hsh.
  assert (Hbl : zlen base_page = 4096) by by apply zlen_fill.
  assert (Hfit : fits 4096 journal_shape = true) by done.
  assert (Hblocks : map (fun i => decode_block sealed_journal (256 + i * 32)) (zseq 32) = js_blocks s).
  { destruct (swf_blocks _ Hs) as [H32 Hbw]. apply list_eq. intros k. unfold zseq.
    destruct (decide (k < 32)%nat) as [Hk|Hk].
    - change (map ?f ?l) with (f <$> l). rewrite list_lookup_fmap, lookup_seqZ_lt by lia. simpl.
      destruct (lookup_lt_is_Some_2 (js_blocks s) k) as [b Hb]; [lia|]. rewrite Hb. f_equal.
      destruct (blocks_read (js_blocks s) 256 header_page k b) as [Hd _]; try done;
        [rewrite zlen_blocks, zlen_header_page; lia|].
      rewrite <- Hd.
      match goal with |- decode_block sealed_journal ?x = _ => replace x with (256 + 32 * Z.of_nat k) by lia end.
      apply decode_block_frame; [|lia]. destruct sealed_facts as (_ & Hsl & _). by rewrite Hsl by lia.
    - rewrite !lookup_ge_None_2; [done|lia|]. rewrite length_map, length_seqZ. lia. }
  pose proof Hs as [? ? ? [? ?] ? ? ? ? ? ? ? ? ? ?].
  transitivity (Build_ocj_snapshot (js_epoch s) (js_previous_epoch s) (js_high_water s) (js_previous_digest s)
    (fill 32 0) (js_state s) (js_bank s) (js_slot s) (js_retired s) (js_quarantine s) (js_open s)
    (js_pending_kind s) (js_pending_slot s) (js_pending_lease s) (js_blocks s)); [|done].
  unfold decode_snapshot, get64, get32. rewrite Hblocks.
  repeat rewrite sealed_header by lia.
  f_equal; unfold header_page; first [apply (get64_blits _ _ _ _ Hsh Hbl Hfit) with (i := 5%nat); done
    | change (unle (slice ?o 8 ?p)) with (get64 o p); read_back; done
    | change (unle (slice ?o 4 ?p)) with (get32 o p); read_back; done | read_back; done].
Qed.
End Page.

Lemma syntax_place s : syntax s = true -> js_bank s <= 1 /\ js_slot s <= 63.
Proof.
  unfold syntax, syntax_header. rewrite !andb_true_iff, !Z.leb_le. tauto.
Qed.

(** An encoded page is a sealed page whose CRC and digest are its own. *)
Lemma encode_sealed v s h page :
  snapshot_wf s -> zlen (vd_digest v) = 32 -> encode v s h = (0, Some page) ->
  syntax s = true /\ exists c value, page = sealed_journal v s c value /\ zlen value = 32 /\ is_bytes value /\
    c = journal_crc page /\ journal_sha h page = Some value.
Proof.
  intros Hs Hv. unfold encode. destruct (syntax s); [|done]. cbn [negb]. intros H. split; [done|].
  assert (Hseal : seal_record 1280 252 1280 h (journal_header v s ++ journal_blocks 256 (js_blocks s))
                    (fill 4096 0xff) = Some page).
  { unfold seal_record. unfold journal_body in H.
    change (journal_sha h ?p) with (sha_digest h (slice 0 1280 p)) in H.
    change (journal_crc ?p) with (record_crc 252 (slice 0 1280 p)) in H.
    destruct (sha_digest _ _); [|done]. by injection H as <-. }
  apply seal_record_inv in Hseal as (c & value & Hq & ? & ? & Hc & Hsha); [|lia|lia|lia| |rewrite zlen_fill; lia].
  - exists c, value. split_and!; [|done..]. rewrite Hq. unfold sealed_record_fields. rewrite !blits_app. done.
  - rewrite blits_app. fold base_page. fold (header_page v s). fold (body_page v s).
    destruct (body_facts v s Hs Hv) as [-> _]. symmetry. by apply zlen_fill.
Qed.

Lemma decode_encode v s h page :
  snapshot_wf s -> zlen (vd_digest v) = 32 -> is_bytes (vd_digest v) -> encode v s h = (0, Some page) ->
  zlen page = 4096 /\
  exists dg, journal_sha h page = Some dg /\ dg = slice OCJ_DIGEST_OFFSET 32 page /\
    decode v (js_bank s) (js_slot s) h page = (0, s <| js_digest := dg |>).
Proof.
  intros Hs Hv Hvb He. destruct (encode_sealed _ _ _ _ Hs Hv He) as (Hsyn & c & value & Hp & Hval & Hvalb & Hc & Hsha).
  destruct (sealed_facts v s c value Hs Hv Hval) as (Hl & Hsl & H252 & H1280).
  pose proof (sealed_header v s c value Hs Hv Hval) as Hhd.
  pose proof (sealed_decode v s c value Hs Hv Hval) as Hdec.
  pose proof (is_bytes_sealed v s c value Hs Hvb Hvalb) as Hb.
  pose proof (journal_header_shape v s Hs Hv) as Hsh.
  assert (Hbl : zlen base_page = 4096) by by apply zlen_fill.
  assert (Hfit : fits 4096 journal_shape = true) by done.
  destruct (body_facts v s Hs Hv) as [_ Hbody].
  rewrite <- Hp in *. split; [done|]. exists value. split; [done|]. split; [done|].
  assert (Hcr : 0 <= c < 2 ^ 32) by (rewrite Hc; by apply crc32_range, is_bytes_slice).
  assert (Hpad : slice 1312 2784 page = fill 2784 0xff).
  { rewrite Hsl, Hbody by lia. unfold header_page. erewrite blits_read_base; [|eassumption|eassumption|done..].
    unfold base_page. by rewrite slice_fill by lia. }
  assert (H252' : get32 252 page = c) by (unfold get32; rewrite H252, unle_le; by apply Z.mod_small).
  assert (Hread : forall o, 0 <= o -> o + 4 <= 252 -> get32 o page = get32 o (header_page v s))
    by (intros; unfold get32; by rewrite Hhd by lia).
  pose proof Hs as [? ? ? [? ?] ? ? ? ? ? ? ? ? ? _].
  assert (Hmagic : slice 0 8 page = journal_magic) by (rewrite Hhd by lia; unfold header_page; read_back; done).
  assert (H07 : slice 0 7 page = slice 0 7 journal_magic) by (rewrite <- Hmagic, slice_slice by lia; done).
  unfold decode, OCJ_PADDING_OFFSET, OCJ_DIGEST_OFFSET in *. change (4096 - 1312) with 2784.
  rewrite H07, Hmagic, H252', Hpad, <- Hc.
  rewrite (Hread 8), (Hread 12), (Hread 100), (Hread 104), (Hread 108), (Hread 112), (Hread 144), (Hread 160), (Hread 164) by lia.
  replace (equal (slice 0 7 journal_magic) (slice 0 7 control_magic)) with false by by vm_compute.
  rewrite Hsha, H1280, !equal_refl, Hdec, syntax_digest, Hsyn, !all_fill.
  assert (slice 16 32 page = vd_digest v) as -> by (rewrite Hhd by lia; unfold header_page; read_back; done).
  assert (slice 148 4 page = fill 4 0) as ->.
  { rewrite Hhd by lia; unfold header_page. by read_zero. }
  assert (slice 168 84 page = fill 84 0) as ->.
  { rewrite Hhd by lia; unfold header_page. by read_zero. }
  assert (E8 : get32 8 (header_page v s) = 2) by (unfold header_page; read_back; done).
  assert (E12 : get32 12 (header_page v s) = 256) by (unfold header_page; read_back; done).
  assert (E100 : get32 100 (header_page v s) = js_bank s) by (unfold header_page; read_back; done).
  assert (E104 : get32 104 (header_page v s) = js_slot s) by (unfold header_page; read_back; done).
  assert (Hrow : forall b p, 0 <= row_of b p < 2 ^ 32) by (intros; apply Z.mod_pos_bound; lia).
  assert (E108 : get32 108 (header_page v s) = row_of (znth (js_bank s) (vs_control_blocks (vd_spec v))) (js_slot s))
    by (unfold header_page; read_back; apply Hrow).
  assert (E112 : get32 112 (header_page v s) = u32 (1 - js_bank s))
    by (unfold header_page; read_back; apply Z.mod_pos_bound; lia).
  assert (E144 : get32 144 (header_page v s) = pending_row v s).
  { unfold header_page. read_back. unfold pending_row. destruct (_ =? 0); [done|apply Hrow]. }
  assert (E160 : get32 160 (header_page v s) = 4096) by (unfold header_page; read_back; done).
  assert (E164 : get32 164 (header_page v s) = OCJ_BODY_BYTES) by (unfold header_page; read_back; done).
  assert (H256 : slice 256 1024 (header_page v s) = fill 1024 0) by (unfold header_page; by read_zero).
  assert (Hres : forallb (fun i => all (slice (256 + i * 32 + 28) 4 page) 0) (zseq 32) = true).
  { apply forallb_forall. intros i Hi. apply list_elem_of_In, elem_of_seqZ in Hi.
    rewrite Hsl by lia. destruct (swf_blocks _ Hs) as [H32 Hbw].
    destruct (lookup_lt_is_Some_2 (js_blocks s) (Z.to_nat i)) as [b Hbi]; [lia|].
    destruct (blocks_read (js_blocks s) 256 (header_page v s) (Z.to_nat i) b Hbw) as [_ H28]; [lia| |done|].
    { rewrite (zlen_blocks s Hs), (zlen_header_page v s Hs Hv). lia. }
    replace (256 + i * 32 + 28) with (256 + 32 * Z.of_nat (Z.to_nat i) + 28) by lia.
    unfold body_page. rewrite H28.
    replace (256 + 32 * Z.of_nat (Z.to_nat i) + 28) with (256 + (32 * i + 28)) by lia.
    rewrite <- (slice_slice 256 1024), H256, slice_fill by lia. apply all_fill. }
  change (pending_row v (s <| js_digest := fill 32 0 |>)) with (pending_row v s).
  rewrite E8, E12, E100, E104, E108, E112, E144, E160, E164, Hres, !equal_refl, !Z.eqb_refl. reflexivity.
Qed.

(** C36. A snapshot that was encoded decodes at its own bank and slot to exactly
    that snapshot, stamped with the provider's digest of the page body. *)
Theorem ocj_codec_roundtrip v s h out page at_ dst
    (Hs : snapshot_wf (deref s)) (Hv : zlen (vd_digest (deref v)) = 32) (Hvb : is_bytes (vd_digest (deref v)))
    (Hencode : ocj_encode (Some v) (Some s) (Some h) out = (0, Some page))
    (Hsep : poverlap dst sizeof_ocj_snapshot (Some (Obj at_ page)) 4096 ||
            poverlap dst sizeof_ocj_snapshot (Some v) sizeof_owned_volume_decoded ||
            poverlap dst sizeof_ocj_snapshot (Some h) sizeof_owned_page_hash = false)
    (Hdst : dst <> None) :
  exists dg,
    journal_sha (deref h) page = Some dg /\
    ocj_decode (Some v) (js_bank (deref s)) (js_slot (deref s)) (Some h) (Some (Obj at_ page)) dst =
      (0, Some ((deref s) <| js_digest := dg |>)).
Proof.
  unfold ocj_encode in Hencode. destruct out as [o|]; [|done].
  destruct (_ || _) eqn:Hg in Hencode; [done|]. rewrite !orb_false_iff, negb_false_iff in Hg.
  destruct Hg as [[[Hsyn _] _] _].
  destruct (decode_encode _ _ _ _ Hs Hv Hvb Hencode) as (_ & dg & Hsha & _ & Hdec). exists dg. split; [done|].
  unfold ocj_decode. destruct dst as [d|]; [|done]. rewrite !orb_false_iff in Hsep. destruct Hsep as [[-> ->] ->].
  destruct (syntax_place _ Hsyn) as [Hbank Hslot].
  rewrite (proj2 (Z.ltb_ge _ _) Hbank), (proj2 (Z.ltb_ge _ _) Hslot). cbn [orb deref]. by rewrite Hdec.
Qed.

(** * What [syntax] says about lease ranges *)
Lemma forallb_zseq f n : forallb f (zseq n) = true <-> forall i, 0 <= i < n -> f i = true.
Proof.
  rewrite forallb_forall. split; intros H i Hi.
  - apply H, list_elem_of_In. apply elem_of_seqZ. lia.
  - apply list_elem_of_In, elem_of_seqZ in Hi. apply H. lia.
Qed.

Lemma syntax_blocks s i :
  syntax s = true -> 0 <= i < 32 -> syntax_block s i = true.
Proof.
  unfold syntax. rewrite !andb_true_iff. intros [[_ H] _] Hi. rewrite forallb_zseq in H. by apply H.
Qed.

Lemma syntax_range s i :
  syntax s = true -> 0 <= i < 32 -> jb_base (block_at (js_blocks s) i) <> 0 ->
  let b := block_at (js_blocks s) i in
  0 <= jb_base b -> jb_base b <= UINT64_MAX - 64 /\ jb_base b + 64 <= js_high_water s /\ ranges_apart s i b = true.
Proof.
  intros Hs Hi Hn. cbv zeta. intros Hpos. pose proof (syntax_blocks s i Hs Hi) as Hb. unfold syntax_block in Hb.
  rewrite (proj2 (Z.eqb_neq _ _) Hn) in Hb. cbn [negb andb orb] in Hb.
  rewrite !andb_true_iff, !Z.leb_le in Hb. destruct_and! Hb.
  rewrite u64_small in * by (unfold UINT64_MAX in *; lia). by split_and!.
Qed.

Lemma syntax_ranges_ordered s i j :
  syntax s = true -> 0 <= j < i -> i < 32 ->
  let a := jb_base (block_at (js_blocks s) j) in let b := jb_base (block_at (js_blocks s) i) in
  0 < a -> 0 < b -> a + 64 < b \/ b + 64 < a.
Proof.
  intros Hs Hj Hi. cbv zeta. intros Ha Hb.
  destruct (syntax_range s i Hs ltac:(lia) ltac:(lia) ltac:(lia)) as (Hbm & _ & Hap).
  destruct (syntax_range s j Hs ltac:(lia) ltac:(lia) ltac:(lia)) as (Ham & _ & _).
  unfold ranges_apart in Hap. rewrite forallb_zseq in Hap. specialize (Hap j Hj).
  rewrite !u64_small in Hap by (unfold UINT64_MAX in *; lia). lia.
Qed.

(** In every well-formed snapshot the reserved lease ranges of two different
    map slots share no id, not even a boundary one, and all lie at or below the
    high-water mark; the range a legal transition adds lies wholly above it. *)
Theorem ocj_ranges_disjoint s t i j
    (Hs : syntax s = true) (Hi : 0 <= i < 32) (Hj : 0 <= j < 32) (Hij : i <> j)
    (Ha : 0 < jb_base (block_at (js_blocks s) i)) (Hb : 0 < jb_base (block_at (js_blocks s) j))
    (Hhw : 0 <= js_high_water s) (Ht : transition s t = true) :
  let a := jb_base (block_at (js_blocks s) i) in let b := jb_base (block_at (js_blocks s) j) in
  (a + 64 < b \/ b + 64 < a) /\ a + 64 <= js_high_water s /\
  (forall k, 0 <= k < 32 -> jb_base (block_at (js_blocks t) k) <> jb_base (block_at (js_blocks s) k) ->
     js_high_water s < jb_base (block_at (js_blocks t) k) /\
     js_high_water t = jb_base (block_at (js_blocks t) k) + 64).
Proof.
  cbv zeta. split; [|split].
  - destruct (Z.lt_ge_cases j i).
    + destruct (syntax_ranges_ordered s i j Hs ltac:(lia) ltac:(lia) Hb Ha); lia.
    + apply (syntax_ranges_ordered s j i Hs); lia.
  - by destruct (syntax_range s i Hs Hi ltac:(lia) ltac:(lia)) as (_ & ? & _).
  - intros k Hk Hn. unfold transition in Ht. rewrite !andb_true_iff in Ht. destruct Ht as [[_ Ht] _].
    rewrite forallb_zseq in Ht. specialize (Ht k Hk). unfold transition_slot, range_changed in Ht.
    rewrite (proj2 (Z.eqb_neq _ _) Hn) in Ht. cbn [negb] in Ht. apply andb_true_iff in Ht as [Ht _].
    unfold new_range_ok in Ht. rewrite !andb_true_iff, !Z.eqb_eq, Z.leb_le in Ht. destruct_and! Ht.
    unfold UINT64_MAX in *. rewrite u64_small in * by lia.
    match goal with H : js_high_water t = u64 _ |- _ => rewrite u64_small in H by lia end. lia.
Qed.

(** * Concrete instances *)
Definition sample_volume : owned_volume_decoded :=
  default cleared_decoded
    (snd (owned_volume_descriptor_validate (Some p_descriptor) 512 (Some p_spec) (Some p_hash) (Some p_decoded))).
Definition two_ranges : ocj_snapshot :=
  genesis_snapshot <| js_epoch := 5 |> <| js_previous_epoch := 4 |> <| js_previous_digest := fill 32 0x77 |>
    <| js_digest := fill 32 0x78 |> <| js_slot := 4 |> <| js_high_water := 130 |>
    <| js_blocks := set_block (set_block (js_blocks genesis_snapshot) 0
         {| jb_base := 1; jb_valid := 5; jb_range_sequence := 2; jb_consumed := 3 |}) 1
         {| jb_base := 66; jb_valid := 0; jb_range_sequence := 3; jb_consumed := 0 |} |>.
Definition three_ranges : ocj_snapshot :=
  (reserve_candidate 2 two_ranges) <| js_epoch := 6 |> <| js_previous_epoch := 5 |>
    <| js_previous_digest := fill 32 0x78 |> <| js_slot := 5 |>.
Definition p_volume : obj owned_volume_decoded := Obj 0x80000 sample_volume.
Definition p_snapshot : obj ocj_snapshot := Obj 0x82000 two_ranges.
Definition p_snapshot_out : obj ocj_snapshot := Obj 0x84000 empty_snapshot.
Definition sample_journal_page : bytes :=
  written (ocj_encode (Some p_volume) (Some p_snapshot) (Some p_hash) at_out).

Lemma two_ranges_wf : snapshot_wf two_ranges.
Proof.
  constructor; try (by split); try (split; [done|by apply is_bytesb_sound]).
  split; [done|]. unfold two_ranges. cbn [js_blocks field_upd eta_snapshot].
  repeat constructor; done.
Qed.

Lemma ocj_codec_roundtrip_witness :
  exists dg,
    journal_sha sample_hash sample_journal_page = Some dg /\
    ocj_decode (Some p_volume) 0 4 (Some p_hash) (Some (Obj 0x86000 sample_journal_page)) (Some p_snapshot_out) =
      (0, Some (two_ranges <| js_digest := dg |>)).
Proof.
  apply (ocj_codec_roundtrip p_volume p_snapshot p_hash at_out sample_journal_page 0x86000 (Some p_snapshot_out)).
  - exact two_ranges_wf.
  - vm_compute. reflexivity.
  - apply is_bytesb_sound. vm_compute. reflexivity.
  - vm_compute. reflexivity.
  - vm_compute. reflexivity.
  - discriminate.
Defined.

Lemma ocj_ranges_disjoint_witness :
  transition two_ranges three_ranges = true /\ js_high_water two_ranges < jb_base (block_at (js_blocks three_ranges) 2).
Proof.
  split; [vm_compute; reflexivity|].
  destruct (ocj_ranges_disjoint two_ranges three_ranges 0 1) as (_ & _ & H).
  - vm_compute. reflexivity.
  - lia.
  - lia.
  - lia.
  - vm_compute. reflexivity.
  - vm_compute. reflexivity.
  - vm_compute. discriminate.
  - vm_compute. reflexivity.
  - apply (H 2); [lia|]. vm_compute. discriminate.
Defined.
