(* ===== verification/JournalCalls.v ===== *)
(** What the control journal's steps may do to the world of its callbacks, and the
    log of those callbacks that reach the medium. *)
From S2P Require Import Prelude OwnedPage OwnedVolume ControlRecord DharaTypes ControlJournal.

(** A computation that moves the world by [R]. *)
Definition worlds {W A} (R : W -> W -> Prop) (m : M (owned_control_journal * W) A) : Prop := forall s, R (snd s) (snd (snd (m s))).

Section Relation.
Context {W : Type} (R : W -> W -> Prop) `{!PreOrder R}.

Lemma worlds_ret {A} (a : A) : worlds R (ret a).
Proof using All. intros s. simpl. reflexivity. Qed.

Lemma worlds_bind {A B} (m : M (owned_control_journal * W) A) (k : A -> M (owned_control_journal * W) B) : worlds R m -> (forall a, worlds R (k a)) -> worlds R (bind m k).
Proof using All.
  intros Hm Hk s. unfold bind. specialize (Hm s). destruct (m s) as [a s']. specialize (Hk a s'). simpl in *. by etrans.
Qed.

Lemma worlds_journal : worlds R (journal (W := W)).
Proof using All. intros s. simpl. reflexivity. Qed.

Lemma worlds_change f : worlds R (change (W := W) f).
Proof using All. intros s. simpl. reflexivity. Qed.

Lemma worlds_call {A} (f : W -> A * W) : (forall w, R w (snd (f w))) -> worlds R (call f).
Proof using All. intros H [j w]. unfold call. simpl. specialize (H w). by destruct (f w). Qed.
End Relation.

(** Decomposes a computation down to its callbacks. *)
Ltac step_worlds :=
  repeat lazymatch goal with
    | |- worlds _ (bind _ _) => apply worlds_bind; [typeclasses eauto|..|intros ?]
    | |- worlds _ (on_ok _ _) => unfold on_ok
    | |- worlds _ (or_fault _ _) => unfold or_fault
    | |- worlds _ (or_faulted _ _) => unfold or_faulted
    | |- worlds _ (ret _) => apply worlds_ret; typeclasses eauto
    | |- worlds _ journal => apply worlds_journal; typeclasses eauto
    | |- worlds _ (change _) => apply worlds_change; typeclasses eauto
    | |- worlds _ (call _) => apply worlds_call; [typeclasses eauto|intros ?; apply rtc_once; constructor]
    | |- worlds _ (fault _) => unfold fault
    | |- worlds _ (if ?b then _ else _) => destruct b
    | |- worlds _ (let '_ := ?x in _) => destruct x
    | |- worlds _ (match ?x with _ => _ end) => destruct x
    | |- _ => fail
    end.

Section Calls.
Context {W : Type} (io : ocj_io W).
Abbreviation J := (owned_control_journal * W)%type.

(** One callback, with any arguments; one reading of the clock. *)
Inductive called : W -> W -> Prop :=
  | by_now w : called w (snd (io_now_ms io w))
  | by_admit reason digest block epoch d w : called w (snd (io_admit io reason digest block epoch d w))
  | by_read row d w : called w (snd (io_read io row d w))
  | by_raw row d w : called w (snd (io_raw io row d w))
  | by_erase block d w : called w (snd (io_erase io block d w))
  | by_program row page d w : called w (snd (io_program io row page d w))
  | by_latched w : called w (snd (io_fault_latched io w))
  | by_latch bank d w : called w (snd (io_latch_fault io bank d w)).
Inductive ticked : W -> W -> Prop := by_clock w : ticked w (snd (io_now_ms io w)).

Lemma clock_check : worlds (rtc ticked) (check io).
Proof. unfold check. step_worlds. Qed.

Lemma ticked_called w w' : rtc ticked w w' -> rtc called w w'.
Proof. apply rtc_congruence with (f := fun w => w). intros ? ? []. constructor. Qed.

Lemma calls_check : worlds (rtc called) (check io).
Proof. unfold check. step_worlds. Qed.

Lemma calls_io_result rc bank reading : worlds (rtc called) (io_result io rc bank reading).
Proof. unfold io_result, latch, check. step_worlds. Qed.

Lemma calls_read_control bank slot : worlds (rtc called) (read_control io bank slot).
Proof. unfold read_control. step_worlds; try apply calls_check; apply calls_io_result. Qed.

Lemma calls_admitted reason bank : worlds (rtc called) (admitted io reason bank).
Proof. unfold admitted. step_worlds; apply calls_check. Qed.

Lemma calls_erased_pages bank block ps : worlds (rtc called) (erased_pages io bank block ps).
Proof.
  induction ps as [|p ps IH]; cbn [erased_pages]; [step_worlds|]. unfold erased_page, latch.
  step_worlds; try apply calls_check; try apply calls_io_result; apply IH.
Qed.

Lemma calls_erase_fresh bank reason : worlds (rtc called) (erase_fresh io bank reason).
Proof. unfold erase_fresh. step_worlds; try apply calls_admitted; try apply calls_io_result; apply calls_erased_pages. Qed.

Lemma calls_program_candidate c : worlds (rtc called) (program_candidate io c).
Proof.
  unfold program_candidate, latch.
  step_worlds; try apply calls_check; try apply calls_io_result; apply calls_read_control.
Qed.

Lemma calls_publish genesis : worlds (rtc called) (publish io genesis).
Proof.
  assert (Hc : forall g, worlds (rtc called) (commit_candidate io g)).
  { intros g. unfold commit_candidate. step_worlds; try apply calls_erase_fresh; apply calls_program_candidate. }
  unfold publish. step_worlds; try apply Hc. apply calls_admitted.
Qed.

Lemma calls_boot_slots bank slots b : worlds (rtc called) (boot_slots io bank slots b).
Proof.
  revert b. induction slots as [|slot slots IH]; intros b; cbn [boot_slots]; [step_worlds|].
  unfold boot_slot. step_worlds; try apply calls_read_control; apply IH.
Qed.

Lemma calls_boot_select b0 b1 : worlds (rtc called) (boot_select (W := W) b0 b1).
Proof. unfold boot_select. step_worlds. Qed.
End Calls.

(** * The log of the medium *)
Inductive ocj_event :=
  | EvRead (row rc : Z) (page : bytes)
  | EvRaw (row rc : Z) (page : bytes)
  | EvErase (block rc : Z)
  | EvProgram (row : Z) (page : bytes) (rc : Z).
Definition ocj_logged {W} (io : ocj_io W) : ocj_io (list ocj_event * W) := {|
  io_now_ms := fun '(t, w) => let '(n, w) := io_now_ms io w in (n, (t, w));
  io_admit := fun reason digest block epoch d '(t, w) => let '(rc, w) := io_admit io reason digest block epoch d w in (rc, (t, w));
  io_read := fun row d '(t, w) => let '((rc, p), w) := io_read io row d w in ((rc, p), (t ++ [EvRead row rc p], w));
  io_raw := fun row d '(t, w) => let '((rc, p), w) := io_raw io row d w in ((rc, p), (t ++ [EvRaw row rc p], w));
  io_erase := fun block d '(t, w) => let '(rc, w) := io_erase io block d w in (rc, (t ++ [EvErase block rc], w));
  io_program := fun row page d '(t, w) => let '(rc, w) := io_program io row page d w in (rc, (t ++ [EvProgram row page rc], w));
  io_fault_latched := fun '(t, w) => let '(rc, w) := io_fault_latched io w in (rc, (t, w));
  io_latch_fault := fun bank d '(t, w) => let '(rc, w) := io_latch_fault io bank d w in (rc, (t, w))
|}.

Lemma logged_called {W} (io : ocj_io W) w w' : rtc (called (ocj_logged io)) w w' -> exists u, fst w' = fst w ++ u.
Proof.
  induction 1 as [w|w1 w2 w3 H _ [u IH]]; [exists []; by rewrite app_nil_r|].
  assert (exists v, fst w2 = fst w1 ++ v) as [v Hv]; [|by exists (v ++ u); rewrite IH, Hv, app_assoc].
  destruct H as [[t w]|? ? ? ? ? [t w]|? ? [t w]|? ? [t w]|? ? [t w]|? ? ? [t w]|[t w]|? ? [t w]]; cbn;
    repeat match goal with |- context [let '(_, _) := ?x in _] => destruct x as [? ?] end; cbn;
    first [by eexists | exists []; by rewrite app_nil_r].
Qed.

Lemma logged_ticked {W} (io : ocj_io W) w w' : rtc (ticked (ocj_logged io)) w w' -> fst w' = fst w.
Proof.
  induction 1 as [w|w1 w2 w3 [[t w]] _ IH]; [done|]. rewrite IH. cbn. by destruct (io_now_ms io w).
Qed.
