(* ===== verification/JournalSafety.v ===== *)
(** Safety of the control journal's state machine: what its sub-steps may touch,
    what a successful publication establishes, and the invariants that hold along
    every sequence of operations. *)
From S2P Require Import Prelude OwnedPage OwnedVolume ControlRecord DharaTypes ControlJournal JournalCodec JournalCalls.

Section Safety.
Context {W : Type} (io : ocj_io W).
Abbreviation J := (owned_control_journal * W)%type.

(** ** A relation every step of a computation preserves *)
Definition respects {A} (R : owned_control_journal -> owned_control_journal -> Prop) (m : M J A) : Prop :=
  forall s, R (fst s) (fst (snd (m s))).

Section Relation.
Context (R : owned_control_journal -> owned_control_journal -> Prop) `{!PreOrder R}.

Lemma respects_ret {A} (a : A) : respects R (ret a).
Proof using All. intros s. simpl. reflexivity. Qed.

Lemma respects_bind {A B} (m : M J A) (k : A -> M J B) :
  respects R m -> (forall a, respects R (k a)) -> respects R (bind m k).
Proof using All.
  intros Hm Hk s. unfold bind. specialize (Hm s). destruct (m s) as [a s'].
  specialize (Hk a s'). simpl in *. by transitivity (fst s').
Qed.

Lemma respects_journal {B} (k : owned_control_journal -> M J B) :
  (forall j, respects R (k j)) -> respects R (bind journal k).
Proof using All. intros Hk s. apply (Hk (fst s)). Qed.

Lemma respects_call {A} (f : W -> A * W) : respects R (call f).
Proof using All. intros [j w]. unfold call. simpl. destruct (f w). simpl. reflexivity. Qed.

Lemma respects_change f : (forall j, R j (f j)) -> respects R (change (W := W) f).
Proof using All. intros Hf s. apply Hf. Qed.

Lemma respects_on_ok (m k : M J Z) : respects R m -> respects R k -> respects R (on_ok m k).
Proof using All.
  intros Hm Hk. apply respects_bind; [done|]. intros rc. destruct (rc =? 0); [done|apply respects_ret].
Qed.

Lemma respects_or_fault (m k : M J Z) : respects R m -> respects R k -> respects R (or_fault m k).
Proof using All.
  intros Hm Hk. apply respects_bind; [done|]. intros rc. destruct (rc =? 0); [done|apply respects_ret].
Qed.
End Relation.

(** ** The fields the I/O helpers never touch *)
Create HintDb frame discriminated.
Definition core (j : owned_control_journal) : owned_control_journal :=
  j <| j_fault := 0 |> <| j_reconciled := 0 |> <| j_last_now := 0 |> <| j_retained := 0 |>
    <| j_rx := [] |> <| j_raw := [] |>.
Definition frame (j j' : owned_control_journal) : Prop :=
  core j' = core j /\ (j_fault j <> 0 -> j_fault j' <> 0).

#[export] Instance frame_preorder : PreOrder frame.
Proof. split; [by split|]. intros a b c [? ?] [? ?]. split; [congruence|auto]. Qed.

Ltac step_respects :=
  repeat first
    [ lazymatch goal with |- respects _ (change _) => fail | _ => idtac end; solve [auto with frame nocore]
    | lazymatch goal with
      | |- respects _ (bind journal _) => apply respects_journal; [typeclasses eauto|intros ?]
      | |- respects _ (on_ok _ _) => apply respects_on_ok; [typeclasses eauto|..]
      | |- respects _ (or_fault _ _) => apply respects_or_fault; [typeclasses eauto|..]
      | |- respects _ (bind _ _) => apply respects_bind; [typeclasses eauto|..|intros ?]
      | |- respects _ (ret _) => apply respects_ret; typeclasses eauto
      | |- respects _ (call _) => apply respects_call; typeclasses eauto
      | |- respects _ (if ?b then _ else _) => destruct b
      | |- respects _ (match ?x with _ => _ end) => destruct x
      end ].
Ltac by_change :=
  apply respects_change;
  [typeclasses eauto|let j := fresh "j" in intros j; split; [by destruct j|cbn; try done; try lia]].

Lemma frame_fault code : respects frame (fault (W := W) code).
Proof. unfold fault. step_respects. by_change. Qed.
Hint Extern 1 (respects frame (fault _)) => apply frame_fault : frame.

Lemma frame_check : respects frame (check io).
Proof. unfold check. step_respects; by_change. Qed.
Hint Extern 1 (respects frame (check _)) => apply frame_check : frame.

Lemma frame_latch bank : respects frame (latch io bank).
Proof. unfold latch. step_respects. Qed.
Hint Extern 1 (respects frame (latch _ _)) => apply frame_latch : frame.

Lemma frame_io_result rc bank reading : respects frame (io_result io rc bank reading).
Proof.
  unfold io_result. step_respects.
  apply respects_change; [typeclasses eauto|]. intros j. destruct (rc =? _); [|reflexivity].
  split; [by destruct j|done].
Qed.
Hint Extern 1 (respects frame (io_result _ _ _ _)) => apply frame_io_result : frame.

Lemma frame_read_control bank slot : respects frame (read_control io bank slot).
Proof. unfold read_control. step_respects; by_change. Qed.
Hint Extern 1 (respects frame (read_control _ _ _)) => apply frame_read_control : frame.

Lemma frame_admitted reason bank : respects frame (admitted io reason bank).
Proof. unfold admitted. step_respects. Qed.
Hint Extern 1 (respects frame (admitted _ _ _)) => apply frame_admitted : frame.

Lemma frame_erased_page bank block p : respects frame (erased_page io bank block p).
Proof.
  unfold erased_page. step_respects; by_change.
Qed.
Hint Extern 1 (respects frame (erased_page _ _ _ _)) => apply frame_erased_page : frame.

Lemma frame_erased_pages bank block ps : respects frame (erased_pages io bank block ps).
Proof. induction ps; simpl; step_respects. Qed.
Hint Extern 1 (respects frame (erased_pages _ _ _ _)) => apply frame_erased_pages : frame.

Lemma frame_erase_fresh bank reason : respects frame (erase_fresh io bank reason).
Proof.
  unfold erase_fresh. step_respects.
Qed.
Hint Extern 1 (respects frame (erase_fresh _ _ _)) => apply frame_erase_fresh : frame.

(** ** The fields a publication never touches *)
Definition forget_root (j : owned_control_journal) : owned_control_journal :=
  j <| j_tx := [] |> <| j_candidate := empty_snapshot |> <| j_current := empty_snapshot |>
    <| j_tail_fresh := 0 |> <| j_next_slot := 0 |>.
Definition aux (j : owned_control_journal) : owned_control_journal := forget_root (core j).
Definition kept (j j' : owned_control_journal) : Prop :=
  aux j' = aux j /\ (j_fault j <> 0 -> j_fault j' <> 0).

#[export] Instance kept_preorder : PreOrder kept.
Proof. split; [by split|]. intros a b c [? ?] [? ?]. split; [congruence|auto]. Qed.

Lemma frame_kept j j' : frame j j' -> kept j j'.
Proof. intros [H ?]. split; [|done]. exact (f_equal forget_root H). Qed.

Lemma respects_frame_kept {A} (m : M J A) : respects frame m -> respects kept m.
Proof. intros H s. apply frame_kept, H. Qed.
Hint Extern 5 (respects kept _) => apply respects_frame_kept : frame.

Lemma kept_or_faulted (m k : M J Z) : respects kept m -> respects kept k -> respects kept (or_faulted m k).
Proof. intros ? ?. unfold or_faulted. step_respects. Qed.

Lemma kept_set_candidate f : respects kept (change (W := W) (fun j => j <| j_candidate := f j |>)).
Proof. by_change. Qed.

Lemma kept_program_candidate c : respects kept (program_candidate io c).
Proof. unfold program_candidate. step_respects; by_change. Qed.
Hint Extern 1 (respects kept (program_candidate _ _)) => apply kept_program_candidate : frame.

Lemma kept_commit_candidate genesis : respects kept (commit_candidate io genesis).
Proof.
  unfold commit_candidate. apply respects_journal; [typeclasses eauto|intros j].
  destruct (encode _ _ _) as [rc page].
  apply respects_bind; [typeclasses eauto|by_change|intros _].
  step_respects. apply kept_or_faulted; step_respects.
Qed.
Hint Extern 1 (respects kept (commit_candidate _ _)) => apply kept_commit_candidate : frame.

Lemma kept_publish genesis : respects kept (publish io genesis).
Proof.
  unfold publish. destruct genesis; [step_respects|].
  apply kept_or_faulted; step_respects; by_change.
Qed.
Hint Extern 1 (respects kept (publish _ _)) => apply kept_publish : frame.

(** ** Runs that returned *)
Lemma bind_inv {A B} (m : M J A) (k : A -> M J B) s b s' :
  bind m k s = (b, s') -> exists a s1, m s = (a, s1) /\ k a s1 = (b, s').
Proof. unfold bind. destruct (m s) as [a s1]. eauto. Qed.

Lemma journal_inv {B} (k : owned_control_journal -> M J B) s r : bind journal k s = r -> k (fst s) s = r.
Proof. done. Qed.

Lemma change_inv {B} f (k : M J B) s r : bind (change f) (fun _ => k) s = r -> k (f (fst s), snd s) = r.
Proof. done. Qed.

Lemma on_ok_inv (m k : M J Z) s rc s' :
  on_ok m k s = (rc, s') -> (exists s1, m s = (0, s1) /\ k s1 = (rc, s')) \/ (rc <> 0 /\ m s = (rc, s')).
Proof.
  intros (a & s1 & Hm & Hk)%bind_inv. destruct (Z.eqb_spec a 0) as [->|Hn]; [eauto|].
  injection Hk as <- <-. eauto.
Qed.

Lemma or_fault_inv (m k : M J Z) s rc s' :
  or_fault m k s = (rc, s') -> (exists s1, m s = (0, s1) /\ k s1 = (rc, s')) \/
    (rc = OCJ_FAULT /\ exists a, m s = (a, s')).
Proof.
  intros (a & s1 & Hm & Hk)%bind_inv. destruct (Z.eqb_spec a 0) as [->|Hn]; [eauto|].
  injection Hk as <- <-. eauto.
Qed.

Lemma fault_negative code s : fst (fault (W := W) code s) < 0.
Proof. unfold fault, bind, ret. simpl. destruct (Z.ltb_spec code 0); [done|]. unfold OCJ_FAULT. lia. Qed.

Lemma or_faulted_inv (m k : M J Z) s rc s' :
  or_faulted m k s = (rc, s') -> (exists s1, m s = (0, s1) /\ k s1 = (rc, s')) \/
    (rc < 0 /\ exists a s1, m s = (a, s1) /\ frame (fst s1) (fst s')).
Proof.
  intros (a & s1 & Hm & Hk)%bind_inv. destruct (Z.eqb_spec a 0) as [->|Hn]; [eauto|]. right.
  pose proof (fault_negative a s1) as Hf. pose proof (frame_fault a s1) as Hfr.
  rewrite Hk in Hf, Hfr. eauto 6.
Qed.

Lemma respects_run {A} R (m : M J A) s a s' : respects R m -> m s = (a, s') -> R (fst s) (fst s').
Proof. intros H E. specialize (H s). by rewrite E in H. Qed.

Lemma frame_fields j j' :
  frame j j' -> j_current j' = j_current j /\ j_candidate j' = j_candidate j /\ j_tx j' = j_tx j /\
  j_volume j' = j_volume j /\ j_hash j' = j_hash j /\ j_deadline j' = j_deadline j.
Proof.
  intros [H _]. split_and!; [exact (f_equal j_current H)|exact (f_equal j_candidate H)|exact (f_equal j_tx H)
    |exact (f_equal j_volume H)|exact (f_equal j_hash H)|exact (f_equal j_deadline H)].
Qed.

(** Between two worlds of a run the page was programmed at the candidate's own row
    and, with nothing but the clock in between, read back byte for byte. *)
Definition stored (v : owned_volume_decoded) (c : ocj_snapshot) (page : bytes) (w w' : W) : Prop :=
  let row := row_of (znth (js_bank c) (vs_control_blocks (vd_spec v))) (js_slot c) in
  exists d1 d2 w1 w2 w3 w4 rc rx,
    rtc (called io) w w1 /\ io_program io row page d1 w1 = (OCJ_IO_OK, w2) /\ rtc (ticked io) w2 w3 /\
    io_read io row d2 w3 = ((rc, rx), w4) /\ (rc = OCJ_IO_OK \/ rc = OCJ_IO_CHECKED_RAW) /\ equal page rx = true /\
    rtc (called io) w4 w'.

Lemma stored_later v c page w0 w w' : rtc (called io) w0 w -> stored v c page w w' -> stored v c page w0 w'.
Proof. intros H0 (d1 & d2 & w1 & w2 & w3 & w4 & rc & rx & H & ?). exists d1, d2, w1, w2, w3, w4, rc, rx. split; [by etrans|done]. Qed.

Lemma stored_digest v c d page w w' : stored v c page w w' -> stored v (c <| js_digest := d |>) page w w'.
Proof. done. Qed.

Lemma worlds_run {A} R (m : M J A) s a s' : worlds R m -> m s = (a, s') -> R (snd s) (snd s').
Proof. intros H E. specialize (H s). by rewrite E in H. Qed.

(** A result that counts as a success, and what is called for it. *)
Lemma io_result_ok rc bank reading s s' : io_result io rc bank reading s = (0, s') ->
  (rc = OCJ_IO_OK \/ reading = true /\ rc = OCJ_IO_CHECKED_RAW) /\ rtc (ticked io) (snd s) (snd s').
Proof.
  unfold io_result. intros H%change_inv. destruct (rc =? OCJ_IO_MEDIA).
  { unfold latch in H. apply journal_inv in H. apply bind_inv in H as (? & s1 & _ & H).
    pose proof (fault_negative OCJ_FAULT s1) as Hf. rewrite H in Hf. simpl in Hf. lia. }
  destruct (negb (rc =? OCJ_IO_OK) && negb (reading && (rc =? OCJ_IO_CHECKED_RAW))) eqn:E.
  { match type of H with fault ?c ?s0 = _ => pose proof (fault_negative c s0) as Hf end.
    rewrite H in Hf. simpl in Hf. lia. }
  split; [|exact (worlds_run _ _ _ _ _ (clock_check io) H)].
  rewrite andb_false_iff, !negb_false_iff, andb_true_iff, !Z.eqb_eq in E. tauto.
Qed.

Definition same_rx (j j' : owned_control_journal) : Prop := j_rx j' = j_rx j.
#[export] Instance same_rx_preorder : PreOrder same_rx.
Proof. split; [by intros ?|]. unfold same_rx. intros a b c ? ?. congruence. Qed.

Lemma same_rx_fault code : respects same_rx (fault (W := W) code).
Proof. unfold fault. step_respects. by apply respects_change; [typeclasses eauto|]. Qed.
Hint Extern 1 (respects same_rx (fault _)) => apply same_rx_fault : frame.

Lemma same_rx_check : respects same_rx (check io).
Proof. unfold check. step_respects. by apply respects_change; [typeclasses eauto|]. Qed.
Hint Extern 1 (respects same_rx (check _)) => apply same_rx_check : frame.

Lemma same_rx_io_result rc bank reading : respects same_rx (io_result io rc bank reading).
Proof.
  unfold io_result, latch. step_respects.
  apply respects_change; [typeclasses eauto|]. intros j. by destruct (rc =? _).
Qed.

Lemma read_control_ok bank slot s s' :
  read_control io bank slot s = (0, s') ->
  exists d w1 w2 rc rx, rtc (ticked io) (snd s) w1 /\ io_read io (row_of (control_block (fst s) bank) slot) d w1 = ((rc, rx), w2) /\
    (rc = OCJ_IO_OK \/ rc = OCJ_IO_CHECKED_RAW) /\ j_rx (fst s') = rx /\ rtc (called io) w2 (snd s').
Proof.
  unfold read_control. intros [(s1 & H1 & H)|[? _]]%or_fault_inv; [|done].
  pose proof (frame_fields _ _ (respects_run _ _ _ _ _ frame_check H1)) as (_ & _ & _ & Hv & _ & Hd).
  pose proof (worlds_run _ _ _ _ _ (clock_check io) H1) as Hw1.
  apply journal_inv in H. apply bind_inv in H as (r & s2 & Hr & H).
  unfold call in Hr. unfold control_block in *. rewrite Hv, Hd in Hr.
  destruct (io_read io _ _ (snd s1)) as [[rc rx] w'] eqn:E. injection Hr as <- <-. cbn [fst snd] in H |- *.
  apply change_inv in H. cbn [fst snd] in H.
  pose proof (respects_run _ _ _ _ _ (same_rx_io_result _ _ _) H) as Hrx.
  apply io_result_ok in H as [Hrc Hw2]. exists (j_deadline (fst s)), (snd s1), w', rc, rx.
  split_and!; [done|done|tauto|by rewrite Hrx|by apply ticked_called].
Qed.

Lemma latch_fails bank s rc s' : latch io bank s = (rc, s') -> rc < 0.
Proof.
  unfold latch. intros H%journal_inv. apply bind_inv in H as (? & s1 & _ & H).
  pose proof (fault_negative OCJ_FAULT s1) as Hf. by rewrite H in Hf.
Qed.

Lemma program_candidate_run c s rc s' :
  program_candidate io c s = (rc, s') -> j_candidate (fst s) = c ->
  (rc <> 0 -> j_current (fst s') = j_current (fst s)) /\
  (rc = 0 -> stored (j_volume (fst s)) c (j_tx (fst s)) (snd s) (snd s') /\
     j_current (fst s') = c <| js_digest := slice OCJ_DIGEST_OFFSET 32 (j_tx (fst s)) |>).
Proof.
  unfold program_candidate. intros H Hc.
  apply or_fault_inv in H as [(s1 & H1 & H)|(-> & a & H1)].
  2:{ pose proof (respects_run _ _ _ _ _ frame_check H1) as Hf. apply frame_fields in Hf as [-> _]. done. }
  pose proof (frame_fields _ _ (respects_run _ _ _ _ _ frame_check H1)) as (Hcur1 & Hcand1 & Htx1 & Hv1 & Hh1 & _).
  pose proof (worlds_run _ _ _ _ _ (clock_check io) H1) as Hw1.
  apply change_inv in H. apply journal_inv in H. cbn [fst snd] in H.
  apply bind_inv in H as (prc & s2 & Hpr & H). unfold call in Hpr. cbn [fst snd] in Hpr.
  match type of Hpr with context [io_program io ?r ?t ?d ?w] =>
    destruct (io_program io r t d w) as [prc' w2] eqn:Ep end.
  injection Hpr as -> <-.
  apply or_fault_inv in H as [(s3 & H3 & H)|(-> & a & H3)].
  2:{ pose proof (respects_run _ _ _ _ _ (frame_io_result _ _ _) H3) as Hf. apply frame_fields in Hf as [-> _].
      cbn. by rewrite Hcur1. }
  pose proof (frame_fields _ _ (respects_run _ _ _ _ _ (frame_io_result _ _ _) H3)) as (Hcur3 & Hcand3 & Htx3 & Hv3 & Hh3 & Hd3).
  apply io_result_ok in H3 as [[-> |[? _]] Hw3]; [|done]. cbn in Hcur3, Hcand3, Htx3, Hv3, Hh3, Hd3, Hw3.
  apply or_fault_inv in H as [(s4 & H4 & H)|(-> & a & H4)].
  2:{ pose proof (respects_run _ _ _ _ _ (frame_read_control _ _) H4) as Hf. apply frame_fields in Hf as [-> _].
      by rewrite Hcur3, Hcur1. }
  pose proof (frame_fields _ _ (respects_run _ _ _ _ _ (frame_read_control _ _) H4)) as (Hcur4 & Hcand4 & Htx4 & Hv4 & Hh4 & _).
  apply read_control_ok in H4 as (d4 & w3 & w4 & rc4 & rx & Hw4 & Hread & Hrc4 & Hrx & Hw4'). apply journal_inv in H.
  destruct (equal (j_tx (fst s4)) (j_rx (fst s4))) eqn:Heq; cbn [negb] in H.
  2:{ pose proof (respects_run _ _ _ _ _ (frame_latch _) H) as Hf. apply frame_fields in Hf as [-> _].
      apply latch_fails in H. split; [by rewrite Hcur4, Hcur3, Hcur1|lia]. }
  apply change_inv in H. cbn [fst snd] in H.
  apply or_fault_inv in H as [(s5 & H5 & H)|(-> & a & H5)].
  2:{ pose proof (respects_run _ _ _ _ _ frame_check H5) as Hf. apply frame_fields in Hf as [-> _].
      cbn. by rewrite Hcur4, Hcur3, Hcur1. }
  pose proof (frame_fields _ _ (respects_run _ _ _ _ _ frame_check H5)) as (Hcur5 & Hcand5 & Htx5 & _).
  pose proof (worlds_run _ _ _ _ _ (calls_check io) H5) as Hw5.
  injection H as <- <-. cbn in *. split; [done|]. intros _.
  assert (Etx : j_tx (fst s4) = j_tx (fst s)) by congruence.
  split.
  - exists (j_deadline (fst s1)), d4, (snd s1), w2, w3, w4, rc4, rx. unfold control_block in *.
    split_and!; [by apply ticked_called|by rewrite <- Ep, <- Hv1, <- Htx1|by etrans|by rewrite <- Hv1, <- Hv3|done
                |by rewrite <- Hrx, <- Etx|by etrans].
  - by rewrite Hcand5, Hcand4, Hcand3, Hcand1, Hc, Etx.
Qed.

(** A candidate becomes current only when it is a legal successor and its page
    was programmed and read back; a failed attempt leaves the current snapshot. *)
Lemma commit_candidate_run genesis s rc s' :
  commit_candidate io genesis s = (rc, s') ->
  let j := fst s in let c := j_candidate j in
  (rc <> 0 -> j_current (fst s') = j_current j) /\
  (rc = 0 -> syntax c = true /\ (genesis = false -> transition (j_current j) c = true) /\
     exists page, encode (j_volume j) c (j_hash j) = (0, Some page) /\ stored (j_volume j) c page (snd s) (snd s') /\
       j_current (fst s') = c <| js_digest := slice OCJ_DIGEST_OFFSET 32 page |>).
Proof.
  intros H. cbv zeta. apply journal_inv in H. cbv zeta in H.
  destruct (encode _ _ _) as [erc page] eqn:He. apply change_inv in H. cbn [fst snd] in H.
  set (j := fst s) in *. set (c := j_candidate j) in *.
  assert (Hbad : forall code s1, fst s1 = j <| j_tx := default (j_tx j) page |> ->
            fault (W := W) code s1 = (rc, s') -> rc <> 0 /\ j_current (fst s') = j_current j).
  { intros code s1 E1 Hf. pose proof (fault_negative code s1) as Hn.
    pose proof (respects_run _ _ _ _ _ (frame_fault code) Hf) as Hfr. apply frame_fields in Hfr as [Hc _].
    rewrite Hf in Hn. rewrite Hc, E1. split; [simpl in Hn; lia|done]. }
  destruct (Z.eqb_spec erc 0) as [->|]; cbn [negb] in H.
  2:{ apply Hbad in H as [? ?]; [|done]. split; [done|lia]. }
  destruct (negb genesis && negb (transition (j_current j) c)) eqn:Ht.
  { apply Hbad in H as [? ?]; [|done]. split; [done|lia]. }
  assert (Hp : exists pg, page = Some pg /\ syntax c = true).
  { unfold encode in He. destruct (syntax c); [|done]. cbn [negb] in He.
    destruct (journal_sha _ _); [|done]. injection He as <-. eauto. }
  destruct Hp as (pg & -> & Hsyn). cbn [default] in H.
  set (s1 := (_, snd s)) in H.
  assert (Hf1 : j_current (fst s1) = j_current j /\ j_candidate (fst s1) = c /\ j_tx (fst s1) = pg /\
    j_volume (fst s1) = j_volume j /\ snd s1 = snd s) by (by split_and!).
  clearbody s1. destruct Hf1 as (F1 & F2 & F3 & F4 & F5).
  assert (Hrec : forall g, respects frame (if (g : bool) then erase_fresh io (js_bank c) OCJ_ADMIT_RECYCLE else ret 0))
    by (intros []; step_respects).
  apply or_faulted_inv in H as [(s2 & H2 & H)|(Hneg & a & s2 & H2 & Hfr)].
  2:{ pose proof (respects_run _ _ _ _ _ (Hrec _) H2) as Hf. apply frame_fields in Hf as [Hc2 _].
      apply frame_fields in Hfr as [Hc3 _]. split; [by rewrite Hc3, Hc2|lia]. }
  pose proof (frame_fields _ _ (respects_run _ _ _ _ _ (Hrec _) H2)) as (G1 & G2 & G3 & G4 & _).
  destruct (program_candidate_run c s2 rc s' H) as [Hn0 H0]; [congruence|].
  split; [intros E; rewrite (Hn0 E); congruence|].
  intros E. destruct (H0 E) as [Hdur Hcur]. split; [done|]. split.
  { intros ->. by destruct (transition (j_current j) c). }
  rewrite G3, F3 in Hdur, Hcur. exists pg. split_and!; [done| |done].
  rewrite G4, F4 in Hdur. eapply stored_later; [|exact Hdur]. rewrite <- F5. refine (worlds_run _ _ _ _ _ _ H2).
  match goal with |- worlds _ (if ?b then _ else _) => destruct b end; [apply calls_erase_fresh|apply worlds_ret; typeclasses eauto].
Qed.

Lemma publish_run s rc s' :
  publish io false s = (rc, s') ->
  let j := fst s in let c := place j (j_candidate j) in
  (rc <> 0 -> j_current (fst s') = j_current j) /\
  (rc = 0 -> syntax c = true /\ transition (j_current j) c = true /\
     exists page, encode (j_volume j) c (j_hash j) = (0, Some page) /\ stored (j_volume j) c page (snd s) (snd s') /\
       j_current (fst s') = c <| js_digest := slice OCJ_DIGEST_OFFSET 32 page |>).
Proof.
  cbv zeta. unfold publish. intros [(s1 & H1 & H)|(Hneg & a & s1 & H1 & Hfr)]%or_faulted_inv.
  2:{ pose proof (respects_run _ _ _ _ _ (frame_admitted _ _) H1) as Hf. apply frame_fields in Hf as [Hc1 _].
      apply frame_fields in Hfr as [Hc2 _]. split; [by rewrite Hc2, Hc1|lia]. }
  pose proof (respects_run _ _ _ _ _ (frame_admitted _ _) H1) as Hf.
  pose proof (frame_fields _ _ Hf) as (C1 & C2 & C3 & C4 & C5 & _).
  assert (Hpl : place (fst s1) (j_candidate (fst s1)) = place (fst s) (j_candidate (fst s))).
  { destruct Hf as [Hf _]. pose proof (f_equal j_tail_fresh Hf) as T1. pose proof (f_equal j_next_slot Hf) as T2.
    cbn in T1, T2. unfold place. by rewrite C1, C2, T1, T2. }
  apply journal_inv in H. destruct (js_epoch _ =? INT64_MAX).
  { pose proof (fault_negative OCJ_REFUSED s1) as Hn. pose proof (respects_run _ _ _ _ _ (frame_fault _) H) as Hf2.
    apply frame_fields in Hf2 as [Hc2 _]. rewrite H in Hn. split; [by rewrite Hc2, C1|simpl in Hn; lia]. }
  apply change_inv in H. cbn [fst snd] in H. rewrite <- Hpl.
  set (c := place (fst s1) (j_candidate (fst s1))) in H |- *. clearbody c. clear Hpl.
  apply commit_candidate_run in H. cbv zeta in H. cbn in H. rewrite C1, C4, C5 in H. destruct H as [Hn H0]. split; [exact Hn|]. intros E.
  destruct (H0 E) as (? & Ht & page & ? & Hd & Hcur). split_and!; [done|by apply Ht|].
  exists page. split_and!; [done| |exact Hcur]. eapply stored_later; [|exact Hd]. exact (worlds_run _ _ _ _ _ (calls_admitted io _ _) H1).
Qed.

(** ** Along every sequence of operations *)

(** One publication: [b] is a legal, well-formed successor of [a] carrying the
    digest of its own page. *)
Definition follows (v : owned_volume_decoded) (h : owned_page_hash) (a b : ocj_snapshot) (page : bytes) : Prop :=
  transition a b = true /\ syntax b = true /\
  exists c, b = c <| js_digest := slice OCJ_DIGEST_OFFSET 32 page |> /\ encode v c h = (0, Some page).
(** The snapshots a run makes current, and the worlds in which it stores them. *)
Inductive recorded (v : owned_volume_decoded) (h : owned_page_hash) : ocj_snapshot * W -> ocj_snapshot * W -> Prop :=
  | recorded_calls a w w' : rtc (called io) w w' -> recorded v h (a, w) (a, w')
  | recorded_publication a b page w w' s : follows v h a b page -> stored v b page w w' -> recorded v h (b, w') s ->
      recorded v h (a, w) s.
Lemma recorded_later v h a w w' s : rtc (called io) w w' -> recorded v h (a, w') s -> recorded v h (a, w) s.
Proof.
  intros Hw H. inversion H; subst.
  - apply recorded_calls. by etrans.
  - eapply recorded_publication; [done| |done]. by eapply stored_later.
Qed.

Lemma recorded_trans v h s1 s2 s3 : recorded v h s1 s2 -> recorded v h s2 s3 -> recorded v h s1 s3.
Proof. induction 1; intros; [by eapply recorded_later|eapply recorded_publication; eauto]. Qed.

Definition weak (j j' : owned_control_journal) : Prop :=
  (j_initialized j' = j_initialized j /\ j_volume j' = j_volume j /\ j_hash j' = j_hash j) /\
  (j_fault j <> 0 -> j_fault j' <> 0).
#[export] Instance weak_preorder : PreOrder weak.
Proof. split; [by split|]. intros a b c [(? & ? & ?) ?] [(? & ? & ?) ?]. split; [split_and!; congruence|auto]. Qed.
Lemma kept_weak j j' : kept j j' -> weak j j'.
Proof.
  intros [H ?]. split; [|done].
  split_and!; [exact (f_equal j_initialized H)|exact (f_equal j_volume H)|exact (f_equal j_hash H)].
Qed.
Lemma respects_kept_weak {A} (m : M J A) : respects kept m -> respects weak m.
Proof. intros H s. apply kept_weak, H. Qed.
Hint Extern 5 (respects weak _) => apply respects_kept_weak : frame.

(** How a run moves the state: the root only along publications that were stored. *)
Record evolves (s s' : J) : Prop := {
  ev_weak : weak (fst s) (fst s');
  ev_calls : rtc (called io) (snd s) (snd s');
  ev_root : j_booted (fst s) <> 0 -> j_booted (fst s') <> 0 /\
    recorded (j_volume (fst s)) (j_hash (fst s)) (j_current (fst s), snd s) (j_current (fst s'), snd s')
}.
#[export] Instance evolves_preorder : PreOrder evolves.
Proof.
  split; [intros s; split; [done|done|]; split; [done|by apply recorded_calls]|].
  intros a b c [Wab Cab Hab] [Wbc Cbc Hbc]. split; [by etrans|by etrans|]. destruct Wab as [(_ & Ev & Eh) _].
  intros Ha. destruct (Hab Ha) as [Hb ?]. destruct (Hbc Hb) as [Hc Hr]. rewrite Ev, Eh in Hr. split; [done|by eapply recorded_trans].
Qed.

(** A journal that keeps its root. *)
Definition still (j j' : owned_control_journal) : Prop :=
  weak j j' /\ j_booted j' = j_booted j /\ j_current j' = j_current j.
Definition moves {A} (m : M J A) : Prop := forall s, evolves s (snd (m s)).
Lemma moves_ret {A} (a : A) : moves (ret a).
Proof. intros s. simpl. reflexivity. Qed.

Lemma moves_bind {A B} (m : M J A) (k : A -> M J B) : moves m -> (forall a, moves (k a)) -> moves (bind m k).
Proof.
  intros Hm Hk s. unfold bind. specialize (Hm s). destruct (m s) as [a s']. specialize (Hk a s'). simpl in *. by etrans.
Qed.

Lemma moves_journal : moves (journal (W := W)).
Proof. intros s. simpl. reflexivity. Qed.

Lemma moves_still {A} (m : M J A) : respects still m -> worlds (rtc (called io)) m -> moves m.
Proof.
  intros H Hw s. destruct (H s) as (Hk & Hb & Hc). split; [done|apply Hw|]. rewrite Hb, Hc. split; [done|]. apply recorded_calls, Hw.
Qed.

Lemma moves_change f : (forall j, still j (f j)) -> moves (change (W := W) f).
Proof. intros H. apply moves_still; [intros s; apply H|]. intros s. simpl. reflexivity. Qed.

Lemma moves_call {A} (f : W -> A * W) : (forall w, called io w (snd (f w))) -> moves (call f).
Proof.
  intros H. apply moves_still; [|apply worlds_call; [typeclasses eauto|intros w; by apply rtc_once]].
  intros [j w]. unfold call. cbn. by destruct (f w).
Qed.

(** [boot] and [provision] change the root only on a journal not yet booted. *)
Lemma moves_guarded (k : owned_control_journal -> M J Z) :
  (forall j, respects weak (k j)) -> (forall j, worlds (rtc (called io)) (k j)) -> (forall j, j_booted j <> 0 -> moves (k j)) ->
  moves (bind journal k).
Proof.
  intros Hw Hc He s. unfold bind, journal. cbn [fst snd].
  destruct (decide (j_booted (fst s) = 0)) as [E|E]; [|by apply (He (fst s))].
  split; [apply (Hw (fst s))|apply (Hc (fst s))|by rewrite E].
Qed.

Create HintDb moves discriminated.
Ltac step_moves :=
  repeat first
    [ lazymatch goal with |- moves (change _) => fail | _ => idtac end; solve [auto with moves nocore]
    | lazymatch goal with
      | |- moves (bind _ _) => apply moves_bind; [|intros ?]
      | |- moves (on_ok _ _) => unfold on_ok
      | |- moves (or_fault _ _) => unfold or_fault
      | |- moves (or_faulted _ _) => unfold or_faulted
      | |- moves (ret _) => apply moves_ret
      | |- moves journal => apply moves_journal
      | |- moves (change _) => apply moves_change; let j := fresh "j" in intros j; by split
      | |- moves (call _) => apply moves_call; intros ?; constructor
      | |- moves (if ?b then _ else _) => destruct b
      | |- moves (match ?x with _ => _ end) => destruct x
      end ].

Lemma moves_fault code : moves (fault (W := W) code).
Proof. unfold fault. step_moves. Qed.
Hint Extern 1 (moves (fault _)) => apply moves_fault : moves.
Lemma moves_check : moves (check io).
Proof. unfold check. step_moves. Qed.
Hint Extern 1 (moves (check _)) => apply moves_check : moves.
Lemma moves_admitted reason bank : moves (admitted io reason bank).
Proof. unfold admitted. step_moves. Qed.
Hint Extern 1 (moves (admitted _ _ _)) => apply moves_admitted : moves.
Lemma moves_begin d : moves (begin io d).
Proof. unfold begin. step_moves. Qed.
Hint Extern 1 (moves (begin _ _)) => apply moves_begin : moves.
Lemma moves_finish rc : moves (finish (W := W) rc).
Proof. unfold finish. step_moves. apply moves_change. intros j. by destruct (j_retained j =? 0). Qed.
Hint Extern 1 (moves (finish _)) => apply moves_finish : moves.
Lemma moves_operation d body : moves body -> moves (operation io d body).
Proof. intros Hb. unfold operation. step_moves. Qed.
Lemma moves_issue kind b row : moves (issue io kind b row).
Proof. unfold issue. step_moves. Qed.
Hint Extern 1 (moves (issue _ _ _ _)) => apply moves_issue : moves.
Lemma moves_settle : moves (settle io).
Proof. unfold settle. step_moves. Qed.
Hint Extern 1 (moves (settle _)) => apply moves_settle : moves.

Lemma moves_publish : moves (publish io false).
Proof.
  intros s. destruct (publish io false s) as [rc s'] eqn:H.
  pose proof (respects_run _ _ _ _ _ (kept_publish false) H) as Hk. pose proof (worlds_run _ _ _ _ _ (calls_publish io false) H) as Hw.
  cbn [fst snd]. split; [by apply kept_weak|done|]. destruct Hk as [Hk _]. pose proof (f_equal j_booted Hk) as Hb. cbn in Hb.
  rewrite Hb. split; [done|]. apply publish_run in H as [Hn Hok].
  destruct (decide (rc = 0)) as [E|E]; [|rewrite (Hn E); by apply recorded_calls].
  destruct (Hok E) as (Hs & Ht & page & He & Hd & ->). eapply (recorded_publication _ _ _ _ page (snd s) (snd s')); [| |by apply recorded_calls]; [|apply stored_digest, Hd].
  split_and!; [by rewrite transition_digest|by rewrite syntax_digest|by eexists].
Qed.
Hint Extern 1 (moves (publish _ false)) => apply moves_publish : moves.

Ltac weak_change :=
  apply respects_change; [typeclasses eauto|let j := fresh "j" in intros j; by split].

Lemma weak_boot_slots bank slots b : respects weak (boot_slots io bank slots b).
Proof.
  revert b; induction slots as [|slot slots IH]; intros b; cbn [boot_slots]; [step_respects|].
  apply respects_bind; [typeclasses eauto| |intros [rc|b']; [step_respects|apply IH]].
  unfold boot_slot. step_respects; try weak_change.
  apply respects_change; [typeclasses eauto|]. intros j1. destruct (js_epoch _ =? 0); by split.
Qed.

Lemma weak_boot_select b0 b1 : respects weak (boot_select (W := W) b0 b1).
Proof. unfold boot_select. step_respects; weak_change. Qed.

Lemma moves_boot d : moves (ocj_boot io d).
Proof.
  unfold ocj_boot. apply moves_operation, moves_guarded; intros j.
  - destruct (negb _); [step_respects|]. step_respects; try weak_change.
    all: try apply weak_boot_slots; try apply weak_boot_select.
  - destruct (negb _); [apply worlds_ret; typeclasses eauto|].
    step_worlds; first [apply calls_admitted|apply calls_boot_slots|apply calls_boot_select].
  - intros E. rewrite (proj2 (Z.eqb_neq _ _) E). cbn [negb]. step_moves.
Qed.

Lemma weak_or_faulted (m k : M J Z) : respects weak m -> respects weak k -> respects weak (or_faulted m k).
Proof. intros ? ?. unfold or_faulted. step_respects. Qed.

Lemma moves_provision d : moves (ocj_provision io d).
Proof.
  unfold ocj_provision. apply moves_operation, moves_guarded; intros j.
  - destruct (negb _ || negb _); [step_respects|]. apply weak_or_faulted; [step_respects|].
    unfold set_working. step_respects; weak_change.
  - unfold set_working. step_worlds; first [apply calls_erase_fresh|apply calls_publish].
  - intros E. rewrite (proj2 (Z.eqb_neq _ _) E). cbn [negb orb]. step_moves.
Qed.

Lemma moves_run_op o d : moves (run_op io o d).
Proof.
  destruct o; cbn [run_op]; [apply moves_boot|apply moves_provision|..].
  - apply moves_operation. unfold set_candidate, set_working. step_moves.
  - apply moves_operation. unfold set_candidate. step_moves.
  - unfold ocj_validate_capability. step_moves. apply moves_operation. step_moves.
  - unfold ocj_page_info. step_moves.
  - unfold ocj_acquire, not_issued, set_candidate. step_moves.
  - apply moves_operation. unfold set_candidate. step_moves.
  - apply moves_operation. step_moves.
  - apply moves_operation. unfold set_candidate. step_moves.
Qed.

Lemma evolves_run_ops os s : evolves s (run_ops io os s).
Proof.
  revert s; induction os as [|[o d] os IH]; intros s; cbn [run_ops]; [reflexivity|].
  etrans; [apply (moves_run_op o d s)|apply IH].
Qed.

(** ** Array lengths: every block table has 32 entries *)
Definition full (s : ocj_snapshot) : Prop := length (js_blocks s) = 32%nat.
Definition arrays (j : owned_control_journal) : Prop :=
  full (j_current j) /\ full (j_candidate j) /\ length (j_working j) = 32%nat /\
  (forall b, full (j_first j b)) /\ (forall b, full (j_last j b)).
Definition keeps_arrays (j j' : owned_control_journal) : Prop := arrays j -> arrays j'.

#[export] Instance keeps_arrays_preorder : PreOrder keeps_arrays.
Proof. split; [by intros ??|]. intros a b c ? ?. unfold keeps_arrays in *. auto. Qed.

Lemma frame_arrays j j' : frame j j' -> keeps_arrays j j'.
Proof.
  intros [H _] (? & ? & ? & ? & ?). pose proof (f_equal j_current H) as E1. pose proof (f_equal j_candidate H) as E2.
  pose proof (f_equal j_working H) as E3. pose proof (f_equal j_first H) as E4. pose proof (f_equal j_last H) as E5.
  cbn in *. unfold arrays. by rewrite E1, E2, E3, E4, E5.
Qed.
Lemma respects_frame_arrays {A} (m : M J A) : respects frame m -> respects keeps_arrays m.
Proof. intros H s. apply frame_arrays, H. Qed.
Hint Extern 5 (respects keeps_arrays _) => apply respects_frame_arrays : frame.

Lemma full_set_block l i b : length l = 32%nat -> length (set_block l i b) = 32%nat.
Proof. unfold set_block. by rewrite length_insert. Qed.
Lemma full_empty : full empty_snapshot.
Proof. done. Qed.
Lemma full_decode v bank slot h p : full (snd (decode v bank slot h p)).
Proof.
  unfold decode, full. repeat (case_match; try reflexivity).
Qed.

Ltac arr_change :=
  apply respects_change; [typeclasses eauto|let j := fresh "j" in intros j (? & ? & ? & ? & ?);
    unfold arrays, full, take_block, place, reserve_candidate, resolved_candidate, retired_candidate,
      reconciled_candidate, no_pending, genesis_snapshot in *; cbn in *;
    split_and!; auto using full_set_block, full_empty].

Lemma arrays_or_faulted (m k : M J Z) :
  respects keeps_arrays m -> respects keeps_arrays k -> respects keeps_arrays (or_faulted m k).
Proof. intros ? ?. unfold or_faulted. step_respects. Qed.

Lemma arrays_program_candidate c : respects keeps_arrays (program_candidate io c).
Proof. unfold program_candidate. step_respects; arr_change. Qed.
Hint Extern 1 (respects keeps_arrays (program_candidate _ _)) => apply arrays_program_candidate : frame.

Lemma arrays_publish g : respects keeps_arrays (publish io g).
Proof.
  assert (Hc : respects keeps_arrays (commit_candidate io g)).
  { unfold commit_candidate. apply respects_journal; [typeclasses eauto|intros j].
    destruct (encode _ _ _) as [rc page]. apply respects_bind; [typeclasses eauto|arr_change|intros _].
    step_respects. apply arrays_or_faulted; step_respects. }
  unfold publish. destruct g; [done|]. apply arrays_or_faulted; step_respects; try done. arr_change.
Qed.
Hint Extern 1 (respects keeps_arrays (publish _ _)) => apply arrays_publish : frame.

Lemma arrays_begin d : respects keeps_arrays (begin io d).
Proof. unfold begin. step_respects; arr_change. Qed.
Lemma arrays_finish rc : respects keeps_arrays (finish (W := W) rc).
Proof.
  unfold finish. step_respects; [|arr_change].
  apply respects_change; [typeclasses eauto|]. intros j. destruct (j_retained j =? 0); intros Hj; exact Hj.
Qed.
Hint Extern 1 (respects keeps_arrays (begin _ _)) => apply arrays_begin : frame.
Hint Extern 1 (respects keeps_arrays (finish _)) => apply arrays_finish : frame.

Lemma arrays_operation d body : respects keeps_arrays body -> respects keeps_arrays (operation io d body).
Proof. intros Hb. unfold operation. step_respects. Qed.

Lemma arrays_boot_slots bank slots b : respects keeps_arrays (boot_slots io bank slots b).
Proof.
  revert b; induction slots as [|slot slots IH]; intros b; cbn [boot_slots]; [step_respects|].
  apply respects_bind; [typeclasses eauto| |intros [rc|b']; [step_respects|apply IH]].
  unfold boot_slot. apply respects_bind; [typeclasses eauto|step_respects|intros rc].
  destruct (negb (rc =? 0)); [step_respects|]. apply respects_journal; [typeclasses eauto|intros j].
  pose proof (full_decode (j_volume j) bank slot (j_hash j) (j_rx j)) as Hd.
  destruct (decode _ _ _ _ _) as [drc s]. cbn [snd] in Hd.
  step_respects; try solve [arr_change].
  apply respects_change; [typeclasses eauto|]. intros j1 (? & ? & ? & ? & ?).
  destruct (js_epoch (j_first j1 bank) =? 0); unfold arrays; cbn; split_and!; try done;
    intros x; unfold set_bank; by destruct (x =? bank).
Qed.
Hint Extern 1 (respects keeps_arrays (boot_slots _ _ _ _)) => apply arrays_boot_slots : frame.

Lemma arrays_boot_select b0 b1 : respects keeps_arrays (boot_select (W := W) b0 b1).
Proof. unfold boot_select. step_respects; arr_change. Qed.
Hint Extern 1 (respects keeps_arrays (boot_select _ _)) => apply arrays_boot_select : frame.

Lemma arrays_issue kind b row : respects keeps_arrays (issue io kind b row).
Proof. unfold issue. step_respects; arr_change. Qed.
Lemma arrays_settle : respects keeps_arrays (settle io).
Proof. unfold settle. step_respects; arr_change. Qed.
Hint Extern 1 (respects keeps_arrays (issue _ _ _ _)) => apply arrays_issue : frame.
Hint Extern 1 (respects keeps_arrays (settle _)) => apply arrays_settle : frame.

Lemma arrays_run_op o d : respects keeps_arrays (run_op io o d).
Proof.
  destruct o; cbn [run_op].
  - apply arrays_operation. step_respects; arr_change.
  - apply arrays_operation. unfold set_working. step_respects.
    apply arrays_or_faulted; step_respects; arr_change.
  - apply arrays_operation. unfold set_candidate, set_working. step_respects; arr_change.
  - apply arrays_operation. unfold set_candidate. step_respects; arr_change.
  - unfold ocj_validate_capability. step_respects. apply arrays_operation. step_respects.
  - unfold ocj_page_info. step_respects.
  - unfold ocj_acquire, not_issued, set_candidate. step_respects; arr_change.
  - apply arrays_operation. unfold set_candidate. step_respects; arr_change.
  - apply arrays_operation. step_respects; arr_change.
  - apply arrays_operation. unfold set_candidate. step_respects; arr_change.
Qed.

Lemma arrays_run_ops os s : arrays (fst s) -> arrays (fst (run_ops io os s)).
Proof.
  revert s; induction os as [|[o d] os IH]; intros s Hs; cbn [run_ops]; [done|].
  apply IH. by apply (arrays_run_op o d s).
Qed.

(** ** What a published step and a chain of them preserve *)
Lemma transition_facts a b :
  transition a b = true ->
  js_epoch b = u64 (js_epoch a + 1) /\ js_high_water a <= js_high_water b /\
  keeps (js_retired a) (js_retired b) = true /\
  (js_state a = OWNED_CONTROL_READ_ONLY -> js_state b = OWNED_CONTROL_READ_ONLY) /\
  (js_state a = OWNED_CONTROL_ACTIVE -> js_state b <> OWNED_CONTROL_PROVISIONING).
Proof.
  unfold transition, transition_header. rewrite !andb_true_iff, !negb_true_iff, Z.eqb_eq, Z.leb_le.
  intros [[[H _] _] _]. destruct_and! H. split_and!; try done.
  - intros E. rewrite E, Z.eqb_refl in *. by destruct (Z.eqb_spec (js_state b) OWNED_CONTROL_READ_ONLY).
  - intros E E'. by rewrite E, E', !Z.eqb_refl in *.
Qed.

Lemma syntax_epoch s : syntax s = true -> js_epoch s <> 0 /\ js_epoch s <= INT64_MAX.
Proof.
  unfold syntax, syntax_header. rewrite !andb_true_iff, negb_true_iff, Z.eqb_neq, Z.leb_le. tauto.
Qed.

Record grows (a b : ocj_snapshot) : Prop := {
  grows_epoch : js_epoch a <= js_epoch b;
  grows_high_water : js_high_water a <= js_high_water b;
  grows_retired : keeps (js_retired a) (js_retired b) = true;
  grows_read_only : js_state a = OWNED_CONTROL_READ_ONLY -> js_state b = OWNED_CONTROL_READ_ONLY
}.

Lemma follows_grows v h a b page : 0 <= js_epoch a < 2 ^ 64 -> follows v h a b page ->
  grows a b /\ js_epoch b = js_epoch a + 1 /\ 0 <= js_epoch b < 2 ^ 64.
Proof.
  intros Ha (Ht & Hs & _). apply transition_facts in Ht as (He & ? & ? & ? & _). apply syntax_epoch in Hs as [Hn _].
  assert (js_epoch b = js_epoch a + 1) by (unfold u64 in He; divlia).
  assert (0 <= js_epoch b < 2 ^ 64) by (unfold u64 in He; divlia).
  split; [constructor; try done; lia|done].
Qed.

Lemma recorded_grows v h s s' : recorded v h s s' -> 0 <= js_epoch (fst s) < 2 ^ 64 ->
  grows (fst s) (fst s') /\ 0 <= js_epoch (fst s') < 2 ^ 64.
Proof.
  induction 1 as [a w w' Hw|a b page w w' s Hab Hst Hr IH]; cbn [fst] in *; intros Ha.
  - split; [|done]. constructor; [lia|lia|apply keeps_refl|done].
  - destruct (follows_grows _ _ _ _ _ Ha Hab) as ([? ? ? ?] & _ & Hb). destruct (IH Hb) as [[? ? ? ?] ?].
    split; [|done]. constructor; [lia|lia|by eapply keeps_trans|auto].
Qed.

(** ** One erase lease *)
Definition same_root (j j' : owned_control_journal) : Prop :=
  j_current j' = j_current j /\ j_working j' = j_working j /\ j_booted j' = j_booted j /\
  j_volume j' = j_volume j.
#[export] Instance same_root_preorder : PreOrder same_root.
Proof. split; [by split|]. intros a b c (? & ? & ? & ?) (? & ? & ? & ?). unfold same_root. split_and!; congruence. Qed.
Lemma frame_same_root j j' : frame j j' -> same_root j j'.
Proof.
  intros [H _]. split_and!; [exact (f_equal j_current H)|exact (f_equal j_working H)|exact (f_equal j_booted H)
    |exact (f_equal j_volume H)].
Qed.
Lemma respects_frame_root {A} (m : M J A) : respects frame m -> respects same_root m.
Proof. intros H s. apply frame_same_root, H. Qed.
Hint Extern 5 (respects same_root _) => apply respects_frame_root : frame.
Ltac root_change := apply respects_change; [typeclasses eauto|let j := fresh "j" in intros j; by split].
Lemma root_begin d : respects same_root (begin io d).
Proof. unfold begin. step_respects; root_change. Qed.
Lemma root_finish rc : respects same_root (finish (W := W) rc).
Proof.
  unfold finish. step_respects; [|root_change].
  apply respects_change; [typeclasses eauto|]. intros j. by destruct (j_retained j =? 0).
Qed.

Lemma block_at_set l i b : 0 <= i -> (Z.to_nat i < length l)%nat -> block_at (set_block l i b) i = b.
Proof.
  intros Hi Hl. unfold block_at, set_block. apply nth_lookup_Some. by apply list_lookup_insert_eq.
Qed.

Lemma not_issued_none (m : M J Z) s rc l s' : not_issued m s = ((rc, Some l), s') -> False.
Proof.
  unfold not_issued. intros (? & ? & _ & H)%bind_inv. by apply bind_inv in H as (? & ? & _ & H).
Qed.

Lemma issue_run kind b row s rc l s' :
  issue io kind b row s = ((rc, Some l), s') ->
  l = ticket (fst s) kind b row /\ same_root (fst s) (fst s').
Proof.
  unfold issue. intros H%journal_inv. cbv zeta in H. apply change_inv in H. cbn [fst snd] in H.
  apply bind_inv in H as (c & s1 & H1 & H). apply bind_inv in H as (f & s2 & H2 & H).
  injection H as <- <- <-. split; [done|].
  pose proof (respects_run _ _ _ _ _ (respects_frame_root _ frame_check) H1) as R1.
  pose proof (respects_run _ _ _ _ _ (root_finish _) H2) as R2. etrans; [|exact R2]. etrans; [|exact R1]. by split.
Qed.

Lemma acquire_erase_run b row ok d s l s' :
  ocj_acquire io OWNED_CONTROL_ERASE_BLOCK b row ok d s = ((0, Some l), s') ->
  arrays (fst s) -> 0 <= b -> 0 <= js_high_water (j_current (fst s)) ->
  let hw := js_high_water (j_current (fst s)) in
  j_booted (fst s) <> 0 /\ ls_lease_id l = hw + 1 /\ ls_range_base l = hw + 1 /\
  js_high_water (j_current (fst s')) = hw + 65 /\ ls_map_slot l = b /\ hw + 65 <= UINT64_MAX.
Proof.
  intros H Har Hb Hhw. cbv zeta. unfold ocj_acquire in H.
  apply bind_inv in H as (rc & s1 & Hbg & H). destruct (Z.eqb_spec rc 0) as [->|]; [|done]. cbn [negb] in H.
  pose proof (respects_run _ _ _ _ _ (root_begin d) Hbg) as (R1 & R2 & R3 & R4).
  apply journal_inv in H. destruct (_ || _) eqn:Hg in H; [by apply not_issued_none in H|].
  rewrite !orb_false_iff, Z.eqb_neq, Z.leb_gt in Hg. destruct_and! Hg.
  apply bind_inv in H as (rc & s2 & Hadm & H). destruct (Z.eqb_spec rc 0) as [->|]; [|by apply not_issued_none in H].
  cbn [negb] in H.
  pose proof (respects_run _ _ _ _ _ (respects_frame_root _ (frame_admitted _ _)) Hadm) as (S1 & S2 & S3 & S4).
  apply journal_inv in H. destruct (_ || _) eqn:Hg in H; [by apply not_issued_none in H|].
  rewrite orb_false_iff, Z.ltb_ge in Hg. destruct Hg as [_ Hmax].
  apply change_inv in H. cbn [fst snd] in H. apply bind_inv in H as (rc & s3 & Hpub & H).
  destruct (Z.eqb_spec rc 0) as [->|]; [|by apply not_issued_none in H]. cbn [negb] in H.
  pose proof (respects_run _ _ _ _ _ (kept_publish false) Hpub) as [K _].
  apply publish_run in Hpub as [_ Hpub]. destruct (Hpub eq_refl) as (_ & _ & page & _ & _ & Hcur).
  pose proof (f_equal j_working K) as Kw. cbn in Kw, Hcur.
  apply change_inv in H. apply change_inv in H. cbn [fst snd] in H.
  apply issue_run in H as (-> & T1 & T2 & T3 & T4). cbn in T1.
  assert (Hw32 : length (j_working (fst s3)) = 32%nat) by (rewrite Kw, S2, R2; apply Har).
  assert (Hc32 : length (js_blocks (j_current (fst s2))) = 32%nat) by (rewrite S1, R1; apply Har).
  rewrite S1, R1 in Hmax, Hcur, Hc32. unfold UINT64_MAX in *.
  assert (Hbase : u64 (js_high_water (j_current (fst s)) + 1) = js_high_water (j_current (fst s)) + 1)
    by (apply u64_small; lia).
  assert (Htk : jb_base (block_at (set_block (j_working (fst s3)) b (block_at (js_blocks (j_current (fst s3))) b)) b) =
                js_high_water (j_current (fst s)) + 1).
  { rewrite block_at_set by lia. rewrite Hcur. cbn [js_blocks]. by rewrite block_at_set by lia. }
  assert (Hhw' : js_high_water (j_current (fst s')) = js_high_water (j_current (fst s)) + 65).
  { rewrite T1, Hcur. cbn [js_high_water]. rewrite Hbase, u64_small by lia. lia. }
  match goal with |- context [ticket ?j _ _ _] =>
    assert (E : jb_base (block_at (j_working j) b) = js_high_water (j_current (fst s)) + 1) by exact Htk end.
  unfold ticket. rewrite E.
  cbn [ls_lease_id ls_range_base ls_map_slot Z.eqb Pos.eqb OWNED_CONTROL_ERASE_BLOCK OWNED_CONTROL_PROGRAM_PAGE].
  rewrite Z.add_0_r, u64_small by lia. rewrite <- R3. split_and!; done || lia.
Qed.
End Safety.

(** The publications of a log: each wrote the encoding of a legal successor at its
    own row, and the next access to the medium read the same bytes back. *)
Definition own_row (v : owned_volume_decoded) (b : ocj_snapshot) : Z :=
  row_of (znth (js_bank b) (vs_control_blocks (vd_spec v))) (js_slot b).
Definition reads_back (page : bytes) (rc : Z) (rx : bytes) : Prop :=
  (rc = OCJ_IO_OK \/ rc = OCJ_IO_CHECKED_RAW) /\ equal page rx = true /\ (zlen rx = zlen page -> rx = page).
Inductive published (v : owned_volume_decoded) (h : owned_page_hash)
  : ocj_snapshot -> list ocj_event -> ocj_snapshot -> Prop :=
  | published_none a u : published v h a u a
  | published_next a u1 b page rc rx u2 c : follows v h a b page -> reads_back page rc rx -> published v h b u2 c ->
      published v h a (u1 ++ EvProgram (own_row v b) page OCJ_IO_OK :: EvRead (own_row v b) rc rx :: u2) c.

Lemma recorded_published {W} (io : ocj_io W) v h s s' : recorded (ocj_logged io) v h s s' ->
  exists u, fst (snd s') = fst (snd s) ++ u /\ published v h (fst s) u (fst s').
Proof.
  induction 1 as [a w w' Hw|a b page w w' s' Hf Hst _ (u2 & E & Hp)]; cbn [fst snd] in *.
  - destruct (logged_called _ _ _ Hw) as [u Hu]. exists u. split; [done|constructor].
  - destruct Hst as (d1 & d2 & w1 & w2 & w3 & w4 & rc & rx & H1 & Hpr & H2 & Hrd & Hrc & Heq & H3).
    apply logged_called in H1 as [u1 E1]. apply logged_ticked in H2. apply logged_called in H3 as [u3 E3].
    destruct w1 as [t1 w1], w3 as [t3 w3]. cbn in Hpr, Hrd.
    destruct (io_program io _ _ _ w1) as [prc w2']. injection Hpr as -> <-.
    destruct (io_read io _ _ w3) as [[rc' rx'] w4']. injection Hrd as -> -> <-. cbn [fst] in *. subst t3 t1.
    exists (u1 ++ EvProgram (own_row v b) page OCJ_IO_OK :: EvRead (own_row v b) rc rx :: u3 ++ u2). split.
    + rewrite E, E3, <- !app_assoc. done.
    + apply published_next; [done| |].
      * split_and!; [done|done|]. intros Hl. symmetry. by apply equal_spec.
      * destruct Hp as [c u|c u1' b' page' rc' rx' u2' c' Hf' Hrb Hp]; [constructor|].
        rewrite app_assoc. by apply published_next.
Qed.

(** C12. The journal's root only moves forward.  Over any sequence of calls on a
    booted journal, whatever the callbacks return, the current snapshot changes
    only by legal transitions, and the log of the run holds for each, in this
    order, the programming of its encoded page at its own row and, as the very next
    access to the medium, a read of that row that returned the same bytes; so the
    epoch and the lease high-water mark never decrease, no retired block returns,
    READ_ONLY is final, and a latched fault is never cleared. *)
Theorem journal_root_moves_forward {W} (io : ocj_io W) os (s : owned_control_journal * (list ocj_event * W))
    (Hboot : j_booted (fst s) <> 0) (Hepoch : 0 <= js_epoch (j_current (fst s)) < 2 ^ 64) :
  let s' := run_ops (ocj_logged io) os s in let j := fst s in let j' := fst s' in
  (exists u, fst (snd s') = fst (snd s) ++ u /\ published (j_volume j) (j_hash j) (j_current j) u (j_current j')) /\
  js_epoch (j_current j) <= js_epoch (j_current j') /\
  js_high_water (j_current j) <= js_high_water (j_current j') /\
  keeps (js_retired (j_current j)) (js_retired (j_current j')) = true /\
  (js_state (j_current j) = OWNED_CONTROL_READ_ONLY -> js_state (j_current j') = OWNED_CONTROL_READ_ONLY) /\
  (j_fault j <> 0 -> j_fault j' <> 0).
Proof.
  cbv zeta. destruct (evolves_run_ops (ocj_logged io) os s) as [[_ Hf] _ Hev]. destruct (Hev Hboot) as [_ Hr].
  destruct (recorded_grows _ _ _ _ _ Hr Hepoch) as [[] _]. destruct (recorded_published _ _ _ _ _ Hr) as (u & Hu & Hp).
  split_and!; try done. by exists u.
Qed.

(** C13. Lease ids are never reused.  When two erase leases are granted at any two
    points of the journal's life on the same boot, the second one's whole 65-id
    range (the erase and its 64 page programs) lies above the first one's,
    whatever calls and I/O failures happened in between. *)
Theorem journal_erase_leases_disjoint {W} (io : ocj_io W) b1 row1 ok1 d1 b2 row2 ok2 d2 os s l1 l2 s1 s2
    (Harr : arrays (fst s)) (Hepoch : 0 <= js_epoch (j_current (fst s)) < 2 ^ 64)
    (Hhw : 0 <= js_high_water (j_current (fst s))) (Hb1 : 0 <= b1) (Hb2 : 0 <= b2)
    (A1 : ocj_acquire io OWNED_CONTROL_ERASE_BLOCK b1 row1 ok1 d1 s = ((0, Some l1), s1))
    (A2 : ocj_acquire io OWNED_CONTROL_ERASE_BLOCK b2 row2 ok2 d2 (run_ops io os s1) = ((0, Some l2), s2)) :
  ls_lease_id l1 + 64 < ls_lease_id l2 /\ ls_range_base l1 = ls_lease_id l1 /\ ls_range_base l2 = ls_lease_id l2.
Proof.
  set (o := Acquire OWNED_CONTROL_ERASE_BLOCK b1 row1 ok1).
  assert (Hs1 : snd (run_op io o d1 s) = s1) by (unfold o; cbn [run_op]; unfold bind; by rewrite A1).
  assert (Hev : evolves io s s1) by (rewrite <- Hs1; apply moves_run_op).
  assert (Har1 : arrays (fst s1)) by (rewrite <- Hs1; by apply arrays_run_op).
  destruct (acquire_erase_run io _ _ _ _ _ _ _ A1 Harr Hb1 Hhw) as (Hbt & Hl1 & Hr1 & Hhw1 & _ & _).
  destruct Hev as [_ _ Hev]. destruct (Hev Hbt) as [Hbt1 Hr]. destruct (recorded_grows io _ _ _ _ Hr Hepoch) as [_ He1].
  destruct (evolves_run_ops io os s1) as [_ _ Hev2]. destruct (Hev2 Hbt1) as [_ Hrr].
  destruct (recorded_grows io _ _ _ _ Hrr He1) as [[_ Hgrow _ _] _]. cbn [fst] in Hgrow.
  destruct (acquire_erase_run io _ _ _ _ _ _ _ A2 (arrays_run_ops io os s1 Har1) Hb2 ltac:(lia)) as (_ & Hl2 & Hr2 & _).
  lia.
Qed.

(** * A concrete device: an association list of programmed rows over erased NAND *)
Definition device : Type := list (Z * bytes).
Definition device_read (row : Z) (w : device) : bytes :=
  match List.find (fun '(r, _) => r =? row) w with Some (_, p) => p | None => fill 4096 0xff end.
Definition device_io : ocj_io device :=
  {| io_now_ms := fun w => (1, w);
     io_admit := fun _ _ _ _ _ w => (0, w);
     io_read := fun row _ w => (OCJ_IO_OK, device_read row w, w);
     io_raw := fun _ _ w => (OCJ_IO_OK, fill 4352 0xff, w);
     io_erase := fun block _ w => (OCJ_IO_OK, List.filter (fun '(r, _) => negb (r / 64 =? block)) w);
     io_program := fun row page _ w => (OCJ_IO_OK, (row, page) :: w);
     io_fault_latched := fun w => (0, w);
     io_latch_fault := fun _ _ w => (0, w) |}.
Definition blank : owned_control_journal * device := (empty_journal sample_volume sample_hash, []).
Definition provisioned : owned_control_journal * device := run_ops device_io [(Provision, 1000)] blank.
Definition sample_erase (b row : Z) (s : owned_control_journal * device)
  : Z * option owned_dhara_lease * (owned_control_journal * device) :=
  ocj_acquire device_io OWNED_CONTROL_ERASE_BLOCK b row true 1000 s.
Definition lease_of (r : Z * option owned_dhara_lease * (owned_control_journal * device)) : owned_dhara_lease :=
  default empty_lease (snd (fst r)).
Definition lease1 : owned_dhara_lease := lease_of (sample_erase 0 6400 provisioned).
Definition calls1 : list (op * Z) := [(Resolve (Some lease1), 1000); (HistorySync, 1000)].
Definition after1 : owned_control_journal * device := snd (sample_erase 0 6400 provisioned).
Definition lease2 : owned_dhara_lease := lease_of (sample_erase 1 6848 (run_ops device_io calls1 after1)).

Lemma provisioned_arrays : arrays (fst provisioned).
Proof.
  apply (arrays_run_ops device_io [(Provision, 1000)] blank). unfold arrays, full. by split_and!.
Qed.

Definition history1 : list (op * Z) := (Acquire OWNED_CONTROL_ERASE_BLOCK 0 6400 true, 1000) :: calls1.

(** The same history over the logged device, from a log that is empty. *)
Definition logged_start : owned_control_journal * (list ocj_event * device) :=
  (fst provisioned, ([], snd provisioned)).
Definition logged_end : owned_control_journal * (list ocj_event * device) :=
  run_ops (ocj_logged device_io) history1 logged_start.
(** The rows that were programmed. *)
Definition programmed (t : list ocj_event) : list Z :=
  omap (fun e => match e with EvProgram row _ _ => Some row | _ => None end) t.

Lemma journal_root_moves_forward_witness :
  programmed (fst (snd logged_end)) = [own_row sample_volume (place (fst provisioned) empty_snapshot);
    own_row sample_volume (place (fst provisioned) empty_snapshot) + 1;
    own_row sample_volume (place (fst provisioned) empty_snapshot) + 2] /\
  exists u, fst (snd logged_end) = [] ++ u /\
    published (j_volume (fst logged_start)) (j_hash (fst logged_start)) (j_current (fst logged_start)) u
      (j_current (fst logged_end)).
Proof.
  split; [by vm_compute|].
  destruct (journal_root_moves_forward device_io history1 logged_start) as (H & _).
  - vm_compute. discriminate.
  - vm_compute. split; [discriminate|reflexivity].
  - exact H.
Defined.

Lemma pair_eq {A B} (r : A * B) a : fst r = a -> r = (a, snd r).
Proof. by intros <-; destruct r. Qed.

Lemma lease1_granted :
  ocj_acquire device_io OWNED_CONTROL_ERASE_BLOCK 0 6400 true 1000 provisioned = ((0, Some lease1), after1).
Proof. unfold after1, sample_erase. apply pair_eq. vm_compute. reflexivity. Qed.

Lemma lease2_granted :
  ocj_acquire device_io OWNED_CONTROL_ERASE_BLOCK 1 6848 true 1000 (run_ops device_io calls1 after1) =
    ((0, Some lease2), snd (sample_erase 1 6848 (run_ops device_io calls1 after1))).
Proof. unfold sample_erase. apply pair_eq. vm_compute. reflexivity. Qed.

Lemma journal_erase_leases_disjoint_witness :
  ls_lease_id lease1 + 64 < ls_lease_id lease2 /\ ls_range_base lease1 = ls_lease_id lease1 /\
  ls_range_base lease2 = ls_lease_id lease2.
Proof.
  apply (journal_erase_leases_disjoint device_io 0 6400 true 1000 1 6848 true 1000 calls1 provisioned lease1 lease2
    after1 (snd (sample_erase 1 6848 (run_ops device_io calls1 after1)))).
  - exact provisioned_arrays.
  - vm_compute. split; [discriminate|reflexivity].
  - vm_compute. discriminate.
  - lia.
  - lia.
  - exact lease1_granted.
  - exact lease2_granted.
Defined.
