(* ===== verification/FrameQueue.v ===== *)
(** The recording frame queue ([recording_frame_queue.c/.h]): eight PCM frames
    between one producer and one consumer, handed over with C11 atomics.

    A call is a [prog]: a finite tree of actions, each of which is one atomic
    access (or one access to data that only the holder of a guard touches)
    followed by what the call does next.  Calls of any number of threads
    interleave at every action, [step]; [run_alone] runs one call to its end. *)
From S2P Require Import Prelude.

Definition RFQ_FRAME_SAMPLES : Z := 320.
Definition RFQ_CAPACITY : Z := 8.

Definition RFQ_FRESH : Z := 0.
Definition RFQ_INITIALIZING : Z := 1.
Definition RFQ_RUNNING : Z := 2.
Definition RFQ_FENCED : Z := 3.
Definition RFQ_CLOSED : Z := 4.

Definition RFQ_NONE : Z := 0.
Definition RFQ_USER : Z := 1.
Definition RFQ_FULL : Z := 2.
Definition RFQ_CONTINUITY : Z := 3.
Definition RFQ_SAMPLE_OVERFLOW : Z := 4.
Definition RFQ_REENTRY : Z := 5.
Definition RFQ_INVARIANT : Z := 6.

Definition RFQ_OK : Z := 0.
Definition RFQ_EMPTY : Z := 1.
Definition RFQ_DRAINED : Z := 2.
Definition RFQ_ARGUMENT : Z := -1.
Definition RFQ_STATE : Z := -2.
Definition RFQ_BUSY : Z := -3.
Definition RFQ_STOPPED : Z := -4.
Definition RFQ_NEEDS_FENCE : Z := -5.
Definition RFQ_NOT_EMPTY : Z := -6.
Definition RFQ_UNSUPPORTED : Z := -7.

Record rfq_frame := Frame { fr_first_sample : Z; fr_pcm : list Z }.
#[export] Instance eta_rfq_frame : Eta rfq_frame := fun r => Frame (fr_first_sample r) (fr_pcm r).
#[export] Instance rfq_frame_eq : EqDecision rfq_frame.
Proof. solve_decision. Defined.

Record rfq_summary := Summary {
  s_state : Z; s_reason : Z; s_queued : Z;
  s_first_sample : Z; s_next_sample : Z; s_accepted : Z; s_consumed : Z; s_discarded : Z
}.

Record rfq_queue := Queue {
  q_state : Z; q_reason : Z; q_head : Z; q_tail : Z; q_producer_busy : Z; q_consumer_busy : Z;
  q_first_sample : Z; q_next_sample : Z; q_accepted : Z; q_consumed : Z; q_discarded : Z;
  q_slots : list rfq_frame
}.
#[export] Instance eta_rfq_queue : Eta rfq_queue := fun r =>
  Queue (q_state r) (q_reason r) (q_head r) (q_tail r) (q_producer_busy r) (q_consumer_busy r)
    (q_first_sample r) (q_next_sample r) (q_accepted r) (q_consumed r) (q_discarded r) (q_slots r).

Definition sizeof_rfq_queue : Z := 5248.
Definition sizeof_rfq_frame : Z := 648.
Definition sizeof_rfq_summary : Z := 56.

(** A slot after [wipe]. *)
Definition wiped : rfq_frame := Frame 0 (fill RFQ_FRAME_SAMPLES 0).
Definition no_frames : list rfq_frame := fill RFQ_CAPACITY wiped.
Definition RFQ_INITIALIZER : rfq_queue := Queue RFQ_FRESH RFQ_NONE 0 0 0 0 0 0 0 0 0 no_frames.

(** What a reader of the queue's history sees: a frame copied in, published by
    the head store, copied out, released by the tail store, the queue closed
    with frames undelivered, its fields reset, and a session started. *)
Inductive event :=
| EvWrite (f : rfq_frame)
| EvAccept
| EvTake (f : rfq_frame)
| EvDeliver
| EvClose
| EvReset
| EvStart (first : Z).

Inductive rfq_out := OutFrame (f : rfq_frame) | OutSummary (s : rfq_summary).

(** A call in progress.  [Act f k]: update the queue with [f], reporting events,
    and continue as [k] tells from the value the action found. *)
Inductive prog :=
| Done (rc : Z) (out : option rfq_out)
| Act (f : rfq_queue -> rfq_queue * list event) (k : rfq_queue -> prog).

Definition fails (rc : Z) : prog := Done rc None.
(** [atomic_load_explicit(&q->fld)]; also a read of guarded plain data. *)
Definition load {A} (fld : rfq_queue -> A) (k : A -> prog) : prog :=
  Act (fun q => (q, [])) (fun q => k (fld q)).
(** An atomic store, or a write of guarded plain data. *)
Definition store (f : rfq_queue -> rfq_queue) (evs : list event) (p : prog) : prog :=
  Act (fun q => (f q, evs)) (fun _ => p).
(** One exclusive read-modify-write of guarded plain data. *)
Definition modify {A} (fld : rfq_queue -> A) (f : A -> rfq_queue -> rfq_queue) (evs : A -> list event)
    (k : A -> prog) : prog :=
  Act (fun q => (f (fld q) q, evs (fld q))) (fun q => k (fld q)).
(** [take]: compare-exchange of a guard from 0 to 1. *)
Definition take_producer (yes no : prog) : prog :=
  Act (fun q => (if q_producer_busy q =? 0 then q <| q_producer_busy := 1 |> else q, []))
    (fun q => if q_producer_busy q =? 0 then yes else no).
Definition take_consumer (yes no : prog) : prog :=
  Act (fun q => (if q_consumer_busy q =? 0 then q <| q_consumer_busy := 1 |> else q, []))
    (fun q => if q_consumer_busy q =? 0 then yes else no).
Definition release_producer (p : prog) : prog := store (fun q => q <| q_producer_busy := 0 |>) [] p.
Definition release_consumer (p : prog) : prog := store (fun q => q <| q_consumer_busy := 0 |>) [] p.
(** [stop]: compare-exchange of the reason from [RFQ_NONE]. *)
Definition stop (reason : Z) (p : prog) : prog :=
  store (fun q => if q_reason q =? RFQ_NONE then q <| q_reason := reason |> else q) [] p.

(** ** Argument checks on addresses *)
Definition span (p : option Z) (n alignment : Z) : bool :=
  match p with
  | None => false
  | Some at_ => (at_ mod alignment =? 0) && (at_ <=? UINTPTR_MAX - n)
  end.
Definition queue_valid (q : option Z) : bool := span q sizeof_rfq_queue 8.
Definition apart (q p : option Z) (n align : Z) : bool :=
  if queue_valid q && span p n align then
    match q, p with
    | Some a, Some b => (a + sizeof_rfq_queue <=? b) || (b + n <=? a)
    | _, _ => false
    end
  else false.
Definition admitted (state : Z) : bool :=
  (state =? RFQ_RUNNING) || (state =? RFQ_FENCED) || (state =? RFQ_CLOSED).

(** ** The operations.  [qa] is the address of the queue. *)
Section Operations.
Context (qa : option Z).

(** [lock_free] is what [atomic_is_lock_free] answers for the six atomics. *)
Definition rfq_init (lock_free : bool) (first : Z) : prog :=
  if negb (queue_valid qa) then fails RFQ_ARGUMENT else
  if negb lock_free then fails RFQ_UNSUPPORTED else
  Act (fun q => (if q_state q =? RFQ_FRESH then q <| q_state := RFQ_INITIALIZING |> else q, [])) (fun q =>
    if negb (q_state q =? RFQ_FRESH) then fails RFQ_STATE else
    store (fun q => q <| q_reason := RFQ_NONE |> <| q_head := 0 |> <| q_tail := 0 |>
                      <| q_producer_busy := 0 |> <| q_consumer_busy := 0 |>
                      <| q_first_sample := first |> <| q_next_sample := first |> <| q_accepted := 0 |>
                      <| q_consumed := 0 |> <| q_discarded := 0 |> <| q_slots := no_frames |>) [] (
    store (fun q => q <| q_state := RFQ_RUNNING |>) [EvStart first] (fails RFQ_OK))).

(** [q->slots[t & (RFQ_CAPACITY - 1U)]] *)
Definition slot_index (t : Z) : nat := Z.to_nat (Z.land t (RFQ_CAPACITY - 1)).

(** From the check of the tickets to the publication of the frame. *)
Definition push_frame (first : Z) (pcm : list Z) (done : Z -> prog) : prog :=
  load q_head (fun head =>
  load q_tail (fun tail =>
    let used := u32 (head - tail) in
    if RFQ_CAPACITY <=? used
    then stop (if used =? RFQ_CAPACITY then RFQ_FULL else RFQ_INVARIANT) (done RFQ_STOPPED) else
    store (fun q => q <| q_slots ::= <[slot_index head := Frame first pcm]> |>
                      <| q_next_sample := u64 (first + RFQ_FRAME_SAMPLES) |>
                      <| q_accepted := u64 (q_accepted q + 1) |>) [EvWrite (Frame first pcm)] (
    store (fun q => q <| q_head := u32 (head + 1) |>) [EvAccept] (done RFQ_OK)))).

Definition rfq_push (first : Z) (pcm_at : option Z) (pcm : list Z) : prog :=
  if negb (apart qa pcm_at (RFQ_FRAME_SAMPLES * 2) 2) then fails RFQ_ARGUMENT else
  load q_state (fun state =>
  if negb (state =? RFQ_RUNNING) then fails RFQ_STATE else
  take_producer (
    let done rc := release_producer (fails rc) in
    load q_state (fun state =>
    if negb (state =? RFQ_RUNNING) then done RFQ_STOPPED else
    load q_reason (fun reason =>
    if negb (reason =? RFQ_NONE) then done RFQ_STOPPED else
    load q_next_sample (fun next =>
    if negb (first =? next) then stop RFQ_CONTINUITY (done RFQ_STOPPED) else
    if UINT64_MAX - RFQ_FRAME_SAMPLES <? first then stop RFQ_SAMPLE_OVERFLOW (done RFQ_STOPPED) else
    push_frame first pcm done))))
  (stop RFQ_REENTRY (fails RFQ_BUSY))).

(** The reset of a closed, empty and wiped queue, both guards held. *)
Definition rearm_reset (first : Z) (done : Z -> prog) : prog :=
  store (fun q => q <| q_first_sample := first |> <| q_next_sample := first |> <| q_accepted := 0 |>
                    <| q_consumed := 0 |> <| q_discarded := 0 |>) [EvReset] (
  store (fun q => q <| q_reason := RFQ_NONE |>) [] (
  store (fun q => q <| q_head := 0 |>) [] (
  store (fun q => q <| q_tail := 0 |>) [] (
  store (fun q => q <| q_state := RFQ_RUNNING |>) [EvStart first] (done RFQ_OK))))).

Definition rfq_rearm_closed (first : Z) : prog :=
  if negb (queue_valid qa) then fails RFQ_ARGUMENT else
  load q_state (fun state =>
  if negb (state =? RFQ_CLOSED) then fails RFQ_STATE else
  take_producer (
    take_consumer (
      let done rc := release_consumer (release_producer (fails rc)) in
      load q_state (fun state =>
      if negb (state =? RFQ_CLOSED) then done RFQ_STATE else
      load q_head (fun head =>
      load q_tail (fun tail =>
      if negb (head =? tail) then done RFQ_STATE else
      load q_slots (fun slots =>
      if negb (bool_decide (Forall (fun s => s = wiped) slots)) then done RFQ_STATE else
      rearm_reset first done)))))
    (release_producer (fails RFQ_BUSY)))
  (fails RFQ_BUSY)).

(** From the check of the tickets to the return of the slot. *)
Definition pop_frame (state : Z) (done : Z -> option rfq_out -> prog) : prog :=
  load q_tail (fun tail =>
  load q_head (fun head =>
    let used := u32 (head - tail) in
    if RFQ_CAPACITY <? used then stop RFQ_INVARIANT (done RFQ_STOPPED None) else
    if used =? 0 then done (if state =? RFQ_FENCED then RFQ_DRAINED else RFQ_EMPTY) None else
    modify (fun q => nth (slot_index tail) (q_slots q) wiped)
      (fun _ q => q <| q_slots ::= <[slot_index tail := wiped]> |> <| q_consumed := u64 (q_consumed q + 1) |>)
      (fun f => [EvTake f]) (fun f =>
    store (fun q => q <| q_tail := u32 (tail + 1) |>) [EvDeliver] (done RFQ_OK (Some (OutFrame f)))))).

Definition rfq_pop (out_at : option Z) : prog :=
  if negb (apart qa out_at sizeof_rfq_frame 8) then fails RFQ_ARGUMENT else
  load q_state (fun state =>
  if negb (state =? RFQ_RUNNING) && negb (state =? RFQ_FENCED) then fails RFQ_STATE else
  take_consumer (
    let done rc out := release_consumer (Done rc out) in
    load q_state (fun state =>
    if negb (state =? RFQ_RUNNING) && negb (state =? RFQ_FENCED) then done RFQ_STATE None else
    if state =? RFQ_RUNNING
    then load q_reason (fun reason =>
           if negb (reason =? RFQ_NONE) then done RFQ_NEEDS_FENCE None else pop_frame state done)
    else pop_frame state done))
  (stop RFQ_REENTRY (fails RFQ_BUSY))).

Definition rfq_request_stop : prog :=
  if negb (queue_valid qa) then fails RFQ_ARGUMENT else
  load q_state (fun state =>
  if negb (state =? RFQ_RUNNING) && negb (state =? RFQ_FENCED) then fails RFQ_STATE else
  stop RFQ_USER (fails RFQ_OK)).

Definition rfq_stop_reason : prog :=
  if negb (queue_valid qa) then fails RFQ_ARGUMENT else
  load q_state (fun state =>
  if negb (admitted state) then fails RFQ_STATE else
  load q_reason (fun reason => fails reason)).

Definition rfq_confirm_producer_stopped : prog :=
  if negb (queue_valid qa) then fails RFQ_ARGUMENT else
  load q_state (fun state =>
  if state =? RFQ_FENCED then fails RFQ_OK else
  load q_state (fun state =>
  if negb (state =? RFQ_RUNNING) then fails RFQ_STATE else
  load q_reason (fun reason =>
  if reason =? RFQ_NONE then fails RFQ_STATE else
  take_producer (
    load q_state (fun state =>
    if state =? RFQ_RUNNING
    then store (fun q => q <| q_state := RFQ_FENCED |>) [] (release_producer (fails RFQ_OK))
    else release_producer (fails RFQ_STATE)))
  (fails RFQ_BUSY)))).

Definition close_queue (discard : bool) : prog :=
  if negb (queue_valid qa) then fails RFQ_ARGUMENT else
  load q_state (fun state =>
  if negb (state =? RFQ_FENCED) then fails RFQ_NEEDS_FENCE else
  take_consumer (
    let done rc := release_consumer (fails rc) in
    load q_state (fun state =>
    if negb (state =? RFQ_FENCED) then done RFQ_STATE else
    load q_head (fun head =>
    load q_tail (fun tail =>
    let used := u32 (head - tail) in
    if RFQ_CAPACITY <? used then stop RFQ_INVARIANT (done RFQ_STOPPED) else
    if negb (used =? 0) && negb discard then done RFQ_NOT_EMPTY else
    store (fun q => q <| q_slots := no_frames |> <| q_discarded := u64 (q_discarded q + used) |>) [EvClose] (
    store (fun q => q <| q_tail := head |>) [] (
    store (fun q => q <| q_state := RFQ_CLOSED |>) [] (done RFQ_OK)))))))
  (stop RFQ_REENTRY (fails RFQ_BUSY))).
Definition rfq_finish : prog := close_queue false.
Definition rfq_discard : prog := close_queue true.

Definition rfq_get_summary (out_at : option Z) : prog :=
  if negb (apart qa out_at sizeof_rfq_summary 8) then fails RFQ_ARGUMENT else
  load q_state (fun state =>
  if negb (state =? RFQ_FENCED) && negb (state =? RFQ_CLOSED) then fails RFQ_NEEDS_FENCE else
  take_consumer (
    load q_state (fun state =>
    load q_reason (fun reason =>
    load q_head (fun head =>
    load q_tail (fun tail =>
    load (fun q => (q_first_sample q, q_next_sample q, q_accepted q, q_consumed q, q_discarded q))
      (fun '(first, next, acc, con, dis) =>
    release_consumer (Done RFQ_OK (Some (OutSummary
      (Summary state reason (u32 (head - tail)) first next acc con dis)))))))))) 
  (fails RFQ_BUSY)).
End Operations.

(** ** Running calls *)
Inductive call :=
| CallPush (first : Z) (pcm_at : option Z) (pcm : list Z)
| CallPop (out_at : option Z)
| CallRequestStop
| CallStopReason
| CallConfirm
| CallFinish
| CallDiscard
| CallSummary (out_at : option Z)
| CallRearm (first : Z).

(** The argument types: a sample counter is a [uint64_t]. *)
Definition call_ok (c : call) : Prop :=
  match c with
  | CallPush first _ _ | CallRearm first => 0 <= first <= UINT64_MAX
  | _ => True
  end.

Definition start_call (qa : option Z) (c : call) : prog :=
  match c with
  | CallPush first pcm_at pcm => rfq_push qa first pcm_at pcm
  | CallPop out_at => rfq_pop qa out_at
  | CallRequestStop => rfq_request_stop qa
  | CallStopReason => rfq_stop_reason qa
  | CallConfirm => rfq_confirm_producer_stopped qa
  | CallFinish => rfq_finish qa
  | CallDiscard => rfq_discard qa
  | CallSummary out_at => rfq_get_summary qa out_at
  | CallRearm first => rfq_rearm_closed qa first
  end.

(** One call with nothing else running. *)
Fixpoint run_alone (p : prog) (q : rfq_queue) : Z * option rfq_out * rfq_queue * list event :=
  match p with
  | Done rc out => (rc, out, q, [])
  | Act f k =>
      let '(q', evs) := f q in
      let '(rc, out, q'', evs') := run_alone (k q) q' in (rc, out, q'', evs ++ evs')
  end.

(** The queue, the calls in progress and finished, and the history so far. *)
Record config := Config { c_queue : rfq_queue; c_calls : list prog; c_trace : list event }.

Inductive step (qa : option Z) : config -> config -> Prop :=
| step_call c q ps tr :
    call_ok c -> step qa (Config q ps tr) (Config q (ps ++ [start_call qa c]) tr)
| step_act i f k q ps tr :
    ps !! i = Some (Act f k) ->
    step qa (Config q ps tr) (Config (fst (f q)) (<[i := k q]> ps) (tr ++ snd (f q))).

(** The queue once [rfq_init] has returned. *)
Definition started (first : Z) : rfq_queue :=
  Queue RFQ_RUNNING RFQ_NONE 0 0 0 0 first first 0 0 0 no_frames.
