(* ===== verification/FrameQueueSafety.v ===== *)
(** Safety of the frame queue under every interleaving of its calls.

    A rely-guarantee argument: [inv] relates the queue to the history of the
    current session at every point of every interleaving, each call in progress
    carries an assertion about the data its guards protect, and [rely_producer]
    and [rely_consumer] are what a call may do to data whose guard it does not
    hold.  [ok] says that a call keeps the invariant and its promises. *)
From S2P Require Import Prelude FrameQueue.

(** * The history of a session *)
Record session := Session {
  g_first : Z;                  (** first sample of the session *)
  g_in : list rfq_frame;        (** frames published by pushes *)
  g_out : list rfq_frame;       (** frames released by pops *)
  g_writing : option rfq_frame; (** copied in, not yet published *)
  g_taking : option rfq_frame;  (** copied out, not yet released *)
  g_closing : bool;             (** closed: the rest is discarded *)
  g_resetting : bool            (** a rearm is rewriting the fields *)
}.
#[export] Instance eta_session : Eta session := fun g =>
  Session (g_first g) (g_in g) (g_out g) (g_writing g) (g_taking g) (g_closing g) (g_resetting g).

Definition fresh_session (first : Z) : session := Session first [] [] None None false false.
Definition record_event (g : session) (e : event) : session :=
  match e with
  | EvWrite f => g <| g_writing := Some f |>
  | EvAccept => g <| g_in ::= (fun l => l ++ option_list (g_writing g)) |> <| g_writing := None |>
  | EvTake f => g <| g_taking := Some f |>
  | EvDeliver => g <| g_out ::= (fun l => l ++ option_list (g_taking g)) |> <| g_taking := None |>
  | EvClose => g <| g_closing := true |>
  | EvReset => g <| g_resetting := true |>
  | EvStart first => fresh_session first
  end.
Definition session_of (tr : list event) : session := foldl record_event (fresh_session 0) tr.

Definition accepted_count (g : session) : Z := zlen (g_in g).
Definition delivered_count (g : session) : Z := zlen (g_out g).
Definition present {A} (o : option A) : bool := match o with Some _ => true | None => false end.
Definition one {A} (o : option A) : Z := match o with Some _ => 1 | None => 0 end.

(** Slot of the frame with absolute number [k]. *)
Definition slot_of (k : Z) : nat := Z.to_nat (k mod 8).
Definition nth_frame (k : Z) (l : list rfq_frame) : option rfq_frame := l !! Z.to_nat k.

(** What slot [k] of the window [T, T + 8) holds. *)
Definition slot_content (g : session) (k : Z) : rfq_frame :=
  if k <? accepted_count g then
    if (k =? delivered_count g) && present (g_taking g) then wiped
    else default wiped (nth_frame k (g_in g))
  else if k =? accepted_count g then default wiped (g_writing g) else wiped.

Record open_inv (q : rfq_queue) (g : session) : Prop := {
  oi_tail : q_tail q = u32 (delivered_count g);
  oi_discarded : q_discarded q = 0;
  oi_state : q_state q <> RFQ_CLOSED;
  oi_slots : forall k, delivered_count g <= k < delivered_count g + 8 ->
    q_slots q !! slot_of k = Some (slot_content g k)
}.
Record closing_inv (q : rfq_queue) (g : session) : Prop := {
  ci_slots : q_slots q = no_frames;
  ci_taking : g_taking g = None;
  ci_discarded : q_discarded q = accepted_count g - delivered_count g;
  ci_tail : q_state q = RFQ_CLOSED -> q_tail q = q_head q;
  ci_state : q_state q <> RFQ_RUNNING
}.
Record session_inv (q : rfq_queue) (g : session) : Prop := {
  si_first : q_first_sample q = g_first g /\ 0 <= g_first g;
  si_len : length (q_slots q) = 8%nat;
  si_prefix : g_out g `prefix_of` g_in g;
  si_window : accepted_count g <= delivered_count g + 8;
  si_head : q_head q = u32 (accepted_count g);
  si_open : g_closing g = false -> open_inv q g;
  si_closing : g_closing g = true -> closing_inv q g;
  si_writing : forall f, g_writing g = Some f ->
    q_state q = RFQ_RUNNING /\ accepted_count g < delivered_count g + 8 /\
    fr_first_sample f = g_first g + 320 * accepted_count g;
  si_taking : forall f, g_taking g = Some f ->
    delivered_count g < accepted_count g /\ nth_frame (delivered_count g) (g_in g) = Some f;
  si_accepted : q_accepted q = accepted_count g + one (g_writing g);
  si_consumed : q_consumed q = delivered_count g + one (g_taking g);
  si_next : q_next_sample q = g_first g + 320 * q_accepted q /\ q_next_sample q <= UINT64_MAX;
  si_contiguous : forall k f, 0 <= k -> nth_frame k (g_in g) = Some f -> fr_first_sample f = g_first g + 320 * k
}.
Record inv (q : rfq_queue) (g : session) : Prop := {
  iv_state : q_state q = RFQ_RUNNING \/ q_state q = RFQ_FENCED \/ q_state q = RFQ_CLOSED;
  iv_reason : q_reason q <> RFQ_INVARIANT;
  iv_producer : q_producer_busy q = 0 \/ q_producer_busy q = 1;
  iv_consumer : q_consumer_busy q = 0 \/ q_consumer_busy q = 1;
  iv_writing : q_producer_busy q = 0 -> g_writing g = None;
  iv_taking : q_consumer_busy q = 0 -> g_taking g = None;
  iv_closing : q_consumer_busy q = 0 -> g_closing g = true -> q_state q = RFQ_CLOSED;
  iv_reset_guards : g_resetting g = true -> q_producer_busy q = 1 /\ q_consumer_busy q = 1;
  iv_resetting : g_resetting g = true -> q_state q = RFQ_CLOSED /\ q_slots q = no_frames;
  iv_session : g_resetting g = false -> session_inv q g
}.

(** * Rely and guarantee *)
(** What the holder of the producer guard may count on. *)
Record rely_producer (q : rfq_queue) (g : session) (q' : rfq_queue) (g' : session) : Prop := {
  rp_guard : q_producer_busy q' = q_producer_busy q;
  rp_resetting : g_resetting g' = g_resetting g;
  rp_first : g_first g' = g_first g;
  rp_running : q_state q = RFQ_RUNNING -> q_state q' = RFQ_RUNNING;
  rp_writing : g_writing g' = g_writing g;
  rp_in : g_in g' = g_in g;
  rp_head : q_head q' = q_head q;
  rp_next : q_next_sample q' = q_next_sample q;
  rp_first_sample : q_first_sample q' = q_first_sample q;
  rp_accepted : q_accepted q' = q_accepted q;
  rp_out : delivered_count g <= delivered_count g'
}.
(** What the holder of the consumer guard may count on. *)
Record rely_consumer (q : rfq_queue) (g : session) (q' : rfq_queue) (g' : session) : Prop := {
  rc_guard : q_consumer_busy q' = q_consumer_busy q;
  rc_resetting : g_resetting g' = g_resetting g;
  rc_fenced : q_state q = RFQ_FENCED -> q_state q' = RFQ_FENCED /\ g_in g' = g_in g /\ q_head q' = q_head q;
  rc_closed : q_state q = RFQ_CLOSED -> q_state q' = RFQ_CLOSED;
  rc_open : q_state q <> RFQ_CLOSED -> q_state q' <> RFQ_CLOSED;
  rc_taking : g_taking g' = g_taking g;
  rc_closing : g_closing g' = g_closing g;
  rc_out : g_out g' = g_out g;
  rc_tail : q_tail q' = q_tail q;
  rc_consumed : q_consumed q' = q_consumed q;
  rc_discarded : q_discarded q' = q_discarded q;
  rc_in : accepted_count g <= accepted_count g'
}.
(** What every step keeps: the first stop reason wins until a rearm, nothing is
    published outside RUNNING, and within a session histories only grow. *)
Record promise (q : rfq_queue) (g : session) (q' : rfq_queue) (g' : session) : Prop := {
  pr_reason : g_resetting g = false -> q_reason q <> RFQ_NONE -> q_reason q' = q_reason q;
  pr_fenced : q_state q <> RFQ_RUNNING -> g_resetting g = false -> g_in g' = g_in g;
  pr_in : g_resetting g = false -> g_in g `prefix_of` g_in g';
  pr_out : g_resetting g = false -> g_out g `prefix_of` g_out g'
}.

Definition assertion : Type := rfq_queue -> session -> Prop.
Definition anything : assertion := fun _ _ => True.
Definition rely (hp hc : bool) (q : rfq_queue) (g : session) (q' : rfq_queue) (g' : session) : Prop :=
  (hp = true -> rely_producer q g q' g') /\ (hc = true -> rely_consumer q g q' g').
Definition stable (hp hc : bool) (P : assertion) : Prop :=
  forall q g q' g', inv q g -> inv q' g' -> rely hp hc q g q' g' -> P q g -> P q' g'.

(** How a guard [v] may change with the caller holding it before ([b]) and after ([b']). *)
Definition token (b b' : bool) (v v' : Z) : Prop :=
  match b, b' with
  | false, false => v' = v
  | false, true => v = 0 /\ v' = 1
  | true, true => v' = 1
  | true, false => v' = 0
  end.

(** [p], holding the producer guard if [hp] and the consumer guard if [hc] in a
    state where [P] holds, keeps the invariant and its promises to the end. *)
Inductive ok : bool -> bool -> assertion -> prog -> Prop :=
| ok_done P rc out : ok false false P (Done rc out)
| ok_act hp hc (P : assertion) f k :
    (forall q g, inv q g -> P q g ->
       (hp = true -> q_producer_busy q = 1) -> (hc = true -> q_consumer_busy q = 1) ->
       exists hp' hc' P',
         inv (fst (f q)) (foldl record_event g (snd (f q))) /\
         token hp hp' (q_producer_busy q) (q_producer_busy (fst (f q))) /\
         token hc hc' (q_consumer_busy q) (q_consumer_busy (fst (f q))) /\
         (hp = false -> q_producer_busy q = 1 -> rely_producer q g (fst (f q)) (foldl record_event g (snd (f q)))) /\
         (hc = false -> q_consumer_busy q = 1 -> rely_consumer q g (fst (f q)) (foldl record_event g (snd (f q)))) /\
         promise q g (fst (f q)) (foldl record_event g (snd (f q))) /\
         stable hp' hc' P' /\ P' (fst (f q)) (foldl record_event g (snd (f q))) /\
         ok hp' hc' P' (k q)) ->
    ok hp hc P (Act f k).

(** * The pool of calls *)
Definition claims : Type := nat -> bool * bool * assertion.
Definition claim_p (a : claims) (i : nat) : bool := fst (fst (a i)).
Definition claim_c (a : claims) (i : nat) : bool := snd (fst (a i)).
Definition claim_P (a : claims) (i : nat) : assertion := snd (a i).

Record pool_inv (c : config) (a : claims) : Prop := {
  po_inv : inv (c_queue c) (session_of (c_trace c));
  po_p : forall i, claim_p a i = true -> q_producer_busy (c_queue c) = 1;
  po_c : forall i, claim_c a i = true -> q_consumer_busy (c_queue c) = 1;
  po_p_one : forall i j, claim_p a i = true -> claim_p a j = true -> i = j;
  po_c_one : forall i j, claim_c a i = true -> claim_c a j = true -> i = j;
  po_ok : forall i p, c_calls c !! i = Some p ->
    ok (claim_p a i) (claim_c a i) (claim_P a i) p /\
    stable (claim_p a i) (claim_c a i) (claim_P a i) /\
    claim_P a i (c_queue c) (session_of (c_trace c));
  po_none : forall i, c_calls c !! i = None -> claim_p a i = false /\ claim_c a i = false
}.

Definition set_claim (a : claims) (i : nat) (x : bool * bool * assertion) : claims :=
  fun j => if decide (j = i) then x else a j.

Lemma session_of_app tr evs : session_of (tr ++ evs) = foldl record_event (session_of tr) evs.
Proof. apply foldl_app. Qed.

Lemma stable_anything hp hc : stable hp hc anything.
Proof. by intros q g q' g' _ _ _ _. Qed.

Lemma ok_act_inv hp hc P f k q g :
  ok hp hc P (Act f k) -> inv q g -> P q g ->
  (hp = true -> q_producer_busy q = 1) -> (hc = true -> q_consumer_busy q = 1) ->
  exists hp' hc' P',
    inv (fst (f q)) (foldl record_event g (snd (f q))) /\
    token hp hp' (q_producer_busy q) (q_producer_busy (fst (f q))) /\
    token hc hc' (q_consumer_busy q) (q_consumer_busy (fst (f q))) /\
    (hp = false -> q_producer_busy q = 1 -> rely_producer q g (fst (f q)) (foldl record_event g (snd (f q)))) /\
    (hc = false -> q_consumer_busy q = 1 -> rely_consumer q g (fst (f q)) (foldl record_event g (snd (f q)))) /\
    promise q g (fst (f q)) (foldl record_event g (snd (f q))) /\
    stable hp' hc' P' /\ P' (fst (f q)) (foldl record_event g (snd (f q))) /\
    ok hp' hc' P' (k q).
Proof. intros H. inversion H; subst. auto. Qed.

(** A guard claimed by another call is not touched by this one. *)
Lemma token_other b b' v v' : token b b' v v' -> b = false -> v = 1 -> v' = 1.
Proof. intros H -> ->. destruct b'; simpl in H; lia. Qed.

Lemma token_mine b b' v v' : token b b' v v' -> b' = true -> v' = 1.
Proof. intros H ->. destruct b; simpl in H; lia. Qed.

(** The call that now claims a guard is the only one that does. *)
Lemma claims_one (h : nat -> bool) (i : nat) b' v v' :
  (forall j, h j = true -> v = 1) -> (forall j k, h j = true -> h k = true -> j = k) ->
  token (h i) b' v v' ->
  forall j k, (if decide (j = i) then b' else h j) = true -> (if decide (k = i) then b' else h k) = true -> j = k.
Proof.
  intros Hv H1 Ht j k. destruct (decide (j = i)) as [->|]; destruct (decide (k = i)) as [->|]; intros Hj Hk.
  - done.
  - exfalso. destruct (h i) eqn:E; [by specialize (H1 i k E Hk)|]. rewrite Hj in Ht.
    specialize (Hv k Hk). simpl in Ht. lia.
  - exfalso. destruct (h i) eqn:E; [by specialize (H1 i j E Hj)|]. rewrite Hk in Ht.
    specialize (Hv j Hj). simpl in Ht. lia.
  - by apply H1.
Qed.

Lemma claims_value (h : nat -> bool) (i : nat) b' v v' :
  (forall j, h j = true -> v = 1) -> (forall j k, h j = true -> h k = true -> j = k) ->
  token (h i) b' v v' ->
  forall j, (if decide (j = i) then b' else h j) = true -> v' = 1.
Proof.
  intros Hv H1 Ht j. destruct (decide (j = i)) as [->|Hji]; [by apply token_mine with (h i) v|].
  intros Hj. apply (token_other _ _ _ _ Ht); [|by apply (Hv j)].
  destruct (h i) eqn:E; [|done]. destruct Hji. by apply H1.
Qed.

Lemma pool_act q i f k ps tr a :
  ps !! i = Some (Act f k) -> pool_inv (Config q ps tr) a ->
  promise q (session_of tr) (fst (f q)) (session_of (tr ++ snd (f q))) /\
  exists a', pool_inv (Config (fst (f q)) (<[i := k q]> ps) (tr ++ snd (f q))) a'.
Proof.
  intros Hi [Hinv Hp Hc Hp1 Hc1 Hok Hnone]. cbn [c_queue c_calls c_trace] in *.
  destruct (Hok i _ Hi) as (Hoki & _ & HP).
  destruct (ok_act_inv _ _ _ _ _ q (session_of tr) Hoki Hinv HP (Hp i) (Hc i))
    as (hp' & hc' & P' & Hinv' & Htp & Htc & Hrp & Hrc & Hpr & Hst' & HP' & Hok').
  rewrite session_of_app. split; [done|].
  exists (set_claim a i (hp', hc', P')).
  assert (Hcp : forall j, claim_p (set_claim a i (hp', hc', P')) j = if decide (j = i) then hp' else claim_p a j)
    by (intros j; unfold claim_p, set_claim; by destruct (decide (j = i))).
  assert (Hcc : forall j, claim_c (set_claim a i (hp', hc', P')) j = if decide (j = i) then hc' else claim_c a j)
    by (intros j; unfold claim_c, set_claim; by destruct (decide (j = i))).
  assert (HcP : forall j, claim_P (set_claim a i (hp', hc', P')) j = if decide (j = i) then P' else claim_P a j)
    by (intros j; unfold claim_P, set_claim; by destruct (decide (j = i))).
  split; cbn [c_queue c_calls c_trace]; rewrite ?session_of_app.
  - done.
  - intros j. rewrite Hcp. eapply claims_value; eauto.
  - intros j. rewrite Hcc. eapply claims_value; eauto.
  - intros j1 j2. rewrite !Hcp. eapply claims_one; eauto.
  - intros j1 j2. rewrite !Hcc. eapply claims_one; eauto.
  - intros j p. rewrite Hcp, Hcc, HcP. destruct (decide (j = i)) as [->|Hji].
    + rewrite list_lookup_insert_eq by (by eapply lookup_lt_Some). intros [= <-]. done.
    + rewrite list_lookup_insert_ne by done. intros Hj. destruct (Hok j p Hj) as (Hokj & Hstj & HPj).
      split_and!; [done|done|]. eapply Hstj; [exact Hinv|exact Hinv'| |exact HPj]. split; intros Hcl.
      * apply Hrp; [|by apply (Hp j)]. destruct (claim_p a i) eqn:E; [|done]. destruct Hji. by apply Hp1.
      * apply Hrc; [|by apply (Hc j)]. destruct (claim_c a i) eqn:E; [|done]. destruct Hji. by apply Hc1.
  - intros j. rewrite Hcp, Hcc. destruct (decide (j = i)) as [->|Hji].
    + rewrite list_lookup_insert_eq by (by eapply lookup_lt_Some). done.
    + rewrite list_lookup_insert_ne by done. apply Hnone.
Qed.

Lemma pool_call q ps tr a p :
  ok false false anything p -> pool_inv (Config q ps tr) a -> exists a', pool_inv (Config q (ps ++ [p]) tr) a'.
Proof.
  intros Hp [Hinv Hp' Hc Hp1 Hc1 Hok Hnone]. cbn [c_queue c_calls c_trace] in *.
  assert (Hend : ps !! length ps = None) by (apply lookup_ge_None; lia).
  destruct (Hnone _ Hend) as [E1 E2].
  exists (set_claim a (length ps) (false, false, anything)).
  assert (Hcp : forall j, claim_p (set_claim a (length ps) (false, false, anything)) j = claim_p a j)
    by (intros j; unfold claim_p, set_claim in *; destruct (decide (j = length ps)) as [->|]; [by rewrite E1|done]).
  assert (Hcc : forall j, claim_c (set_claim a (length ps) (false, false, anything)) j = claim_c a j)
    by (intros j; unfold claim_c, set_claim in *; destruct (decide (j = length ps)) as [->|]; [by rewrite E2|done]).
  split; cbn [c_queue c_calls c_trace].
  - done.
  - intros j. rewrite Hcp. apply Hp'.
  - intros j. rewrite Hcc. apply Hc.
  - intros i j. rewrite !Hcp. apply Hp1.
  - intros i j. rewrite !Hcc. apply Hc1.
  - intros j p'. rewrite Hcp, Hcc. unfold claim_P, set_claim. destruct (decide (j = length ps)) as [->|Hj].
    + rewrite lookup_app_r, Nat.sub_diag by lia. intros [= <-]. simpl. rewrite E1, E2.
      split_and!; [done|apply stable_anything|done].
    + intros Hl. apply Hok. destruct (decide (j < length ps)%nat); [by rewrite lookup_app_l in Hl by lia|].
      apply lookup_lt_Some in Hl. rewrite length_app in Hl. simpl in Hl. lia.
  - intros j Hj. rewrite Hcp, Hcc. apply Hnone. apply lookup_ge_None in Hj. rewrite length_app in Hj.
    apply lookup_ge_None. simpl in Hj. lia.
Qed.

(** * Rules for the actions *)
Lemma rely_producer_refl q g : rely_producer q g q g.
Proof. split; done || lia. Qed.
Lemma rely_consumer_refl q g : rely_consumer q g q g.
Proof. split; done || lia. Qed.
Lemma promise_refl q g : promise q g q g.
Proof. by split. Qed.

Lemma ok_weaken hp hc (P Q : assertion) p :
  ok hp hc P p -> (forall q g, inv q g -> Q q g -> P q g) -> ok hp hc Q p.
Proof. intros H HQ. destruct H as [|hp hc P f k H]; constructor. intros q g Hi Hq. by apply H; [|apply HQ]. Qed.

Lemma ok_anything p P : ok false false anything p -> ok false false P p.
Proof. intros H. by apply (ok_weaken _ _ _ _ _ H). Qed.

(** Closes what an action leaves unchanged. *)
Ltac same_step :=
  try done; try (intros; apply rely_producer_refl); try (intros; apply rely_consumer_refl);
  try apply promise_refl;
  try match goal with |- token ?b ?b _ _ => destruct b; simpl; by auto end.

Lemma ok_load {A} hp hc (P : assertion) (fld : rfq_queue -> A) k :
  (forall q g, inv q g -> P q g -> exists P', stable hp hc P' /\ P' q g /\ ok hp hc P' (k (fld q))) ->
  ok hp hc P (load fld k).
Proof.
  intros H. constructor. intros q g Hi HP Hp Hc. destruct (H q g Hi HP) as (P' & ? & ? & ?).
  exists hp, hc, P'. cbn [fst snd foldl]. split_and!; same_step.
Qed.

Lemma ok_load_free {A} (fld : rfq_queue -> A) k :
  (forall v, ok false false anything (k v)) -> ok false false anything (load fld k).
Proof. intros H. apply ok_load. intros q g _ _. exists anything. split_and!; [apply stable_anything|done|apply H]. Qed.

(** A step by the holder of guards [hp] and [hc] that keeps them. *)
Record good (hp hc : bool) (q : rfq_queue) (g : session) (q' : rfq_queue) (g' : session) : Prop := {
  gd_inv : inv q' g';
  gd_pb : q_producer_busy q' = q_producer_busy q;
  gd_cb : q_consumer_busy q' = q_consumer_busy q;
  gd_rp : hp = false -> q_producer_busy q = 1 -> rely_producer q g q' g';
  gd_rc : hc = false -> q_consumer_busy q = 1 -> rely_consumer q g q' g';
  gd_promise : promise q g q' g'
}.

Lemma ok_good hp hc (P : assertion) f k :
  (forall q g, inv q g -> P q g ->
     (hp = true -> q_producer_busy q = 1) -> (hc = true -> q_consumer_busy q = 1) ->
     good hp hc q g (fst (f q)) (foldl record_event g (snd (f q))) /\
     exists P', stable hp hc P' /\ P' (fst (f q)) (foldl record_event g (snd (f q))) /\ ok hp hc P' (k q)) ->
  ok hp hc P (Act f k).
Proof.
  intros H. constructor. intros q g Hi HP Hp Hc.
  destruct (H q g Hi HP Hp Hc) as ([? E1 E2 ? ? ?] & P' & ? & ? & ?).
  exists hp, hc, P'. split_and!; rewrite ?E1, ?E2; same_step.
Qed.

Lemma ok_store hp hc (P P' : assertion) f evs p :
  (forall q g, inv q g -> P q g ->
     (hp = true -> q_producer_busy q = 1) -> (hc = true -> q_consumer_busy q = 1) ->
     good hp hc q g (f q) (foldl record_event g evs) /\ P' (f q) (foldl record_event g evs)) ->
  stable hp hc P' -> ok hp hc P' p -> ok hp hc P (store f evs p).
Proof.
  intros H Hst Hok. apply ok_good. intros q g Hi HP Hp Hc. destruct (H q g Hi HP Hp Hc) as [? ?].
  split; [done|]. by exists P'.
Qed.

(** The session invariant does not look at the reason or the guards. *)
Lemma session_inv_eq q q' g :
  q_state q' = q_state q -> q_head q' = q_head q -> q_tail q' = q_tail q ->
  q_first_sample q' = q_first_sample q -> q_next_sample q' = q_next_sample q ->
  q_accepted q' = q_accepted q -> q_consumed q' = q_consumed q -> q_discarded q' = q_discarded q ->
  q_slots q' = q_slots q -> session_inv q g -> session_inv q' g.
Proof.
  intros E1 E2 E3 E4 E5 E6 E7 E8 E9 [].
  split; rewrite ?E1, ?E2, ?E3, ?E4, ?E5, ?E6, ?E7, ?E8, ?E9; try done.
  - intros Ho. destruct (si_open0 Ho). split; rewrite ?E1, ?E2, ?E3, ?E8, ?E9; done.
  - intros Ho. destruct (si_closing0 Ho). split; rewrite ?E1, ?E2, ?E3, ?E8, ?E9; done.
Qed.

Ltac inv_same :=
  match goal with
  | H : inv ?q ?g |- inv _ ?g =>
      destruct H; split; cbn; try done; try (intros; congruence);
      try (intros; eapply session_inv_eq; [..|by eauto]; done); auto
  end.

Lemma stop_good hp hc q g r :
  r <> RFQ_INVARIANT -> inv q g ->
  good hp hc q g (if q_reason q =? RFQ_NONE then q <| q_reason := r |> else q) g.
Proof.
  intros Hr Hi. destruct (Z.eqb_spec (q_reason q) RFQ_NONE) as [E|E].
  - split; try done; [inv_same|..]; intros; split; cbn; intros; done || lia.
  - split; [done..|intros; apply rely_producer_refl|intros; apply rely_consumer_refl|apply promise_refl].
Qed.

Lemma ok_stop hp hc (P : assertion) r p :
  r <> RFQ_INVARIANT -> (forall q g, P q g -> P (q <| q_reason := r |>) g) ->
  stable hp hc P -> ok hp hc P p -> ok hp hc P (stop r p).
Proof.
  intros Hr HP Hst Hok. eapply ok_store; [|exact Hst|exact Hok]. intros q g Hi Hq _ _.
  split; [by apply stop_good|]. cbn [foldl]. case_match; auto.
Qed.

(** ** Guards *)
Definition idle_producer (g : session) : Prop := g_writing g = None /\ g_resetting g = false.
Definition idle_consumer (q : rfq_queue) (g : session) : Prop :=
  g_taking g = None /\ (g_closing g = true -> q_state q = RFQ_CLOSED) /\ g_resetting g = false.

Lemma inv_idle_producer q g : inv q g -> q_producer_busy q = 0 -> idle_producer g.
Proof.
  intros Hi Hp. split; [by apply Hi|]. destruct (g_resetting g) eqn:E; [|done].
  destruct (iv_reset_guards _ _ Hi E). lia.
Qed.

Lemma inv_idle_consumer q g : inv q g -> q_consumer_busy q = 0 -> idle_consumer q g.
Proof.
  intros Hi Hp. split_and!; [by apply Hi|by apply Hi|]. destruct (g_resetting g) eqn:E; [|done].
  destruct (iv_reset_guards _ _ Hi E). lia.
Qed.

Lemma ok_take_producer hc (P P' : assertion) yes no :
  (forall q g, inv q g -> P q g -> idle_producer g -> P' (q <| q_producer_busy := 1 |>) g) ->
  stable true hc P' -> stable false hc P -> ok true hc P' yes -> ok false hc P no ->
  ok false hc P (take_producer yes no).
Proof.
  intros HP Hst Hst' Hyes Hno. constructor. intros q g Hi Hq _ Hc. cbn [fst snd foldl].
  destruct (Z.eqb_spec (q_producer_busy q) 0) as [E|E].
  - destruct (inv_idle_producer q g Hi E) as [Hw Hr]. exists true, hc, P'. split_and!; same_step; [inv_same|by apply HP].
  - exists false, hc, P. split_and!; same_step.
Qed.

Lemma ok_take_consumer hp (P P' : assertion) yes no :
  (forall q g, inv q g -> P q g -> idle_consumer q g -> P' (q <| q_consumer_busy := 1 |>) g) ->
  stable hp true P' -> stable hp false P -> ok hp true P' yes -> ok hp false P no ->
  ok hp false P (take_consumer yes no).
Proof.
  intros HP Hst Hst' Hyes Hno. constructor. intros q g Hi Hq Hp _. cbn [fst snd foldl].
  destruct (Z.eqb_spec (q_consumer_busy q) 0) as [E|E].
  - pose proof (inv_idle_consumer q g Hi E) as Hidle. exists hp, true, P'. split_and!; same_step; [|by apply HP].
    destruct Hidle as (? & ? & ?). inv_same.
  - exists hp, false, P. split_and!; same_step.
Qed.

Lemma ok_release_producer hc (P P' : assertion) p :
  (forall q g, inv q g -> P q g -> idle_producer g /\ P' (q <| q_producer_busy := 0 |>) g) ->
  stable false hc P' -> ok false hc P' p -> ok true hc P (release_producer p).
Proof.
  intros HP Hst Hok. constructor. intros q g Hi Hq Hp Hc. cbn [fst snd foldl].
  destruct (HP q g Hi Hq) as [[Hw Hr] ?]. exists false, hc, P'. split_and!; same_step. inv_same.
Qed.

Lemma ok_release_consumer hp (P P' : assertion) p :
  (forall q g, inv q g -> P q g -> idle_consumer q g /\ P' (q <| q_consumer_busy := 0 |>) g) ->
  stable hp false P' -> ok hp false P' p -> ok hp true P (release_consumer p).
Proof.
  intros HP Hst Hok. constructor. intros q g Hi Hq Hp Hc. cbn [fst snd foldl].
  destruct (HP q g Hi Hq) as [(Hw & Hcl & Hr) ?]. exists hp, false, P'. split_and!; same_step. inv_same.
Qed.

(** Holding one guard with nothing half done. *)
Definition holds_producer : assertion := fun _ g => idle_producer g.
Definition holds_consumer : assertion := fun q g => idle_consumer q g.

Lemma stable_holds_producer hc : stable true hc holds_producer.
Proof. intros q g q' g' _ _ [Hr _] [? ?]. destruct (Hr eq_refl). split; congruence. Qed.

Lemma stable_holds_consumer hp : stable hp true holds_consumer.
Proof.
  intros q g q' g' _ _ [_ Hr] (? & Hcl & ?). destruct (Hr eq_refl) as [? ? ? Hcl' ? ? Hc].
  split_and!; [congruence| |congruence]. rewrite Hc. auto.
Qed.

Lemma ok_finish_producer rc : ok true false holds_producer (release_producer (fails rc)).
Proof. apply (ok_release_producer _ _ anything); [by intros|apply stable_anything|constructor]. Qed.

Lemma ok_finish_consumer rc out : ok false true holds_consumer (release_consumer (Done rc out)).
Proof. apply (ok_release_consumer _ _ anything); [by intros|apply stable_anything|constructor]. Qed.

(** * Ticket arithmetic *)
Lemma slot_index_u32 k : 0 <= k -> slot_index (u32 k) = slot_of k.
Proof.
  intros Hk. unfold slot_index, slot_of, RFQ_CAPACITY. f_equal.
  change (8 - 1) with (Z.ones 3). rewrite Z.land_ones by lia. unfold u32. change (2 ^ 3) with 8. divlia.
Qed.

Lemma slot_of_inj j k : 0 <= j -> 0 <= k -> slot_of j = slot_of k -> Z.abs (j - k) < 8 -> j = k.
Proof. unfold slot_of. intros. assert (j mod 8 = k mod 8) by divlia. divlia. Qed.

Lemma slot_of_lt k : (slot_of k < 8)%nat.
Proof. unfold slot_of. divlia. Qed.

Lemma u32_succ k : u32 (u32 k + 1) = u32 (k + 1).
Proof. unfold u32. by rewrite Zplus_mod_idemp_l. Qed.

Lemma u32_sub a b : u32 (u32 a - u32 b) = u32 (a - b).
Proof. unfold u32. by rewrite Zminus_mod_idemp_l, Zminus_mod_idemp_r. Qed.

Lemma used_exact a b : 0 <= a - b <= 8 -> u32 (u32 a - u32 b) = a - b.
Proof. intros. rewrite u32_sub. apply u32_small. lia. Qed.

Lemma counts_nonneg g : 0 <= delivered_count g /\ 0 <= accepted_count g.
Proof. split; apply zlen_nonneg. Qed.

Lemma prefix_zlen {A} (l k : list A) : l `prefix_of` k -> zlen l <= zlen k.
Proof. intros [m ->]. rewrite zlen_app. pose proof (zlen_nonneg m). lia. Qed.

Lemma counts_le q g : session_inv q g -> delivered_count g <= accepted_count g.
Proof. intros H. apply prefix_zlen, H. Qed.

Lemma nth_frame_app_l k l m : 0 <= k < zlen l -> nth_frame k (l ++ m) = nth_frame k l.
Proof. intros. unfold nth_frame, zlen in *. apply lookup_app_l. lia. Qed.

Lemma nth_frame_last l f : nth_frame (zlen l) (l ++ [f]) = Some f.
Proof. unfold nth_frame, zlen. rewrite Nat2Z.id. by apply list_lookup_middle. Qed.

Lemma prefix_snoc {A} (l k : list A) x :
  l `prefix_of` k -> k !! length l = Some x -> (l ++ [x]) `prefix_of` k.
Proof.
  intros [m ->] Hx. rewrite lookup_app_r, Nat.sub_diag in Hx by lia. destruct m as [|y m]; [done|].
  injection Hx as ->. exists m. by rewrite <- app_assoc.
Qed.

Lemma no_frames_lookup i : (i < 8)%nat -> no_frames !! i = Some wiped.
Proof. intros. unfold no_frames. with_strategy transparent [fill] (unfold fill). by apply lookup_replicate_2. Qed.

Lemma no_frames_length : length no_frames = 8%nat.
Proof. unfold no_frames. with_strategy transparent [fill] (unfold fill). apply length_replicate. Qed.

(** * The steps that change the session *)
(** Contradictory or equal states. *)
Ltac states := intros; unfold RFQ_RUNNING, RFQ_FENCED, RFQ_CLOSED, RFQ_NONE, RFQ_INVARIANT in *;
  first [done | lia | congruence].

Lemma open_when_running q g : session_inv q g -> q_state q = RFQ_RUNNING -> g_closing g = false.
Proof.
  intros Hs Hst. destruct (g_closing g) eqn:E; [|done]. by destruct (ci_state _ _ (si_closing _ _ Hs E)).
Qed.

Lemma write_slots q g f :
  session_inv q g -> open_inv q g -> g_writing g = None -> accepted_count g < delivered_count g + 8 ->
  forall k, delivered_count g <= k < delivered_count g + 8 ->
  <[slot_index (q_head q) := f]> (q_slots q) !! slot_of k = Some (slot_content (g <| g_writing := Some f |>) k).
Proof.
  intros Hs Ho Hw Hl k Hk. destruct (counts_nonneg g) as [? ?]. pose proof (counts_le _ _ Hs).
  rewrite (si_head _ _ Hs), slot_index_u32 by lia. pose proof (oi_slots _ _ Ho k Hk) as Hslot.
  unfold slot_content in *. cbn in *. fold (accepted_count g) (delivered_count g) in *.
  change (accepted_count _) with (accepted_count g). change (delivered_count _) with (delivered_count g).
  destruct (decide (k = accepted_count g)) as [->|Hne].
  - rewrite Z.ltb_irrefl, Z.eqb_refl. rewrite list_lookup_insert_eq; [done|].
    rewrite (si_len _ _ Hs). apply slot_of_lt.
  - rewrite list_lookup_insert_ne; [|intros E; apply slot_of_inj in E; lia].
    rewrite Hslot. rewrite Hw. by rewrite (proj2 (Z.eqb_neq k (accepted_count g))).
Qed.

Lemma write_good q g first pcm :
  inv q g -> idle_producer g -> q_state q = RFQ_RUNNING -> q_producer_busy q = 1 ->
  accepted_count g < delivered_count g + 8 -> first = q_next_sample q -> first <= UINT64_MAX - 320 ->
  good true false q g
    (q <| q_slots ::= <[slot_index (q_head q) := Frame first pcm]> |>
       <| q_next_sample := u64 (first + RFQ_FRAME_SAMPLES) |> <| q_accepted := u64 (q_accepted q + 1) |>)
    (g <| g_writing := Some (Frame first pcm) |>).
Proof.
  intros Hi [Hw Hr] Hst Hp Hl -> Hmax. pose proof (iv_session _ _ Hi Hr) as Hs.
  pose proof (open_when_running _ _ Hs Hst) as Hcl. pose proof (si_open _ _ Hs Hcl) as Ho.
  destruct (counts_nonneg g) as [? ?]. destruct (si_next _ _ Hs) as [Hn Hnm].
  destruct (si_first _ _ Hs) as [Hf Hf0]. pose proof (si_accepted _ _ Hs) as Ha. rewrite Hw in Ha. simpl in Ha.
  unfold UINT64_MAX, RFQ_FRAME_SAMPLES in *.
  assert (Hu : u64 (q_accepted q + 1) = q_accepted q + 1) by (apply u64_small; lia).
  assert (Hu' : u64 (q_next_sample q + 320) = q_next_sample q + 320) by (apply u64_small; lia).
  split; cbn; try done.
  destruct Hi as [? ? ? ? Hiw ? ? ? ? ?]. split; cbn; try done; try (intros; first [lia|congruence]).
  intros _. destruct Hs. split; cbn; try done; rewrite ?length_insert; auto; try congruence.
  - intros _. split; cbn; try done; try (by destruct Ho). intros k Hk. by apply write_slots.
  - intros f [= <-]. cbn. split_and!; [done|exact Hl|].
    change (q_next_sample q = g_first g + 320 * accepted_count g). lia.
  - change (accepted_count _) with (accepted_count g). lia.
  - rewrite Hu, Hu'. unfold UINT64_MAX. lia.
Qed.

Lemma accept_good q g f :
  inv q g -> g_resetting g = false -> g_writing g = Some f -> q_producer_busy q = 1 ->
  good true false q g (q <| q_head := u32 (q_head q + 1) |>) (record_event g EvAccept).
Proof.
  intros Hi Hr Hw Hp. pose proof (iv_session _ _ Hi Hr) as Hs.
  destruct (si_writing _ _ Hs f Hw) as (Hst & Hl & Hff).
  pose proof (open_when_running _ _ Hs Hst) as Hcl. pose proof (si_open _ _ Hs Hcl) as Ho.
  destruct (counts_nonneg g) as [? ?]. pose proof (counts_le _ _ Hs).
  cbn [record_event]. rewrite Hw. cbn [option_list].
  set (g' := g <| g_in ::= _ |> <| g_writing := None |>).
  assert (HA : accepted_count g' = accepted_count g + 1) by (unfold accepted_count, g'; cbn; by rewrite zlen_app).
  assert (HD : delivered_count g' = delivered_count g) by done.
  assert (Hlast : nth_frame (accepted_count g) (g_in g ++ [f]) = Some f) by apply nth_frame_last.
  split; cbn; try done.
  2:{ intros _ _. split; try done; [by states|]. lia. }
  2:{ split; cbn; try done; intros; by apply prefix_app_r. }
  destruct Hi as [? ? ? ? Hiw ? ? ? ? ?]. split; try done. intros _. destruct Hs. split; try done.
  - cbn. by apply prefix_app_r.
  - lia.
  - cbn. by rewrite si_head0, HA, u32_succ.
  - intros _. split; try (by destruct Ho). cbn. intros k Hk. rewrite HD in Hk.
    rewrite (oi_slots _ _ Ho k Hk). f_equal. unfold slot_content. rewrite HA, HD, Hw. cbn.
    destruct (Z.ltb_spec k (accepted_count g)).
    + rewrite (proj2 (Z.ltb_lt k _)) by lia. by rewrite nth_frame_app_l by (unfold accepted_count in *; lia).
    + destruct (Z.eqb_spec k (accepted_count g)) as [->|].
      * rewrite (proj2 (Z.ltb_lt _ _)) by lia. rewrite Hlast. cbn.
        destruct (_ && _) eqn:E; [|done]. apply andb_true_iff in E as [E1 E2].
        destruct (g_taking g) as [f'|] eqn:E3; [|done]. destruct (si_taking0 f' eq_refl). lia.
      * rewrite (proj2 (Z.ltb_ge k _)) by lia. by case_match.
  - intros Hc. cbn in Hc. congruence.
  - intros f' Hf'. cbn in Hf'. destruct (si_taking0 f' Hf'). rewrite HA, HD. cbn. split; [lia|].
    by rewrite nth_frame_app_l by (unfold accepted_count in *; lia).
  - rewrite HA. cbn. rewrite si_accepted0, Hw. cbn. lia.
  - intros k f' Hk. cbn. destruct (decide (k < accepted_count g)).
    + rewrite nth_frame_app_l by (unfold accepted_count in *; lia). by apply si_contiguous0.
    + intros Hkf. destruct (decide (k = accepted_count g)) as [->|].
      * rewrite Hlast in Hkf. injection Hkf as <-. done.
      * apply lookup_lt_Some in Hkf. rewrite length_app in Hkf. unfold accepted_count, zlen in *. simpl in Hkf. lia.
Qed.

(** The frame in the tail slot of a queue that is neither empty nor being popped. *)
Lemma tail_slot q g :
  session_inv q g -> g_closing g = false -> g_taking g = None -> delivered_count g < accepted_count g ->
  slot_index (q_tail q) = slot_of (delivered_count g) /\
  exists f, nth_frame (delivered_count g) (g_in g) = Some f /\ q_slots q !! slot_of (delivered_count g) = Some f.
Proof.
  intros Hs Hc Ht Hl. pose proof (si_open _ _ Hs Hc) as Ho. destruct (counts_nonneg g) as [? ?].
  rewrite (oi_tail _ _ Ho), slot_index_u32 by lia. split; [done|].
  destruct (nth_frame (delivered_count g) (g_in g)) as [f|] eqn:E.
  - exists f. split; [done|]. rewrite (oi_slots _ _ Ho) by lia. unfold slot_content.
    rewrite (proj2 (Z.ltb_lt _ _)) by lia. rewrite Ht, andb_false_r.
    by rewrite E.
  - apply lookup_ge_None in E. unfold accepted_count, zlen in *. lia.
Qed.

Lemma take_good q g f :
  inv q g -> idle_consumer q g -> q_state q <> RFQ_CLOSED -> q_consumer_busy q = 1 ->
  delivered_count g < accepted_count g -> f = nth (slot_index (q_tail q)) (q_slots q) wiped ->
  good false true q g
    (q <| q_slots ::= <[slot_index (q_tail q) := wiped]> |> <| q_consumed := u64 (q_consumed q + 1) |>)
    (g <| g_taking := Some f |>).
Proof.
  intros Hi (Ht & Hcl & Hr) Hst Hp Hl Hf. pose proof (iv_session _ _ Hi Hr) as Hs.
  assert (Hc : g_closing g = false) by (destruct (g_closing g); [by destruct Hst; apply Hcl|done]).
  pose proof (si_open _ _ Hs Hc) as Ho. destruct (counts_nonneg g) as [? ?].
  destruct (tail_slot q g Hs Hc Ht Hl) as (Hidx & f' & Hnth & Hslot).
  rewrite Hidx in *. erewrite nth_lookup_Some in Hf by done. subst f'.
  pose proof (si_consumed _ _ Hs) as Hcons. rewrite Ht in Hcons. simpl in Hcons.
  assert (Hu : u64 (q_consumed q + 1) = q_consumed q + 1).
  { apply u64_small. destruct (si_next _ _ Hs), (si_first _ _ Hs). pose proof (si_accepted _ _ Hs).
    assert (0 <= one (g_writing g)) by (destruct (g_writing g); simpl; lia). unfold UINT64_MAX in *. lia. }
  split; cbn; try done.
  destruct Hi as [? ? ? ? ? Hit ? ? ? ?]. split; cbn; try done; try (intros; first [lia|congruence]).
  intros _. destruct Hs. split; cbn; try done; rewrite ?length_insert; auto; try congruence.
  - intros _. split; cbn; try done; try (by destruct Ho). intros k Hk.
    pose proof (oi_slots _ _ Ho k Hk) as Hsk. unfold slot_content in *. cbn in *.
    change (accepted_count _) with (accepted_count g). change (delivered_count _) with (delivered_count g) in *.
    destruct (decide (k = delivered_count g)) as [->|Hne].
    + rewrite (proj2 (Z.ltb_lt _ _)), Z.eqb_refl by lia.
      apply list_lookup_insert_eq. rewrite si_len0. apply slot_of_lt.
    + rewrite list_lookup_insert_ne; [|intros E; apply slot_of_inj in E; lia].
      rewrite Hsk, Ht, (proj2 (Z.eqb_neq k (delivered_count g))) by lia. done.
  - intros f' [= <-]. split; [exact Hl|exact Hnth].
  - rewrite Hu, Hcons. change (delivered_count g + 0 + 1 = delivered_count g + 1). lia.
Qed.

Lemma deliver_good q g f :
  inv q g -> g_resetting g = false -> g_taking g = Some f -> q_consumer_busy q = 1 ->
  good false true q g (q <| q_tail := u32 (q_tail q + 1) |>) (record_event g EvDeliver).
Proof.
  intros Hi Hr Ht Hp. pose proof (iv_session _ _ Hi Hr) as Hs.
  destruct (si_taking _ _ Hs f Ht) as (Hl & Hnth).
  assert (Hc : g_closing g = false)
    by (destruct (g_closing g) eqn:E; [rewrite (ci_taking _ _ (si_closing _ _ Hs E)) in Ht|]; done).
  pose proof (si_open _ _ Hs Hc) as Ho. destruct (counts_nonneg g) as [? ?].
  cbn [record_event]. rewrite Ht. cbn [option_list].
  set (g' := g <| g_out ::= _ |> <| g_taking := None |>).
  assert (HD : delivered_count g' = delivered_count g + 1) by (unfold delivered_count, g'; cbn; by rewrite zlen_app).
  assert (HA : accepted_count g' = accepted_count g) by done.
  assert (Hpre : g_out g' `prefix_of` g_in g').
  { apply prefix_snoc; [apply Hs|]. unfold nth_frame, delivered_count, zlen in Hnth. by rewrite Nat2Z.id in Hnth. }
  split; cbn; try done.
  2:{ intros _ _. split; try done. lia. }
  2:{ split; cbn; try done; intros; by apply prefix_app_r. }
  destruct Hi as [? ? ? ? ? Hit ? ? ? ?]. split; try done. intros _. destruct Hs. split; try done.
  - lia.
  - intros _. split; try (by destruct Ho).
    + cbn. by rewrite (oi_tail _ _ Ho), HD, u32_succ.
    + cbn. intros k Hk. rewrite HD in Hk. destruct (decide (k = delivered_count g + 8)) as [->|].
      * assert (slot_of (delivered_count g + 8) = slot_of (delivered_count g)) as -> by (unfold slot_of; f_equal; divlia).
        rewrite (oi_slots _ _ Ho) by lia. f_equal. unfold slot_content. rewrite HA, HD, Ht.
        rewrite (proj2 (Z.ltb_lt _ _)), Z.eqb_refl by lia. cbn.
        rewrite (proj2 (Z.ltb_ge _ _)) by lia. case_match eqn:E; [|done].
        destruct (g_writing g) as [w|] eqn:Ew; [|done]. destruct (si_writing0 w eq_refl) as (_ & ? & _). lia.
      * rewrite (oi_slots _ _ Ho) by lia. f_equal. unfold slot_content. rewrite HA, HD, Ht. cbn.
        rewrite (proj2 (Z.eqb_neq k (delivered_count g))) by lia.
        by rewrite andb_false_r.
  - intros Hc'. cbn in Hc'. congruence.
  - intros w Hw. destruct (si_writing0 w Hw) as (? & ? & ?). rewrite HA, HD. split_and!; [done|lia|done].
  - rewrite HD. cbn. rewrite si_consumed0, Ht. cbn. lia.
Qed.

Lemma close_good q g :
  inv q g -> idle_consumer q g -> q_state q = RFQ_FENCED -> q_consumer_busy q = 1 ->
  good false true q g
    (q <| q_slots := no_frames |> <| q_discarded := u64 (q_discarded q + u32 (q_head q - q_tail q)) |>)
    (g <| g_closing := true |>).
Proof.
  intros Hi (Ht & Hcl & Hr) Hst Hp. pose proof (iv_session _ _ Hi Hr) as Hs.
  assert (Hc : g_closing g = false) by (destruct (g_closing g); [by specialize (Hcl eq_refl); states|done]).
  pose proof (si_open _ _ Hs Hc) as Ho. destruct (counts_nonneg g) as [? ?]. pose proof (counts_le _ _ Hs).
  pose proof (si_window _ _ Hs).
  split; cbn; try done.
  destruct Hi as [? ? ? ? ? Hit ? ? ? ?]. split; cbn; try done; try (intros; first [lia|congruence]).
  intros _. destruct Hs. split; cbn; try done.
  intros _. split; cbn; try done; try (by states).
  rewrite (oi_discarded _ _ Ho), si_head0, (oi_tail _ _ Ho), used_exact by lia.
  rewrite u64_small by lia. done.
Qed.

Lemma close_tail_good q g :
  inv q g -> g_closing g = true -> q_state q = RFQ_FENCED -> q_consumer_busy q = 1 ->
  good false true q g (q <| q_tail := q_head q |>) g.
Proof.
  intros Hi Hc Hst Hp. split; cbn; try done.
  destruct Hi. split; cbn; try done. intros Hr. destruct (iv_session0 Hr). split; cbn; try done; [by intros; congruence|].
  intros _. destruct (si_closing0 Hc). by split.
Qed.

Lemma close_state_good q g :
  inv q g -> g_closing g = true -> g_resetting g = false -> q_state q = RFQ_FENCED ->
  q_tail q = q_head q -> q_consumer_busy q = 1 ->
  good false true q g (q <| q_state := RFQ_CLOSED |>) g.
Proof.
  intros Hi Hc Hr Hst Ht Hp. split; cbn; try done; try (intros; split; cbn; states).
  destruct Hi. split; cbn; auto; [by intros; congruence|].
  intros _. destruct (iv_session0 Hr). split; cbn; try done; [by intros; congruence|..].
  - intros _. destruct (si_closing0 Hc). by split.
  - intros f Hf. destruct (si_writing0 f Hf). states.
Qed.

Lemma fence_good q g :
  inv q g -> idle_producer g -> q_state q = RFQ_RUNNING -> q_producer_busy q = 1 ->
  good true false q g (q <| q_state := RFQ_FENCED |>) g.
Proof.
  intros Hi [Hw Hr] Hst Hp. pose proof (open_when_running _ _ (iv_session _ _ Hi Hr) Hst) as Hc.
  split; cbn; try done; try (intros; split; states).
  destruct Hi. split; cbn; auto; [by intros; congruence..|].
  intros _. destruct (iv_session0 Hr). split; cbn; try done; [|by intros; congruence..].
  intros _. destruct (si_open0 Hc). by split.
Qed.

Lemma closed_slots q g : session_inv q g -> q_state q = RFQ_CLOSED -> q_slots q = no_frames.
Proof.
  intros Hs Hst. destruct (g_closing g) eqn:E; [by apply (si_closing _ _ Hs E)|].
  by destruct (oi_state _ _ (si_open _ _ Hs E)).
Qed.

Lemma reset_good q g first :
  inv q g -> g_resetting g = false -> q_state q = RFQ_CLOSED ->
  q_producer_busy q = 1 -> q_consumer_busy q = 1 ->
  good true true q g
    (q <| q_first_sample := first |> <| q_next_sample := first |> <| q_accepted := 0 |>
       <| q_consumed := 0 |> <| q_discarded := 0 |>) (g <| g_resetting := true |>).
Proof.
  intros Hi Hr Hst Hp Hc. pose proof (closed_slots _ _ (iv_session _ _ Hi Hr) Hst).
  split; cbn; try done. destruct Hi. split; cbn; try done; intros; lia.
Qed.

Lemma resetting_good q g q' :
  inv q g -> g_resetting g = true -> q_state q' = q_state q -> q_slots q' = q_slots q ->
  q_producer_busy q' = q_producer_busy q -> q_consumer_busy q' = q_consumer_busy q ->
  q_reason q' <> RFQ_INVARIANT -> good true true q g q' g.
Proof.
  intros Hi Hr E1 E2 E3 E4 Hre. split; try done.
  - destruct Hi. split; rewrite ?E1, ?E2, ?E3, ?E4; auto. intros; congruence.
  - split; intros; congruence.
Qed.

(** The fields a rearm has rewritten, one after another. *)
Definition reset_fields (first : Z) (q : rfq_queue) (g : session) : Prop :=
  g_resetting g = true /\ q_first_sample q = first /\ q_next_sample q = first /\ q_accepted q = 0 /\
  q_consumed q = 0 /\ q_discarded q = 0.
Definition reset_head (first : Z) (q : rfq_queue) (g : session) : Prop := reset_fields first q g /\ q_head q = 0.
Definition reset_tail (first : Z) (q : rfq_queue) (g : session) : Prop := reset_head first q g /\ q_tail q = 0.

Lemma stable_reset_fields first : stable true true (reset_fields first).
Proof.
  intros q g q' g' _ _ [Hp Hc] (? & ? & ? & ? & ? & ?). destruct (Hp eq_refl), (Hc eq_refl).
  unfold reset_fields. split_and!; congruence.
Qed.
Lemma stable_reset_head first : stable true true (reset_head first).
Proof.
  intros q g q' g' Hi Hi' Hr [H ?]. split; [by apply (stable_reset_fields first q g)|].
  destruct Hr as [Hp _]. destruct (Hp eq_refl). congruence.
Qed.
Lemma stable_reset_tail first : stable true true (reset_tail first).
Proof.
  intros q g q' g' Hi Hi' Hr [H ?]. split; [by apply (stable_reset_head first q g)|].
  destruct Hr as [_ Hc]. destruct (Hc eq_refl). congruence.
Qed.

Lemma fresh_session_inv q first :
  0 <= first <= UINT64_MAX -> q_state q <> RFQ_CLOSED -> q_first_sample q = first -> q_next_sample q = first ->
  q_accepted q = 0 -> q_consumed q = 0 -> q_discarded q = 0 -> q_head q = 0 -> q_tail q = 0 ->
  q_slots q = no_frames -> session_inv q (fresh_session first).
Proof.
  intros ? Hst E1 E2 E3 E4 E5 E6 E7 E8. split; rewrite ?E1, ?E2, ?E3, ?E4, ?E6, ?E8; try done; try (cbn; lia).
  - intros _. split; rewrite ?E5, ?E7, ?E8; try done. intros k Hk. rewrite no_frames_lookup by apply slot_of_lt.
    f_equal. unfold slot_content. change (accepted_count _) with 0. change (delivered_count _) with 0 in *.
    cbn [fresh_session g_writing default]. rewrite (proj2 (Z.ltb_ge k 0)) by lia. by case_match.
Qed.

Lemma start_good q g first :
  inv q g -> reset_tail first q g -> 0 <= first <= UINT64_MAX ->
  good true true q g (q <| q_state := RFQ_RUNNING |>) (fresh_session first).
Proof.
  intros Hi [[(Hr & ? & ? & ? & ? & ?) ?] ?] Hf. destruct (iv_resetting _ _ Hi Hr) as [Hst Hsl].
  destruct (iv_reset_guards _ _ Hi Hr) as [Hp Hc].
  split; cbn; try done; [|by split; cbn; intros; congruence].
  destruct Hi. split; cbn; try done; auto. intros _. by apply fresh_session_inv.
Qed.

(** * Every call is [ok] *)
Ltac unguarded := apply ok_load_free; intros ?.

Definition pushing : assertion := fun q g => idle_producer g /\ q_state q = RFQ_RUNNING.
Lemma stable_pushing : stable true false pushing.
Proof.
  intros q g q' g' Hi Hi' [Hr Hr'] [H1 H2]. destruct (Hr eq_refl). unfold pushing, idle_producer in *.
  destruct H1. split_and!; auto; congruence.
Qed.

Definition push_ready (first : Z) : assertion := fun q g => pushing q g /\ q_next_sample q = first.
Lemma stable_push_ready first : stable true false (push_ready first).
Proof.
  intros q g q' g' Hi Hi' Hr [H1 H2]. split; [by apply (stable_pushing q g)|].
  destruct Hr as [Hr _]. destruct (Hr eq_refl). congruence.
Qed.
Definition push_head (first head : Z) : assertion := fun q g => push_ready first q g /\ q_head q = head.
Lemma stable_push_head first head : stable true false (push_head first head).
Proof.
  intros q g q' g' Hi Hi' Hr [H1 H2]. split; [by apply (stable_push_ready first q g)|].
  destruct Hr as [Hr _]. destruct (Hr eq_refl). congruence.
Qed.
Definition push_room (first head : Z) : assertion := fun q g =>
  push_head first head q g /\ accepted_count g < delivered_count g + 8.
Lemma stable_push_room first head : stable true false (push_room first head).
Proof.
  intros q g q' g' Hi Hi' Hr [H1 H2]. split; [by apply (stable_push_head first head q g)|].
  destruct Hr as [Hr _]. destruct (Hr eq_refl). unfold accepted_count in *. rewrite rp_in0. lia.
Qed.
Definition push_written (head : Z) (f : rfq_frame) : assertion := fun q g =>
  g_writing g = Some f /\ g_resetting g = false /\ q_head q = head.
Lemma stable_push_written head f : stable true false (push_written head f).
Proof. intros q g q' g' Hi Hi' [Hr _] (? & ? & ?). destruct (Hr eq_refl). unfold push_written. split_and!; congruence. Qed.

Lemma ok_push_done rc P :
  (forall q g, P q g -> idle_producer g) -> ok true false P (release_producer (fails rc)).
Proof. intros H. apply (ok_weaken _ _ holds_producer); [apply ok_finish_producer|]. intros q g _. apply H. Qed.

Lemma ok_push_frame first pcm :
  first <= UINT64_MAX - 320 ->
  ok true false (push_ready first) (push_frame first pcm (fun rc => release_producer (fails rc))).
Proof.
  intros Hmax. unfold push_frame. apply ok_load. intros q g Hi HP. exists (push_head first (q_head q)).
  split_and!; [apply stable_push_head|by split|]. generalize (q_head q) as head. intros head. clear q g Hi HP.
  apply ok_load. intros q g Hi [[[[Hw Hr] Hst] Hn] Hh].
  pose proof (iv_session _ _ Hi Hr) as Hs. pose proof (si_window _ _ Hs). pose proof (counts_le _ _ Hs).
  pose proof (open_when_running _ _ Hs Hst) as Hcl. pose proof (oi_tail _ _ (si_open _ _ Hs Hcl)) as Ht.
  assert (Hu : u32 (head - q_tail q) = accepted_count g - delivered_count g)
    by (rewrite <- Hh, (si_head _ _ Hs), Ht; apply used_exact; lia).
  unfold RFQ_CAPACITY. cbv zeta. destruct (Z.leb_spec 8 (u32 (head - q_tail q))).
  - exists holds_producer. split_and!; [apply stable_holds_producer|done|].
    apply ok_stop; [|done|apply stable_holds_producer|apply ok_finish_producer].
    rewrite (proj2 (Z.eqb_eq _ 8)) by lia. done.
  - exists (push_room first head). split_and!; [apply stable_push_room|repeat split; done || lia|].
    clear q g Hi Hw Hr Hst Hn Hh Hs Hcl Ht Hu H H0 H1.
    eapply (ok_store _ _ _ (push_written head (Frame first pcm))); [|apply stable_push_written|].
    + intros q g Hi [[[[Hidle Hst] Hn] Hh] Hl] Hp _. specialize (Hp eq_refl). rewrite <- Hh. split.
      * by apply write_good.
      * split_and!; [done|apply Hidle|done].
    + eapply (ok_store _ _ _ holds_producer); [|apply stable_holds_producer|apply ok_finish_producer].
      intros q g Hi (Hw & Hr & Hh) Hp _. rewrite <- Hh. split; [by eapply accept_good; eauto|by split].
Qed.

Lemma ok_push qa first at_ pcm : ok false false anything (rfq_push qa first at_ pcm).
Proof.
  unfold rfq_push. case_match; [constructor|]. unguarded. case_match; [constructor|].
  eapply (ok_take_producer _ _ holds_producer);
    [by intros|apply stable_holds_producer|apply stable_anything| |].
  2:{ apply ok_stop; [done|done|apply stable_anything|constructor]. }
  apply ok_load. intros q g Hi HP. destruct (Z.eqb_spec (q_state q) RFQ_RUNNING) as [Est|]; cbn [negb].
  2:{ exists holds_producer. split_and!; [apply stable_holds_producer|done|apply ok_finish_producer]. }
  exists pushing. split_and!; [apply stable_pushing|by split|]. clear q g Hi HP Est.
  apply ok_load. intros q g Hi HP. exists pushing. split_and!; [apply stable_pushing|done|]. case_match; [by apply ok_push_done; intros ? ? []|].
  clear q g Hi HP H1. apply ok_load. intros q g Hi HP.
  destruct (Z.eqb_spec first (q_next_sample q)) as [En|]; cbn [negb].
  2:{ exists holds_producer. split_and!; [apply stable_holds_producer|by destruct HP|].
      apply ok_stop; [done|done|apply stable_holds_producer|apply ok_finish_producer]. }
  destruct (Z.ltb_spec (UINT64_MAX - RFQ_FRAME_SAMPLES) first) as [|Hmax].
  { exists holds_producer. split_and!; [apply stable_holds_producer|by destruct HP|].
    apply ok_stop; [done|done|apply stable_holds_producer|apply ok_finish_producer]. }
  exists (push_ready first). split_and!; [apply stable_push_ready|by split|by apply ok_push_frame].
Qed.

(** A call that found the queue in state [s], RUNNING or FENCED, under the consumer guard. *)
Definition popping (s : Z) : assertion := fun q g =>
  idle_consumer q g /\ q_state q <> RFQ_CLOSED /\ (s = RFQ_FENCED -> q_state q = RFQ_FENCED).
Lemma stable_popping s : stable false true (popping s).
Proof.
  intros q g q' g' Hi Hi' Hr (H1 & H2 & H3). split_and!.
  - by apply (stable_holds_consumer false q g).
  - destruct Hr as [_ Hr]. by apply (rc_open _ _ _ _ (Hr eq_refl)).
  - intros E. destruct Hr as [_ Hr]. by apply (rc_fenced _ _ _ _ (Hr eq_refl)), H3.
Qed.
Definition pop_tail (s tail : Z) : assertion := fun q g => popping s q g /\ q_tail q = tail.
Lemma stable_pop_tail s tail : stable false true (pop_tail s tail).
Proof.
  intros q g q' g' Hi Hi' Hr [H1 H2]. split; [by apply (stable_popping s q g)|].
  destruct Hr as [_ Hr]. destruct (Hr eq_refl). congruence.
Qed.
Definition pop_ready (s tail : Z) : assertion := fun q g =>
  pop_tail s tail q g /\ delivered_count g < accepted_count g.
Lemma stable_pop_ready s tail : stable false true (pop_ready s tail).
Proof.
  intros q g q' g' Hi Hi' Hr [H1 H2]. split; [by apply (stable_pop_tail s tail q g)|].
  destruct Hr as [_ Hr]. destruct (Hr eq_refl). unfold delivered_count in *. rewrite rc_out0. lia.
Qed.
Definition pop_taken (tail : Z) (f : rfq_frame) : assertion := fun q g =>
  g_taking g = Some f /\ g_resetting g = false /\ q_state q <> RFQ_CLOSED /\ g_closing g = false /\ q_tail q = tail.
Lemma stable_pop_taken tail f : stable false true (pop_taken tail f).
Proof.
  intros q g q' g' Hi Hi' [_ Hr] (? & ? & ? & ? & ?). destruct (Hr eq_refl). unfold pop_taken.
  split_and!; try congruence. auto.
Qed.

Lemma idle_open q g : idle_consumer q g -> q_state q <> RFQ_CLOSED -> g_closing g = false.
Proof. intros (_ & H & _) Hst. destruct (g_closing g); [by destruct Hst; apply H|done]. Qed.

(** What the tickets of an open queue say. *)
Lemma open_used q g :
  inv q g -> idle_consumer q g -> q_state q <> RFQ_CLOSED ->
  u32 (q_head q - q_tail q) = accepted_count g - delivered_count g /\
  0 <= accepted_count g - delivered_count g <= 8.
Proof.
  intros Hi Hidle Hst. pose proof (idle_open _ _ Hidle Hst) as Hcl. destruct Hidle as (Ht & _ & Hr).
  pose proof (iv_session _ _ Hi Hr) as Hs. pose proof (si_window _ _ Hs). pose proof (counts_le _ _ Hs).
  rewrite (si_head _ _ Hs), (oi_tail _ _ (si_open _ _ Hs Hcl)). split; [apply used_exact|]; lia.
Qed.

Lemma ok_pop_done rc out P :
  (forall q g, P q g -> idle_consumer q g) -> ok false true P (release_consumer (Done rc out)).
Proof. intros H. apply (ok_weaken _ _ holds_consumer); [apply ok_finish_consumer|]. intros q g _. apply H. Qed.

Lemma ok_pop_frame s :
  ok false true (popping s) (pop_frame s (fun rc out => release_consumer (Done rc out))).
Proof.
  unfold pop_frame. apply ok_load. intros q g Hi HP. exists (pop_tail s (q_tail q)).
  split_and!; [apply stable_pop_tail|by split|]. generalize (q_tail q) as tail. intros tail. clear q g Hi HP.
  apply ok_load. intros q g Hi HP. cbv zeta. pose proof HP as [(Hidle & Hst & _) Ht].
  destruct (open_used q g Hi Hidle Hst) as [Hu Hr]. rewrite Ht in Hu. rewrite Hu. unfold RFQ_CAPACITY.
  rewrite (proj2 (Z.ltb_ge 8 _)) by lia. destruct (Z.eqb_spec (accepted_count g - delivered_count g) 0).
  - exists (pop_tail s tail). split_and!; [apply stable_pop_tail|done|]. apply ok_pop_done. by intros ? ? [[? _] _].
  - exists (pop_ready s tail). split_and!; [apply stable_pop_ready|split; [done|lia]|].
    clear q g Hi HP Hidle Hst Ht Hu Hr n. apply ok_good. intros q g Hi [[(Hidle & Hst & _) Ht] Hl] _ Hc.
    specialize (Hc eq_refl). cbn [fst snd foldl record_event]. subst tail. split; [by apply take_good|].
    pose proof (idle_open _ _ Hidle Hst). destruct Hidle as (? & _ & ?).
    eexists (pop_taken (q_tail q) _). split_and!; [apply stable_pop_taken|by split_and!|].
    eapply (ok_store _ _ _ holds_consumer); [|apply stable_holds_consumer|apply ok_finish_consumer].
    generalize (nth (slot_index (q_tail q)) (q_slots q) wiped) as f. generalize (q_tail q) as tail. clear.
    intros tail f q g Hi (Hk & Hr & Hst & Hcl & Ht) _ Hc. rewrite <- Ht. split; [by eapply deliver_good; eauto|].
    split_and!; [done|cbn; congruence|done].
Qed.

Lemma ok_pop qa at_ : ok false false anything (rfq_pop qa at_).
Proof.
  unfold rfq_pop. case_match; [constructor|]. unguarded. case_match; [constructor|].
  eapply (ok_take_consumer _ _ holds_consumer);
    [by intros|apply stable_holds_consumer|apply stable_anything| |].
  2:{ apply ok_stop; [done|done|apply stable_anything|constructor]. }
  apply ok_load. intros q g Hi HP. destruct (negb (q_state q =? RFQ_RUNNING) && _) eqn:Est.
  { exists holds_consumer. split_and!; [apply stable_holds_consumer|done|apply ok_finish_consumer]. }
  exists (popping (q_state q)).
  assert (q_state q <> RFQ_CLOSED) by (intros E; rewrite E in Est; done).
  split_and!; [apply stable_popping|by split_and!|]. case_match; [|by apply ok_pop_frame].
  generalize (q_state q) as s. intros s. clear. apply ok_load. intros q g Hi HP. exists (popping s).
  split_and!; [apply stable_popping|done|]. case_match; [|apply ok_pop_frame].
  apply ok_pop_done. by intros ? ? (? & _).
Qed.

Lemma ok_confirm qa : ok false false anything (rfq_confirm_producer_stopped qa).
Proof.
  unfold rfq_confirm_producer_stopped. case_match; [constructor|]. unguarded. case_match; [constructor|].
  unguarded. case_match; [constructor|]. unguarded. case_match; [constructor|].
  eapply (ok_take_producer _ _ holds_producer);
    [by intros|apply stable_holds_producer|apply stable_anything| |constructor].
  apply ok_load. intros q g Hi HP. destruct (Z.eqb_spec (q_state q) RFQ_RUNNING) as [E|].
  - exists pushing. split_and!; [apply stable_pushing|by split|].
    eapply (ok_store _ _ _ holds_producer); [|apply stable_holds_producer|apply ok_finish_producer].
    intros q' g' Hi' [Hidle Hst] Hp _. split; [by apply fence_good; auto|done].
  - exists holds_producer. split_and!; [apply stable_holds_producer|done|apply ok_finish_producer].
Qed.

Definition closing (head : Z) : assertion := fun q g =>
  g_taking g = None /\ g_resetting g = false /\ g_closing g = true /\ q_state q = RFQ_FENCED /\ q_head q = head.
Lemma stable_closing head : stable false true (closing head).
Proof.
  intros q g q' g' Hi Hi' [_ Hr] (? & ? & ? & Hf & ?). destruct (Hr eq_refl) as [? ? Hfen ? ? ? ? ? ? ? ?].
  destruct (Hfen Hf) as (? & ? & ?). unfold closing. split_and!; congruence.
Qed.
Definition closing_moved : assertion := fun q g => closing (q_head q) q g /\ q_tail q = q_head q.
Lemma stable_closing_moved : stable false true closing_moved.
Proof.
  intros q g q' g' Hi Hi' Hr [H ?]. pose proof (stable_closing _ q g q' g' Hi Hi' Hr H) as (? & ? & ? & ? & E).
  destruct Hr as [_ Hr]. destruct (Hr eq_refl). unfold closing_moved, closing. split_and!; congruence.
Qed.
Definition fenced_head (head : Z) : assertion := fun q g => popping RFQ_FENCED q g /\ q_head q = head.
Lemma stable_fenced_head head : stable false true (fenced_head head).
Proof.
  intros q g q' g' Hi Hi' Hr [H <-]. split; [by apply (stable_popping RFQ_FENCED q g)|].
  destruct H as (_ & _ & Hf). destruct Hr as [_ Hr]. by apply (rc_fenced _ _ _ _ (Hr eq_refl)), Hf.
Qed.
Definition fenced_tickets (head tail : Z) : assertion := fun q g => fenced_head head q g /\ q_tail q = tail.
Lemma stable_fenced_tickets head tail : stable false true (fenced_tickets head tail).
Proof.
  intros q g q' g' Hi Hi' Hr [H1 H2]. split; [by apply (stable_fenced_head head q g)|].
  destruct Hr as [_ Hr]. destruct (Hr eq_refl). congruence.
Qed.

Lemma ok_close qa discard : ok false false anything (close_queue qa discard).
Proof.
  unfold close_queue. case_match; [constructor|]. unguarded. case_match; [constructor|].
  eapply (ok_take_consumer _ _ holds_consumer);
    [by intros|apply stable_holds_consumer|apply stable_anything| |].
  2:{ apply ok_stop; [done|done|apply stable_anything|constructor]. }
  apply ok_load. intros q g Hi HP. destruct (Z.eqb_spec (q_state q) RFQ_FENCED) as [Est|]; cbn [negb].
  2:{ exists holds_consumer. split_and!; [apply stable_holds_consumer|done|apply ok_finish_consumer]. }
  exists (popping RFQ_FENCED). split_and!; [apply stable_popping|split_and!; states|]. clear.
  apply ok_load. intros q g Hi HP. exists (fenced_head (q_head q)).
  split_and!; [apply stable_fenced_head|by split|]. generalize (q_head q) as head. intros head. clear q g Hi HP.
  apply ok_load. intros q g Hi HP. exists (fenced_tickets head (q_tail q)).
  split_and!; [apply stable_fenced_tickets|by split|]. cbv zeta.
  destruct HP as [(Hidle & Hst & _) Hh]. destruct (open_used q g Hi Hidle Hst) as [Hu Hb]. rewrite Hh in Hu.
  rewrite (proj2 (Z.ltb_ge RFQ_CAPACITY _)) by (unfold RFQ_CAPACITY; lia).
  generalize (q_tail q) as tail. clear q g Hi Hidle Hst Hh Hu Hb. intros tail.
  case_match; [by apply ok_pop_done; intros ? ? [[(? & _) _] _]|].
  eapply (ok_store _ _ _ (closing head)); [|apply stable_closing|].
  { intros q g Hi [[(Hidle & Hst & Hf) Hh] Ht] _ Hc. rewrite <- Hh, <- Ht. split; [by apply close_good; auto|].
    destruct Hidle as (? & _ & ?). split_and!; auto. }
  eapply (ok_store _ _ _ closing_moved); [|apply stable_closing_moved|].
  { intros q g Hi (? & ? & ? & ? & <-) _ Hc. split; [by apply close_tail_good; auto|]. by split_and!. }
  eapply (ok_store _ _ _ holds_consumer); [|apply stable_holds_consumer|apply ok_finish_consumer].
  intros q g Hi [(? & ? & ? & ? & _) ?] _ Hc. split; [by apply close_state_good; auto|]. by split_and!.
Qed.

Lemma ok_summary qa at_ : ok false false anything (rfq_get_summary qa at_).
Proof.
  unfold rfq_get_summary. case_match; [constructor|]. unguarded. case_match; [constructor|].
  eapply (ok_take_consumer _ _ holds_consumer);
    [by intros|apply stable_holds_consumer|apply stable_anything| |constructor].
  do 5 (apply ok_load; intros ? ? ? ?; exists holds_consumer; split_and!; [apply stable_holds_consumer|done|]).
  apply ok_finish_consumer.
Qed.

Definition holds_both : assertion := fun q g => idle_producer g /\ idle_consumer q g.
Lemma stable_holds_both : stable true true holds_both.
Proof.
  intros q g q' g' Hi Hi' Hr [H1 H2]. split; [by apply (stable_holds_producer true q g q' g')|by apply (stable_holds_consumer true q g)].
Qed.
Definition holds_closed : assertion := fun q g => holds_both q g /\ q_state q = RFQ_CLOSED.
Lemma stable_holds_closed : stable true true holds_closed.
Proof.
  intros q g q' g' Hi Hi' Hr [H1 H2]. split; [by apply (stable_holds_both q g)|].
  destruct Hr as [_ Hr]. by apply (rc_closed _ _ _ _ (Hr eq_refl)).
Qed.

Lemma ok_finish_both rc : ok true true holds_both (release_consumer (release_producer (fails rc))).
Proof.
  apply (ok_release_consumer _ _ holds_producer); [|apply stable_holds_producer|apply ok_finish_producer].
  intros q g _ [H1 H2]. by split.
Qed.

Lemma ok_rearm_reset first :
  0 <= first <= UINT64_MAX ->
  ok true true holds_closed (rearm_reset first (fun rc => release_consumer (release_producer (fails rc)))).
Proof.
  intros Hf. unfold rearm_reset.
  eapply (ok_store _ _ _ (reset_fields first)); [|apply stable_reset_fields|].
  { intros q g Hi [[[? ?] ?] ?] Hp Hc. split; [by apply reset_good; auto|done]. }
  eapply (ok_store _ _ _ (reset_fields first)); [|apply stable_reset_fields|].
  { intros q g Hi H Hp Hc. split; [by apply resetting_good; try apply H; auto|done]. }
  eapply (ok_store _ _ _ (reset_head first)); [|apply stable_reset_head|].
  { intros q g Hi H Hp Hc. split; [apply resetting_good; try apply H; try apply Hi; auto|by split]. }
  eapply (ok_store _ _ _ (reset_tail first)); [|apply stable_reset_tail|].
  { intros q g Hi H Hp Hc. split; [apply resetting_good; try apply H; try apply Hi; auto|]. by destruct H. }
  eapply (ok_store _ _ _ holds_both); [|apply stable_holds_both|apply ok_finish_both].
  intros q g Hi H Hp Hc. split; [by apply start_good|done].
Qed.

Lemma ok_rearm qa first : 0 <= first <= UINT64_MAX -> ok false false anything (rfq_rearm_closed qa first).
Proof.
  intros Hf. unfold rfq_rearm_closed. case_match; [constructor|]. unguarded. case_match; [constructor|].
  eapply (ok_take_producer _ _ holds_producer);
    [by intros|apply stable_holds_producer|apply stable_anything| |constructor].
  eapply (ok_take_consumer _ _ holds_both);
    [|apply stable_holds_both|apply stable_holds_producer| |apply ok_finish_producer].
  { intros q g Hi H1 H2. by split. }
  apply ok_load. intros q g Hi HP. destruct (Z.eqb_spec (q_state q) RFQ_CLOSED) as [Est|]; cbn [negb].
  2:{ exists holds_both. split_and!; [apply stable_holds_both|done|apply ok_finish_both]. }
  exists holds_closed. split_and!; [apply stable_holds_closed|by split|]. clear -Hf.
  assert (Hout : forall rc, ok true true holds_closed (release_consumer (release_producer (fails rc))))
    by (intros; apply (ok_weaken _ _ holds_both); [apply ok_finish_both|by intros ? ? _ []]).
  do 2 (apply ok_load; intros ? ? _ ?; exists holds_closed; split_and!; [apply stable_holds_closed|done|]).
  case_match; [done|].
  apply ok_load. intros ? ? _ ?. exists holds_closed. split_and!; [apply stable_holds_closed|done|].
  case_match; [done|by apply ok_rearm_reset].
Qed.

Lemma ok_start_call qa c : call_ok c -> ok false false anything (start_call qa c).
Proof.
  intros Hc. destruct c; cbn [start_call].
  - apply ok_push.
  - apply ok_pop.
  - unfold rfq_request_stop. case_match; [constructor|]. unguarded. case_match; [constructor|].
    apply ok_stop; [done|done|apply stable_anything|constructor].
  - unfold rfq_stop_reason. case_match; [constructor|]. unguarded. case_match; [constructor|]. unguarded. constructor.
  - apply ok_confirm.
  - apply ok_close.
  - apply ok_close.
  - apply ok_summary.
  - by apply ok_rearm.
Qed.

(** * Reachable configurations *)
Definition initial (first : Z) : config := Config (started first) [] [EvStart first].

Lemma initial_pool first : 0 <= first <= UINT64_MAX -> exists a, pool_inv (initial first) a.
Proof.
  intros Hf. exists (fun _ => (false, false, anything)).
  split; try done. split; try done; [by left..|]. intros _. by apply fresh_session_inv.
Qed.

Lemma pool_step qa c c' a : pool_inv c a -> step qa c c' ->
  promise (c_queue c) (session_of (c_trace c)) (c_queue c') (session_of (c_trace c')) /\
  exists a', pool_inv c' a'.
Proof.
  intros Ha Hstep. destruct Hstep as [call q ps tr Hcall|i f k q ps tr Hi].
  - split; [apply promise_refl|]. eapply pool_call; [by apply ok_start_call|done].
  - by eapply pool_act.
Qed.

Lemma reachable_pool qa first c :
  0 <= first <= UINT64_MAX -> rtc (step qa) (initial first) c -> exists a, pool_inv c a.
Proof.
  intros Hf Hc. apply initial_pool in Hf. revert Hf. induction Hc as [|c c1 c2 Hs _ IH]; [done|].
  intros [a Ha]. apply IH. by eapply pool_step.
Qed.

(** The frames published but not delivered. *)
Definition pending (g : session) : list rfq_frame := drop (length (g_out g)) (g_in g).

Lemma pending_spec q g : session_inv q g ->
  g_in g = g_out g ++ pending g /\ zlen (pending g) = accepted_count g - delivered_count g.
Proof.
  intros Hs. destruct (si_prefix _ _ Hs) as [m E]. unfold pending, accepted_count, delivered_count.
  rewrite E, drop_app_length, zlen_app. split; [done|lia].
Qed.

(** C11. Whatever calls are made, by however many threads, and however their
    accesses interleave: the frames delivered are the frames published, in
    order, less at most eight still queued; the published frames are an exact
    contiguous run of 320-sample frames from the first sample; the counters tell
    how many; and while no call holds a guard the ring holds exactly the queued
    frames, every other slot being wiped. *)
Theorem rfq_fifo (qa : option Z) (first : Z) (c : config) :
  0 <= first <= UINT64_MAX -> rtc (step qa) (initial first) c ->
  let q := c_queue c in let g := session_of (c_trace c) in
  g_resetting g = false ->
  g_in g = g_out g ++ pending g /\ zlen (pending g) <= 8 /\
  (forall k f, 0 <= k -> nth_frame k (g_in g) = Some f -> fr_first_sample f = q_first_sample q + 320 * k) /\
  q_next_sample q = q_first_sample q + 320 * q_accepted q /\ q_next_sample q <= UINT64_MAX /\
  (q_state q = RFQ_CLOSED -> q_slots q = no_frames /\ q_discarded q = zlen (pending g)) /\
  (q_producer_busy q = 0 -> q_consumer_busy q = 0 ->
    q_accepted q = zlen (g_in g) /\ q_consumed q = zlen (g_out g) /\
    (q_state q <> RFQ_CLOSED -> forall k, delivered_count g <= k < delivered_count g + 8 ->
      q_slots q !! slot_of k = Some (default wiped (nth_frame k (g_in g))))).
Proof.
  intros Hf Hc q g Hr. destruct (reachable_pool _ _ _ Hf Hc) as [a Ha]. pose proof (po_inv _ _ Ha) as Hi.
  fold q g in Hi. pose proof (iv_session _ _ Hi Hr) as Hs. destruct (pending_spec q g Hs) as [Hp Hpl].
  pose proof (si_window _ _ Hs). destruct (si_next _ _ Hs) as [Hn1 Hn2]. destruct (si_first _ _ Hs) as [E1 _].
  split_and!; [done|lia| | |done| |].
  - rewrite E1. intros. by eapply si_contiguous.
  - by rewrite E1.
  - intros Hst. split; [by eapply closed_slots|]. destruct (g_closing g) eqn:E.
    + rewrite Hpl. by destruct (si_closing _ _ Hs E).
    + by destruct (oi_state _ _ (si_open _ _ Hs E)).
  - intros Hpb Hcb. pose proof (si_accepted _ _ Hs) as H1. pose proof (si_consumed _ _ Hs) as H2.
    rewrite (iv_writing _ _ Hi Hpb) in H1. rewrite (iv_taking _ _ Hi Hcb) in H2. cbn in H1, H2.
    split_and!; [unfold accepted_count in *; lia|unfold delivered_count in *; lia|].
    intros Hst k Hk. assert (Hcl : g_closing g = false)
      by (destruct (g_closing g) eqn:E; [by destruct Hst; apply Hi|done]).
    rewrite (oi_slots _ _ (si_open _ _ Hs Hcl) k Hk). f_equal. unfold slot_content.
    rewrite (iv_writing _ _ Hi Hpb), (iv_taking _ _ Hi Hcb). cbn [present default]. rewrite andb_false_r.
    destruct (Z.ltb_spec k (accepted_count g)); [done|].
    replace (nth_frame k (g_in g)) with (@None rfq_frame); [by case_match|].
    symmetry. apply lookup_ge_None. unfold accepted_count, zlen in *. lia.
Qed.

(** In every reachable configuration the first stop reason is kept by
    every step until a rearm resets the queue, the reason INVARIANT is never
    given, and once the queue has left RUNNING no frame is published. *)
Theorem rfq_stop_is_final (qa : option Z) (first : Z) (c c' : config) :
  0 <= first <= UINT64_MAX -> rtc (step qa) (initial first) c -> step qa c c' ->
  let q := c_queue c in let g := session_of (c_trace c) in
  q_reason q <> RFQ_INVARIANT /\
  (g_resetting g = false ->
    (q_reason q <> RFQ_NONE -> q_reason (c_queue c') = q_reason q) /\
    (q_state q <> RFQ_RUNNING -> g_in (session_of (c_trace c')) = g_in g) /\
    g_in g `prefix_of` g_in (session_of (c_trace c')) /\
    g_out g `prefix_of` g_out (session_of (c_trace c'))).
Proof.
  intros Hf Hc Hstep q g. destruct (reachable_pool _ _ _ Hf Hc) as [a Ha].
  destruct (pool_step _ _ _ _ Ha Hstep) as [[? ? ? ?] _].
  split; [apply (iv_reason _ _ (po_inv _ _ Ha))|]. intros Hr. split_and!; auto.
Qed.

(** * What a returned call did *)
(** [p] can return [rc], [out], having reported [evs], whatever the other calls
    do to the queue between its actions. *)
Inductive returns : prog -> Z -> option rfq_out -> list event -> Prop :=
| returns_done rc out : returns (Done rc out) rc out []
| returns_act f k q rc out evs :
    returns (k q) rc out evs -> returns (Act f k) rc out (snd (f q) ++ evs).

(** The history entries that belong to a returned call. *)
Definition outcome (c : call) (rc : Z) (out : option rfq_out) (evs : list event) : Prop :=
  match c with
  | CallPush first _ pcm =>
      out = None /\ (rc = RFQ_OK /\ evs = [EvWrite (Frame first pcm); EvAccept] \/ rc < 0 /\ evs = [])
  | CallPop _ =>
      (exists f, rc = RFQ_OK /\ out = Some (OutFrame f) /\ evs = [EvTake f; EvDeliver]) \/
      rc <> RFQ_OK /\ out = None /\ evs = []
  | CallFinish | CallDiscard => out = None /\ (rc = RFQ_OK /\ evs = [EvClose] \/ rc < 0 /\ evs = [])
  | CallRearm first => out = None /\ (rc = RFQ_OK /\ evs = [EvReset; EvStart first] \/ rc < 0 /\ evs = [])
  | CallSummary _ => evs = [] /\ (rc = RFQ_OK <-> out <> None)
  | CallRequestStop | CallStopReason | CallConfirm => out = None /\ evs = []
  end.

(** Follows every path of a call to its return. *)
Ltac follow :=
  repeat match goal with
  | H : returns (Done _ _) _ _ _ |- _ => inversion H; subst; clear H
  | H : returns (Act _ _) _ _ _ |- _ => inversion H; subst; clear H; cbn [fst snd app] in *
  | H : returns (match ?x with _ => _ end) _ _ _ |- _ => destruct x
  | H : returns _ _ _ _ |- _ =>
      progress (unfold fails, load, store, modify, stop, take_producer, take_consumer, release_producer,
        release_consumer, push_frame, pop_frame, rearm_reset in H; cbv beta zeta in H)
  end.

(** C23. A push that returns OK published exactly the frame it was given and a
    push that fails published nothing; a pop that returns OK delivered exactly
    the frame it wrote out and otherwise wrote and consumed nothing; likewise
    for the calls that close and rearm the queue.  This holds whatever other
    calls do in between. *)
Theorem rfq_outcome (qa : option Z) (c : call) (rc : Z) (out : option rfq_out) (evs : list event) :
  returns (start_call qa c) rc out evs -> outcome c rc out evs.
Proof.
  intros H. destruct c; cbn [start_call outcome] in *.
  - unfold rfq_push in H. follow; try (split; [done|]; first [by left|by right]).
  - unfold rfq_pop in H. follow; first [by right|left; by eexists|by right; case_match].
  - unfold rfq_request_stop in H. by follow.
  - unfold rfq_stop_reason in H. by follow.
  - unfold rfq_confirm_producer_stopped in H. by follow.
  - unfold rfq_finish, close_queue in H. follow; (split; [done|]; first [by left|by right]).
  - unfold rfq_discard, close_queue in H. follow; (split; [done|]; first [by left|by right]).
  - unfold rfq_get_summary in H. follow; split; done.
  - unfold rfq_rearm_closed in H. follow; (split; [done|]; first [by left|by right]).
Qed.
