(* ===== verification/FrameQueueSpec.v ===== *)
(** The abstract bounded queue, and that the frame queue implements it when its
    calls do not overlap.  Witnesses of the frame queue's theorems. *)
From S2P Require Import Prelude FrameQueue FrameQueueSafety.

(** A queue of at most eight frames with a lifecycle and a first stop reason. *)
Record aqueue := AQueue { a_state : Z; a_reason : Z; a_next : Z; a_frames : list rfq_frame }.
#[export] Instance eta_aqueue : Eta aqueue := fun a => AQueue (a_state a) (a_reason a) (a_next a) (a_frames a).

Definition a_stop (reason : Z) (a : aqueue) : aqueue :=
  if a_reason a =? RFQ_NONE then a <| a_reason := reason |> else a.

Definition spec_push (first : Z) (pcm : list Z) (a : aqueue) : Z * option rfq_out * aqueue :=
  if negb (a_state a =? RFQ_RUNNING) then (RFQ_STATE, None, a) else
  if negb (a_reason a =? RFQ_NONE) then (RFQ_STOPPED, None, a) else
  if negb (first =? a_next a) then (RFQ_STOPPED, None, a_stop RFQ_CONTINUITY a) else
  if UINT64_MAX - 320 <? first then (RFQ_STOPPED, None, a_stop RFQ_SAMPLE_OVERFLOW a) else
  if 8 <=? zlen (a_frames a) then (RFQ_STOPPED, None, a_stop RFQ_FULL a) else
  (RFQ_OK, None, a <| a_next := first + 320 |> <| a_frames ::= (fun l => l ++ [Frame first pcm]) |>).

Definition spec_pop (a : aqueue) : Z * option rfq_out * aqueue :=
  if negb (a_state a =? RFQ_RUNNING) && negb (a_state a =? RFQ_FENCED) then (RFQ_STATE, None, a) else
  if (a_state a =? RFQ_RUNNING) && negb (a_reason a =? RFQ_NONE) then (RFQ_NEEDS_FENCE, None, a) else
  match a_frames a with
  | [] => (if a_state a =? RFQ_FENCED then RFQ_DRAINED else RFQ_EMPTY, None, a)
  | f :: fs => (RFQ_OK, Some (OutFrame f), a <| a_frames := fs |>)
  end.

Definition spec_close (discard : bool) (a : aqueue) : Z * option rfq_out * aqueue :=
  if negb (a_state a =? RFQ_FENCED) then (RFQ_NEEDS_FENCE, None, a) else
  if negb (zlen (a_frames a) =? 0) && negb discard then (RFQ_NOT_EMPTY, None, a) else
  (RFQ_OK, None, a <| a_frames := [] |> <| a_state := RFQ_CLOSED |>).

Definition spec_confirm (a : aqueue) : Z * option rfq_out * aqueue :=
  if a_state a =? RFQ_FENCED then (RFQ_OK, None, a) else
  if negb (a_state a =? RFQ_RUNNING) || (a_reason a =? RFQ_NONE) then (RFQ_STATE, None, a) else
  (RFQ_OK, None, a <| a_state := RFQ_FENCED |>).

Definition spec_request_stop (a : aqueue) : Z * option rfq_out * aqueue :=
  if negb (a_state a =? RFQ_RUNNING) && negb (a_state a =? RFQ_FENCED) then (RFQ_STATE, None, a) else
  (RFQ_OK, None, a_stop RFQ_USER a).

(** The calls of the specification; the others do not change an idle queue or,
    for a rearm, start the next session. *)
Definition spec (c : call) (a : aqueue) : option (Z * option rfq_out * aqueue) :=
  match c with
  | CallPush first _ pcm => Some (spec_push first pcm a)
  | CallPop _ => Some (spec_pop a)
  | CallFinish => Some (spec_close false a)
  | CallDiscard => Some (spec_close true a)
  | CallConfirm => Some (spec_confirm a)
  | CallRequestStop => Some (spec_request_stop a)
  | _ => None
  end.

(** The addresses a caller must pass. *)
Definition spans_ok (qa : option Z) (c : call) : bool :=
  queue_valid qa &&
  match c with
  | CallPush _ at_ _ => apart qa at_ (RFQ_FRAME_SAMPLES * 2) 2
  | CallPop at_ => apart qa at_ sizeof_rfq_frame 8
  | CallSummary at_ => apart qa at_ sizeof_rfq_summary 8
  | _ => true
  end.

(** No call is in progress. *)
Record idle (q : rfq_queue) (g : session) : Prop := {
  id_inv : inv q g; id_p : q_producer_busy q = 0; id_c : q_consumer_busy q = 0
}.
Definition abstraction (q : rfq_queue) (g : session) : aqueue :=
  AQueue (q_state q) (q_reason q) (q_next_sample q) (if g_closing g then [] else pending g).

(** * Running alone *)
Definition guard_value (b : bool) : Z := if b then 1 else 0.

Lemma token_value b b' v v' : v = guard_value b -> token b b' v v' -> v' = guard_value b'.
Proof. destruct b, b'; simpl; lia. Qed.

Lemma run_alone_ok p : forall hp hc P q g rc out q' evs,
  ok hp hc P p -> inv q g -> P q g ->
  q_producer_busy q = guard_value hp -> q_consumer_busy q = guard_value hc ->
  run_alone p q = (rc, out, q', evs) -> idle q' (foldl record_event g evs).
Proof.
  induction p as [rc0 out0|f k IH]; intros hp hc P q g rc out q' evs Hok Hi HP Hp Hc Hrun.
  - inversion Hok; subst. injection Hrun as <- <- <- <-. by split.
  - destruct (ok_act_inv _ _ _ _ _ q g Hok Hi HP) as (hp' & hc' & P' & Hi' & Hp' & Hc' & _ & _ & _ & _ & HP' & Hok').
    { intros ->. done. }
    { intros ->. done. }
    cbn [run_alone] in Hrun. destruct (f q) as [q1 evs1]. cbn [fst snd] in *.
    destruct (run_alone (k q) q1) as [[[rc2 out2] q2] evs2] eqn:E. injection Hrun as <- <- <- <-.
    rewrite foldl_app. eapply IH; eauto using token_value.
Qed.

Lemma run_load {A} (fld : rfq_queue -> A) k q : run_alone (load fld k) q = run_alone (k (fld q)) q.
Proof. cbn. by destruct (run_alone (k (fld q)) q) as [[[? ?] ?] ?]. Qed.

Definition after (evs : list event) (r : Z * option rfq_out * rfq_queue * list event) :=
  let '(rc, out, q, evs') := r in (rc, out, q, evs ++ evs').
Lemma run_store f evs p q : run_alone (store f evs p) q = after evs (run_alone p (f q)).
Proof. done. Qed.
Lemma run_modify {A} (fld : rfq_queue -> A) f evs k q :
  run_alone (modify fld f evs k) q = after (evs (fld q)) (run_alone (k (fld q)) (f (fld q) q)).
Proof. done. Qed.
Lemma run_take_producer yes no q :
  q_producer_busy q = 0 -> run_alone (take_producer yes no) q = run_alone yes (q <| q_producer_busy := 1 |>).
Proof. intros E. cbn. rewrite E. cbn. by destruct (run_alone yes _) as [[[? ?] ?] ?]. Qed.
Lemma run_take_consumer yes no q :
  q_consumer_busy q = 0 -> run_alone (take_consumer yes no) q = run_alone yes (q <| q_consumer_busy := 1 |>).
Proof. intros E. cbn. rewrite E. cbn. by destruct (run_alone yes _) as [[[? ?] ?] ?]. Qed.

(** ** The idle queue *)
Record idle_facts (q : rfq_queue) (g : session) : Prop := {
  if_session : session_inv q g;
  if_resetting : g_resetting g = false;
  if_writing : g_writing g = None;
  if_taking : g_taking g = None;
  if_closing : g_closing g = true <-> q_state q = RFQ_CLOSED;
  if_used : q_state q <> RFQ_CLOSED -> u32 (q_head q - q_tail q) = zlen (pending g) /\ zlen (pending g) <= 8
}.
Lemma idle_spec q g : idle q g -> idle_facts q g.
Proof.
  intros [Hi Hp Hc]. destruct (inv_idle_consumer q g Hi Hc) as (Ht & Hcl & Hr).
  pose proof (iv_session _ _ Hi Hr) as Hs. destruct (pending_spec q g Hs) as [_ Hpl].
  split; auto; [by apply Hi|split; [done|]|].
  - intros Hst. destruct (g_closing g) eqn:E; [done|]. by destruct (oi_state _ _ (si_open _ _ Hs E)).
  - intros Hst. destruct (open_used q g Hi ltac:(done) Hst) as [Hu ?]. by rewrite Hpl, Hu; split; [|lia].
Qed.

Lemma idle_open_pending q g : idle_facts q g -> q_state q <> RFQ_CLOSED -> g_closing g = false.
Proof. intros H Hst. destruct (g_closing g) eqn:E; [by apply (if_closing _ _ H) in E|done]. Qed.

Lemma pending_accept g f : g_writing g = Some f -> g_out g `prefix_of` g_in g ->
  pending (record_event g EvAccept) = pending g ++ [f].
Proof.
  intros Hw [m E]. unfold pending. cbn. rewrite Hw, E, !drop_app_length. cbn [option_list].
  by rewrite <- app_assoc, drop_app_length.
Qed.

Lemma pending_deliver g f : g_taking g = Some f -> nth_frame (delivered_count g) (g_in g) = Some f ->
  pending g = f :: pending (record_event g EvDeliver).
Proof.
  intros Ht Hn. unfold pending. cbn. rewrite Ht. cbn [option_list]. rewrite length_app, Nat.add_1_r.
  unfold nth_frame, delivered_count, zlen in Hn. rewrite Nat2Z.id in Hn. by apply drop_S.
Qed.

(** Runs a call on a queue whose guards are free. *)
Ltac fields_in H :=
  cbn [run_alone after fails field_upd fst snd app negb q_state q_reason q_head q_tail q_producer_busy q_consumer_busy
    q_first_sample q_next_sample q_accepted q_consumed q_discarded q_slots] in H.
Ltac alone H :=
  fields_in H;
  repeat (first
    [ rewrite run_load in H | rewrite run_store in H | rewrite run_modify in H
    | rewrite run_take_producer in H by done | rewrite run_take_consumer in H by done ]; fields_in H).
Ltac returned H :=
  unfold release_producer, release_consumer, stop, fails in H; alone H; injection H as <- <- <- <-; cbn [foldl].

Section Refinement.
Context (qa : option Z) (q : rfq_queue) (g : session) (Hidle : idle q g).

(** Stopping an open queue. *)
Lemma stop_refines r pb cb :
  abstraction ((if q_reason q =? RFQ_NONE then q <| q_reason := r |> else q)
     <| q_producer_busy := pb |> <| q_consumer_busy := cb |>) g = a_stop r (abstraction q g).
Proof using. unfold a_stop, abstraction. cbn. by case_match. Qed.

Lemma push_refines first at_ pcm rc out q' evs :
  spans_ok qa (CallPush first at_ pcm) = true ->
  run_alone (rfq_push qa first at_ pcm) q = (rc, out, q', evs) ->
  spec_push first pcm (abstraction q g) = (rc, out, abstraction q' (foldl record_event g evs)).
Proof using All.
  intros Hsp Hrun. apply andb_true_iff in Hsp as [_ Hsp]. pose proof (idle_spec q g Hidle) as F.
  pose proof (id_p _ _ Hidle) as Hp. unfold rfq_push in Hrun. rewrite Hsp in Hrun. cbn [negb] in Hrun.
  unfold spec_push. cbn [a_state a_reason a_next a_frames abstraction].
  alone Hrun. destruct (Z.eqb_spec (q_state q) RFQ_RUNNING) as [Est|Est]; cbn [negb] in *; [|by returned Hrun].
  alone Hrun. rewrite (proj2 (Z.eqb_eq _ _) Est) in Hrun. alone Hrun.
  assert (Hst : q_state q <> RFQ_CLOSED) by states.
  pose proof (idle_open_pending q g F Hst) as Hcl. rewrite Hcl.
  destruct (Z.eqb_spec (q_reason q) RFQ_NONE) as [Er|]; cbn [negb] in *; [|returned Hrun; by unfold abstraction; cbn].
  alone Hrun. destruct (Z.eqb_spec first (q_next_sample q)) as [En|]; cbn [negb] in *.
  2:{ returned Hrun. unfold a_stop, abstraction; cbn. by rewrite Er. }
  unfold RFQ_FRAME_SAMPLES in *. destruct (Z.ltb_spec (UINT64_MAX - 320) first).
  { returned Hrun. unfold a_stop, abstraction; cbn. by rewrite Er. }
  unfold push_frame in Hrun. alone Hrun. destruct (if_used _ _ F Hst) as [Hu Hb]. rewrite Hu in Hrun.
  unfold RFQ_CAPACITY in *. destruct (Z.leb_spec 8 (zlen (pending g))).
  { rewrite (proj2 (Z.eqb_eq _ 8)) in Hrun by lia. returned Hrun. unfold a_stop, abstraction; cbn. by rewrite Er. }
  returned Hrun. set (f := Frame first pcm). set (g1 := record_event g (EvWrite f)).
  assert (Hpend : pending (record_event g1 EvAccept) = pending g ++ [f])
    by (rewrite (pending_accept g1 f); [done|done|apply (if_session _ _ F)]).
  unfold abstraction. change (g_closing (record_event g1 EvAccept)) with (g_closing g). rewrite Hcl, Hpend. cbn.
  unfold RFQ_FRAME_SAMPLES. destruct (si_first _ _ (if_session _ _ F)).
  pose proof (si_next _ _ (if_session _ _ F)). pose proof (si_accepted _ _ (if_session _ _ F)) as Ha.
  pose proof (zlen_nonneg (g_in g)). unfold accepted_count in Ha. rewrite (if_writing _ _ F) in Ha. cbn in Ha.
  rewrite u64_small by (unfold UINT64_MAX in *; lia). done.
Qed.

Lemma pop_refines at_ rc out q' evs :
  spans_ok qa (CallPop at_) = true ->
  run_alone (rfq_pop qa at_) q = (rc, out, q', evs) ->
  spec_pop (abstraction q g) = (rc, out, abstraction q' (foldl record_event g evs)).
Proof using All.
  intros Hsp Hrun. apply andb_true_iff in Hsp as [_ Hsp]. pose proof (idle_spec q g Hidle) as F.
  pose proof (id_c _ _ Hidle) as Hp. unfold rfq_pop in Hrun. rewrite Hsp in Hrun. cbn [negb] in Hrun.
  unfold spec_pop. cbn [a_state a_reason a_next a_frames abstraction].
  alone Hrun. destruct (negb (q_state q =? RFQ_RUNNING) && negb (q_state q =? RFQ_FENCED)) eqn:Est; [by returned Hrun|].
  assert (Hst : q_state q <> RFQ_CLOSED) by (intros E; by rewrite E in Est).
  pose proof (idle_open_pending q g F Hst) as Hcl. rewrite Hcl. alone Hrun. rewrite Est in Hrun.
  set (done := fun rc out => release_consumer (Done rc out)) in Hrun.
  assert (Hrun' : (if (q_state q =? RFQ_RUNNING) && negb (q_reason q =? RFQ_NONE)
                   then run_alone (done RFQ_NEEDS_FENCE None) (q <| q_consumer_busy := 1 |>)
                   else run_alone (pop_frame (q_state q) done) (q <| q_consumer_busy := 1 |>)) = (rc, out, q', evs)).
  { destruct (q_state q =? RFQ_RUNNING); cbn [andb]; [|done]. alone Hrun. by destruct (negb (q_reason q =? RFQ_NONE)). }
  clear Hrun. destruct ((q_state q =? RFQ_RUNNING) && _).
  { returned Hrun'. by unfold abstraction; cbn. }
  unfold pop_frame in Hrun'. alone Hrun'. destruct (if_used _ _ F Hst) as [Hu Hb]. rewrite Hu in Hrun'.
  unfold RFQ_CAPACITY in *. rewrite (proj2 (Z.ltb_ge 8 _)) in Hrun' by lia.
  destruct (pending g) as [|f fs] eqn:Epend.
  { returned Hrun'. by unfold abstraction; cbn; rewrite Hcl, Epend. }
  rewrite (proj2 (Z.eqb_neq _ 0)) in Hrun' by (rewrite zlen_cons; pose proof (zlen_nonneg fs); lia).
  destruct (pending_spec q g (if_session _ _ F)) as [_ Hl]. rewrite Epend, zlen_cons in Hl. pose proof (zlen_nonneg fs).
  destruct (tail_slot q g (if_session _ _ F) Hcl (if_taking _ _ F) ltac:(lia)) as (Hidx & f' & Hn & Hsl).
  alone Hrun'. rewrite Hidx in Hrun'. erewrite nth_lookup_Some in Hrun' by done.
  returned Hrun'. set (g1 := record_event g (EvTake f')).
  pose proof (pending_deliver g1 f' eq_refl Hn) as Hd. change (pending g1) with (pending g) in Hd.
  rewrite Epend in Hd. assert (f = f') as -> by congruence.
  assert (Hfs : fs = pending (record_event g1 EvDeliver)) by congruence.
  unfold abstraction. change (g_closing (record_event g1 EvDeliver)) with (g_closing g). rewrite Hcl, <- Hfs. done.
Qed.

Lemma close_refines discard rc out q' evs :
  queue_valid qa = true -> run_alone (close_queue qa discard) q = (rc, out, q', evs) ->
  spec_close discard (abstraction q g) = (rc, out, abstraction q' (foldl record_event g evs)).
Proof using All.
  intros Hsp Hrun. pose proof (idle_spec q g Hidle) as F. pose proof (id_c _ _ Hidle) as Hp.
  unfold close_queue in Hrun. rewrite Hsp in Hrun. cbn [negb] in Hrun. unfold spec_close. cbn [a_state a_frames abstraction].
  alone Hrun. destruct (Z.eqb_spec (q_state q) RFQ_FENCED) as [Est|Est]; cbn [negb] in *; [|by returned Hrun].
  alone Hrun. rewrite (proj2 (Z.eqb_eq _ _) Est) in Hrun. alone Hrun.
  assert (Hst : q_state q <> RFQ_CLOSED) by states.
  rewrite (idle_open_pending q g F Hst). destruct (if_used _ _ F Hst) as [Hu Hb]. rewrite Hu in Hrun.
  unfold RFQ_CAPACITY in *. rewrite (proj2 (Z.ltb_ge 8 _)) in Hrun by lia.
  destruct (negb (zlen (pending g) =? 0) && negb discard).
  - returned Hrun. by unfold abstraction; cbn.
  - returned Hrun. by unfold abstraction; cbn.
Qed.

Lemma confirm_refines rc out q' evs :
  queue_valid qa = true -> run_alone (rfq_confirm_producer_stopped qa) q = (rc, out, q', evs) ->
  spec_confirm (abstraction q g) = (rc, out, abstraction q' (foldl record_event g evs)).
Proof using All.
  intros Hsp Hrun. pose proof (id_p _ _ Hidle) as Hp.
  unfold rfq_confirm_producer_stopped in Hrun. rewrite Hsp in Hrun. cbn [negb] in Hrun.
  unfold spec_confirm. cbn [a_state a_reason abstraction].
  alone Hrun. destruct (Z.eqb_spec (q_state q) RFQ_FENCED) as [Est|Est]; [by returned Hrun|].
  alone Hrun. destruct (Z.eqb_spec (q_state q) RFQ_RUNNING) as [Est'|Est']; cbn [negb orb] in *; [|by returned Hrun].
  alone Hrun. destruct (Z.eqb_spec (q_reason q) RFQ_NONE) as [Er|Er]; [by returned Hrun|].
  alone Hrun. rewrite (proj2 (Z.eqb_eq _ _) Est') in Hrun. returned Hrun. by unfold abstraction; cbn.
Qed.

Lemma request_stop_refines rc out q' evs :
  queue_valid qa = true -> run_alone (rfq_request_stop qa) q = (rc, out, q', evs) ->
  spec_request_stop (abstraction q g) = (rc, out, abstraction q' (foldl record_event g evs)).
Proof using All.
  intros Hsp Hrun. unfold rfq_request_stop in Hrun. rewrite Hsp in Hrun. cbn [negb] in Hrun.
  unfold spec_request_stop. cbn [a_state abstraction]. alone Hrun.
  destruct (negb (q_state q =? RFQ_RUNNING) && negb (q_state q =? RFQ_FENCED)) eqn:Est; [by returned Hrun|].
  returned Hrun. unfold a_stop, abstraction. cbn. by case_match.
Qed.
End Refinement.

(** C24. Without overlapping calls the queue is a bounded FIFO: on an idle queue
    every push, pop, stop, confirm, finish and discard returns what the abstract
    queue returns, leaves its state, and leaves the queue idle. *)
Theorem rfq_refines (qa : option Z) (c : call) (q q' : rfq_queue) (g : session) rc out evs r :
  idle q g -> call_ok c -> spans_ok qa c = true ->
  run_alone (start_call qa c) q = (rc, out, q', evs) ->
  idle q' (foldl record_event g evs) /\
  (spec c (abstraction q g) = Some r -> r = (rc, out, abstraction q' (foldl record_event g evs))).
Proof.
  intros Hidle Hc Hsp Hrun. split.
  - eapply run_alone_ok; [by apply ok_start_call|apply Hidle|done|apply Hidle|apply Hidle|done].
  - pose proof Hsp as Hv. apply andb_true_iff in Hv as [Hv _].
    destruct c; cbn [spec start_call] in *; intros [= <-].
    + by eapply push_refines.
    + by eapply pop_refines.
    + by eapply request_stop_refines.
    + by eapply confirm_refines.
    + by eapply close_refines.
    + by eapply close_refines.
Qed.

(** * Concrete runs *)
(** A scheduler: [inl c] makes a call, [inr i] lets the [i]-th call act once. *)
Fixpoint drive (qa : option Z) (acts : list (call + nat)) (c : config) : config :=
  match acts with
  | [] => c
  | inl call :: acts =>
      drive qa acts (Config (c_queue c) (c_calls c ++ [start_call qa call]) (c_trace c))
  | inr i :: acts =>
      drive qa acts
        match c_calls c !! i with
        | Some (Act f k) =>
            Config (fst (f (c_queue c))) (<[i := k (c_queue c)]> (c_calls c)) (c_trace c ++ snd (f (c_queue c)))
        | _ => c
        end
  end.

Lemma drive_reachable qa acts c :
  Forall (fun a => match a with inl call => call_ok call | inr _ => True end) acts ->
  rtc (step qa) c (drive qa acts c).
Proof.
  intros H. revert c. induction H as [|a acts Ha _ IH]; intros c; [done|].
  destruct a as [call|i]; cbn [drive].
  - eapply rtc_l; [|apply IH]. destruct c as [q ps tr]. by constructor.
  - destruct (c_calls c !! i) as [[rc out|f k]|] eqn:E; [apply IH| |apply IH].
    eapply rtc_l; [|apply IH]. destruct c as [q ps tr]. by constructor.
Qed.

Definition sample_qa : option Z := Some 0x20000000.
Definition sample_at : option Z := Some 0x20010000.
Definition sample_pcm (v : Z) : list Z := fill 320 v.
(** Two pushes, the second overlapping a pop, then a stop request. *)
Definition sample_acts : list (call + nat) :=
  [inl (CallPush 0 sample_at (sample_pcm 3))] ++ replicate 10 (inr 0%nat) ++
  [inl (CallPush 320 sample_at (sample_pcm 4)); inl (CallPop sample_at)] ++
  concat (replicate 8 [inr 1%nat; inr 2%nat]) ++ [inr 1%nat; inr 1%nat; inl CallRequestStop; inr 3%nat; inr 3%nat].
Definition sample_config : config := drive sample_qa sample_acts (initial 0).

Lemma sample_reachable : rtc (step sample_qa) (initial 0) sample_config.
Proof. apply drive_reachable. repeat constructor; done. Qed.

Lemma rfq_fifo_witness :
  map fr_first_sample (g_out (session_of (c_trace sample_config))) = [0] /\
  map fr_first_sample (pending (session_of (c_trace sample_config))) = [320] /\
  g_in (session_of (c_trace sample_config)) =
    g_out (session_of (c_trace sample_config)) ++ pending (session_of (c_trace sample_config)).
Proof.
  split; [vm_compute; reflexivity|]. split; [vm_compute; reflexivity|].
  destruct (rfq_fifo sample_qa 0 sample_config) as [H _].
  - vm_compute; split; discriminate.
  - apply sample_reachable.
  - vm_compute; reflexivity.
  - exact H.
Defined.

(** A continuity fault does not replace the stop the user asked for. *)
Definition sample_next : config :=
  drive sample_qa [inl (CallPush 7 sample_at (sample_pcm 5))] sample_config.

Lemma rfq_stop_is_final_witness :
  q_reason (c_queue sample_config) = RFQ_USER /\ q_reason (c_queue sample_next) = RFQ_USER.
Proof.
  split; [vm_compute; reflexivity|].
  destruct (rfq_stop_is_final sample_qa 0 sample_config sample_next) as [_ H].
  - vm_compute; split; discriminate.
  - apply sample_reachable.
  - change sample_next with (Config (c_queue sample_config)
      (c_calls sample_config ++ [start_call sample_qa (CallPush 7 sample_at (sample_pcm 5))]) (c_trace sample_config)).
    destruct sample_config as [q ps tr]. constructor. vm_compute; split; discriminate.
  - destruct H as [H _]; [vm_compute; reflexivity|].
    rewrite H by (vm_compute; discriminate). vm_compute; reflexivity.
Defined.

Lemma run_alone_returns p q rc out q' evs : run_alone p q = (rc, out, q', evs) -> returns p rc out evs.
Proof.
  revert q q' evs. induction p as [rc0 out0|f k IH]; intros q q' evs; cbn [run_alone].
  - intros [= <- <- _ <-]. constructor.
  - destruct (f q) as [q1 e1] eqn:Ef. destruct (run_alone (k q) q1) as [[[rc1 out1] q2] e2] eqn:E.
    intros [= <- <- _ <-]. replace e1 with (snd (f q)) by by rewrite Ef. constructor. by eapply IH.
Qed.

Lemma rfq_outcome_witness :
  returns (start_call sample_qa (CallPop sample_at)) RFQ_EMPTY None [] /\
  outcome (CallPop sample_at) RFQ_EMPTY None [].
Proof.
  assert (returns (start_call sample_qa (CallPop sample_at)) RFQ_EMPTY None []) as H.
  { apply (run_alone_returns _ (started 0) _ _ (started 0)). vm_compute. reflexivity. }
  split; [exact H|]. apply (rfq_outcome sample_qa _ _ _ _ H).
Defined.

Lemma initial_idle first : 0 <= first <= UINT64_MAX -> idle (started first) (fresh_session first).
Proof. intros Hf. destruct (initial_pool first Hf) as [a Ha]. split; [apply (po_inv _ _ Ha)|done|done]. Qed.

Lemma rfq_refines_witness :
  let '(rc, out, q', evs) := run_alone (start_call sample_qa (CallPush 0 sample_at (sample_pcm 3))) (started 0) in
  rc = RFQ_OK /\ spec_push 0 (sample_pcm 3) (abstraction (started 0) (fresh_session 0)) =
    (rc, out, abstraction q' (foldl record_event (fresh_session 0) evs)).
Proof.
  destruct (run_alone (start_call sample_qa (CallPush 0 sample_at (sample_pcm 3))) (started 0))
    as [[[rc out] q'] evs] eqn:E.
  destruct (rfq_refines sample_qa (CallPush 0 sample_at (sample_pcm 3)) (started 0) q' (fresh_session 0) rc out evs
    (spec_push 0 (sample_pcm 3) (abstraction (started 0) (fresh_session 0)))) as [_ H].
  - apply initial_idle. vm_compute; split; discriminate.
  - vm_compute; split; discriminate.
  - reflexivity.
  - exact E.
  - split; [|apply H; reflexivity].
    apply (f_equal (fun r => fst (fst (fst r)))) in E. cbn [fst] in E. rewrite <- E. vm_compute. reflexivity.
Defined.

(** [rfq_init] on fresh storage gives the queue the runs start from. *)
Lemma rfq_init_starts first :
  run_alone (rfq_init sample_qa true first) RFQ_INITIALIZER = (RFQ_OK, None, started first, [EvStart first]).
Proof. reflexivity. Qed.
