(* ===== verification/ButtonGesture.v ===== *)
(** The button decoder ([button_gesture.h]): debounce, single tap and five taps
    from timed samples of one button. *)
From S2P Require Import Prelude.
From Stdlib Require Import ZifyBool.

Inductive bg_event := BG_NONE | BG_PRESS | BG_SINGLE | BG_FIVE.
#[export] Instance bg_event_eq : EqDecision bg_event.
Proof. solve_decision. Defined.

Record button_gesture := Gesture {
  bg_last : Z; bg_changed : Z; bg_pressed : Z; bg_deadline : Z; bg_first : Z;
  bg_seen : Z; bg_candidate : Z; bg_stable : Z; bg_released : Z; bg_count : Z
}.
#[export] Instance eta_button_gesture : Eta button_gesture := fun g =>
  Gesture (bg_last g) (bg_changed g) (bg_pressed g) (bg_deadline g) (bg_first g)
    (bg_seen g) (bg_candidate g) (bg_stable g) (bg_released g) (bg_count g).
Definition zero_gesture : button_gesture := Gesture 0 0 0 0 0 0 0 0 0 0.

Definition is_true_c (v : Z) : bool := negb (v =? 0).
Definition flag (b : bool) : Z := if b then 1 else 0.

(** [g->stable!=g->candidate&&t-g->changed>=50U] *)
Definition settles (g : button_gesture) (t : Z) : bool :=
  negb (bg_stable g =? bg_candidate g) && (50 <=? u64 (t - bg_changed g)).

(** The block [if(g->count==5)]: the tail of a consumed gesture. *)
Definition bg_consumed (g : button_gesture) (pressed t : Z) : button_gesture :=
  let g := if is_true_c pressed then g <| bg_deadline := u64 (t + 600) |> else g in
  let g := if settles g t then g <| bg_stable := bg_candidate g |> else g in
  if negb (is_true_c pressed) && negb (is_true_c (bg_stable g)) && (bg_deadline g <=? t)
  then g <| bg_count := 0 |> <| bg_released := 1 |> else g.

(** A debounced press: [Some] when it starts a gesture. *)
Definition bg_press (g : button_gesture) (t : Z) : bool * button_gesture :=
  let g := g <| bg_pressed := t |> in
  let g := if is_true_c (bg_count g) && (bg_deadline g <=? t)
           then g <| bg_count := 0 |> <| bg_released := 0 |> else g in
  if negb (is_true_c (bg_count g)) && is_true_c (bg_released g)
  then (true, g <| bg_first := t |>) else (false, g).

(** A debounced release: [true] when it is the fifth tap. *)
Definition bg_release (g : button_gesture) (t : Z) : bool * button_gesture :=
  let held := u64 (t - bg_pressed g) in
  if is_true_c (bg_released g) && (50 <=? held) && (held <=? 1000) && (u64 (t - bg_first g) <=? 3500)
  then
    let g := g <| bg_count := u8 (bg_count g + 1) |> <| bg_deadline := u64 (t + 600) |> in
    if bg_count g =? 5 then (true, g) else (false, g <| bg_released := 1 |>)
  else (false, g <| bg_count := 0 |> <| bg_released := 1 |>).

(** The end of [bg_sample]: a sequence whose quiet time has passed. *)
Definition bg_quiet (g : button_gesture) (t : Z) : bg_event * button_gesture :=
  if is_true_c (bg_count g) && negb (is_true_c (bg_stable g)) && negb (is_true_c (bg_candidate g)) &&
     (bg_deadline g <=? t)
  then (if bg_count g =? 1 then BG_SINGLE else BG_NONE, g <| bg_count := 0 |>)
  else (BG_NONE, g).

Definition bg_sample (g : button_gesture) (pressed t : Z) : bg_event * button_gesture :=
  if (negb (pressed =? 0) && negb (pressed =? 1)) || (is_true_c (bg_seen g) && (t <? bg_last g)) ||
     (UINT64_MAX - 4000 <? t)
  then (BG_NONE, zero_gesture) else
  let g := g <| bg_last := t |> in
  if negb (is_true_c (bg_seen g)) then
    (BG_NONE, g <| bg_seen := 1 |> <| bg_candidate := u8 pressed |> <| bg_stable := u8 pressed |>
                <| bg_released := flag (pressed =? 0) |> <| bg_changed := t |> <| bg_pressed := t |>)
  else
  let g := if negb (bg_candidate g =? u8 pressed)
           then g <| bg_candidate := u8 pressed |> <| bg_changed := t |> else g in
  if bg_count g =? 5 then (BG_NONE, bg_consumed g pressed t) else
  if settles g t then
    let g := g <| bg_stable := bg_candidate g |> in
    if is_true_c pressed then
      let '(starts, g) := bg_press g t in
      if starts then (BG_PRESS, g) else bg_quiet g t
    else
      let '(fifth, g) := bg_release g t in
      if fifth then (BG_FIVE, g) else bg_quiet g t
  else bg_quiet g t.

(** A sequence of samples, with the events it reports and their times. *)
Fixpoint bg_run (g : button_gesture) (samples : list (Z * Z)) : list (bg_event * Z) * button_gesture :=
  match samples with
  | [] => ([], g)
  | (pressed, t) :: samples =>
      let '(e, g) := bg_sample g pressed t in
      let '(es, g) := bg_run g samples in
      (if decide (e = BG_NONE) then es else (e, t) :: es, g)
  end.

(** * Invariant *)
(** [armed]: the time of the press that started the gesture in progress. *)
Definition bit (v : Z) : Prop := 0 <= v <= 1.
Record gesture_inv (g : button_gesture) (armed : option Z) : Prop := {
  gi_bits : bit (bg_seen g) /\ bit (bg_candidate g) /\ bit (bg_stable g) /\ bit (bg_released g);
  gi_count : 0 <= bg_count g <= 5;
  gi_unseen : bg_seen g = 0 -> bg_count g = 0 /\ bg_stable g = 0 /\ bg_last g = 0;
  gi_times : 0 <= bg_changed g <= bg_last g /\ 0 <= bg_pressed g <= bg_last g /\
    0 <= bg_first g <= bg_last g /\ 0 <= bg_deadline g <= bg_last g + 600 /\ bg_last g <= UINT64_MAX - 4000;
  (** between taps: the last accepted release was at [deadline - 600] *)
  gi_taps : 1 <= bg_count g <= 4 ->
    armed = Some (bg_first g) /\
    bg_first g + 100 * bg_count g - 50 <= bg_deadline g - 600 <= bg_first g + 3500 /\
    (bg_stable g = 0 -> bg_candidate g = 1 -> bg_deadline g - 600 <= bg_changed g);
  (** the button is down in a gesture *)
  gi_down : bg_count g < 5 -> bg_stable g = 1 -> bg_released g = 1 ->
    armed = Some (bg_first g) /\ bg_first g + 100 * bg_count g <= bg_pressed g
}.

Definition arm (armed : option Z) (e : bg_event) (t : Z) : option Z :=
  match e with
  | BG_NONE => armed
  | BG_PRESS => Some t
  | BG_SINGLE | BG_FIVE => None
  end.

(** What an event says about the press it belongs to. *)
Definition event_ok (armed : option Z) (e : bg_event) (t : Z) : Prop :=
  match e with
  | BG_NONE | BG_PRESS => True
  | BG_SINGLE => exists p, armed = Some p /\ p + 650 <= t
  | BG_FIVE => exists p, armed = Some p /\ p + 450 <= t <= p + 3500
  end.

Lemma gesture_inv_zero armed : gesture_inv zero_gesture armed.
Proof. split; cbn; unfold bit, UINT64_MAX; intros; lia. Qed.

(** Case analysis on the code's conditions, then arithmetic. *)
Ltac gesture_cases :=
  repeat match goal with
  | H : context [if ?b then _ else _] |- _ => destruct b eqn:?; cbn [fst snd] in *
  | |- context [if ?b then _ else _] => destruct b eqn:?
  end.
Ltac gesture_lia := unfold bit, is_true_c, flag, UINT64_MAX in *; lia.

Lemma settles_spec g t :
  bg_changed g <= bg_last g -> bg_last g = t -> 0 <= bg_changed g -> t <= UINT64_MAX ->
  settles g t = negb (bg_stable g =? bg_candidate g) && (50 <=? t - bg_changed g).
Proof. intros. unfold settles. rewrite u64_small; [done|unfold UINT64_MAX in *; lia]. Qed.

Section Step.
Context (g : button_gesture) (armed : option Z) (t : Z).
Context (Hi : gesture_inv g armed) (Ht : bg_last g = t).

Lemma quiet_inv e g' : bg_count g <> 5 -> bg_quiet g t = (e, g') ->
  gesture_inv g' (arm armed e t) /\ event_ok armed e t.
Proof using All.
  intros Hc. unfold bg_quiet. destruct Hi as [Hb Hn Hu Htm Htaps Hd]. gesture_cases; intros [= <- <-].
  - destruct (Htaps ltac:(gesture_lia)) as (Ha & Hr & _). split; [|exists (bg_first g); split; [done|gesture_lia]].
    split; cbn; try gesture_lia; intros; gesture_lia.
  - split; [|done]. split; cbn; try gesture_lia; intros; gesture_lia.
  - split; [|done]. by split.
Qed.

(** The debounced press of a settled sample. *)
Lemma press_inv starts g' :
  bg_seen g = 1 -> bg_count g <> 5 -> bg_stable g = 0 -> bg_candidate g = 1 -> 50 <= t - bg_changed g ->
  bg_press (g <| bg_stable := 1 |>) t = (starts, g') ->
  bg_last g' = t /\ bg_count g' <> 5 /\ gesture_inv g' (if starts then Some t else armed).
Proof using All.
  intros Hs Hc Hst Hca Hch. unfold bg_press. destruct Hi as [Hb Hn Hu Htm Htaps Hd]. cbn.
  gesture_cases; intros Heq; inversion Heq; subst starts g'; clear Heq; cbn in *; (split_and!; [done|gesture_lia|]).
  all: split; cbn; try gesture_lia; try (intros; gesture_lia); try (intros; split; [done|gesture_lia]).
  all: intros; destruct (Htaps ltac:(gesture_lia)) as (Ha & Hr & Hcd); specialize (Hcd Hst Hca).
  all: split_and!; try done; intros; gesture_lia.
Qed.

Lemma release_inv fifth g' :
  bg_seen g = 1 -> bg_count g <> 5 -> bg_stable g = 1 -> bg_candidate g = 0 ->
  bg_release (g <| bg_stable := 0 |>) t = (fifth, g') ->
  bg_last g' = t /\
  if fifth then gesture_inv g' None /\ event_ok armed BG_FIVE t
  else bg_count g' <> 5 /\ gesture_inv g' armed.
Proof using All.
  intros Hs Hc Hst Hca. unfold bg_release. destruct Hi as [Hb Hn Hu Htm Htaps Hd]. cbn.
  rewrite (u64_small (t - bg_pressed g)), (u64_small (t - bg_first g)), (u64_small (t + 600)) by (unfold UINT64_MAX in *; lia).
  unfold u8. rewrite (Z.mod_small (bg_count g + 1)) by lia.
  gesture_cases; intros Heq; inversion Heq; subst fifth g'; clear Heq; cbn in *; (split; [done|]).
  - destruct (Hd ltac:(lia) Hst ltac:(gesture_lia)) as (Ha & Hp). split.
    + split; cbn; try gesture_lia; intros; gesture_lia.
    + exists (bg_first g). split; [done|gesture_lia].
  - destruct (Hd ltac:(lia) Hst ltac:(gesture_lia)) as (Ha & Hp). split; [gesture_lia|].
    split; cbn; try gesture_lia; intros; split_and!; try done; intros; gesture_lia.
  - split; [gesture_lia|]. split; cbn; try gesture_lia; intros; gesture_lia.
Qed.

Lemma consumed_inv pressed :
  bg_seen g = 1 -> bg_count g = 5 -> bit pressed -> bg_candidate g = pressed ->
  gesture_inv (bg_consumed g pressed t) armed.
Proof using All.
  intros Hs Hc Hp Hca. unfold bg_consumed. destruct Hi as [Hb Hn Hu Htm Htaps Hd].
  rewrite (u64_small (t + 600)) by (unfold UINT64_MAX in *; lia).
  gesture_cases; split; cbn in *; try gesture_lia; intros; gesture_lia.
Qed.
End Step.

Lemma bg_sample_inv g armed pressed t e g' :
  gesture_inv g armed -> 0 <= t -> bg_sample g pressed t = (e, g') ->
  gesture_inv g' (arm armed e t) /\ event_ok armed e t.
Proof.
  intros Hi Ht. unfold bg_sample. destruct (_ || _) eqn:Hbad; [intros [= <- <-]; split; [apply gesture_inv_zero|done]|].
  assert (Hp : pressed = 0 \/ pressed = 1) by gesture_lia.
  assert (Hu8 : u8 pressed = pressed) by (destruct Hp as [-> | ->]; done). rewrite Hu8.
  destruct (negb (is_true_c (bg_seen (g <| bg_last := t |>)))) eqn:Hseen.
  { intros [= <- <-]. split; [|done]. destruct Hi as [? ? Hu ? ? ?]. destruct Hp as [-> | ->].
    all: split; cbn in *; try gesture_lia; intros; gesture_lia. }
  set (g1 := if negb (bg_candidate _ =? pressed) then _ else _).
  assert (H1 : gesture_inv g1 armed /\ bg_last g1 = t /\ bg_candidate g1 = pressed /\ bg_seen g1 = 1).
  { unfold g1. clear g1. destruct Hi as [Hb ? Hu ? Htaps Hd]. cbn in *.
    destruct (negb (bg_candidate g =? pressed)) eqn:Hc; cbn; (split_and!; [|done|gesture_lia..]).
    - split; cbn in *; try gesture_lia; intros; try gesture_lia.
      + destruct (Htaps ltac:(done)) as (? & ? & ?). split_and!; [done|gesture_lia|gesture_lia|intros; gesture_lia].
      + destruct (Hd ltac:(done) ltac:(done) ltac:(done)). split; [done|gesture_lia].
    - split; cbn in *; try gesture_lia; intros; try gesture_lia.
      + destruct (Htaps ltac:(done)) as (? & ? & Hx). split_and!; [done|gesture_lia|gesture_lia|done].
      + destruct (Hd ltac:(done) ltac:(done) ltac:(done)). split; [done|gesture_lia]. }
  clearbody g1. clear Hi Hbad Hseen Hu8 g. destruct H1 as (Hi & Hl & Hca & Hse).
  destruct (Z.eqb_spec (bg_count g1) 5) as [Hc|Hc].
  { intros [= <- <-]. split; [|done]. apply consumed_inv; [exact Hi|exact Hl|exact Hse|exact Hc|gesture_lia|exact Hca]. }
  destruct (settles g1 t) eqn:Hset; [|by apply quiet_inv].
  rewrite settles_spec in Hset by (try apply Hi; try done; destruct Hi as [? ? ? Htm ? ?]; unfold UINT64_MAX in *; lia).
  destruct Hi as [Hb Hn Hu Htm Htaps Hd] eqn:Ei. clear Ei.
  destruct (is_true_c pressed) eqn:Hpr.
  - rewrite Hca. assert (pressed = 1) as -> by gesture_lia.
    destruct (bg_press (g1 <| bg_stable := 1 |>) t) as [starts g2] eqn:Epr.
    destruct (press_inv g1 armed t Hi Hl starts g2 Hse Hc ltac:(gesture_lia) Hca ltac:(gesture_lia) Epr) as (Hl2 & Hc2 & Hi2).
    destruct starts; [intros [= <- <-]; by split|by apply quiet_inv].
  - rewrite Hca. assert (pressed = 0) as -> by gesture_lia.
    destruct (bg_release (g1 <| bg_stable := 0 |>) t) as [fifth g2] eqn:Epr.
    destruct (release_inv g1 armed t Hi Hl fifth g2 Hse Hc ltac:(gesture_lia) Hca Epr) as (Hl2 & Hr).
    destruct fifth; [intros [= <- <-]; by apply Hr|apply quiet_inv; by try apply Hr].
Qed.

(** * The events of a run *)
(** The events so far justify the next one: commands answer the latest press,
    with nothing reported in between. *)
Fixpoint events_ok (armed : option Z) (es : list (bg_event * Z)) : Prop :=
  match es with
  | [] => True
  | (e, t) :: es => event_ok armed e t /\ events_ok (arm armed e t) es
  end.

Lemma bg_run_ok samples g armed :
  gesture_inv g armed -> Forall (fun s => 0 <= snd s) samples -> events_ok armed (fst (bg_run g samples)).
Proof.
  intros Hi Hs. revert g armed Hi. induction Hs as [|[pressed t] samples Ht Hs IH]; intros g armed Hi; [done|].
  cbn [bg_run]. destruct (bg_sample g pressed t) as [e g1] eqn:E. cbn [snd] in Ht.
  destruct (bg_sample_inv g armed pressed t e g1 Hi Ht E) as [Hi1 Ho].
  specialize (IH g1 _ Hi1). destruct (bg_run g1 samples) as [es g2]. destruct (decide (e = BG_NONE)) as [->|]; done.
Qed.

(** C30. From a zeroed decoder and for any samples whatever, every command
    answers the latest reported press and no press is answered twice: a SINGLE
    comes at least 650 ms after its press was settled (held 50 ms, then 600 ms of
    quiet) and a FIVE between 450 and 3500 ms after it. *)
Theorem bg_commands_answer_presses (samples : list (Z * Z)) :
  Forall (fun s => 0 <= snd s) samples -> events_ok None (fst (bg_run zero_gesture samples)).
Proof. intros Hs. apply bg_run_ok; [apply gesture_inv_zero|done]. Qed.

(** Taps at 100/200/1000 ms, then two interrupted sequences. *)
Definition sample_taps : list (Z * Z) :=
  [(0, 0); (1, 100); (1, 150); (0, 200); (0, 250); (0, 850); (1, 1000); (1, 1050); (0, 1100); (0, 1150);
   (1, 1200); (1, 1250); (0, 1300); (0, 1350); (0, 1950)].
Lemma bg_commands_answer_presses_witness :
  fst (bg_run zero_gesture sample_taps) = [(BG_PRESS, 150); (BG_SINGLE, 850); (BG_PRESS, 1050)] /\
  events_ok None (fst (bg_run zero_gesture sample_taps)).
Proof.
  split; [vm_compute; reflexivity|]. apply bg_commands_answer_presses.
  apply Forall_forall. intros x Hx. apply list_elem_of_In in Hx. cbn [sample_taps In] in Hx.
  repeat (destruct Hx as [<-|Hx]; [vm_compute; discriminate|]). destruct Hx.
Defined.

(** * A clean tap is reported *)
(** Between gestures: the button is up and no sequence is pending. *)
Definition resting (g : button_gesture) : Prop :=
  bg_seen g = 1 /\ bg_candidate g = 0 /\ bg_stable g = 0 /\ bg_released g = 1 /\ bg_count g = 0 /\
  0 <= bg_changed g <= bg_last g.

Lemma sample_edge g t :
  resting g -> bg_last g <= t <= UINT64_MAX - 4000 ->
  bg_sample g 1 t = (BG_NONE, g <| bg_last := t |> <| bg_candidate := 1 |> <| bg_changed := t |>).
Proof.
  destruct g as [last ch pr dl fi se ca st re co]. unfold resting. cbn.
  intros (-> & -> & -> & -> & -> & Hch) Ht. unfold bg_sample, is_true_c. change (u8 1) with 1. cbn.
  rewrite (proj2 (Z.ltb_ge t _)), (proj2 (Z.ltb_ge _ t)) by lia. cbn.
  unfold settles. cbn. rewrite Z.sub_diag. done.
Qed.

(** From rest, a press settled at [b] and a release settled at [d] between
    50 and 1000 ms later, followed by a sample with the button up at least 600 ms
    after that, are reported as one PRESS at [b] and one SINGLE, and leave the
    decoder at rest; the samples are never refused before the clock nears 2^64. *)
Theorem bg_single_tap (g : button_gesture) (a b c d e : Z) :
  resting g -> bg_last g <= a -> a + 50 <= b -> b <= c -> c + 50 <= d -> d <= b + 1000 -> d + 600 <= e ->
  e <= UINT64_MAX - 4000 ->
  let '(events, g') := bg_run g [(1, a); (1, b); (0, c); (0, d); (0, e)] in
  events = [(BG_PRESS, b); (BG_SINGLE, e)] /\ resting g'.
Proof.
  intros Hrest Ha Hb Hc Hd Hd' He Hmax. cbn [bg_run]. rewrite sample_edge by (done || lia).
  destruct g as [last ch pr dl fi se ca st re co]. unfold resting in *. cbn in Hrest, Ha.
  destruct Hrest as (-> & -> & -> & -> & -> & Hch). unfold UINT64_MAX in *.
  set (g1 := (Gesture last ch pr dl fi 1 0 0 1 0) <| bg_last := a |> <| bg_candidate := 1 |> <| bg_changed := a |>).
  assert (E2 : bg_sample g1 1 b = (BG_PRESS, g1 <| bg_last := b |> <| bg_stable := 1 |> <| bg_pressed := b |> <| bg_first := b |>)).
  { unfold bg_sample, settles, is_true_c, UINT64_MAX, g1. change (u8 1) with 1. cbn. rewrite (proj2 (Z.ltb_ge b a)), (proj2 (Z.ltb_ge _ b)) by lia. cbn. rewrite u64_small, (proj2 (Z.leb_le 50 _)) by lia. unfold bg_press, is_true_c. cbn. done. }
  rewrite E2. set (g2 := g1 <| bg_last := b |> <| bg_stable := 1 |> <| bg_pressed := b |> <| bg_first := b |>).
  assert (E3 : bg_sample g2 0 c = (BG_NONE, g2 <| bg_last := c |> <| bg_candidate := 0 |> <| bg_changed := c |>)).
  { unfold bg_sample, settles, is_true_c, UINT64_MAX, g2, g1. change (u8 0) with 0. cbn. rewrite (proj2 (Z.ltb_ge c b)), (proj2 (Z.ltb_ge _ c)) by lia. cbn. rewrite Z.sub_diag. cbn.
    unfold bg_quiet, is_true_c. cbn. done. }
  rewrite E3. set (g3 := g2 <| bg_last := c |> <| bg_candidate := 0 |> <| bg_changed := c |>).
  assert (E4 : bg_sample g3 0 d = (BG_NONE, g3 <| bg_last := d |> <| bg_stable := 0 |> <| bg_count := 1 |>
                                               <| bg_deadline := d + 600 |> <| bg_released := 1 |>)).
  { unfold bg_sample, settles, is_true_c, UINT64_MAX, g3, g2, g1. change (u8 0) with 0. cbn. rewrite (proj2 (Z.ltb_ge d c)), (proj2 (Z.ltb_ge _ d)) by lia. cbn.
    rewrite u64_small, (proj2 (Z.leb_le 50 _)) by lia. unfold bg_release, is_true_c. cbn. rewrite (u64_small (d - b)), (u64_small (d + 600)) by lia.
    rewrite (proj2 (Z.leb_le 50 _)), (proj2 (Z.leb_le _ 1000)), (proj2 (Z.leb_le _ 3500)) by lia. change (u8 (0 + 1)) with 1. cbn.
    unfold bg_quiet, is_true_c. cbn. by rewrite (proj2 (Z.leb_gt _ _)) by lia. }
  rewrite E4. set (g4 := g3 <| bg_last := d |> <| bg_stable := 0 |> <| bg_count := 1 |>
                            <| bg_deadline := d + 600 |> <| bg_released := 1 |>).
  assert (E5 : bg_sample g4 0 e = (BG_SINGLE, g4 <| bg_last := e |> <| bg_count := 0 |>)).
  { unfold bg_sample, settles, is_true_c, UINT64_MAX, g4, g3, g2, g1. change (u8 0) with 0. cbn. rewrite (proj2 (Z.ltb_ge e d)), (proj2 (Z.ltb_ge _ e)) by lia. cbn.
    unfold bg_quiet, is_true_c. cbn. by rewrite (proj2 (Z.leb_le _ _)) by lia. }
  rewrite E5. cbn. split; [done|]. unfold resting. cbn. split_and!; try done; lia.
Qed.

Lemma bg_single_tap_witness :
  let g := snd (bg_run zero_gesture [(0, 10)]) in
  resting g /\ fst (bg_run g [(1, 20); (1, 70); (0, 300); (0, 350); (0, 950)]) = [(BG_PRESS, 70); (BG_SINGLE, 950)].
Proof.
  cbv zeta. assert (H : resting (snd (bg_run zero_gesture [(0, 10)]))) by (vm_compute; split_and!; try reflexivity; discriminate).
  split; [exact H|].
  pose proof (bg_single_tap (snd (bg_run zero_gesture [(0, 10)])) 20 70 300 350 950 H) as T.
  destruct (bg_run (snd (bg_run zero_gesture [(0, 10)])) [(1, 20); (1, 70); (0, 300); (0, 350); (0, 950)]) as [events g'].
  apply T; vm_compute; discriminate.
Defined.
