(* ===== verification/SegmentHeader.v ===== *)
(** The encrypted segment container ([encrypted_segment_header.c/.h]): the
    128-byte big-endian header that binds a ciphertext to its key, device,
    volume, recording and sequence, the container frame around it and the HPKE
    info string. *)
From S2P Require Import Prelude.

Definition ES_HEADER_BYTES : Z := 128.
Definition ES_ENCAP_BYTES : Z := 65.
Definition ES_TAG_BYTES : Z := 16.
Definition ES_MAX_PLAINTEXT_BYTES : Z := 65536.
Definition ES_MAX_CONTAINER_BYTES : Z :=
  ES_HEADER_BYTES + ES_ENCAP_BYTES + ES_MAX_PLAINTEXT_BYTES + ES_TAG_BYTES.
Definition ES_INFO_BYTES : Z := 161.

Inductive es_result := ES_OK | ES_ARGUMENT | ES_INVALID.
#[export] Instance es_result_eq : EqDecision es_result.
Proof. solve_decision. Defined.

Record es_binding := EsBinding {
  eb_key_fingerprint : bytes; eb_device_id : bytes; eb_volume_id : bytes; eb_recording_id : bytes;
  eb_generation : Z; eb_segment_sequence : Z; eb_plaintext_bytes : Z
}.
Definition sizeof_es_binding : Z := 96.

Definition es_magic : bytes := [0x4f; 0x50; 0x4e; 0x44; 0x45; 0x53; 0x31; 0].
(** ["OpenPendant encrypted segment v1"] with its terminating zero. *)
Definition es_domain : bytes :=
  [0x4f; 0x70; 0x65; 0x6e; 0x50; 0x65; 0x6e; 0x64; 0x61; 0x6e; 0x74; 0x20;
   0x65; 0x6e; 0x63; 0x72; 0x79; 0x70; 0x74; 0x65; 0x64; 0x20;
   0x73; 0x65; 0x67; 0x6d; 0x65; 0x6e; 0x74; 0x20; 0x76; 0x31; 0].

(** [put(p + off, v, n)] and [get(p + off, n)], big-endian. *)
Definition put_be (off v n : Z) : field := (off, be (Z.to_nat n) v).
Definition get_be (off n : Z) (p : bytes) : Z := unbe (slice off n p).

Definition es_valid (b : ptr es_binding) : bool :=
  match b with
  | None => false
  | Some b =>
      let b := deref b in
      identity (eb_key_fingerprint b) && identity (eb_device_id b) && identity (eb_volume_id b) &&
      identity (eb_recording_id b) && (0 <? eb_generation b) && (eb_generation b <=? INT64_MAX) &&
      (eb_segment_sequence b <=? INT32_MAX) && (0 <? eb_plaintext_bytes b) &&
      (eb_plaintext_bytes b <=? ES_MAX_PLAINTEXT_BYTES)
  end.

Definition es_fields (b : es_binding) : list field :=
  [(0, fill ES_HEADER_BYTES 0); (0, es_magic); put_be 8 1 2; put_be 10 128 2; put_be 12 16 2;
   put_be 14 1 2; put_be 16 2 2; (20, eb_key_fingerprint b); (52, eb_device_id b); (68, eb_volume_id b);
   put_be 84 (eb_generation b) 8; (92, eb_recording_id b);
   put_be 108 (eb_segment_sequence b) 4; put_be 112 (eb_plaintext_bytes b) 4].

Definition es_header_build (out : ptr bytes) (size : Z) (b : ptr es_binding) : es_result * option bytes :=
  match out, b with
  | Some o, Some bo =>
      if negb (size =? ES_HEADER_BYTES) || negb (es_valid b) || poverlap out size b sizeof_es_binding
      then (ES_ARGUMENT, None)
      else (ES_OK, Some (blits (es_fields (deref bo)) (deref o)))
  | _, _ => (ES_ARGUMENT, None)
  end.

Definition es_matches (p : bytes) (b : es_binding) : bool :=
  equal (slice 0 8 p) es_magic && (get_be 8 2 p =? 1) && (get_be 10 2 p =? 128) && (get_be 12 2 p =? 16) &&
  (get_be 14 2 p =? 1) && (get_be 16 2 p =? 2) && (get_be 18 2 p =? 0) && all (slice 116 12 p) 0 &&
  equal (slice 20 32 p) (eb_key_fingerprint b) && equal (slice 52 16 p) (eb_device_id b) &&
  equal (slice 68 16 p) (eb_volume_id b) && (get_be 84 8 p =? eb_generation b) &&
  equal (slice 92 16 p) (eb_recording_id b) && (get_be 108 4 p =? eb_segment_sequence b) &&
  (get_be 112 4 p =? eb_plaintext_bytes b).

Definition es_header_validate (p : ptr bytes) (size : Z) (b : ptr es_binding) : es_result :=
  match p, b with
  | Some po, Some bo =>
      if negb (size =? ES_HEADER_BYTES) || negb (es_valid b) || poverlap p size b sizeof_es_binding
      then ES_ARGUMENT
      else if es_matches (deref po) (deref bo) then ES_OK else ES_INVALID
  | _, _ => ES_ARGUMENT
  end.

Definition es_container_validate (p : ptr bytes) (size : Z) (b : ptr es_binding) : es_result :=
  match p, b with
  | Some po, Some bo =>
      if negb (es_valid b) || (size <? ES_HEADER_BYTES) || (ES_MAX_CONTAINER_BYTES <? size) ||
         poverlap p size b sizeof_es_binding
      then ES_ARGUMENT
      else if negb (size =? ES_HEADER_BYTES + ES_ENCAP_BYTES + eb_plaintext_bytes (deref bo) + ES_TAG_BYTES)
      then ES_INVALID
      else match es_header_validate p ES_HEADER_BYTES b with
           | ES_OK => if znth ES_HEADER_BYTES (deref po) =? 4 then ES_OK else ES_INVALID
           | rc => rc
           end
  | _, _ => ES_ARGUMENT
  end.

Definition es_info_build (out : ptr bytes) (size : Z) (p : ptr bytes) (psize : Z) (b : ptr es_binding)
  : es_result * option bytes :=
  match out, p, b with
  | Some o, Some po, Some _ =>
      if negb (size =? ES_INFO_BYTES) || poverlap out size p psize || poverlap out size b sizeof_es_binding
      then (ES_ARGUMENT, None)
      else match es_header_validate p psize b with
           | ES_OK => (ES_OK, Some (blits [(0, es_domain); (33, slice 0 ES_HEADER_BYTES (deref po))] (deref o)))
           | rc => (rc, None)
           end
  | _, _, _ => (ES_ARGUMENT, None)
  end.

(** * Big-endian fields *)
Lemma unbe_unle bs : unbe bs = unle (rev bs).
Proof.
  rewrite <- (rev_involutive bs) at 1. rewrite unbe_rev. generalize (rev bs) as l.
  induction l as [|b l IH]; simpl; [done|]. by rewrite IH, Z.lor_comm.
Qed.

Lemma be_unbe bs : is_bytes bs -> be (length bs) (unbe bs) = bs.
Proof.
  intros Hb. unfold be. rewrite unbe_unle, <- length_rev, le_unle; [apply rev_involutive|].
  apply Forall_forall. intros x Hx. apply list_elem_of_In, in_rev, list_elem_of_In in Hx.
  by apply (proj1 (Forall_forall is_byte bs) Hb).
Qed.

(** The value of a big-endian field fixes its bytes. *)
Lemma slice_of_get_be off n p v :
  0 <= off -> 0 <= n -> off + n <= zlen p -> is_bytes p -> get_be off n p = v -> slice off n p = be (Z.to_nat n) v.
Proof.
  intros ? ? ? Hp <-. unfold get_be. rewrite <- (be_unbe (slice off n p)) at 1 by by apply is_bytes_slice.
  f_equal. pose proof (zlen_slice off n p). unfold zlen in *. lia.
Qed.

Lemma get_be_slice off n p v :
  0 <= v < 2 ^ (8 * n) -> 0 <= n -> slice off n p = be (Z.to_nat n) v -> get_be off n p = v.
Proof. intros ? ? E. unfold get_be. rewrite E, unbe_be, Z2Nat.id by lia. by apply Z.mod_small. Qed.

(** * Correctness *)
Record es_wf (b : es_binding) : Prop := {
  ew_key : zlen (eb_key_fingerprint b) = 32; ew_device : zlen (eb_device_id b) = 16;
  ew_volume : zlen (eb_volume_id b) = 16; ew_recording : zlen (eb_recording_id b) = 16;
  ew_sequence : 0 <= eb_segment_sequence b
}.

Definition es_shape : list (Z * Z) :=
  [(0, 128); (0, 8); (8, 2); (10, 2); (12, 2); (14, 2); (16, 2); (20, 32); (52, 16); (68, 16); (84, 8);
   (92, 16); (108, 4); (112, 4)].
Lemma es_fields_shape b : es_wf b -> shape_of (es_fields b) = es_shape.
Proof.
  intros [? ? ? ? ?]. unfold shape_of, es_fields, put_be, ES_HEADER_BYTES. cbn [map].
  rewrite !zlen_be, zlen_fill by lia. by repeat f_equal.
Qed.

(** What the fields of a header built for [b] read as. *)
Definition es_regions (b : es_binding) : list (Z * Z * bytes) :=
  [(0, 8, es_magic); (8, 2, be 2 1); (10, 2, be 2 128); (12, 2, be 2 16); (14, 2, be 2 1); (16, 2, be 2 2);
   (18, 2, fill 2 0); (20, 32, eb_key_fingerprint b); (52, 16, eb_device_id b); (68, 16, eb_volume_id b);
   (84, 8, be 8 (eb_generation b)); (92, 16, eb_recording_id b); (108, 4, be 4 (eb_segment_sequence b));
   (112, 4, be 4 (eb_plaintext_bytes b)); (116, 12, fill 12 0)].

Lemma es_built_reads b base : es_wf b -> zlen base = 128 ->
  zlen (blits (es_fields b) base) = 128 /\ reads_as (blits (es_fields b) base) (es_regions b).
Proof.
  intros Hwf Hl. pose proof (es_fields_shape b Hwf) as Hsh. assert (Hf : fits 128 es_shape = true) by done.
  split; [rewrite zlen_blits by (by rewrite Hl, Hsh); done|]. destruct Hwf.
  unfold es_regions. reads_blits.
Qed.

Lemma es_matches_reads p b :
  es_wf b -> es_valid (Some (Obj 0 b)) = true -> zlen p = 128 -> is_bytes p ->
  es_matches p b = true <-> reads_as p (es_regions b).
Proof.
  intros [? ? ? ? ?] Hv Hl Hp. cbn in Hv. rewrite !andb_true_iff, !Z.ltb_lt, !Z.leb_le in Hv. destruct_and! Hv.
  unfold es_matches, reads_as, es_regions. rewrite !andb_true_iff, !Z.eqb_eq, !Forall_cons, Forall_nil.
  unfold INT64_MAX, INT32_MAX, ES_MAX_PLAINTEXT_BYTES in *.
  rewrite !equal_spec by (rewrite zlen_slice by lia; done).
  assert (Hbe : forall o n v, 0 <= o -> 0 <= n -> o + n <= 128 -> 0 <= v < 2 ^ (8 * n) ->
            get_be o n p = v <-> slice o n p = be (Z.to_nat n) v).
  { intros o n v Ho Hn Hon Hvr. split; [apply slice_of_get_be; done || lia|apply get_be_slice; lia]. }
  rewrite !Hbe by lia. rewrite all_spec, zlen_slice by lia.
  change (be (Z.to_nat 2) 0) with (fill 2 0). tauto.
Qed.

Lemma es_valid_addr a b : es_valid (Some (Obj a b)) = es_valid (Some (Obj 0 b)).
Proof. done. Qed.

Lemma be_inj n v w :
  0 <= v < 2 ^ (8 * Z.of_nat n) -> 0 <= w < 2 ^ (8 * Z.of_nat n) -> be n v = be n w -> v = w.
Proof. intros ? ? E. apply (f_equal unbe) in E. by rewrite !unbe_be, !Z.mod_small in E. Qed.

(** A header fixes its binding. *)
Lemma reads_as_binding p b1 b2 :
  es_wf b1 -> es_wf b2 -> es_valid (Some (Obj 0 b1)) = true -> es_valid (Some (Obj 0 b2)) = true ->
  reads_as p (es_regions b1) -> reads_as p (es_regions b2) -> b1 = b2.
Proof.
  intros W1 W2 V1 V2 R1 R2. destruct b1 as [k1 d1 v1 r1 g1 s1 n1], b2 as [k2 d2 v2 r2 g2 s2 n2].
  destruct W1 as [_ _ _ _ W1], W2 as [_ _ _ _ W2]. cbn in W1, W2, V1, V2.
  rewrite !andb_true_iff, !Z.ltb_lt, !Z.leb_le in V1, V2. unfold INT64_MAX, INT32_MAX, ES_MAX_PLAINTEXT_BYTES in *.
  destruct_and! V1. destruct_and! V2.
  unfold reads_as, es_regions in R1, R2. rewrite !Forall_cons in R1, R2. cbn in R1, R2.
  destruct_and! R1. destruct_and! R2.
  assert (g1 = g2) as -> by (apply (be_inj 8); [lia|lia|congruence]).
  assert (s1 = s2) as -> by (apply (be_inj 4); [lia|lia|congruence]).
  assert (n1 = n2) as -> by (apply (be_inj 4); [lia|lia|congruence]).
  f_equal; congruence.
Qed.

Lemma es_header_validate_inv p size b :
  es_header_validate p size b = ES_OK ->
  exists po bo, p = Some po /\ b = Some bo /\ size = 128 /\ es_valid b = true /\
    poverlap p size b sizeof_es_binding = false /\ es_matches (deref po) (deref bo) = true.
Proof.
  unfold es_header_validate. destruct p as [po|], b as [bo|]; try done.
  destruct (_ || _) eqn:E; [done|]. apply orb_false_iff in E as [E E3]. apply orb_false_iff in E as [E1 E2].
  apply negb_false_iff in E1, E2. apply Z.eqb_eq in E1.
  destruct (es_matches (deref po) (deref bo)) eqn:E4; [|done]. intros _. by exists po, bo.
Qed.

(** C38. Validation accepts exactly one header: a 128-byte buffer validates
    under a binding if and only if it is, byte for byte, the header
    [es_header_build] writes for that binding (whatever the output held). *)
Theorem es_header_canonical (out : ptr bytes) (p : obj bytes) (b : obj es_binding) (h : bytes)
    (Hwf : es_wf (deref b)) (Hp : is_bytes (deref p)) (Hl : zlen (deref p) = 128)
    (Hout : forall o, out = Some o -> zlen (deref o) = 128)
    (Hsep : poverlap (Some p) ES_HEADER_BYTES (Some b) sizeof_es_binding = false)
    (Hb : es_header_build out ES_HEADER_BYTES (Some b) = (ES_OK, Some h)) :
  es_header_validate (Some p) ES_HEADER_BYTES (Some b) = ES_OK <-> deref p = h.
Proof.
  unfold es_header_build in Hb. destruct out as [o|]; [|done].
  destruct (_ || _) eqn:E in Hb; [done|]. injection Hb as <-.
  apply orb_false_iff in E as [E _]. apply orb_false_iff in E as [_ Hv]. apply negb_false_iff in Hv.
  destruct (es_built_reads (deref b) (deref o) Hwf (Hout o eq_refl)) as [Hlb Hrb].
  pose proof (es_matches_reads (deref p) (deref b) Hwf Hv Hl Hp) as Hm.
  unfold es_header_validate. rewrite Hsep, Hv. cbn [negb orb Z.eqb ES_HEADER_BYTES Pos.eqb].
  split.
  - destruct (es_matches (deref p) (deref b)) eqn:Em; [|done]. intros _. by eapply (reads_as_eq (es_regions (deref b)) 128); [|..|apply Hm|].
  - intros E. by rewrite (proj2 Hm) by by rewrite E.
Qed.

(** A container that validates is exactly framed for its binding (header,
    65-byte encapsulation starting with 4, plaintext length, 16-byte tag), and
    the same bytes never validate under two bindings. *)
Theorem es_container_sound (p1 p2 : obj bytes) (size : Z) (b1 b2 : obj es_binding)
    (Hp : is_bytes (deref p1)) (Hl : zlen (deref p1) = size) (W1 : es_wf (deref b1)) (W2 : es_wf (deref b2))
    (V1 : es_container_validate (Some p1) size (Some b1) = ES_OK)
    (V2 : es_container_validate (Some p2) size (Some b2) = ES_OK)
    (Hsame : deref p1 = deref p2) :
  size = 209 + eb_plaintext_bytes (deref b1) /\ size <= ES_MAX_CONTAINER_BYTES /\ znth 128 (deref p1) = 4 /\
  deref b1 = deref b2.
Proof.
  assert (Hinv : forall p b, es_wf (deref b) -> zlen (deref p) = size -> is_bytes (deref p) ->
    es_container_validate (Some p) size (Some b) = ES_OK ->
    size = 209 + eb_plaintext_bytes (deref b) /\ size <= ES_MAX_CONTAINER_BYTES /\ znth 128 (deref p) = 4 /\
    es_valid (Some (Obj 0 (deref b))) = true /\ es_matches (deref p) (deref b) = true).
  { intros p b W Hlp Hpb. unfold es_container_validate. destruct (_ || _) eqn:E; [done|].
    apply orb_false_iff in E as [E _]. apply orb_false_iff in E as [E E3]. apply orb_false_iff in E as [E1 E2].
    destruct (negb (size =? _)) eqn:E4; [done|]. apply negb_false_iff, Z.eqb_eq in E4.
    destruct (es_header_validate (Some p) ES_HEADER_BYTES (Some b)) eqn:E5; [|done|done].
    destruct (Z.eqb_spec (znth ES_HEADER_BYTES (deref p)) 4); [|done]. intros _.
    apply es_header_validate_inv in E5 as (? & ? & [= <-] & [= <-] & _ & Hv & _ & Hm).
    apply Z.ltb_ge in E3. unfold ES_HEADER_BYTES, ES_ENCAP_BYTES, ES_TAG_BYTES in *. split_and!; try done; lia. }
  destruct (Hinv p1 b1 W1 Hl Hp V1) as (E1 & E2 & E3 & E4 & E5).
  destruct (Hinv p2 b2 W2 ltac:(by rewrite <- Hsame) ltac:(by rewrite <- Hsame) V2) as (_ & _ & _ & F4 & F5).
  split_and!; try done. rewrite <- Hsame in F5.
  assert (Hpre : forall b, es_matches (deref p1) b = es_matches (slice 0 128 (deref p1)) b).
  { intros b. cbn in E4. rewrite !andb_true_iff, !Z.ltb_lt in E4.
    unfold es_matches, get_be. rewrite !slice_slice by lia. reflexivity. }
  rewrite Hpre in E5, F5. cbn in E4. assert (0 < eb_plaintext_bytes (deref b1)) by (rewrite !andb_true_iff, !Z.ltb_lt in E4; tauto).
  apply (reads_as_binding (slice 0 128 (deref p1))); try done.
  - apply es_matches_reads; try done; [apply zlen_slice; lia|by apply is_bytes_slice].
  - apply es_matches_reads; try done; [apply zlen_slice; lia|by apply is_bytes_slice].
Qed.

(** * A concrete segment *)
Definition sample_es : es_binding :=
  EsBinding (fill 32 7) (fill 16 1) (fill 16 2) (fill 16 3) 5 9 100.
Definition es_at : obj es_binding := Obj 0x20000 sample_es.
Definition es_out : obj bytes := Obj 0x30000 (fill 128 0xaa).
Definition sample_es_header : bytes := default [] (snd (es_header_build (Some es_out) 128 (Some es_at))).
Definition sample_es_container : bytes := sample_es_header ++ [4] ++ fill 180 0x55.

Lemma sample_es_wf : es_wf sample_es.
Proof. by split. Qed.

Lemma es_header_canonical_witness :
  es_header_validate (Some (Obj 0x40000 sample_es_header)) ES_HEADER_BYTES (Some es_at) = ES_OK.
Proof.
  apply (es_header_canonical (Some es_out) (Obj 0x40000 sample_es_header) es_at sample_es_header).
  - exact sample_es_wf.
  - apply is_bytesb_sound. vm_compute. reflexivity.
  - vm_compute. reflexivity.
  - intros o [= <-]. vm_compute. reflexivity.
  - vm_compute. reflexivity.
  - vm_compute. reflexivity.
  - reflexivity.
Defined.

Lemma es_container_sound_witness : 309 = 209 + eb_plaintext_bytes sample_es /\ znth 128 sample_es_container = 4.
Proof.
  destruct (es_container_sound (Obj 0x40000 sample_es_container) (Obj 0x50000 sample_es_container) 309 es_at es_at)
    as (E1 & _ & E2 & _).
  - apply is_bytesb_sound. vm_compute. reflexivity.
  - vm_compute. reflexivity.
  - exact sample_es_wf.
  - exact sample_es_wf.
  - vm_compute. reflexivity.
  - vm_compute. reflexivity.
  - reflexivity.
  - exact (conj E1 E2).
Defined.
