(* ===== verification/Extent.v ===== *)
(** The recording extent descriptor ([recording_extent.c/.h], with the constants
    of [recording_large_layout.h]): 256 bytes binding a device, a volume, a
    generation and a recipient to one of two fixed NAND geometries. *)
From S2P Require Import Prelude OwnedPage.

Definition RLL_BLOCKS : Z := 2048.
Definition RLL_CAPACITY : Z := 94208.
Definition RLL_ROOTS : Z := 32.
Definition RLL_SLOTS : Z := 5120.
Definition RLL_SLOT_PAGES : Z := 18.
Definition RLL_ROS_CAPACITY : Z := RLL_ROOTS + RLL_SLOTS * RLL_SLOT_PAGES.
Definition RLL_RECEIPTS_PER_PAGE : Z := 32.
Definition RLL_RECEIPT_PAGES : Z := (RLL_SLOTS + 31) / 32.
Definition RLL_TOMBSTONES : Z := 512.
Definition RLL_TOMBSTONES_PER_PAGE : Z := 14.
Definition RLL_TOMBSTONE_PAGES : Z := (RLL_TOMBSTONES + 13) / 14.
Definition RLL_RECEIPT_BASE : Z := RLL_ROS_CAPACITY.
Definition RLL_TOMBSTONE_BASE : Z := RLL_RECEIPT_BASE + RLL_RECEIPT_PAGES.
Definition RLL_METADATA_ROOT : Z := RLL_CAPACITY - 1.

Definition REX_FIRST_BLOCK : Z := 0.
Definition REX_BLOCKS : Z := 1536.
Definition REX_CAPACITY : Z := 65536.
Definition REX_MAX_BAD_BLOCKS : Z := 40.
Definition REX_DESCRIPTOR_BYTES : Z := 256.
Definition REX_DIGEST_OFFSET : Z := 224.

Record recording_extent_identity := ExtentIdentity {
  xi_device_id : bytes; xi_volume_id : bytes; xi_generation : Z; xi_recipient_fingerprint : bytes
}.
Definition sizeof_recording_extent_identity : Z := 72.

(** The first seven bytes of "OPNDEX1" and "OPNDEX2". *)
Definition rex_magic (version : Z) : bytes := [0x4f; 0x50; 0x4e; 0x44; 0x45; 0x58; 0x30 + version].
Definition rex_dhara : bytes :=
  [0xfc; 0x38; 0x49; 0x09; 0x4b; 0x35; 0x4c; 0x7b; 0xc4; 0x74; 0xa1; 0x65; 0xcf; 0x08; 0xcf; 0xf0;
   0xe3; 0x6a; 0x9e; 0x33; 0x95; 0x4a; 0xf8; 0x5f; 0xb7; 0x8b; 0xfd; 0x6b; 0xac; 0x3a; 0x3c; 0xbd].
(** The 33 bytes copied from "OpenPendant large native extent v1": the copy
    stops before the final "1". *)
Definition rex_label : bytes :=
  [0x4f; 0x70; 0x65; 0x6e; 0x50; 0x65; 0x6e; 0x64; 0x61; 0x6e; 0x74; 0x20; 0x6c; 0x61; 0x72; 0x67; 0x65; 0x20;
   0x6e; 0x61; 0x74; 0x69; 0x76; 0x65; 0x20; 0x65; 0x78; 0x74; 0x65; 0x6e; 0x74; 0x20; 0x76].
(** The 32 bytes copied from "OpenPendant full native extent v2", likewise. *)
Definition rex_label_full : bytes :=
  [0x4f; 0x70; 0x65; 0x6e; 0x50; 0x65; 0x6e; 0x64; 0x61; 0x6e; 0x74; 0x20; 0x66; 0x75; 0x6c; 0x6c; 0x20;
   0x6e; 0x61; 0x74; 0x69; 0x76; 0x65; 0x20; 0x65; 0x78; 0x74; 0x65; 0x6e; 0x74; 0x20; 0x76].

Definition rex_fields (id : recording_extent_identity) : list field :=
  [(0, fill 256 0); (0, rex_magic 1); put32 8 1; put32 12 256;
   (16, xi_device_id id); (32, xi_volume_id id); put64 48 (xi_generation id);
   (56, xi_recipient_fingerprint id);
   put32 88 REX_FIRST_BLOCK; put32 92 REX_BLOCKS; put32 96 REX_CAPACITY;
   put32 100 4096; put32 104 256; put32 108 64; put32 112 2048;
   put32 116 4; put32 120 REX_MAX_BAD_BLOCKS; (124, [0x2c]); (125, [0x35]);
   (126, [0x48]); (127, [0x7c]); (128, rex_dhara); (160, rex_label)].
(** What the full profile overwrites. *)
Definition rex_fields_full : list field :=
  [(0, rex_magic 2); put32 8 2; put32 92 RLL_BLOCKS; put32 96 RLL_CAPACITY;
   (126, [0]); (160, fill 64 0); (160, rex_label_full)].

Definition rex_id_valid (id : recording_extent_identity) : bool :=
  identity (xi_device_id id) && identity (xi_volume_id id) && identity (xi_recipient_fingerprint id) &&
  negb (xi_generation id =? 0) && (xi_generation id <=? INT64_MAX).

(** [build]: 0, -1 for an argument or content error (output untouched), -2 when
    the digest provider fails (output wiped). *)
Definition rex_build_as (out : ptr bytes) (id : ptr recording_extent_identity) (h : ptr owned_page_hash)
    (full : bool) : Z * option bytes :=
  match out, id, h with
  | Some o, Some i, Some ho =>
      if bool_decide (sha256 (deref ho) = None) || poverlap out 256 id sizeof_recording_extent_identity ||
         poverlap out 256 h sizeof_owned_page_hash || negb (rex_id_valid (deref i))
      then (-1, None)
      else
        let p := blits (rex_fields (deref i)) (deref o) in
        let p := if full then blits rex_fields_full p else p in
        match sha_digest (deref ho) (slice 0 REX_DIGEST_OFFSET p) with
        | Some value => (0, Some (blit REX_DIGEST_OFFSET value p))
        | None => (-2, Some (fill 256 0))
        end
  | _, _, _ => (-1, None)
  end.
Definition rex_build out id h := rex_build_as out id h false.
Definition rex_build_full out id h := rex_build_as out id h true.

(** [expected_at]: the address of the local buffer the descriptor is rebuilt in. *)
Definition rex_validate_as (expected_at : Z) (full : bool) (b : ptr bytes)
    (id : ptr recording_extent_identity) (h : ptr owned_page_hash) : Z :=
  match b, id, h with
  | Some bo, Some _, Some _ =>
      let '(rc, expected) := rex_build_as (Some (Obj expected_at (fill 256 0))) id h full in
      if rc =? 0
      then if bool_decide (slice 0 256 (deref bo) = default [] expected) then 0 else -1
      else rc
  | _, _, _ => -1
  end.
Definition rex_validate expected_at b id h := rex_validate_as expected_at false b id h.
Definition rex_validate_full expected_at b id h := rex_validate_as expected_at true b id h.

(** * Correctness *)
Record extent_wf (id : recording_extent_identity) : Prop := {
  xw_device : zlen (xi_device_id id) = 16; xw_volume : zlen (xi_volume_id id) = 16;
  xw_recipient : zlen (xi_recipient_fingerprint id) = 32; xw_generation : 0 <= xi_generation id
}.

Definition rex_all_fields (full : bool) (id : recording_extent_identity) (value : bytes) : list field :=
  rex_fields id ++ (if full then rex_fields_full else []) ++ [(REX_DIGEST_OFFSET, value)].
Definition rex_shape (full : bool) : list (Z * Z) :=
  [(0, 256); (0, 7); (8, 4); (12, 4); (16, 16); (32, 16); (48, 8); (56, 32); (88, 4); (92, 4); (96, 4);
   (100, 4); (104, 4); (108, 4); (112, 4); (116, 4); (120, 4); (124, 1); (125, 1); (126, 1); (127, 1);
   (128, 32); (160, 33)] ++
  (if full then [(0, 7); (8, 4); (92, 4); (96, 4); (126, 1); (160, 64); (160, 32)] else []) ++ [(224, 32)].

Lemma rex_shape_of full id value : extent_wf id -> zlen value = 32 -> shape_of (rex_all_fields full id value) = rex_shape full.
Proof.
  intros [Hd Hv Hr _] Hval. unfold shape_of, rex_all_fields, rex_fields, rex_fields_full, put32, put64.
  destruct full; cbn [map app]; rewrite !zlen_le, ?zlen_fill, Hd, Hv, Hr, Hval by lia; reflexivity.
Qed.

(** What identifies a built descriptor: profile and identity read back from it. *)
Lemma rex_reads full id value base :
  extent_wf id -> rex_id_valid id = true -> zlen value = 32 -> zlen base = 256 ->
  let p := blits (rex_all_fields full id value) base in
  zlen p = 256 /\ get32 8 p = (if full then 2 else 1) /\ slice 16 16 p = xi_device_id id /\
  slice 32 16 p = xi_volume_id id /\ get64 48 p = xi_generation id /\ slice 56 32 p = xi_recipient_fingerprint id.
Proof.
  intros Hwf Hv Hval Hl p. pose proof (rex_shape_of full id value Hwf Hval) as Hsh.
  assert (Hf : fits 256 (rex_shape full) = true) by by destruct full.
  split; [unfold p; rewrite zlen_blits by (by rewrite Hl, Hsh); done|].
  unfold rex_id_valid in Hv. rewrite !andb_true_iff, Z.leb_le in Hv. destruct_and! Hv. unfold INT64_MAX in *.
  destruct Hwf. unfold p. destruct full; (split_and!; [read_back; lia|read_back; done|read_back; done|read_back; lia|read_back; done]).
Qed.

Lemma rex_build_inv out id h full p :
  rex_build_as out id h full = (0, Some p) ->
  exists o i value, out = Some o /\ id = Some i /\ rex_id_valid (deref i) = true /\ zlen value = 32 /\
    p = blits (rex_all_fields full (deref i) value) (deref o).
Proof.
  unfold rex_build_as. destruct out as [o|], id as [i|], h as [ho|]; try done.
  destruct (_ || _) eqn:E; [done|]. apply orb_false_iff in E as [_ E]. apply negb_false_iff in E.
  destruct (sha_digest _ _) as [value|] eqn:Hd; [|done]. intros [= <-].
  destruct (sha_digest_wf _ _ _ Hd) as [Hv _]. exists o, i, value. split_and!; try done.
  unfold rex_all_fields. rewrite !blits_app, blits_cons, blits_nil. destruct full; [|rewrite blits_nil]; reflexivity.
Qed.

Lemma rex_validate_inv at_ full b id h :
  rex_validate_as at_ full b id h = 0 ->
  exists bo i value, b = Some bo /\ id = Some i /\ rex_id_valid (deref i) = true /\ zlen value = 32 /\
    slice 0 256 (deref bo) = blits (rex_all_fields full (deref i) value) (fill 256 0).
Proof.
  unfold rex_validate_as. destruct b as [bo|], id as [i|], h as [ho|]; try done.
  destruct (rex_build_as _ _ _ full) as [rc e] eqn:E. destruct (Z.eqb_spec rc 0) as [->|]; [|done].
  case_bool_decide as Heq; [|done]. intros _. destruct e as [p|].
  - apply rex_build_inv in E as (o & i' & value & [= <-] & [= <-] & Hv & Hl & ->). by exists bo, i, value.
  - exfalso. unfold rex_build_as in E. destruct (_ || _) in E; [done|]. by destruct (sha_digest _ _) in E.
Qed.

(** A descriptor is valid for at most one profile and one identity: the
    same bytes never validate both as the v1 and as the full v2 extent, nor
    under two devices, volumes, generations or recipients. *)
Theorem rex_descriptor_unique (at1 at2 : Z) (full1 full2 : bool) (b : ptr bytes)
    (id1 id2 : obj recording_extent_identity) (h1 h2 : ptr owned_page_hash)
    (W1 : extent_wf (deref id1)) (W2 : extent_wf (deref id2))
    (V1 : rex_validate_as at1 full1 b (Some id1) h1 = 0)
    (V2 : rex_validate_as at2 full2 b (Some id2) h2 = 0) :
  full1 = full2 /\ deref id1 = deref id2.
Proof.
  apply rex_validate_inv in V1 as (bo & i1 & v1 & -> & [= <-] & Hv1 & Hl1 & E1).
  apply rex_validate_inv in V2 as (bo2 & i2 & v2 & [= <-] & [= <-] & Hv2 & Hl2 & E2).
  rewrite E1 in E2. assert (Hz : zlen (fill 256 0) = 256) by by apply zlen_fill.
  destruct (rex_reads full1 _ _ _ W1 Hv1 Hl1 Hz) as (_ & A1 & A2 & A3 & A4 & A5).
  destruct (rex_reads full2 _ _ _ W2 Hv2 Hl2 Hz) as (_ & B1 & B2 & B3 & B4 & B5).
  rewrite E2 in A1, A2, A3, A4, A5. split.
  - rewrite B1 in A1. by destruct full1, full2.
  - destruct (deref id1), (deref id2); cbn in *. f_equal; congruence.
Qed.

(** What either build function writes validates under the same identity and
    profile, and only the digest provider can make the two disagree. *)
Theorem rex_roundtrip (at_ : Z) (full : bool) (out : obj bytes) (id : obj recording_extent_identity)
    (h : obj owned_page_hash) (p : bytes) (a : Z)
    (W : extent_wf (deref id)) (Hout : zlen (deref out) = 256)
    (Hsep : poverlap (Some (Obj at_ (fill 256 0))) 256 (Some id) sizeof_recording_extent_identity = false)
    (Hsep' : poverlap (Some (Obj at_ (fill 256 0))) 256 (Some h) sizeof_owned_page_hash = false)
    (Hb : rex_build_as (Some out) (Some id) (Some h) full = (0, Some p)) :
  rex_validate_as at_ full (Some (Obj a p)) (Some id) (Some h) = 0.
Proof.
  unfold rex_validate_as. unfold rex_build_as in *. rewrite Hsep, Hsep'.
  destruct (bool_decide (sha256 (deref h) = None)); [done|]. destruct (_ || _) eqn:E in Hb; [done|].
  apply orb_false_iff in E as [_ E]. rewrite E. cbn [orb].
  assert (Hbase : forall base, zlen base = 256 ->
    blits (rex_fields (deref id)) base = blits (rex_fields (deref id)) (fill 256 0)).
  { intros base Hl. unfold rex_fields. rewrite !(blits_cons 0 (fill 256 0)). f_equal.
    with_strategy transparent [blit fill] (unfold blit, fill). cbn [take].
    rewrite (drop_ge base), (drop_ge (replicate _ 0)); [done|..].
    - rewrite length_replicate. unfold zlen. rewrite length_replicate. lia.
    - unfold zlen in *. rewrite length_replicate. lia. }
  rewrite (Hbase (deref out) Hout) in Hb.
  set (q := if full then _ else _) in *. destruct (sha_digest (deref h) (slice 0 REX_DIGEST_OFFSET q)) as [value|] eqn:Hd; [|done].
  injection Hb as <-. cbn [Z.eqb deref default]. destruct (sha_digest_wf _ _ _ Hd) as [Hv _].
  rewrite bool_decide_eq_true_2; [done|]. apply slice_all'.
  assert (Hq : blit REX_DIGEST_OFFSET value q = blits (rex_all_fields full (deref id) value) (fill 256 0)).
  { unfold rex_all_fields, q. rewrite !blits_app, blits_cons, blits_nil. destruct full; [|rewrite blits_nil]; reflexivity. }
  rewrite Hq. apply negb_false_iff in E.
  by apply (rex_reads full (deref id) value (fill 256 0) W E Hv (zlen_fill 256 0 ltac:(lia))).
Qed.

(** * A concrete extent *)
Definition sample_extent : recording_extent_identity := ExtentIdentity (fill 16 1) (fill 16 2) 3 (fill 32 4).
Definition extent_at : obj recording_extent_identity := Obj 0x20000 sample_extent.
Definition extent_out : obj bytes := Obj 0x30000 (fill 256 0xff).
Definition sample_descriptor_full : bytes :=
  default [] (snd (rex_build_full (Some extent_out) (Some extent_at) (Some p_hash))).

Lemma sample_extent_wf : extent_wf sample_extent.
Proof. by split. Qed.

Lemma rex_descriptor_unique_witness : sample_extent = deref (Obj 0x50000 sample_extent).
Proof.
  destruct (rex_descriptor_unique 0x60000 0x60000 true true (Some (Obj 0x40000 sample_descriptor_full)) extent_at
    (Obj 0x50000 sample_extent) (Some p_hash) (Some p_hash)) as [_ H].
  - exact sample_extent_wf.
  - exact sample_extent_wf.
  - vm_compute. reflexivity.
  - vm_compute. reflexivity.
  - exact H.
Defined.

Lemma rex_roundtrip_witness :
  rex_validate_full 0x60000 (Some (Obj 0x40000 sample_descriptor_full)) (Some extent_at) (Some p_hash) = 0.
Proof.
  apply (rex_roundtrip 0x60000 true extent_out extent_at p_hash).
  - exact sample_extent_wf.
  - vm_compute. reflexivity.
  - vm_compute. reflexivity.
  - vm_compute. reflexivity.
  - vm_compute. reflexivity.
Defined.
