(* ===== verification/RecordTypes.v ===== *)
(** The records the storage side of the recorder shares
    ([recording_pipeline.h], [recording_object_store.h]): completions, receipts,
    recordings and their segments. *)
From S2P Require Import Prelude SegmentHeader.

Definition RP_SAMPLE_RATE : Z := 16000.
Definition RP_FRAME_SAMPLES : Z := 320.
Definition RP_SEGMENT_FRAMES : Z := 500.
Definition RP_PACKET_BYTES : Z := 60.
Definition RP_HEADER_BYTES : Z := 80.
Definition RP_RECORD_BYTES : Z := 8 + RP_PACKET_BYTES.
Definition RP_PLAINTEXT_CAPACITY : Z := RP_HEADER_BYTES + (RP_SEGMENT_FRAMES + 1) * RP_RECORD_BYTES.

Definition RP_MANUAL : Z := 0.
Definition RP_CONTINUOUS : Z := 1.
Definition RP_PROFILE_LEGACY_VOIP : Z := 1.
Definition RP_PROFILE_CELT_LOW_DELAY : Z := 2.
Definition RP_REASON_LIMIT : Z := 10.

Record rp_segment_receipt := SegmentReceipt { sr_durable : Z; sr_es_header : bytes }.
Record rp_completion := Completion {
  pc_session : es_binding; pc_mode : Z; pc_reason : Z; pc_segments : Z; pc_gaps : Z;
  pc_captured_samples : Z; pc_committed_samples : Z; pc_next_sample : Z
}.
Record rp_final_receipt := FinalReceipt { fr_completion : rp_completion; fr_durable : Z }.

Record ros_record := RosRecord {
  rr_identity : es_binding; rr_first_sample : Z; rr_next_sample : Z; rr_committed_samples : Z;
  rr_present : Z; rr_finalized : Z; rr_interrupted : Z; rr_mode : Z; rr_segments : Z; rr_gaps : Z;
  rr_profile : Z; rr_blocked : Z; rr_completion : rp_completion
}.
Record ros_segment := RosSegment {
  rs_identity : es_binding; rs_first_sample : Z; rs_next_sample : Z; rs_samples : Z;
  rs_root : Z; rs_slot : Z; rs_profile : Z; rs_gap : Z; rs_container_bytes : Z; rs_pages : Z;
  rs_digest : bytes
}.
Definition sizeof_rp_segment_receipt : Z := 132.
Definition sizeof_rp_completion : Z := 136.
Definition sizeof_rp_final_receipt : Z := 144.
Definition sizeof_ros_record : Z := 288.
Definition sizeof_ros_segment : Z := 176.

(** The zeroed structures of [memset] and [wipe]. *)
Definition zero_binding : es_binding := EsBinding (fill 32 0) (fill 16 0) (fill 16 0) (fill 16 0) 0 0 0.
Definition zero_completion : rp_completion := Completion zero_binding 0 0 0 0 0 0 0.
Definition zero_segment_receipt : rp_segment_receipt := SegmentReceipt 0 (fill 128 0).
Definition zero_final_receipt : rp_final_receipt := FinalReceipt zero_completion 0.
Definition zero_record : ros_record := RosRecord zero_binding 0 0 0 0 0 0 0 0 0 0 0 zero_completion.
Definition zero_segment : ros_segment := RosSegment zero_binding 0 0 0 0 0 0 0 0 0 (fill 32 0).

(** [memcmp] of two arrays of one length: equal or not. *)
Definition same_bytes (a b : bytes) : bool := bool_decide (a = b).
Definition volume_equal (a b : es_binding) : bool :=
  (eb_generation a =? eb_generation b) && same_bytes (eb_key_fingerprint a) (eb_key_fingerprint b) &&
  same_bytes (eb_device_id a) (eb_device_id b) && same_bytes (eb_volume_id a) (eb_volume_id b).
Definition identity_equal (a b : es_binding) : bool :=
  volume_equal a b && same_bytes (eb_recording_id a) (eb_recording_id b).

Lemma same_bytes_spec a b : same_bytes a b = true <-> a = b.
Proof. apply bool_decide_eq_true. Qed.

Lemma volume_equal_spec a b :
  volume_equal a b = true <->
  eb_generation a = eb_generation b /\ eb_key_fingerprint a = eb_key_fingerprint b /\
  eb_device_id a = eb_device_id b /\ eb_volume_id a = eb_volume_id b.
Proof. unfold volume_equal. rewrite !andb_true_iff, Z.eqb_eq, !same_bytes_spec. tauto. Qed.

Lemma identity_equal_spec a b :
  identity_equal a b = true <->
  (eb_generation a = eb_generation b /\ eb_key_fingerprint a = eb_key_fingerprint b /\
   eb_device_id a = eb_device_id b /\ eb_volume_id a = eb_volume_id b) /\ eb_recording_id a = eb_recording_id b.
Proof. unfold identity_equal. by rewrite andb_true_iff, volume_equal_spec, same_bytes_spec. Qed.

Lemma identity_equal_refl a : identity_equal a a = true.
Proof. by apply identity_equal_spec. Qed.

(** [es_header_build] from one local to another: the two never overlap, so only
    the binding decides. *)
Definition es_build_local (b : es_binding) (base : bytes) : option bytes :=
  match es_header_build (Some (Obj 0 base)) ES_HEADER_BYTES (Some (Obj 256 b)) with
  | (ES_OK, Some h) => Some h
  | _ => None
  end.
