(* ===== verification/Manifest.v ===== *)
(** The canonical recording manifest ([recording_manifest.c/.h]): the whole
    builder of the small volume, the streamed and the incremental encoder of the
    full volume, and when a recording and its segments have a manifest at all. *)
From S2P Require Import Prelude OwnedPage SegmentHeader Extent RecordTypes.

Definition RM_HEADER_BYTES : Z := 128.
Definition RM_ENTRY_BYTES : Z := 64.
Definition RM_MAX_SEGMENTS : Z := 32.
Definition RM_OK : Z := 0.
Definition RM_ARGUMENT : Z := -1.
Definition RM_INVALID : Z := -2.
Definition RM_HASH : Z := -3.
Definition ROS_ROOTS : Z := 8.
Definition ROS_SLOTS : Z := 32.
Definition sizeof_rm_stream_port : Z := 24.

(** Unlike the other modules' [overlap], an empty span overlaps nothing. *)
Definition rm_overlap (a an b bn : Z) : bool :=
  (UINTPTR_MAX - a <? an) || (UINTPTR_MAX - b <? bn) ||
  (negb (an =? 0) && negb (bn =? 0) && (a <? b + bn) && (b <? a + an)).
(** Some pair of the spans overlaps; a null pointer is address 0. *)
Fixpoint spans_overlap (spans : list (Z * Z)) : bool :=
  match spans with
  | [] => false
  | (a, an) :: spans => existsb (fun '(b, bn) => rm_overlap a an b bn) spans || spans_overlap spans
  end.
Definition address {A} (p : ptr A) : Z := match p with Some p => addr p | None => 0 end.

Definition digest_valid (d : bytes) : bool := identity d.

(** The record checks of every encoder but for the number of segments. *)
Definition record_valid (r : ros_record) : bool :=
  negb (negb (rr_present r =? 1) || negb (rr_profile r =? 2) || (1 <? rr_mode r) || (1 <? rr_blocked r) ||
        (1 <? rr_finalized r) || (1 <? rr_interrupted r) || (1 <? u32 (rr_finalized r + rr_interrupted r)) ||
        negb (eb_segment_sequence (rr_identity r) =? 0) || negb (eb_plaintext_bytes (rr_identity r) =? 0) ||
        (INT64_MAX <? rr_first_sample r) || (INT64_MAX <? rr_next_sample r) ||
        (rr_next_sample r <? rr_first_sample r) || (INT64_MAX <? rr_committed_samples r)).
(** [es_header_build] of the identity with one plaintext byte succeeds. *)
Definition record_bindable (r : ros_record) : bool :=
  let i := rr_identity r in
  match es_build_local (EsBinding (eb_key_fingerprint i) (eb_device_id i) (eb_volume_id i) (eb_recording_id i)
                          (eb_generation i) (eb_segment_sequence i) 1) (fill 128 0) with
  | Some _ => true
  | None => false
  end.

Definition record_flags (r : ros_record) : Z := Z.lor (rr_finalized r) (u32 (Z.shiftl (rr_interrupted r) 1)).
Definition manifest_magic (version : Z) : bytes := [0x4f; 0x50; 0x4e; 0x44; 0x4d; 0x46; 0x30 + version].
(** The header of either version: the segment count and the samples it declares. *)
Definition manifest_fields (version : Z) (r : ros_record) (count total : Z) : list field :=
  let i := rr_identity r in
  [(0, manifest_magic version); put16 8 version; put16 10 128; put16 12 64; put16 14 (record_flags r);
   (16, eb_device_id i); (32, eb_volume_id i); put64 48 (eb_generation i); (56, eb_recording_id i);
   put64 72 (u64 (count * 4 + record_flags r)); (80, eb_key_fingerprint i); put32 112 count; put32 116 2;
   put64 120 total].
Definition entry_fields (i : Z) (s : ros_segment) : list field :=
  [put32 0 i; put32 4 (rs_container_bytes s); put64 8 (rs_first_sample s); put64 16 (rs_next_sample s);
   put32 24 (rs_samples s); put32 28 (rs_gap s); (32, rs_digest s)].

(** What one segment must satisfy on its own, within a layout's roots and slots. *)
Definition segment_valid (roots slots : Z) (s : ros_segment) : bool :=
  (rs_root s <? roots) && (rs_slot s <? slots) && (rs_profile s =? 2) && (rs_gap s <=? 1) &&
  negb (rs_samples s =? 0) && (rs_samples s <=? 160000) && (rs_samples s mod 320 =? 0) &&
  (rs_first_sample s <=? INT64_MAX) && (rs_next_sample s <=? INT64_MAX) &&
  (rs_first_sample s <? rs_next_sample s) && (rs_next_sample s - rs_first_sample s =? rs_samples s) &&
  digest_valid (rs_digest s) &&
  (rs_container_bytes s =? u64 (80 + (rs_samples s / 320 + 1) * 68 + 209)) &&
  (eb_plaintext_bytes (rs_identity s) =? u32 (rs_container_bytes s - 209)) &&
  (rs_pages s =? u32 (rs_container_bytes s + 2047) / 2048).
Definition full_segment_valid (s : ros_segment) : bool :=
  (eb_segment_sequence (rs_identity s) <? RLL_SLOTS) && segment_valid RLL_ROOTS RLL_SLOTS s.

(** The bitmap [slots[RLL_SLOTS / 8]]. *)
Definition bitmap_has (m : bytes) (i : Z) : bool := has_bit (znth (i / 8) m) (i mod 8).
Definition bitmap_add (m : bytes) (i : Z) : bytes :=
  <[Z.to_nat (i / 8) := u8 (Z.lor (znth (i / 8) m) (Z.shiftl 1 (i mod 8)))]> m.

(** The running totals of a scan over the segments, over a set of used slots. *)
Record rm_scan (T : Type) := Scan { sc_total : Z; sc_next : Z; sc_gaps : Z; sc_root : Z; sc_slots : T }.
Arguments Scan {T} _ _ _ _ _.
Arguments sc_total {T} _.
Arguments sc_next {T} _.
Arguments sc_gaps {T} _.
Arguments sc_root {T} _.
Arguments sc_slots {T} _.

(** The checks of segment number [i] against the totals so far. *)
Definition follows {T} (has : T -> Z -> bool) (c : rm_scan T) (i : Z) (s : ros_segment) : bool :=
  (sc_next c <=? rs_first_sample s) &&
  (rs_gap s =? (if sc_next c <? rs_first_sample s then 1 else 0)) &&
  negb (has (sc_slots c) (rs_slot s)) && (negb (negb (i =? 0) && negb (rs_root s =? sc_root c))) &&
  (sc_total c <=? INT64_MAX - rs_samples s).
Definition advance {T} (add : T -> Z -> T) (c : rm_scan T) (s : ros_segment) : rm_scan T :=
  Scan (sc_total c + rs_samples s) (rs_next_sample s) (u32 (sc_gaps c + rs_gap s)) (rs_root s)
    (add (sc_slots c) (rs_slot s)).
Definition scan_closes {T} (r : ros_record) (c : rm_scan T) : bool :=
  (sc_total c =? rr_committed_samples r) && (sc_next c =? rr_next_sample r) && (sc_gaps c =? rr_gaps r).

Fixpoint build_scan (r : ros_record) (i : Z) (c : rm_scan Z) (segments : list ros_segment) : option (rm_scan Z) :=
  match segments with
  | [] => Some c
  | s :: segments =>
      if identity_equal (rr_identity r) (rs_identity s) && (eb_segment_sequence (rs_identity s) =? i) &&
         segment_valid ROS_ROOTS ROS_SLOTS s && follows has_bit c i s
      then build_scan r (i + 1) (advance (fun m i => u32 (Z.lor m (Z.shiftl 1 i))) c s) segments
      else None
  end.

(** The result code and, when the outputs were written, the manifest and its
    digest ([RM_HASH]: both wiped). *)
Definition recording_manifest_build (out : ptr bytes) (n : Z) (dg : ptr bytes) (r : ptr ros_record)
    (segments : ptr (list ros_segment)) (count : Z) (hash : ptr owned_page_hash) : Z * option (bytes * bytes) :=
  match out, dg, r with
  | Some _, Some _, Some ro =>
      if negb (hash_valid hash) || (RM_MAX_SEGMENTS <? count) ||
         (bool_decide (segments = None) && negb (count =? 0)) || negb (n =? RM_HEADER_BYTES + count * RM_ENTRY_BYTES) ||
         spans_overlap [(address out, n); (address dg, 32); (address r, sizeof_ros_record);
                        (address segments, count * sizeof_ros_segment); (address hash, sizeof_owned_page_hash)]
      then (RM_ARGUMENT, None) else
      let r := deref ro in
      let l := match segments with Some s => take (Z.to_nat count) (deref s) | None => [] end in
      if negb (record_valid r) || negb (rr_segments r =? count) || negb (record_bindable r) then (RM_INVALID, None) else
      match build_scan r 0 (Scan 0 (rr_first_sample r) 0 0 0) l, hash with
      | Some c, Some ho =>
          if negb (scan_closes r c) then (RM_INVALID, None) else
          let p := blits (manifest_fields 1 r count (sc_total c)) (fill RM_HEADER_BYTES 0) ++
                   concat (imap (fun i s => blits (entry_fields (Z.of_nat i) s) (fill RM_ENTRY_BYTES 0)) l) in
          match sha_digest (deref ho) p with
          | Some value => (RM_OK, Some (p, value))
          | None => (RM_HASH, Some (fill n 0, fill 32 0))
          end
      | _, _ => (RM_INVALID, None)
      end
  | _, _, _ => (RM_ARGUMENT, None)
  end.

(** One entry of the paged read responses. *)
Definition recording_manifest_entry (out : ptr bytes) (s : ptr ros_segment) : Z * option bytes :=
  match out, s with
  | Some o, Some so =>
      if rm_overlap (addr o) RM_ENTRY_BYTES (addr so) sizeof_ros_segment then (RM_ARGUMENT, None) else
      if negb (full_segment_valid (deref so)) then (RM_INVALID, None) else
      (RM_OK, Some (blits (entry_fields (eb_segment_sequence (rs_identity (deref so))) (deref so)) (deref o)))
  | _, _ => (RM_ARGUMENT, None)
  end.
(** The same from one local to another. *)
Definition entry_local (s : ros_segment) (base : bytes) : option bytes :=
  match recording_manifest_entry (Some (Obj 0 base)) (Some (Obj 64 s)) with (0, Some e) => Some e | _ => None end.

Definition full_record_valid (r : ros_record) : bool := record_valid r && (rr_segments r <=? RLL_SLOTS).
Definition full_header (r : ros_record) : bytes :=
  blits (manifest_fields 2 r (rr_segments r) (rr_committed_samples r)) (fill RM_HEADER_BYTES 0).
Definition empty_bitmap : bytes := fill (RLL_SLOTS / 8) 0.
(** The checks [recording_manifest_stream] and [recording_manifest_push] share. *)
Definition full_next (r : ros_record) (i : Z) (c : rm_scan bytes) (s : ros_segment) : bool :=
  identity_equal (rr_identity r) (rs_identity s) && (eb_segment_sequence (rs_identity s) =? i) &&
  full_segment_valid s && follows bitmap_has c i s.

Section Stream.
(** The state behind the hash owner and the segment source. *)
Context {W : Type}.
Record rm_stream_port := StreamPort {
  sp_begin : option (M W Z); sp_update : option (bytes -> M W Z); sp_finish : option (M W (Z * bytes));
  sp_abort : option (M W unit); sp_segment : option (Z -> M W (Z * ros_segment))
}.

(** The loop from segment [i], [fuel] segments left: the code and the totals. *)
Fixpoint stream_scan (update : bytes -> M W Z) (segment : Z -> M W (Z * ros_segment)) (r : ros_record)
    (fuel : nat) (i : Z) (c : rm_scan bytes) (entry : bytes) : M W (Z * rm_scan bytes) :=
  match fuel with
  | O => ret (RM_OK, c)
  | S fuel =>
      bind (segment i) (fun '(rc, s) =>
      if negb (rc =? 0) || negb (full_next r i c s) then ret (RM_INVALID, c) else
      let c := advance bitmap_add c s in
      match entry_local s entry with
      | None => ret (RM_INVALID, c)
      | Some e => bind (update e) (fun rc =>
          if negb (rc =? 0) then ret (RM_HASH, c) else stream_scan update segment r fuel (i + 1) c e)
      end)
  end.

(** [entry]: the uninitialised local the entries are encoded in. *)
Definition recording_manifest_stream (output dg : ptr bytes) (r : ptr ros_record) (p : ptr rm_stream_port)
    (entry : bytes) : M W (Z * option (bytes * bytes)) :=
  match output, dg, r, p with
  | Some _, Some _, Some ro, Some po =>
      match sp_begin (deref po), sp_update (deref po), sp_finish (deref po), sp_abort (deref po), sp_segment (deref po) with
      | Some begin, Some update, Some finish, Some abort, Some segment =>
          if spans_overlap [(address output, 128); (address dg, 32); (address r, sizeof_ros_record);
                            (address p, sizeof_rm_stream_port)] then ret (RM_ARGUMENT, None) else
          let r := deref ro in
          if negb (full_record_valid r) || negb (record_bindable r) then ret (RM_INVALID, None) else
          let header := full_header r in
          bind (bind begin (fun rc =>
                if negb (rc =? 0) then ret (RM_HASH, None) else
                bind (update header) (fun rc =>
                if negb (rc =? 0) then ret (RM_HASH, None) else
                bind (stream_scan update segment r (Z.to_nat (rr_segments r)) 0 (Scan 0 (rr_first_sample r) 0 0 empty_bitmap)
                        entry) (fun '(rc, c) =>
                if negb (rc =? RM_OK) then ret (rc, None) else
                if negb (scan_closes r c) then ret (RM_INVALID, None) else
                bind finish (fun '(rc, sum) => ret (if negb (rc =? 0) then (RM_HASH, None) else (RM_OK, Some (header, sum))))))))
            (fun result => bind abort (fun _ => ret result))
      | _, _, _, _, _ => ret (RM_ARGUMENT, None)
      end
  | _, _, _, _ => ret (RM_ARGUMENT, None)
  end.
End Stream.
Arguments rm_stream_port : clear implicits.

(** The incremental encoder; [ri_state]: 0 cleared, 1 running, 2 fenced, 3 finished. *)
Record rm_incremental := Incremental {
  ri_record : ros_record; ri_scan : rm_scan bytes; ri_count : Z; ri_state : Z
}.
Definition sizeof_rm_incremental : Z := 960.
Definition cleared : rm_incremental := Incremental zero_record (Scan 0 0 0 0 empty_bitmap) 0 0.
Definition fenced (c : rm_incremental) : rm_incremental := Incremental (ri_record c) (ri_scan c) (ri_count c) 2.

(** [None] for the context: no context was written. *)
Definition recording_manifest_start (c : ptr rm_incremental) (r : ptr ros_record) (out : ptr bytes)
  : Z * option rm_incremental * option bytes :=
  match c, r, out with
  | Some co, Some ro, Some oo =>
      if rm_overlap (addr co) sizeof_rm_incremental (addr ro) sizeof_ros_record ||
         rm_overlap (addr co) sizeof_rm_incremental (addr oo) 128 ||
         rm_overlap (addr ro) sizeof_ros_record (addr oo) 128 || negb (ri_state (deref co) =? 0)
      then (RM_ARGUMENT, None, None) else
      let r := deref ro in
      if negb (full_record_valid r) || negb (record_bindable r) then (RM_INVALID, Some (fenced (deref co)), None) else
      (RM_OK, Some (Incremental r (Scan 0 (rr_first_sample r) 0 0 empty_bitmap) 0 1), Some (full_header r))
  | _, _, _ => (RM_ARGUMENT, None, None)
  end.

Definition recording_manifest_push (c : ptr rm_incremental) (s : ptr ros_segment) (out : ptr bytes) (entry : bytes)
  : Z * option rm_incremental * option bytes :=
  match c, s, out with
  | Some co, Some so, Some oo =>
      if rm_overlap (addr co) sizeof_rm_incremental (addr so) sizeof_ros_segment ||
         rm_overlap (addr co) sizeof_rm_incremental (addr oo) 64 ||
         rm_overlap (addr so) sizeof_ros_segment (addr oo) 64 then (RM_ARGUMENT, None, None) else
      let c := deref co in let s := deref so in
      if negb (ri_state c =? 1) then (RM_INVALID, None, None) else
      if (rr_segments (ri_record c) <=? ri_count c) || negb (full_next (ri_record c) (ri_count c) (ri_scan c) s)
      then (RM_INVALID, Some (fenced c), None) else
      match entry_local s entry with
      | None => (RM_INVALID, Some (fenced c), None)
      | Some e => (RM_OK, Some (Incremental (ri_record c) (advance bitmap_add (ri_scan c) s) (u32 (ri_count c + 1)) 1), Some e)
      end
  | _, _, _ => (RM_ARGUMENT, None, None)
  end.

Definition recording_manifest_finish (c : ptr rm_incremental) : Z * option rm_incremental :=
  match c with
  | Some co =>
      let c := deref co in
      if negb (ri_state c =? 1) then (RM_INVALID, None) else
      if negb (ri_count c =? rr_segments (ri_record c)) || negb (scan_closes (ri_record c) (ri_scan c))
      then (RM_INVALID, Some (fenced c)) else
      (RM_OK, Some (Incremental (ri_record c) (ri_scan c) (ri_count c) 3))
  | None => (RM_ARGUMENT, None)
  end.
Definition recording_manifest_clear (c : ptr rm_incremental) : option rm_incremental :=
  match c with Some _ => Some cleared | None => None end.

(** * What has a manifest *)
Record segment_wf (s : ros_segment) : Prop := {
  gw_slot : 0 <= rs_slot s; gw_samples : 0 <= rs_samples s; gw_gap : 0 <= rs_gap s; gw_digest : zlen (rs_digest s) = 32
}.

(** Each segment starts where the one before ended, or later with the gap flag
    set, on the root of the one before. *)
Fixpoint timeline (next : Z) (root : option Z) (l : list ros_segment) : Prop :=
  match l with
  | [] => True
  | s :: l =>
      next <= rs_first_sample s /\ rs_gap s = (if next <? rs_first_sample s then 1 else 0) /\
      (forall x, root = Some x -> rs_root s = x) /\ timeline (rs_next_sample s) (Some (rs_root s)) l
  end.
Definition samples_of (l : list ros_segment) : Z := foldr (fun s n => rs_samples s + n) 0 l.
Definition gaps_of (l : list ros_segment) : Z := foldr (fun s n => rs_gap s + n) 0 l.
Definition end_of (next : Z) (l : list ros_segment) : Z := foldl (fun _ s => rs_next_sample s) next l.

Record describes (roots slots : Z) (r : ros_record) (l : list ros_segment) : Prop := {
  ds_record : record_valid r = true; ds_bindable : record_bindable r = true; ds_count : rr_segments r = zlen l;
  ds_each : forall i s, l !! i = Some s ->
    identity_equal (rr_identity r) (rs_identity s) = true /\ eb_segment_sequence (rs_identity s) = Z.of_nat i /\
    segment_valid roots slots s = true;
  ds_slots : NoDup (map rs_slot l);
  ds_timeline : timeline (rr_first_sample r) None l;
  ds_total : samples_of l = rr_committed_samples r; ds_gaps : gaps_of l = rr_gaps r;
  ds_end : end_of (rr_first_sample r) l = rr_next_sample r
}.

(** The three loops are one scan, over any representation of the used slots. *)
Section Scan.
Context {T : Type} (ok : T -> Prop) (has : T -> Z -> bool) (add : T -> Z -> T) (slots : Z).
Context (add_ok : forall m i, ok m -> 0 <= i < slots -> ok (add m i)).
Context (has_add : forall m i j, ok m -> 0 <= i < slots -> 0 <= j < slots -> has (add m i) j = (i =? j) || has m j).
Context (check : Z -> ros_segment -> bool).
Context (check_slot : forall i s, check i s = true -> rs_slot s < slots).
Context (check_gap : forall i s, check i s = true -> rs_gap s <= 1).

Fixpoint scan (i : Z) (c : rm_scan T) (l : list ros_segment) : option (rm_scan T) :=
  match l with
  | [] => Some c
  | s :: l => if check i s && follows has c i s then scan (i + 1) (advance add c s) l else None
  end.

Record scannable (i : Z) (c : rm_scan T) (l : list ros_segment) : Prop := {
  sn_each : forall k s, l !! k = Some s -> check (i + Z.of_nat k) s = true;
  sn_slots : NoDup (map rs_slot l);
  sn_fresh : forall s, s ∈ l -> has (sc_slots c) (rs_slot s) = false;
  sn_timeline : timeline (sc_next c) (if i =? 0 then None else Some (sc_root c)) l
}.

Lemma follows_spec c i s :
  follows has c i s = true <->
  sc_next c <= rs_first_sample s /\ rs_gap s = (if sc_next c <? rs_first_sample s then 1 else 0) /\
  has (sc_slots c) (rs_slot s) = false /\ (i = 0 \/ rs_root s = sc_root c) /\ sc_total c <= INT64_MAX - rs_samples s.
Proof.
  unfold follows. rewrite !andb_true_iff, !negb_true_iff, andb_false_iff, !negb_false_iff, !Z.leb_le, !Z.eqb_eq. tauto.
Qed.

Lemma scannable_cons i c s l : 0 <= i -> ok (sc_slots c) -> Forall segment_wf (s :: l) ->
  scannable i c (s :: l) <->
  check i s = true /\ (sc_next c <= rs_first_sample s /\ rs_gap s = (if sc_next c <? rs_first_sample s then 1 else 0) /\
    has (sc_slots c) (rs_slot s) = false /\ (i = 0 \/ rs_root s = sc_root c)) /\
  scannable (i + 1) (advance add c s) l.
Proof using has_add check_slot.
  intros Hi Hok [Hs Hl]%Forall_cons. rewrite Forall_forall in Hl. split.
  - intros [He Hn Hf (T1 & T2 & T3 & T4)]. pose proof (He 0%nat s eq_refl) as Hc. rewrite Z.add_0_r in Hc.
    cbn in Hn. apply NoDup_cons in Hn as [Hnew Hn]. split; [done|]. split.
    + split_and!; [done|done|by apply Hf; left|]. destruct (Z.eqb_spec i 0); [by left|right]. by apply T3.
    + split.
      * intros k s' Hk. replace (i + 1 + Z.of_nat k) with (i + Z.of_nat (S k)) by lia. by apply He.
      * done.
      * intros s' Hs'. assert (Hlk := Hs'). apply list_elem_of_lookup in Hlk as [k Hk].
        pose proof (He (S k) s' Hk) as Hc'. apply check_slot in Hc, Hc'. destruct Hs, (Hl _ Hs'). cbn.
        rewrite has_add by (done || lia). rewrite (Hf s') by (by right). rewrite orb_false_r. apply Z.eqb_neq.
        intros E. apply Hnew. rewrite E. apply list_elem_of_fmap. by exists s'.
      * cbn [sc_next sc_root advance]. by rewrite (proj2 (Z.eqb_neq (i + 1) 0)) by lia.
  - intros (Hc & (T1 & T2 & Hf & Hr) & [He Hn Hf' T4]). cbn [sc_next sc_root sc_slots advance] in *.
    rewrite (proj2 (Z.eqb_neq (i + 1) 0)) in T4 by lia. apply check_slot in Hc as Hcs.
    assert (Hl' : forall s', s' ∈ l -> rs_slot s <> rs_slot s' /\ has (sc_slots c) (rs_slot s') = false).
    { intros s' Hs'. pose proof (Hf' s' Hs') as H. assert (Hlk := Hs'). apply list_elem_of_lookup in Hlk as [k Hk].
      pose proof (He k s' Hk) as Hc'%check_slot. destruct Hs, (Hl _ Hs').
      rewrite has_add, orb_false_iff, Z.eqb_neq in H by (done || lia). done. }
    split.
    + intros [|k] s' Hk; [injection Hk as <-; by rewrite Z.add_0_r|].
      replace (i + Z.of_nat (S k)) with (i + 1 + Z.of_nat k) by lia. by apply He.
    + cbn. apply NoDup_cons. split; [|done]. intros (s' & E & Hs')%list_elem_of_fmap. by destruct (Hl' s' Hs').
    + intros s' [->|Hs']%elem_of_cons; [done|]. by apply Hl'.
    + split_and!; [done|done|destruct (Z.eqb_spec i 0); [done|intros x [= <-]; tauto]|done].
Qed.

(** The scan succeeds on exactly the scannable lists whose total fits, with the
    fold of [advance] as its result. *)
Lemma scan_sound l : forall i c c', 0 <= i -> ok (sc_slots c) -> Forall segment_wf l ->
  scan i c l = Some c' -> scannable i c l /\ c' = foldl (advance add) c l.
Proof using add_ok has_add check_slot.
  induction l as [|s l IH]; intros i c c' Hi Hok Hl Hs; cbn in Hs.
  - injection Hs as <-. split; [|done]. split; [done|apply NoDup_nil_2|by intros ? ?%elem_of_nil|done].
  - destruct (check i s && _) eqn:E; [|done]. apply andb_true_iff in E as [Hc Hf].
    apply follows_spec in Hf as (T1 & T2 & Hf & Hr & Ht). pose proof Hl as [Hs' Hl']%Forall_cons.
    assert (0 <= rs_slot s < slots) by (split; [by apply gw_slot|by eapply check_slot]).
    apply IH in Hs as [Hsn ->]; [|lia|by apply add_ok|done]. split; [|done]. by apply scannable_cons.
Qed.

Lemma scan_complete l : forall i c, 0 <= i -> ok (sc_slots c) -> Forall segment_wf l ->
  scannable i c l -> sc_total c + samples_of l <= INT64_MAX -> scan i c l = Some (foldl (advance add) c l).
Proof using add_ok has_add check_slot.
  induction l as [|s l IH]; intros i c Hi Hok Hl Hsn Ht; [done|].
  pose proof Hl as [Hs' Hl']%Forall_cons. apply scannable_cons in Hsn as (Hc & Hf & Hsn); [|done..].
  assert (0 <= samples_of l) as Hnn.
  { clear -Hl'. induction Hl' as [|s l [] Hl IH]; cbn; [lia|]. unfold samples_of in IH. lia. }
  cbn in Ht. fold (samples_of l) in Ht. cbn [scan]. rewrite Hc. cbn [andb].
  rewrite (proj2 (follows_spec c i s)) by (split_and!; try tauto; lia).
  apply IH; [lia| |done|done|cbn; lia].
  apply add_ok; [done|split; [by apply gw_slot|by eapply check_slot]].
Qed.

Lemma advance_totals l : forall i c, scannable i c l -> Forall segment_wf l -> 0 <= i -> ok (sc_slots c) ->
  0 <= sc_gaps c -> sc_gaps c + zlen l < 2 ^ 32 ->
  let c' := foldl (advance add) c l in
  sc_total c' = sc_total c + samples_of l /\ sc_next c' = end_of (sc_next c) l /\ sc_gaps c' = sc_gaps c + gaps_of l.
Proof using add_ok has_add check_slot check_gap.
  induction l as [|s l IH]; intros i c Hsn Hl Hi Hok Hg Hb c'; [cbn in *; subst c'; cbn; lia|].
  pose proof Hl as [Hs' Hl']%Forall_cons. apply scannable_cons in Hsn as (Hc & Hf & Hsn); [|done..].
  pose proof (check_gap _ _ Hc) as Hg1. pose proof (gw_gap _ Hs') as Hg0. rewrite zlen_cons in Hb. pose proof (zlen_nonneg l).
  assert (Hgaps : sc_gaps (advance add c s) = sc_gaps c + rs_gap s) by (cbn; apply u32_small; lia).
  destruct (IH (i + 1) (advance add c s)) as (E1 & E2 & E3); [done|done|lia| |lia|lia|].
  - apply add_ok; [done|split; [by apply gw_slot|by eapply check_slot]].
  - subst c'. cbn [foldl]. rewrite E1, E2, E3, Hgaps. cbn. unfold samples_of, gaps_of. split_and!; lia || done.
Qed.
End Scan.

(** ** The two representations of the used slots *)
Lemma has_bit_add n m i j : 0 <= i < n -> 0 <= j < n -> has_bit (Z.lor m (Z.shiftl 1 i) mod 2 ^ n) j = (i =? j) || has_bit m j.
Proof.
  intros Hi Hj. rewrite !has_bit_testbit, Z.mod_pow2_bits_low, Z.lor_spec, Z.shiftl_1_l, Z.pow2_bits_eqb by lia.
  apply orb_comm.
Qed.

Lemma has_bit_0 i : has_bit 0 i = false.
Proof. unfold has_bit. by rewrite Z.land_0_l. Qed.

Lemma znth_fill i n : znth i (fill n 0) = 0.
Proof. unfold znth. rewrite nth_lookup. with_strategy transparent [fill] unfold fill. by destruct (_ !! _) eqn:E; [apply lookup_replicate in E as [-> _]|]. Qed.

Definition bitmap_ok (m : bytes) : Prop := zlen m = RLL_SLOTS / 8.
Lemma bitmap_add_ok m i : bitmap_ok m -> 0 <= i < RLL_SLOTS -> bitmap_ok (bitmap_add m i).
Proof. unfold bitmap_ok, bitmap_add, zlen. intros <- _. by rewrite length_insert. Qed.

Lemma bitmap_has_add m i j : bitmap_ok m -> 0 <= i < RLL_SLOTS -> 0 <= j < RLL_SLOTS ->
  bitmap_has (bitmap_add m i) j = (i =? j) || bitmap_has m j.
Proof.
  unfold bitmap_ok, bitmap_has, bitmap_add, RLL_SLOTS. intros Hm Hi Hj.
  assert (0 <= i / 8 < zlen m) by (rewrite Hm; divlia).
  rewrite znth_insert by (try apply Z.div_pos; lia).
  pose proof (Z.mod_pos_bound i 8). pose proof (Z.mod_pos_bound j 8).
  destruct (Z.eqb_spec (i / 8) (j / 8)) as [E|E].
  - unfold u8. rewrite has_bit_add by lia. rewrite E. f_equal. apply eq_bool_prop_intro. rewrite !Is_true_true, !Z.eqb_eq.
    divlia.
  - replace (i =? j) with false; [done|]. symmetry. apply Z.eqb_neq. intros ->. done.
Qed.

Definition small_check (r : ros_record) (i : Z) (s : ros_segment) : bool :=
  identity_equal (rr_identity r) (rs_identity s) && (eb_segment_sequence (rs_identity s) =? i) &&
  segment_valid ROS_ROOTS ROS_SLOTS s.
Definition full_check (r : ros_record) (i : Z) (s : ros_segment) : bool :=
  identity_equal (rr_identity r) (rs_identity s) && (eb_segment_sequence (rs_identity s) =? i) && full_segment_valid s.

Lemma segment_valid_bounds roots slots s : segment_valid roots slots s = true ->
  rs_slot s < slots /\ rs_gap s <= 1 /\ rs_samples s <= 160000.
Proof. unfold segment_valid. rewrite !andb_true_iff, !Z.ltb_lt, !Z.leb_le. intros H. destruct_and! H. done. Qed.

Definition small_ok (m : Z) : Prop := True.
Definition small_add (m i : Z) : Z := u32 (Z.lor m (Z.shiftl 1 i)).
Lemma build_scan_eq r l : forall i c, build_scan r i c l = scan has_bit small_add (small_check r) i c l.
Proof. induction l as [|s l IH]; intros i c; cbn; [done|]. unfold small_check. by destruct (_ && _ && _ && _). Qed.

Lemma small_has_add m i j : small_ok m -> 0 <= i < ROS_SLOTS -> 0 <= j < ROS_SLOTS ->
  has_bit (small_add m i) j = (i =? j) || has_bit m j.
Proof. intros _ ? ?. unfold small_add, u32. by apply has_bit_add. Qed.

(** A scan started at the head of a recording closes exactly on what the
    recording describes. *)
Section Describes.
Context {T : Type} (ok : T -> Prop) (has : T -> Z -> bool) (add : T -> Z -> T) (roots slots : Z) (empty : T).
Context (add_ok : forall m i, ok m -> 0 <= i < slots -> ok (add m i)).
Context (has_add : forall m i j, ok m -> 0 <= i < slots -> 0 <= j < slots -> has (add m i) j = (i =? j) || has m j).
Context (empty_ok : ok empty) (has_empty : forall i, 0 <= i < slots -> has empty i = false).
Context (r : ros_record) (check : Z -> ros_segment -> bool) (l : list ros_segment).
Context (Hl : Forall segment_wf l) (Hmax : zlen l <= RLL_SLOTS).
Context (check_spec : forall k s, l !! k = Some s -> check (Z.of_nat k) s = true <->
  identity_equal (rr_identity r) (rs_identity s) = true /\ eb_segment_sequence (rs_identity s) = Z.of_nat k /\
  segment_valid roots slots s = true).
Context (check_valid : forall i s, check i s = true -> segment_valid roots slots s = true).

Lemma scan_describes : record_valid r = true -> record_bindable r = true -> rr_segments r = zlen l ->
  (exists c, scan has add check 0 (Scan 0 (rr_first_sample r) 0 0 empty) l = Some c /\ scan_closes r c = true) <->
  describes roots slots r l.
Proof using All.
  intros Hr Hb Hc. set (c0 := Scan 0 (rr_first_sample r) 0 0 empty).
  assert (Hcs : forall i s, check i s = true -> rs_slot s < slots) by (intros i s ?%check_valid%segment_valid_bounds; tauto).
  assert (Hcg : forall i s, check i s = true -> rs_gap s <= 1) by (intros i s ?%check_valid%segment_valid_bounds; tauto).
  assert (Htot : scannable has check 0 c0 l ->
    scan_closes r (foldl (advance add) c0 l) = true <->
    samples_of l = rr_committed_samples r /\ gaps_of l = rr_gaps r /\ end_of (rr_first_sample r) l = rr_next_sample r).
  { intros Hsn. unfold RLL_SLOTS in Hmax. destruct (advance_totals ok has add slots add_ok has_add check Hcs Hcg l 0 c0)
      as (E1 & E2 & E3); [done|done|done|done|done|cbn; lia|].
    unfold scan_closes. rewrite !andb_true_iff, !Z.eqb_eq, E1, E2, E3. cbn. tauto. }
  split.
  - intros (c & Hs & Hcl). apply (scan_sound ok has add slots add_ok has_add check Hcs) in Hs as [Hsn ->]; [|done..].
    apply Htot in Hcl as (? & ? & ?); [|done]. destruct Hsn as [He Hn _ Ht]. split; try done.
    intros i s Hi. by apply check_spec, (He i s).
  - intros [_ _ _ He Hn Ht E1 E2 E3].
    assert (Hsn : scannable has check 0 c0 l).
    { split; [intros k s Hk; by apply check_spec, He|done| |done].
      intros s [k Hk]%list_elem_of_lookup. cbn. apply has_empty. destruct (He k s Hk) as (_ & _ & Hv).
      apply segment_valid_bounds in Hv as [? _]. split; [|done].
      by apply (gw_slot s), (Forall_lookup_1 _ _ _ _ Hl Hk). }
    exists (foldl (advance add) c0 l). split; [|by apply Htot].
    apply (scan_complete ok has add slots add_ok has_add check Hcs); try done. cbn. rewrite E1.
    unfold record_valid in Hr. rewrite negb_true_iff, !orb_false_iff, !Z.ltb_ge in Hr. tauto.
Qed.
End Describes.

Lemma record_valid_segments r : full_record_valid r = true -> record_valid r = true /\ rr_segments r <= RLL_SLOTS.
Proof. unfold full_record_valid. by rewrite andb_true_iff, Z.leb_le. Qed.

Lemma take_zlen {A} n (l : list A) : zlen l = n -> take (Z.to_nat n) l = l.
Proof. intros <-. apply take_ge. unfold zlen. lia. Qed.

(** ** The format
    A manifest as a plain sequence of regions: offset, length and bytes. *)
Definition header_regions (r : ros_record) (count : Z) : list (Z * Z * bytes) :=
  let i := rr_identity r in
  [(0, 7, [0x4f; 0x50; 0x4e; 0x44; 0x4d; 0x46; 0x31]); (7, 1, fill 1 0); (8, 2, le 2 1); (10, 2, le 2 128); (12, 2, le 2 64);
   (14, 2, le 2 (record_flags r)); (16, 16, eb_device_id i); (32, 16, eb_volume_id i); (48, 8, le 8 (eb_generation i));
   (56, 16, eb_recording_id i); (72, 8, le 8 (u64 (count * 4 + record_flags r))); (80, 32, eb_key_fingerprint i);
   (112, 4, le 4 count); (116, 4, le 4 2); (120, 8, le 8 (rr_committed_samples r))].
Definition entry_regions (i : Z) (s : ros_segment) : list (Z * Z * bytes) :=
  [(0, 4, le 4 i); (4, 4, le 4 (rs_container_bytes s)); (8, 8, le 8 (rs_first_sample s));
   (16, 8, le 8 (rs_next_sample s)); (24, 4, le 4 (rs_samples s)); (28, 4, le 4 (rs_gap s)); (32, 32, rs_digest s)].
Definition regions_bytes (rs : list (Z * Z * bytes)) : bytes := concat (map snd rs).
(** The header of the record, then one entry per segment in order. *)
Definition manifest_bytes (r : ros_record) (l : list ros_segment) : bytes :=
  regions_bytes (header_regions r (zlen l)) ++
  concat (imap (fun i s => regions_bytes (entry_regions (Z.of_nat i) s)) l).

(** A buffer that reads as regions tiling it is those regions. *)
Lemma regions_bytes_eq rs len p :
  tiles 0 (map fst rs) = Some len -> Forall (fun r => zlen r.2 = r.1.2) rs -> zlen p = len -> reads_as p rs ->
  p = regions_bytes rs.
Proof.
  intros Ht Hl Hp Hr. destruct (reads_as_concat rs 0 [] len eq_refl Ht Hl) as [R L].
  by apply (reads_as_eq rs len).
Qed.

(** ** Entries *)
Definition entry_shape : list (Z * Z) := [(0, 4); (4, 4); (8, 8); (16, 8); (24, 4); (28, 4); (32, 32)].
Definition entry_bytes (s : ros_segment) : bytes :=
  blits (entry_fields (eb_segment_sequence (rs_identity s)) s) (fill RM_ENTRY_BYTES 0).

(** An entry covers its 64 bytes: what the buffer held before does not matter. *)
Lemma entry_blits i s base : zlen (rs_digest s) = 32 -> zlen base = 64 ->
  zlen (blits (entry_fields i s) base) = 64 /\ blits (entry_fields i s) base = blits (entry_fields i s) (fill RM_ENTRY_BYTES 0) /\
  blits (entry_fields i s) base = regions_bytes (entry_regions i s).
Proof.
  intros Hd. assert (Hsh : shape_of (entry_fields i s) = entry_shape).
  { unfold shape_of, entry_fields, put32, put64. cbn [map]. rewrite !zlen_le, Hd. done. }
  assert (Hr : forall p, zlen p = 64 -> zlen (blits (entry_fields i s) p) = 64 /\ reads_as (blits (entry_fields i s) p) (entry_regions i s)).
  { intros p Hp. assert (Hf : fits 64 entry_shape = true) by done.
    split; [by rewrite zlen_blits by (by rewrite Hp, Hsh)|]. unfold entry_regions. reads_blits. }
  intros Hb. destruct (Hr base Hb) as [L R]. destruct (Hr (fill RM_ENTRY_BYTES 0) eq_refl) as [L' R'].
  split; [done|]. split; [|apply (regions_bytes_eq _ 64); [done| |done|done]; repeat (apply Forall_cons; split); by rewrite ?zlen_le].
  by apply (reads_as_eq (entry_regions i s) 64).
Qed.

Lemma entry_local_eq s base : zlen (rs_digest s) = 32 -> zlen base = 64 ->
  entry_local s base = if full_segment_valid s then Some (entry_bytes s) else None.
Proof.
  intros Hd Hb. unfold entry_local, recording_manifest_entry. cbn [rm_overlap addr deref].
  change (rm_overlap 0 RM_ENTRY_BYTES 64 sizeof_ros_segment) with false. cbn iota beta.
  destruct (full_segment_valid s); [|done]. cbn. by rewrite (proj1 (proj2 (entry_blits _ _ _ Hd Hb))).
Qed.

Lemma zlen_entry_bytes s : zlen (rs_digest s) = 32 -> zlen (entry_bytes s) = 64.
Proof. intros Hd. by apply entry_blits. Qed.

(** The header the builder writes. *)
Lemma header_blits r count : es_wf (rr_identity r) ->
  blits (manifest_fields 1 r count (rr_committed_samples r)) (fill RM_HEADER_BYTES 0) = regions_bytes (header_regions r count).
Proof.
  unfold RM_HEADER_BYTES. intros [? ? ? ? _]. set (fs := manifest_fields _ _ _ _).
  assert (Hsh : shape_of fs = [(0, 7); (8, 2); (10, 2); (12, 2); (14, 2); (16, 16); (32, 16); (48, 8); (56, 16); (72, 8);
                               (80, 32); (112, 4); (116, 4); (120, 8)]).
  { unfold fs, shape_of, manifest_fields, put16, put32, put64. cbn [map]. rewrite !zlen_le. by repeat f_equal. }
  set (sh := [(0, 7); _; _; _; _; _; _; _; _; _; _; _; _; _]) in Hsh.
  assert (Hf : fits 128 sh = true) by done. assert (Hl : zlen (fill 128 0) = 128) by done.
  apply (regions_bytes_eq _ 128); [done| |by rewrite zlen_blits by (by rewrite Hl, Hsh)|].
  - repeat (apply Forall_cons; split); by rewrite ?zlen_le.
  - unfold header_regions. reads_blits.
Qed.

Lemma entries_blits l : Forall segment_wf l ->
  concat (imap (fun i s => blits (entry_fields (Z.of_nat i) s) (fill RM_ENTRY_BYTES 0)) l) =
  concat (imap (fun i s => regions_bytes (entry_regions (Z.of_nat i) s)) l).
Proof.
  intros Hl. f_equal. apply imap_ext. intros i s Hi. apply (Forall_lookup_1 _ _ _ _ Hl) in Hi as [_ _ _ Hd].
  by apply entry_blits.
Qed.

(** C27. The whole-manifest builder refuses exactly what is not a recording: with
    addressable disjoint arguments it goes on to hash and write the manifest if
    and only if the segments describe the record (one bound identity, sequence
    numbers 0.., distinct slots, one root, a monotone timeline with the gap flags
    it needs, and the totals the record states).  The bytes it then writes are
    [manifest_bytes]: the header of the record, field by field, and one entry per
    segment in order, with the digest of exactly those bytes; when the hash fails
    both outputs are wiped, and on a refusal neither is written. *)
Theorem manifest_build_describes (out dg : obj bytes) (r : obj ros_record) (segments : obj (list ros_segment))
    (hash : obj owned_page_hash) (count rc : Z) (o : option (bytes * bytes))
    (Hl : Forall segment_wf (deref segments)) (Hcount : zlen (deref segments) = count) (Hmax : count <= RM_MAX_SEGMENTS)
    (Hid : es_wf (rr_identity (deref r))) (Hh : hash_valid (Some hash) = true)
    (Hsep : spans_overlap [(addr out, 128 + count * 64); (addr dg, 32); (addr r, sizeof_ros_record);
                           (addr segments, count * sizeof_ros_segment); (addr hash, sizeof_owned_page_hash)] = false)
    (Hb : recording_manifest_build (Some out) (128 + count * 64) (Some dg) (Some r) (Some segments) count (Some hash) = (rc, o)) :
  let p := manifest_bytes (deref r) (deref segments) in
  (rc = RM_OK \/ rc = RM_HASH <-> describes ROS_ROOTS ROS_SLOTS (deref r) (deref segments)) /\
  (rc = RM_OK -> exists d, o = Some (p, d) /\ sha_digest (deref hash) p = Some d) /\
  (rc = RM_HASH -> o = Some (fill (128 + count * 64) 0, fill 32 0) /\ sha_digest (deref hash) p = None) /\
  (rc <> RM_OK -> rc <> RM_HASH -> o = None).
Proof.
  intros p.
  unfold recording_manifest_build in Hb. cbn [address] in Hb.
  rewrite Hh, Hsep, take_zlen, (proj2 (Z.ltb_ge _ _) Hmax) in Hb by done.
  unfold RM_HEADER_BYTES at 1, RM_ENTRY_BYTES at 1 in Hb. rewrite Z.eqb_refl, bool_decide_eq_false_2 in Hb by done. cbn [negb orb andb] in Hb.
  destruct (_ || _) eqn:E in Hb.
  - injection Hb as <- <-. split; [|done]. split; [by intros [|]|]. intros [H1 H2 H3]. exfalso.
    rewrite H1, H2, H3, Hcount, Z.eqb_refl in E. done.
  - rewrite !orb_false_iff, !negb_false_iff, Z.eqb_eq in E. destruct E as [[E1 E2] E3].
    pose proof (scan_describes small_ok has_bit small_add ROS_ROOTS ROS_SLOTS 0 ltac:(done) small_has_add I
      (fun i _ => has_bit_0 i) (deref r) (small_check (deref r)) (deref segments) Hl) as Hd.
    rewrite <- build_scan_eq in Hd. rewrite <- Hd; clear Hd; [|unfold RLL_SLOTS, RM_MAX_SEGMENTS in *; lia| | |done|done|lia].
    + destruct (build_scan _ _ _ _) as [c|]; [|injection Hb as <- <-; split; [|done]; split; [by intros [|]|by intros (? & ? & ?)]].
      destruct (scan_closes _ c) eqn:Ec; cbn [negb] in Hb.
      * assert (Hp : blits (manifest_fields 1 (deref r) count (sc_total c)) (fill RM_HEADER_BYTES 0) ++
            concat (imap (fun i s => blits (entry_fields (Z.of_nat i) s) (fill RM_ENTRY_BYTES 0)) (deref segments)) = p).
        { subst p. unfold manifest_bytes. rewrite Hcount, <- (header_blits (deref r) count Hid), <- (entries_blits _ Hl).
          unfold scan_closes in Ec. rewrite !andb_true_iff, !Z.eqb_eq in Ec. by rewrite (proj1 (proj1 Ec)). }
        rewrite Hp in Hb. destruct (sha_digest _ p) as [d|] eqn:Es; injection Hb as <- <-;
          (split; [split; [by exists c|by (left + right)]|]); [split; [intros _; by exists d|done]|done].
      * injection Hb as <- <-. split; [|done]. split; [by intros [|]|]. intros (? & [= <-] & H). by rewrite H in Ec.
    + intros k s _. unfold small_check. rewrite !andb_true_iff, Z.eqb_eq. tauto.
    + intros i s H. unfold small_check in H. by apply andb_true_iff in H as [_ H].
Qed.

(** * The incremental encoder, driven over a list *)
Section Driver.
(** Addresses of the context, the record, the segment and the output; the
    uninitialised entry local. *)
Context (ca ra sa oa : Z) (entry : bytes).
Fixpoint push_all (c : rm_incremental) (l : list ros_segment) : option (rm_incremental * list bytes) :=
  match l with
  | [] => Some (c, [])
  | s :: l =>
      match recording_manifest_push (Some (Obj ca c)) (Some (Obj sa s)) (Some (Obj oa entry)) entry with
      | (0, Some c, Some e) => match push_all c l with Some (c, es) => Some (c, e :: es) | None => None end
      | _ => None
      end
  end.
Definition incremental (r : ros_record) (l : list ros_segment) : option (bytes * list bytes) :=
  match recording_manifest_start (Some (Obj ca cleared)) (Some (Obj ra r)) (Some (Obj oa entry)) with
  | (0, Some c, Some h) =>
      match push_all c l with
      | Some (c, es) => match recording_manifest_finish (Some (Obj ca c)) with (0, _) => Some (h, es) | _ => None end
      | None => None
      end
  | _ => None
  end.
Definition separated : Prop :=
  rm_overlap ca sizeof_rm_incremental ra sizeof_ros_record = false /\
  rm_overlap ca sizeof_rm_incremental sa sizeof_ros_segment = false /\
  rm_overlap ca sizeof_rm_incremental oa 128 = false /\ rm_overlap ca sizeof_rm_incremental oa 64 = false /\
  rm_overlap ra sizeof_ros_record oa 128 = false /\ rm_overlap sa sizeof_ros_segment oa 64 = false.
Context (Hsep : separated) (Hentry : zlen entry = 64).

Definition full_scan (r : ros_record) := scan bitmap_has bitmap_add (full_check r).

Lemma push_all_eq r l : Forall segment_wf l -> rr_segments r <= RLL_SLOTS -> forall i c, 0 <= i -> i + zlen l <= rr_segments r ->
  push_all (Incremental r c i 1) l =
  match full_scan r i c l with Some c' => Some (Incremental r c' (i + zlen l) 1, map entry_bytes l) | None => None end.
Proof using Hsep Hentry.
  intros Hl Hmax. destruct Hsep as (_ & H1 & _ & H2 & _ & H3). unfold RLL_SLOTS in Hmax.
  induction Hl as [|s l Hs Hl IH]; intros i c Hi Hb; [cbn; by rewrite Z.add_0_r|].
  rewrite zlen_cons in *. pose proof (zlen_nonneg l). cbn [push_all full_scan scan].
  unfold recording_manifest_push. cbn [addr deref ri_state ri_count ri_record ri_scan]. rewrite H1, H2, H3.
  cbn [orb negb Z.eqb Pos.eqb]. rewrite (proj2 (Z.leb_gt _ _)) by lia. cbn [orb].
  unfold full_next. fold (full_check r i s). destruct (full_check r i s && _) eqn:E; [|done]. cbn [negb].
  rewrite entry_local_eq by (apply Hs || done). apply andb_true_iff in E as [E _]. unfold full_check in E.
  apply andb_true_iff in E as [_ ->]. cbn iota beta. rewrite u32_small, IH by lia. unfold full_scan.
  destruct (scan _ _ _ _ _ _); [|done]. cbn. by rewrite <- Z.add_assoc, (Z.add_comm 1).
Qed.

Lemma incremental_eq r l : Forall segment_wf l -> rr_segments r = zlen l ->
  incremental r l =
  if full_record_valid r && record_bindable r then
    match full_scan r 0 (Scan 0 (rr_first_sample r) 0 0 empty_bitmap) l with
    | Some c => if scan_closes r c then Some (full_header r, map entry_bytes l) else None
    | None => None
    end
  else None.
Proof using Hsep Hentry.
  intros Hl Hc. unfold incremental, recording_manifest_start. cbn [addr deref ri_state cleared].
  pose proof Hsep as (H1 & _ & H2 & _ & H3 & _). rewrite H1, H2, H3. cbn [orb negb Z.eqb].
  destruct (full_record_valid r) eqn:E; [|done]. destruct (record_bindable r); [|done]. cbn [negb orb andb].
  apply record_valid_segments in E as [_ Hm]. cbn iota beta. rewrite push_all_eq by (done || lia).
  destruct (full_scan _ _ _ _) as [c|]; [|done]. unfold recording_manifest_finish. cbn [deref ri_state ri_count ri_record ri_scan].
  rewrite Hc, Z.add_0_l, (Z.eqb_refl (zlen l)). cbn [negb orb Z.eqb Pos.eqb]. by destruct (scan_closes r c).
Qed.
End Driver.

(** * The stream *)
Section Serves.
Context {W : Type} (hashed : W -> bytes) (H : bytes -> bytes) (l : list ros_segment).
(** What the encoder relies on: an incremental hash whose state [hashed] is the
    bytes given to it, finished as [H] of them, and a segment source that returns
    segment [i] and leaves the hash alone. *)
Record serves (begin : M W Z) (update : bytes -> M W Z) (finish : M W (Z * bytes))
    (segment : Z -> M W (Z * ros_segment)) : Prop := {
  sv_begin : forall w, fst (begin w) = 0 /\ hashed (snd (begin w)) = [];
  sv_update : forall b w, fst (update b w) = 0 /\ hashed (snd (update b w)) = hashed w ++ b;
  sv_finish : forall w, fst (finish w) = (0, H (hashed w));
  sv_segment : forall i s w, l !! i = Some s ->
    fst (segment (Z.of_nat i) w) = (0, s) /\ hashed (snd (segment (Z.of_nat i) w)) = hashed w
}.
Context (begin : M W Z) (update : bytes -> M W Z) (finish : M W (Z * bytes)).
Context (segment : Z -> M W (Z * ros_segment)) (Hs : serves begin update finish segment).

Lemma stream_scan_eq r : Forall segment_wf l -> forall fuel k c entry w, (k + fuel = length l)%nat -> zlen entry = 64 ->
  let result := stream_scan update segment r fuel (Z.of_nat k) c entry w in
  match full_scan r (Z.of_nat k) c (drop k l) with
  | Some c' => fst result = (RM_OK, c') /\ hashed (snd result) = hashed w ++ concat (map entry_bytes (drop k l))
  | None => fst (fst result) = RM_INVALID
  end.
Proof using Hs.
  intros Hl. induction fuel as [|fuel IH]; intros k c entry w Hk He result.
  - rewrite drop_ge by lia. cbn. by rewrite app_nil_r.
  - destruct (lookup_lt_is_Some_2 l k) as [s Hlk]; [lia|]. rewrite (drop_S _ _ _ Hlk). subst result.
    pose proof (Forall_lookup_1 _ _ _ _ Hl Hlk) as [_ _ _ Hd].
    destruct (sv_segment _ _ _ _ Hs k s w Hlk) as [E1 E2]. cbn [stream_scan full_scan scan].
    destruct (segment (Z.of_nat k) w) as [[rc s'] w1] eqn:R1. cbn in E1, E2. injection E1 as -> ->.
    rewrite (bind_run _ _ _ _ _ R1). cbn [negb orb Z.eqb].
    unfold full_next. fold (full_check r (Z.of_nat k) s). destruct (full_check r (Z.of_nat k) s && _) eqn:Ec; [|done].
    cbn [negb]. rewrite entry_local_eq by done. apply andb_true_iff in Ec as [Ec _]. unfold full_check in Ec.
    apply andb_true_iff in Ec as [_ ->]. destruct (sv_update _ _ _ _ Hs (entry_bytes s) w1) as [E3 E4].
    destruct (update (entry_bytes s) w1) as [rc w2] eqn:R2. cbn in E3, E4. subst rc.
    rewrite (bind_run _ _ _ _ _ R2). cbn [negb Z.eqb].
    replace (Z.of_nat k + 1) with (Z.of_nat (S k)) by lia.
    specialize (IH (S k) (advance bitmap_add c s) (entry_bytes s) w2 ltac:(lia) (zlen_entry_bytes s Hd)).
    cbn zeta in IH. destruct (full_scan _ _ _ _); [|done]. destruct IH as [? ->]. split; [done|].
    cbn [map concat]. by rewrite E4, E2, app_assoc.
Qed.
End Serves.

Lemma full_check_spec r k s : eb_segment_sequence (rs_identity s) = Z.of_nat k -> Z.of_nat k < RLL_SLOTS ->
  full_check r (Z.of_nat k) s = true <->
  identity_equal (rr_identity r) (rs_identity s) = true /\ segment_valid RLL_ROOTS RLL_SLOTS s = true.
Proof.
  intros E Hk. unfold full_check, full_segment_valid. rewrite E, Z.eqb_refl, !andb_true_iff, (proj2 (Z.ltb_lt _ _) Hk). tauto.
Qed.

Lemma empty_bitmap_has i : bitmap_has empty_bitmap i = false.
Proof.
  unfold bitmap_has, empty_bitmap. rewrite znth_fill. apply has_bit_0.
Qed.

Lemma full_describes r l : Forall segment_wf l -> zlen l <= RLL_SLOTS ->
  record_valid r = true -> record_bindable r = true -> rr_segments r = zlen l ->
  (exists c, full_scan r 0 (Scan 0 (rr_first_sample r) 0 0 empty_bitmap) l = Some c /\ scan_closes r c = true) <->
  describes RLL_ROOTS RLL_SLOTS r l.
Proof.
  intros Hl Hm Hr Hb Hc. unfold full_scan.
  apply (scan_describes bitmap_ok bitmap_has bitmap_add RLL_ROOTS RLL_SLOTS empty_bitmap); try done.
  - intros. by apply bitmap_add_ok.
  - intros. by apply bitmap_has_add.
  - intros. apply empty_bitmap_has.
  - intros k s Hk. assert (Z.of_nat k < RLL_SLOTS) by (apply lookup_lt_Some in Hk; unfold zlen in Hm; lia).
    split.
    + intros E. assert (eb_segment_sequence (rs_identity s) = Z.of_nat k) as Es.
      { unfold full_check in E. rewrite !andb_true_iff, Z.eqb_eq in E. tauto. }
      apply full_check_spec in E; tauto.
    + intros (? & ? & ?). by apply full_check_spec.
  - intros i s H. unfold full_check, full_segment_valid in H. rewrite !andb_true_iff in H. tauto.
Qed.

(** What the stream returns, over a source and a hash that serve. *)
Lemma manifest_stream_eq {W} (hashed : W -> bytes) H l begin update finish (abort : M W unit) segment out dg r pa entry w :
  serves hashed H l begin update finish segment -> Forall segment_wf l -> rr_segments (deref r) = zlen l -> zlen entry = 64 ->
  spans_overlap [(addr out, 128); (addr dg, 32); (addr r, sizeof_ros_record); (pa, sizeof_rm_stream_port)] = false ->
  fst (recording_manifest_stream (Some out) (Some dg) (Some r)
         (Some (Obj pa (StreamPort (Some begin) (Some update) (Some finish) (Some abort) (Some segment)))) entry w) =
  if full_record_valid (deref r) && record_bindable (deref r) then
    match full_scan (deref r) 0 (Scan 0 (rr_first_sample (deref r)) 0 0 empty_bitmap) l with
    | Some c =>
        if scan_closes (deref r) c
        then (RM_OK, Some (full_header (deref r), H (full_header (deref r) ++ concat (map entry_bytes l))))
        else (RM_INVALID, None)
    | None => (RM_INVALID, None)
    end
  else (RM_INVALID, None).
Proof.
  intros Hs Hl Hc He Hspans. unfold recording_manifest_stream.
  cbn [deref addr sp_begin sp_update sp_finish sp_abort sp_segment address]. rewrite Hspans.
  destruct (full_record_valid _); [|done]. destruct (record_bindable _); [|done].
  cbn [negb orb andb]. set (header := full_header _).
  assert (Hend : forall (m : M W (Z * option (bytes * bytes))) w, fst (bind m (fun result => bind abort (fun _ => ret result)) w) = fst (m w)).
  { intros m v. unfold bind, ret. destruct (m v) as [? v']. by destruct (abort v'). }
  rewrite Hend. clear Hend.
  destruct (sv_begin _ _ _ _ _ _ _ Hs w) as [B1 B2]. destruct (begin w) as [rc w1] eqn:R1. cbn in B1, B2. subst rc.
  rewrite (bind_run _ _ _ _ _ R1). cbn [negb Z.eqb].
  destruct (sv_update _ _ _ _ _ _ _ Hs header w1) as [U1 U2]. destruct (update header w1) as [rc w2] eqn:R2. cbn in U1, U2. subst rc.
  rewrite (bind_run _ _ _ _ _ R2). cbn [negb Z.eqb]. rewrite B2 in U2. cbn in U2.
  pose proof (stream_scan_eq hashed H l begin update finish segment Hs (deref r) Hl (length l) 0
    (Scan 0 (rr_first_sample (deref r)) 0 0 empty_bitmap) entry w2 eq_refl He) as Hscan. cbn zeta in Hscan.
  rewrite drop_0 in Hscan. rewrite Hc. change (Z.of_nat 0) with 0 in Hscan.
  replace (Z.to_nat (zlen l)) with (length l) by (unfold zlen; lia).
  destruct (stream_scan _ _ _ _ _ _ _ w2) as [[rc c] w3] eqn:R3. cbn [fst snd] in Hscan. rewrite (bind_run _ _ _ _ _ R3).
  destruct (full_scan _ _ _ _) as [c'|]; [|subst rc; done]. destruct Hscan as [[= -> ->] Hh].
  cbn [negb Z.eqb RM_OK]. destruct (scan_closes _ _); [|done]. cbn [negb].
  pose proof (sv_finish _ _ _ _ _ _ _ Hs w3) as F. destruct (finish w3) as [[rc sum] w4] eqn:R4. cbn in F. injection F as -> ->.
  rewrite (bind_run _ _ _ _ _ R4). cbn. by rewrite Hh, U2.
Qed.

(** C28. The streamed and the incremental encoder of the full volume are the same
    function: over a segment source with as many segments as the record says and
    a hash that computes [H], the stream succeeds with a header and a digest if
    and only if pushing the segments one by one succeeds with that header and
    entries that hash to that digest, and either happens if and only if the
    segments describe the record. *)
Theorem manifest_stream_incremental {W} (hashed : W -> bytes) (H : bytes -> bytes)
    (begin : M W Z) (update : bytes -> M W Z) (finish : M W (Z * bytes)) (abort : M W unit)
    (segment : Z -> M W (Z * ros_segment)) (out dg : obj bytes) (r : obj ros_record) (port_at ca ra sa oa : Z)
    (entry1 entry2 : bytes) (l : list ros_segment) (w : W)
    (Hs : serves hashed H l begin update finish segment) (Hl : Forall segment_wf l)
    (Hc : rr_segments (deref r) = zlen l) (He1 : zlen entry1 = 64) (He2 : zlen entry2 = 64)
    (Hsep : separated ca ra sa oa)
    (Hspans : spans_overlap [(addr out, 128); (addr dg, 32); (addr r, sizeof_ros_record); (port_at, sizeof_rm_stream_port)] = false) :
  let port := Obj port_at (StreamPort (Some begin) (Some update) (Some finish) (Some abort) (Some segment)) in
  let result := fst (recording_manifest_stream (Some out) (Some dg) (Some r) (Some port) entry1 w) in
  (forall h d, result = (RM_OK, Some (h, d)) <->
    exists es, incremental ca ra sa oa entry2 (deref r) l = Some (h, es) /\ d = H (h ++ concat es)) /\
  (incremental ca ra sa oa entry2 (deref r) l <> None <->
    zlen l <= RLL_SLOTS /\ describes RLL_ROOTS RLL_SLOTS (deref r) l).
Proof.
  intros port result. rewrite (incremental_eq _ _ _ _ _ Hsep He2) by done.
  subst result port. rewrite (manifest_stream_eq hashed H l) by done.
  set (v := full_record_valid (deref r) && record_bindable (deref r)). split.
  - intros h d. destruct v; [|split; [done|by intros (? & ? & ?)]].
    destruct (full_scan _ _ _ _) as [c|]; [|split; [done|by intros (? & ? & ?)]].
    destruct (scan_closes _ _); [|split; [done|by intros (? & ? & ?)]].
    split; [intros [= <- <-]; by eexists|by intros (? & [= <- <-] & ->)].
  - assert (Hv : v = true -> zlen l <= RLL_SLOTS /\ record_valid (deref r) = true /\ record_bindable (deref r) = true).
    { intros [[Hr Hm]%record_valid_segments Hb]%andb_true_iff. by rewrite <- Hc. }
    assert (Hv' : zlen l <= RLL_SLOTS -> describes RLL_ROOTS RLL_SLOTS (deref r) l -> v = true).
    { intros Hm [Hr Hb _]. unfold v, full_record_valid. by rewrite Hr, Hb, Hc, (proj2 (Z.leb_le _ _) Hm). }
    split.
    + destruct v eqn:Ev; [|done]. destruct (Hv eq_refl) as (Hm & Hr & Hb). intros Hsome. split; [done|].
      apply full_describes; try done. destruct (full_scan _ _ _ _) as [c|]; [|done]. exists c. split; [done|].
      by destruct (scan_closes _ _).
    + intros [Hm Hd]. rewrite (Hv' Hm Hd). pose proof Hd as [Hr Hb _].
      apply full_describes in Hd as (c & -> & ->); done.
Qed.

(** * A concrete recording of two segments with a gap between them *)
Definition sample_identity : es_binding := EsBinding (fill 32 1) (fill 16 2) (fill 16 3) (fill 16 4) 5 0 0.
Definition sample_segment (i first samples gap slot : Z) : ros_segment :=
  let bytes := 80 + (samples / 320 + 1) * 68 + 209 in
  RosSegment (EsBinding (fill 32 1) (fill 16 2) (fill 16 3) (fill 16 4) 5 i (bytes - 209))
    first (first + samples) samples 1 slot 2 gap bytes ((bytes + 2047) / 2048) (fill 32 7).
Definition sample_segments : list ros_segment := [sample_segment 0 1000 160000 0 4; sample_segment 1 162000 320 1 9].
Definition sample_record : ros_record :=
  RosRecord sample_identity 1000 162320 160320 1 0 1 0 2 1 2 0 zero_completion.
Definition sample_hash : owned_page_hash := Build_owned_page_hash (Some (fun m => Build_sha_result 0 (fill 32 (zlen m mod 256)) 32)).
Definition at_out : obj bytes := Obj 0x1000 [].
Definition at_digest : obj bytes := Obj 0x2000 [].
Definition at_record : obj ros_record := Obj 0x3000 sample_record.

Lemma sample_segments_wf : Forall segment_wf sample_segments.
Proof. repeat constructor; by vm_compute. Qed.

(** Both outcomes on it: with a hash that answers, and with one that fails. *)
Definition failing_hash : owned_page_hash := Build_owned_page_hash (Some (fun _ => Build_sha_result (-1) [] 0)).
Lemma manifest_build_describes_witness :
  let p := manifest_bytes sample_record sample_segments in
  let build hash := recording_manifest_build (Some at_out) (128 + 2 * 64) (Some at_digest) (Some at_record)
                      (Some (Obj 0x4000 sample_segments)) 2 (Some (Obj 0x5000 hash)) in
  describes ROS_ROOTS ROS_SLOTS sample_record sample_segments /\
  build sample_hash = (RM_OK, Some (p, fill 32 0)) /\ build failing_hash = (RM_HASH, Some (fill 256 0, fill 32 0)).
Proof.
  intros p build.
  destruct (build sample_hash) as [rc o] eqn:E. destruct (build failing_hash) as [rc' o'] eqn:E'.
  assert (Hid : es_wf (rr_identity (deref at_record))) by by split; vm_compute.
  assert (rc = RM_OK) as -> by (apply (f_equal fst) in E; vm_compute in E; by rewrite <- E).
  assert (rc' = RM_HASH) as -> by (apply (f_equal fst) in E'; vm_compute in E'; by rewrite <- E').
  destruct (manifest_build_describes at_out at_digest at_record (Obj 0x4000 sample_segments) (Obj 0x5000 sample_hash) 2 RM_OK o
    sample_segments_wf ltac:(by vm_compute) ltac:(done) Hid ltac:(done) ltac:(by vm_compute) E) as (H1 & H2 & _).
  destruct (manifest_build_describes at_out at_digest at_record (Obj 0x4000 sample_segments) (Obj 0x5000 failing_hash) 2 RM_HASH o'
    sample_segments_wf ltac:(by vm_compute) ltac:(done) Hid ltac:(done) ltac:(by vm_compute) E') as (_ & _ & H3 & _).
  split; [apply H1; by left|]. destruct (H2 eq_refl) as (d & -> & Hd). destruct (H3 eq_refl) as [-> _].
  vm_compute in Hd. injection Hd as <-. split; by vm_compute.
Defined.

(** A stream whose state is the bytes hashed so far. *)
Definition hash_begin : M bytes Z := fun _ => (0, []).
Definition hash_update (b : bytes) : M bytes Z := fun w => (0, w ++ b).
Definition hash_finish : M bytes (Z * bytes) := fun w => ((0, fill 32 (zlen w mod 256)), w).
Definition list_segment (i : Z) : M bytes (Z * ros_segment) :=
  fun w => (match sample_segments !! Z.to_nat i with Some s => (0, s) | None => (-1, zero_segment) end, w).

Lemma manifest_stream_incremental_witness :
  fst (recording_manifest_stream (Some at_out) (Some at_digest) (Some at_record)
         (Some (Obj 0x4000 (StreamPort (Some hash_begin) (Some hash_update) (Some hash_finish) (Some (ret tt)) (Some list_segment))))
         (fill 64 0) []) = (RM_OK, Some (full_header sample_record, fill 32 0)).
Proof.
  apply (manifest_stream_incremental (fun w => w) (fun m => fill 32 (zlen m mod 256)) hash_begin hash_update hash_finish (ret tt)
           list_segment at_out at_digest at_record 0x4000 0x10000 0x20000 0x30000 0x40000 (fill 64 0) (fill 64 0xaa)
           sample_segments []); try by vm_compute.
  - split; [done|done|done|]. intros i s w Hi. unfold list_segment. by rewrite Nat2Z.id, Hi.
  - exact sample_segments_wf.
  - exists (map entry_bytes sample_segments). split; by vm_compute.
Defined.
