(* ===== verification/PlainSegment.v ===== *)
(** The plaintext segment format ([rp_segment_validate] of
    [recording_pipeline.c]).  The Opus packet parser is a parameter. *)
From S2P Require Import Prelude RecordTypes.

Definition rp_magic : bytes := [0x4f; 0x50; 0x4e; 0x44; 0x4f; 0x50; 0x31; 0].
Definition RP_OK : Z := 0.
Definition RP_ARGUMENT : Z := -1.

(** What libopus says of one packet: samples at 16 kHz, channels, and the frame
    count of [opus_packet_parse]. *)
Record opus_parser := OpusParser {
  op_nb_samples : bytes -> Z -> Z; op_nb_channels : bytes -> Z; op_parse : bytes -> Z
}.

Section Validate.
Context (opus : opus_parser).

Definition valid_packet (p : bytes) (profile : Z) : bool :=
  ((profile =? RP_PROFILE_LEGACY_VOIP) ||
   ((profile =? RP_PROFILE_CELT_LOW_DELAY) && negb (Z.land (znth 0 p) 0x80 =? 0))) &&
  (op_nb_samples opus p 16000 =? 320) && (op_nb_channels opus p =? 1) && (0 <? op_parse opus p).

Definition segment_header_valid (p : bytes) (n : Z) : bool :=
  let frames := get32 48 p in let packets := get32 52 p in let delay := get32 56 p in
  let profile := get32 72 p in
  negb (negb (bool_decide (slice 0 8 p = rp_magic)) || negb (get16 8 p =? 1) || negb (get16 10 p =? 80) ||
    negb (get32 12 p =? 16000) || negb (get16 16 p =? 1) || negb (get16 18 p =? 320) || negb (get32 20 p =? 24000) ||
    negb (get32 24 p =? 3) || (negb (get32 28 p =? 1) && negb (get32 28 p =? 3)) || (frames =? 0) ||
    (RP_SEGMENT_FRAMES <? frames) || (320 <? delay) || negb (packets =? frames + (if delay =? 0 then 0 else 1)) ||
    negb (get32 60 p =? (if delay =? 0 then 0 else 320 - delay)) || negb (get32 64 p =? packets * RP_RECORD_BYTES) ||
    negb (get32 68 p =? frames * 320) ||
    (negb (profile =? RP_PROFILE_LEGACY_VOIP) && negb (profile =? RP_PROFILE_CELT_LOW_DELAY)) ||
    ((profile =? RP_PROFILE_CELT_LOW_DELAY) && negb (delay =? 40)) || negb (get32 76 p =? 0) ||
    negb (n =? RP_HEADER_BYTES + packets * RP_RECORD_BYTES) || (UINT64_MAX - frames * 320 <? get64 32 p) ||
    negb (get64 40 p =? u64 (get64 32 p + frames * 320))).

Definition packet_valid (p : bytes) (i : Z) : bool :=
  let record := RP_HEADER_BYTES + i * RP_RECORD_BYTES in
  (get16 record p =? 60) && (get16 (record + 2) p =? (if get32 48 p <=? i then 1 else 0)) &&
  (get32 (record + 4) p =? i) && valid_packet (slice (record + 8) RP_PACKET_BYTES p) (get32 72 p).

Definition rp_segment_validate (p : option bytes) (n : Z) : Z :=
  match p with
  | None => RP_ARGUMENT
  | Some p =>
      if (n <? RP_HEADER_BYTES) || (RP_PLAINTEXT_CAPACITY <? n) then RP_ARGUMENT else
      if segment_header_valid p n && forallb (packet_valid p) (zseq (get32 52 p)) then RP_OK else RP_ARGUMENT
  end.
End Validate.
