(* ===== verification/ObjectStore.v ===== *)
(** The recording object store ([recording_object_store.c/.h]): an in-memory
    index of recordings and their segments over a journaled logical map.  Every
    job (recover, reserve, commit a segment, finalize, load) is a sequence of
    [ros_step]s that make at most one backend call each. *)
From S2P Require Import Prelude OwnedPage SegmentHeader Extent RecordTypes PlainSegment Wp.

Definition ROS_ROOTS : Z := 8.
Definition ROS_RETIRED_MAX : Z := 14.
Definition ROS_SLOTS : Z := 32.
Definition ROS_EXTENT_ROOTS : Z := 32.
Definition ROS_EXTENT_SLOTS : Z := 3600.
Definition ROS_DATA_PAGES : Z := 17.
Definition ROS_SLOT_PAGES : Z := 1 + ROS_DATA_PAGES.
Definition ROS_EXTENT_CAPACITY : Z := ROS_EXTENT_ROOTS + ROS_EXTENT_SLOTS * ROS_SLOT_PAGES.
Definition ROS_EXTENT_RECOVER_MS : Z := 120000.
Definition ROS_CONTAINER_BYTES : Z := RP_PLAINTEXT_CAPACITY + ES_HEADER_BYTES + ES_ENCAP_BYTES + ES_TAG_BYTES.
Definition ROS_JOB_MAX_MS : Z := 30000.

Definition ROS_OK : Z := 0.
Definition ROS_PENDING : Z := 1.
Definition ROS_READY : Z := 2.
Definition ROS_ARGUMENT : Z := -1.
Definition ROS_BUSY : Z := -2.
Definition ROS_STATE : Z := -3.
Definition ROS_FULL : Z := -4.
Definition ROS_FAILED : Z := -5.
Definition ROS_NOT_FOUND : Z := -6.
Definition ROS_READ_OK : Z := 0.
Definition ROS_READ_MISSING : Z := 1.
Definition ROS_NONE : Z := 0.
Definition ROS_RECOVER : Z := 1.
Definition ROS_RESERVE : Z := 2.
Definition ROS_SEGMENT : Z := 3.
Definition ROS_FINALIZE : Z := 4.
Definition ROS_LOAD : Z := 5.
Definition ROS_META : Z := 6.
Definition ROOT_ACTIVE : Z := 1.
Definition ROOT_FINAL : Z := 2.
Definition SLOT_INTENT : Z := 3.
Definition SLOT_COMMIT : Z := 4.
Definition SLOT_RETIRED : Z := 5.
Definition ROS_INITIALIZED : Z := 0x524f5331.

(** The port's callbacks, over a world [W]. *)
Record ros_port (W : Type) := {
  po_now_ms : W -> Z * W;
  po_cancelled : W -> Z * W;
  po_admit : Z -> Z -> W -> Z * W;
  po_read : Z -> Z -> W -> (Z * bytes) * W;
  po_write : Z -> bytes -> Z -> W -> Z * W;
  po_sync : Z -> W -> Z * W;
  (** recipient, info, plaintext, cipher capacity: the code, the encapsulated
      key and the ciphertext written, and [*actual]. *)
  po_seal : bytes -> bytes -> bytes -> Z -> W -> (Z * bytes * bytes * Z) * W
}.
Arguments po_now_ms {W} _ _.
Arguments po_cancelled {W} _ _.
Arguments po_admit {W} _ _ _ _.
Arguments po_read {W} _ _ _ _.
Arguments po_write {W} _ _ _ _ _.
Arguments po_sync {W} _ _ _.
Arguments po_seal {W} _ _ _ _ _ _.

Record ros_status := RosStatus {
  st_mounted : Z; st_fault : Z; st_job : Z; st_stage : Z; st_ready : Z; st_slot_count : Z;
  st_consumed_slots : Z; st_error : Z
}.
#[export] Instance eta_ros_status : Eta ros_status := fun s =>
  RosStatus (st_mounted s) (st_fault s) (st_job s) (st_stage s) (st_ready s) (st_slot_count s)
    (st_consumed_slots s) (st_error s).

(** [co_retired]: the first [retired_count] identifiers of the C array. *)
Record ros_context := RosContext {
  co_gate : Z; co_initialized : Z; co_hash : owned_page_hash; co_volume : es_binding; co_recipient : bytes;
  co_status : ros_status; co_deadline : Z; co_last_now : Z; co_root : Z; co_slot : Z; co_index : Z;
  co_scan_root : Z; co_scan_slot : Z; co_active_root : Z; co_root_count : Z; co_segment_limit : Z;
  co_extent_profile : Z; co_used : bytes; co_retired : list bytes; co_records : list ros_record;
  co_pending_record : ros_record; co_segment : ros_segment; co_receipt : rp_segment_receipt;
  co_final_receipt : rp_final_receipt; co_container : bytes; co_catalog : bytes; co_page : bytes
}.
#[export] Instance eta_ros_context : Eta ros_context := fun c =>
  RosContext (co_gate c) (co_initialized c) (co_hash c) (co_volume c) (co_recipient c) (co_status c) (co_deadline c)
    (co_last_now c) (co_root c) (co_slot c) (co_index c) (co_scan_root c) (co_scan_slot c) (co_active_root c)
    (co_root_count c) (co_segment_limit c) (co_extent_profile c) (co_used c) (co_retired c) (co_records c)
    (co_pending_record c) (co_segment c) (co_receipt c) (co_final_receipt c) (co_container c) (co_catalog c) (co_page c).
Definition sizeof_ros_context : Z := 59480.
Definition sizeof_ros_port : Z := 32.
Definition sizeof_ros_status : Z := 32.

Definition zero_status : ros_status := RosStatus 0 0 0 0 0 0 0 0.
Definition no_used : bytes := fill ((RLL_SLOTS + 1) / 2) 0.
Definition no_records : list ros_record := fill ROS_EXTENT_ROOTS zero_record.
Definition empty_hash : owned_page_hash := Build_owned_page_hash None.
Definition zero_context : ros_context :=
  RosContext 0 0 empty_hash zero_binding (fill 65 0) zero_status 0 0 0 0 0 0 0 0 0 0 0 no_used [] no_records zero_record
    zero_segment zero_segment_receipt zero_final_receipt (fill ROS_CONTAINER_BYTES 0) (fill 2048 0) (fill 2048 0).

(** ** The index *)
Definition ros_magic (profile : Z) : bytes :=
  [0x4f; 0x50; 0x4e; 0x44; 0x4f; 0x53; if profile =? 2 then 0x33 else if profile =? 0 then 0x31 else 0x32; 0].
Definition external {A} (ca : Z) (p : ptr A) (n : Z) : bool :=
  match p with Some p => negb (n =? 0) && negb (overlap ca sizeof_ros_context (addr p) n) | None => false end.
Definition id_valid (p : bytes) : bool := identity p.
Definition retired (c : ros_context) (uuid : bytes) : bool := existsb (fun r => same_bytes r uuid) (co_retired c).
Definition sector (c : ros_context) (slot : Z) : Z := co_root_count c + slot * ROS_SLOT_PAGES.
Definition slot_state (c : ros_context) (slot : Z) : Z :=
  Z.land (Z.shiftr (znth (slot / 2) (co_used c)) ((slot mod 2) * 4)) 15.
Definition set_slot_state (c : ros_context) (slot state : Z) : ros_context :=
  let shift := (slot mod 2) * 4 in
  c <| co_used ::= fun u => <[Z.to_nat (slot / 2) :=
         u8 (Z.lor (Z.land (znth (slot / 2) u) (Z.lnot (Z.shiftl 15 shift))) (Z.shiftl state shift))]> u |>.
Definition record_at (c : ros_context) (root : Z) : ros_record := nth (Z.to_nat root) (co_records c) zero_record.
Definition set_record (c : ros_context) (root : Z) (r : ros_record) : ros_context :=
  c <| co_records ::= fun l => <[Z.to_nat root := r]> l |>.
Definition buffers (c : ros_context) : ros_context :=
  c <| co_container := fill ROS_CONTAINER_BYTES 0 |> <| co_catalog := fill 2048 0 |> <| co_page := fill 2048 0 |>.
Definition no_receipts (c : ros_context) : ros_context :=
  c <| co_receipt := zero_segment_receipt |> <| co_final_receipt := zero_final_receipt |>.
Definition status_upd (f : ros_status -> ros_status) (c : ros_context) : ros_context := c <| co_status ::= f |>.

Section Store.
Context {W : Type} (port : ros_port W).
Definition C : Type := ros_context * W.
Definition status_set (f : ros_status -> ros_status) : M C unit := change (status_upd f).

(** A call whose gate is held fails; otherwise it holds the gate to its end. *)
Definition lock : M C Z :=
  own (fun c =>
    if negb (co_initialized c =? ROS_INITIALIZED) then ret ROS_ARGUMENT else
    if co_gate c =? 0 then run change (fun c => c <| co_gate := 1 |>); ret ROS_OK else ret ROS_BUSY).
Definition unlock (rc : Z) : M C Z := run change (fun c => c <| co_gate := 0 |>); ret rc.
(** [rc = lock(c); if (rc) return rc;] a body, [return unlock(c, rc)]. *)
Definition locked (body : M C Z) : M C Z := try lock; do rc <- body; unlock rc.

Definition fault (rc : Z) : M C Z :=
  run status_set (fun s => s <| st_fault := 1 |> <| st_ready := 0 |> <| st_error := rc |>);
  run change no_receipts;
  run change buffers;
  ret ROS_FAILED.
Definition guard : M C Z :=
  do before <- call (po_now_ms port);
  do cancelled <- call (po_cancelled port);
  do now <- call (po_now_ms port);
  own (fun c =>
    if (before <? co_last_now c) || (now <? before) || (co_deadline c <=? now) || negb (cancelled =? 0)
    then fault ROS_FAILED
    else run change (fun c => c <| co_last_now := now |>); ret ROS_OK).
(** [guard(c) ? ROS_FAILED : (rc ? fault(c, rc) : ROS_OK)] *)
Definition checked (rc : Z) : M C Z := try guard; if rc =? 0 then ret ROS_OK else fault rc.
Definition store_admit (writing : Z) : M C Z :=
  try guard; own (fun c => do rc <- call (po_admit port writing (co_deadline c)); checked rc).
(** The digest when ROS_OK. *)
Definition hash (p : bytes) : M C (option bytes) :=
  do g <- guard;
  if negb (g =? 0) then ret None else
  own (fun c =>
    match sha256 (co_hash c) with
    | None => run fault ROS_FAILED; ret None (* absent: refused by [initialize] *)
    | Some f =>
        let r := f p in
        do rc <- checked (if sha_rc r =? 0 then (if sha_written r =? 32 then 0 else ROS_FAILED) else sha_rc r);
        ret (if rc =? 0 then Some (digest_buffer (sha_out r)) else None)
    end).
(** The 2048 bytes of the page buffer after a read. *)
Definition received (p : bytes) : bytes := slice 0 2048 (map u8 p ++ fill 2048 0).
Definition read_page (p : Z) : M C Z :=
  try store_admit 0;
  own (fun c =>
    do r <- call (po_read port p (co_deadline c));
    run change (fun c => c <| co_page := received (snd r) |>);
    try guard;
    if negb (fst r =? ROS_READ_OK) && negb (fst r =? ROS_READ_MISSING) then fault (fst r) else ret (fst r)).
Definition write_page (p : Z) (data : bytes) : M C Z :=
  try store_admit 1; own (fun c => do rc <- call (po_write port p data (co_deadline c)); checked rc).
Definition sync_map : M C Z :=
  try store_admit 1; own (fun c => do rc <- call (po_sync port (co_deadline c)); checked rc).

Definition begin (job deadline : Z) : M C Z :=
  own (fun c =>
    if negb (st_fault (co_status c) =? 0) || negb (st_job (co_status c) =? ROS_NONE) then ret ROS_STATE else
    do now <- call (po_now_ms port);
    if now <? co_last_now c then fault ROS_FAILED else
    let max_ms := if negb (co_extent_profile c =? 0) && (job =? ROS_RECOVER) then ROS_EXTENT_RECOVER_MS else ROS_JOB_MAX_MS in
    if (deadline <=? now) || (max_ms <? deadline - now) then ret ROS_ARGUMENT else
    run change (fun c => c <| co_last_now := now |> <| co_deadline := deadline |> <| co_index := 0 |>);
    run status_set (fun s => s <| st_job := job |> <| st_stage := 0 |> <| st_ready := 0 |> <| st_error := 0 |>);
    run change buffers;
    run change no_receipts;
    ret ROS_OK).

(** ** Catalog pages *)
Definition identity_fields (b : es_binding) : list field :=
  [(24, eb_key_fingerprint b); (56, eb_device_id b); (72, eb_volume_id b); (88, eb_recording_id b);
   put64 104 (eb_generation b); put32 112 (eb_segment_sequence b); put32 116 (eb_plaintext_bytes b)].
Definition decode_identity (p : bytes) : es_binding :=
  EsBinding (slice 24 32 p) (slice 56 16 p) (slice 72 16 p) (slice 88 16 p) (get64 104 p) (get32 112 p) (get32 116 p).
Definition start_fields (c : ros_context) (kind where_ root : Z) (b : es_binding) : list field :=
  [(0, fill 224 0); (0, ros_magic (co_extent_profile c)); put16 8 (co_extent_profile c + 1); put16 10 kind;
   put32 12 where_; put32 16 root] ++ identity_fields b.
Definition root_fields (c : ros_context) (kind : Z) (r : ros_record) : list field :=
  let f := rr_completion r in
  start_fields c kind (co_root c) (co_root c) (rr_identity r) ++
  [put64 160 (rr_first_sample r); put64 168 (if kind =? ROOT_FINAL then pc_next_sample f else rr_first_sample r);
   put32 184 (rr_mode r); put32 216 2] ++
  (if kind =? ROOT_FINAL
   then [put32 188 (pc_reason f); put32 192 (pc_segments f); put32 196 (pc_gaps f); put64 200 (pc_captured_samples f);
         put64 208 (pc_committed_samples f)]
   else []).
Definition segment_fields (c : ros_context) (kind : Z) (s : ros_segment) : list field :=
  start_fields c kind (sector c (rs_slot s)) (rs_root s) (rs_identity s) ++
  [put32 120 (rs_container_bytes s); put32 124 (rs_pages s); (128, rs_digest s); put64 160 (rs_first_sample s);
   put64 168 (rs_next_sample s); put64 176 (rs_samples s); put32 184 (rr_mode (record_at c (rs_root s)));
   put32 216 (rs_profile s); put32 220 (rs_gap s)].
(** [hash(c, c->catalog, 224, c->catalog + 224)] of the catalog just filled. *)
Definition catalog_seal (fields : list field) : M C Z :=
  let p := blits fields (fill 2048 255) in
  run change (fun c => c <| co_catalog := p |>);
  do d <- hash (slice 0 224 p);
  match d with
  | Some d => run change (fun c => c <| co_catalog ::= blit 224 d |>); ret ROS_OK
  | None => ret ROS_FAILED
  end.
Definition catalog_root (kind : Z) (r : ros_record) : M C Z := own (fun c => catalog_seal (root_fields c kind r)).
Definition catalog_segment (kind : Z) : M C Z := own (fun c => catalog_seal (segment_fields c kind (co_segment c))).

(** The kind and the identity when ROS_OK; every failure has faulted. *)
Definition catalog_check (where_ : Z) : M C (option (Z * es_binding)) :=
  own (fun c =>
    let p := co_page c in
    if negb (bool_decide (slice 0 8 p = ros_magic (co_extent_profile c))) || negb (get16 8 p =? co_extent_profile c + 1) ||
       negb (get32 12 p =? where_) || negb (all (slice 20 4 p) 0) || negb (all (slice 256 1792 p) 255) ||
       negb (get32 216 p =? 2)
    then run fault ROS_FAILED; ret None else
    do d <- hash (slice 0 224 p);
    match d with
    | None => ret None
    | Some d =>
        if negb (bool_decide (d = slice 224 32 p)) then run fault ROS_FAILED; ret None else
        let b := decode_identity p in
        if negb (volume_equal b (co_volume c)) || negb (id_valid (eb_recording_id b)) then run fault ROS_FAILED; ret None
        else ret (Some (get16 10 p, b))
    end).

Definition root_record (p : bytes) (kind : Z) (b : es_binding) : ros_record :=
  let finalized := if kind =? ROOT_FINAL then 1 else 0 in
  RosRecord b (get64 160 p) (get64 160 p) 0 1 finalized (1 - finalized) (get32 184 p) 0 0 2 0 zero_completion.
Definition root_completion (p : bytes) (b : es_binding) : rp_completion :=
  Completion b (get32 184 p) (get32 188 p) (get32 192 p) (get32 196 p) (get64 200 p) (get64 208 p) (get64 168 p).
Definition with_completion (r : ros_record) (f : rp_completion) : ros_record :=
  RosRecord (rr_identity r) (rr_first_sample r) (rr_next_sample r) (rr_committed_samples r) (rr_present r)
    (rr_finalized r) (rr_interrupted r) (rr_mode r) (rr_segments r) (rr_gaps r) (rr_profile r) (rr_blocked r) f.

Definition parse_root (root : Z) : M C Z :=
  do checked <- catalog_check root;
  match checked with
  | None => ret ROS_FAILED
  | Some (kind, b) =>
      own (fun c =>
        let p := co_page c in
        if (negb (kind =? ROOT_ACTIVE) && negb (kind =? ROOT_FINAL)) || negb (get32 16 p =? root) ||
           negb (eb_segment_sequence b =? 0) || negb (eb_plaintext_bytes b =? 0) || negb (all (slice 120 40 p) 0) ||
           negb (get64 176 p =? 0) || (1 <? get32 184 p) || negb (get32 220 p =? 0) || (get64 168 p <? get64 160 p)
        then fault ROS_FAILED else
        if existsb (fun r => negb (rr_present r =? 0) && identity_equal b (rr_identity r)) (take (Z.to_nat root) (co_records c))
        then fault ROS_FAILED else
        let r := root_record p kind b in
        run change (fun c => set_record c root r);
        if kind =? ROOT_ACTIVE then
          if negb (get64 168 p =? rr_first_sample r) || negb (all (slice 188 28 p) 0) then fault ROS_FAILED
          else run change (fun c => if retired c (eb_recording_id b) then set_record c root zero_record else c); ret ROS_OK
        else
          let f := root_completion p b in
          run change (fun c => set_record c root (with_completion r f));
          if (pc_reason f =? 0) || (RP_REASON_LIMIT <? pc_reason f) || (co_segment_limit c <? pc_segments f) ||
             (pc_captured_samples f <? pc_committed_samples f) ||
             (u64 (pc_next_sample f - rr_first_sample r) <? pc_captured_samples f)
          then fault ROS_FAILED
          else run change (fun c => if retired c (eb_recording_id b) then set_record c root zero_record else c); ret ROS_OK)
  end.

Definition page_segment (p : bytes) (slot : Z) (b : es_binding) : ros_segment :=
  RosSegment b (get64 160 p) (get64 168 p) (get64 176 p) (get32 16 p) slot 2 (get32 220 p) (get32 120 p) (get32 124 p)
    (slice 128 32 p).
(** The checks of a segment's page before the deletion history is consulted. *)
Definition segment_page_ok (c : ros_context) (kind : Z) (b : es_binding) (p : bytes) : bool :=
  negb ((negb (kind =? SLOT_INTENT) && negb (kind =? SLOT_COMMIT)) || (co_root_count c <=? get32 16 p) ||
    (eb_plaintext_bytes b =? 0) || (RP_PLAINTEXT_CAPACITY <? eb_plaintext_bytes b) ||
    (co_segment_limit c <=? eb_segment_sequence b) || negb (get32 120 p =? u32 (eb_plaintext_bytes b + 209)) ||
    negb (get32 124 p =? u32 (get32 120 p + 2047) / 2048) || (ROS_DATA_PAGES <? get32 124 p) || (1 <? get32 184 p) ||
    negb (all (slice 188 28 p) 0) || (1 <? get32 220 p) || (get64 168 p <=? get64 160 p) ||
    negb (get64 168 p - get64 160 p =? get64 176 p) || (get64 176 p =? 0) || (160000 <? get64 176 p) ||
    negb (get64 176 p mod 320 =? 0)).
(** The kind ([SLOT_RETIRED] for a deleted recording's) when ROS_OK. *)
Definition parse_segment (slot : Z) : M C (option Z) :=
  own (fun c =>
  do checked <- catalog_check (sector c slot);
  match checked with
  | None => ret None
  | Some (kind, b) =>
      own (fun c =>
        let p := co_page c in let root := get32 16 p in
        if negb (segment_page_ok c kind b p) then run fault ROS_FAILED; ret None else
        if retired c (eb_recording_id b) then ret (Some SLOT_RETIRED) else
        if (rr_present (record_at c root) =? 0) || negb (identity_equal b (rr_identity (record_at c root))) ||
           negb (get32 184 p =? rr_mode (record_at c root)) then run fault ROS_FAILED; ret None else
        run change (fun c => c <| co_segment := page_segment p slot b |>);
        ret (Some kind))
  end).

Definition sequence_ok (r : ros_record) (s : ros_segment) : bool :=
  negb (negb (rr_blocked r =? 0) || negb (eb_segment_sequence (rs_identity s) =? rr_segments r) ||
    (rs_first_sample s <? rr_next_sample r) ||
    negb (rs_gap s =? (if rr_next_sample r <? rs_first_sample s then 1 else 0)) ||
    (UINT64_MAX - rs_samples s <? rr_committed_samples r)).
Definition sequence_valid : M C Z :=
  own (fun c => if sequence_ok (record_at c (rs_root (co_segment c))) (co_segment c) then ret ROS_OK else fault ROS_FAILED).
Definition accounted (r : ros_record) (s : ros_segment) : ros_record :=
  RosRecord (rr_identity r) (rr_first_sample r) (rs_next_sample s) (u64 (rr_committed_samples r + rs_samples s))
    (rr_present r) (rr_finalized r) (rr_interrupted r) (rr_mode r) (u32 (rr_segments r + 1))
    (u32 (rr_gaps r + rs_gap s)) (rr_profile r) (rr_blocked r) (rr_completion r).
Definition account (c : ros_context) : ros_context :=
  let s := co_segment c in set_record c (rs_root s) (accounted (record_at c (rs_root s)) s).
Definition complete_ok (r : ros_record) (f : rp_completion) : bool :=
  negb (negb (identity_equal (rr_identity r) (pc_session f)) || negb (eb_segment_sequence (pc_session f) =? 0) ||
    negb (eb_plaintext_bytes (pc_session f) =? 0) || negb (pc_mode f =? rr_mode r) || (pc_reason f =? 0) ||
    (RP_REASON_LIMIT <? pc_reason f) || negb (pc_segments f =? rr_segments r) || (pc_gaps f <? rr_gaps r) ||
    negb (pc_committed_samples f =? rr_committed_samples r) || (pc_captured_samples f <? pc_committed_samples f) ||
    (pc_next_sample f <? rr_next_sample r) || (pc_next_sample f <? rr_first_sample r) ||
    (pc_next_sample f - rr_first_sample r <? pc_captured_samples f)).
Definition complete_valid (r : ros_record) (f : rp_completion) : M C Z :=
  if complete_ok r f then ret ROS_OK else fault ROS_FAILED.
(** [es_container_validate] of the private container for the private segment. *)
Definition container_shape_ok (c : ros_context) : bool :=
  match es_container_validate (Some (Obj 0 (co_container c))) (rs_container_bytes (co_segment c))
          (Some (Obj 0x100000 (rs_identity (co_segment c)))) with
  | ES_OK => true
  | _ => false
  end.
Definition container_valid : M C Z :=
  own (fun c =>
    if negb (container_shape_ok c) then fault ROS_FAILED else
    do d <- hash (slice 0 (rs_container_bytes (co_segment c)) (co_container c));
    match d with
    | None => fault ROS_FAILED
    | Some d => if bool_decide (d = rs_digest (co_segment c)) then ret ROS_OK else fault ROS_FAILED
    end).
Definition ready : M C Z := try guard; run status_set (fun s => s <| st_ready := 1 |>); ret ROS_READY.

(** The bytes of the container that page [i] carries. *)
Definition page_bytes (c : ros_context) (i : Z) : Z := Z.min 2048 (rs_container_bytes (co_segment c) - i * 2048).
Definition data_page (c : ros_context) (i : Z) : Z := sector c (rs_slot (co_segment c)) + 1 + i.
Definition read_container_page : M C Z :=
  own (fun c =>
  do rc <- read_page (data_page c (co_index c));
  if negb (rc =? ROS_READ_OK) then fault rc else
  own (fun c =>
    let n := page_bytes c (co_index c) in
    if negb (all (slice n (2048 - n) (co_page c)) 255) then fault ROS_FAILED else
    run change (fun c => c <| co_container ::= blit (co_index c * 2048) (slice 0 n (co_page c)) |> <| co_index ::= fun i => u32 (i + 1) |>);
    ret ROS_PENDING)).

(** ** Starting a volume *)
Definition fingerprint_domain : bytes :=
  [0x4f; 0x70; 0x65; 0x6e; 0x50; 0x65; 0x6e; 0x64; 0x61; 0x6e; 0x74; 0x20; 0x72; 0x65; 0x63; 0x69; 0x70; 0x69; 0x65;
   0x6e; 0x74; 0x20; 0x70; 0x75; 0x62; 0x6c; 0x69; 0x63; 0x20; 0x6b; 0x65; 0x79; 0x20; 0x76; 0x31; 0].
(** [complete]: every callback of the port is present.  The context that a
    success leaves. *)
Definition initialize (ca : Z) (c : ptr ros_context) (p : ptr bool) (h : ptr owned_page_hash) (v : ptr es_binding)
    (recipient : ptr bytes) (capacity extent : Z) : Z * option ros_context :=
  match c, p, h, v, recipient with
  | Some co, Some po, Some ho, Some vo, Some rco =>
      let v := deref vo in let recipient' := slice 0 65 (deref rco) in
      if negb (co_initialized (deref co) =? 0) || negb (external ca p sizeof_ros_port) ||
         negb (external ca h sizeof_owned_page_hash) || negb (external ca (Some vo) sizeof_es_binding) ||
         negb (external ca recipient 65) || negb (deref po) || negb (hash_valid h) || negb (znth 0 recipient' =? 4) ||
         negb (id_valid (eb_key_fingerprint v)) || negb (id_valid (eb_device_id v)) || negb (id_valid (eb_volume_id v)) ||
         (eb_generation v =? 0) || (INT64_MAX <? eb_generation v) || negb (all (eb_recording_id v) 0) ||
         negb (eb_segment_sequence v =? 0) || negb (eb_plaintext_bytes v =? 0) || (capacity <? ROS_ROOTS + ROS_SLOT_PAGES)
      then (ROS_ARGUMENT, None) else
      match sha_digest (deref ho) (fingerprint_domain ++ [0; 16] ++ recipient') with
      | None => (ROS_ARGUMENT, None)
      | Some d =>
          if negb (bool_decide (d = eb_key_fingerprint v)) then (ROS_ARGUMENT, None) else
          let roots := if extent =? 0 then ROS_ROOTS else ROS_EXTENT_ROOTS in
          let limit := if extent =? 2 then RLL_SLOTS else if extent =? 0 then ROS_SLOTS else ROS_EXTENT_SLOTS in
          (ROS_OK, Some (zero_context
             <| co_hash := deref ho |> <| co_volume := v |> <| co_recipient := recipient' |>
             <| co_extent_profile := extent |> <| co_root_count := roots |> <| co_segment_limit := limit |>
             <| co_status ::= fun s => s <| st_slot_count := Z.min ((capacity - roots) / ROS_SLOT_PAGES) limit |> |>
             <| co_active_root := roots |> <| co_initialized := ROS_INITIALIZED |>))
      end
  | _, _, _, _, _ => (ROS_ARGUMENT, None)
  end.
Definition ros_init ca c p h v recipient capacity := initialize ca c p h v recipient capacity 0.
Definition ros_init_extent ca c p h v recipient := initialize ca c p h v recipient ROS_EXTENT_CAPACITY 1.
Definition ros_init_full ca c p h v recipient := initialize ca c p h v recipient RLL_ROS_CAPACITY 2.

Definition forget_index (c : ros_context) : ros_context :=
  c <| co_scan_root := 0 |> <| co_scan_slot := 0 |> <| co_records := no_records |> <| co_used := no_used |>
    <| co_status ::= fun s => s <| st_consumed_slots := 0 |> |>.
Definition ros_recover (deadline : Z) : M C Z :=
  locked (own (fun c =>
    if negb (st_mounted (co_status c) =? 0) then ret ROS_STATE else
    try begin ROS_RECOVER deadline;
    run change forget_index; ret ROS_PENDING)).

Definition nth_id (ids : bytes) (i : Z) : bytes := slice (i * 16) 16 ids.
(** Every identifier is valid and differs from the ones before it. *)
Definition ids_ok (ids : bytes) (count : Z) : bool :=
  forallb (fun i => id_valid (nth_id ids i) && forallb (fun j => negb (same_bytes (nth_id ids i) (nth_id ids j))) (zseq i))
    (zseq count).
Definition ros_recover_retired (ca : Z) (v : ptr es_binding) (ids : ptr bytes) (count deadline : Z) : M C Z :=
  locked (own (fun c =>
    match v with
    | None => ret ROS_ARGUMENT
    | Some vo =>
        let b := deref vo in let list_ := match ids with Some i => deref i | None => [] end in
        if negb (external ca v sizeof_es_binding) || negb (volume_equal b (co_volume c)) ||
           negb (eb_segment_sequence b =? 0) || negb (eb_plaintext_bytes b =? 0) || negb (all (eb_recording_id b) 0) ||
           ((if co_extent_profile c =? 2 then RLL_TOMBSTONES else ROS_RETIRED_MAX) <? count) ||
           (negb (count =? 0) && (negb (external ca ids (count * 16)) || poverlap v sizeof_es_binding ids (count * 16)))
        then ret ROS_ARGUMENT else
        if negb (ids_ok list_ count) then ret ROS_ARGUMENT else
        if negb (forallb (fun r => existsb (fun j => same_bytes r (nth_id list_ j)) (zseq count)) (co_retired c)) then ret ROS_STATE else
        if co_active_root c <? co_root_count c then ret ROS_STATE else
        try begin ROS_RECOVER deadline;
        if negb (st_mounted (co_status c) =? 0) && (count =? zlen (co_retired c))
        then run status_set (fun s => s <| st_job := ROS_NONE |>); ret ROS_OK else
        run change (fun c => c <| co_retired := map (nth_id list_) (zseq count) |>);
        run status_set (fun s => s <| st_mounted := 0 |>);
        run change forget_index; ret ROS_PENDING
    end)).

(** The lowest absent root, unless the identity is already present. *)
Fixpoint find_root (b : es_binding) (records : list ros_record) (i : Z) (free : option Z) : option (option Z) :=
  match records with
  | [] => Some free
  | r :: records =>
      if negb (rr_present r =? 0)
      then if identity_equal b (rr_identity r) then None else find_root b records (i + 1) free
      else find_root b records (i + 1) (match free with None => Some i | Some f => Some f end)
  end.
Definition reserved_record (b : es_binding) (mode first : Z) : ros_record :=
  RosRecord b first first 0 1 0 0 mode 0 0 2 0 zero_completion.
Definition ros_reserve (ca : Z) (b : ptr es_binding) (mode first deadline : Z) : M C Z :=
  locked (own (fun c =>
    match b with
    | None => ret ROS_ARGUMENT
    | Some bo =>
        let b' := deref bo in
        if negb (external ca b sizeof_es_binding) || negb (volume_equal b' (co_volume c)) ||
           negb (id_valid (eb_recording_id b')) || negb (eb_plaintext_bytes b' =? 0) || negb (eb_segment_sequence b' =? 0) ||
           (negb (mode =? RP_MANUAL) && negb (mode =? RP_CONTINUOUS)) then ret ROS_ARGUMENT else
        if (st_mounted (co_status c) =? 0) || (co_active_root c <? co_root_count c) || retired c (eb_recording_id b')
        then ret ROS_STATE else
        match find_root b' (take (Z.to_nat (co_root_count c)) (co_records c)) 0 None with
        | None => ret ROS_STATE
        | Some None => ret ROS_FULL
        | Some (Some free) =>
            if st_consumed_slots (co_status c) =? st_slot_count (co_status c) then ret ROS_FULL else
            try begin ROS_RESERVE deadline;
            run change (fun c => c <| co_root := free |> <| co_pending_record := reserved_record b' mode first |>);
            try catalog_root ROOT_ACTIVE (reserved_record b' mode first); ret ROS_PENDING
        end
    end)).

(** ** Committing a segment *)
Definition set_digest (s : ros_segment) (d : bytes) : ros_segment :=
  RosSegment (rs_identity s) (rs_first_sample s) (rs_next_sample s) (rs_samples s) (rs_root s) (rs_slot s) (rs_profile s)
    (rs_gap s) (rs_container_bytes s) (rs_pages s) d.
(** [es_info_build] into a local from a header and a binding elsewhere. *)
Definition es_info_local (header : bytes) (b : es_binding) : option bytes :=
  match es_info_build (Some (Obj 0 (fill 161 0))) ES_INFO_BYTES (Some (Obj 256 header)) ES_HEADER_BYTES (Some (Obj 512 b)) with
  | (ES_OK, Some info) => Some info
  | _ => None
  end.
(** [plain] is read before the callback writes: it may be the container itself. *)
Definition seal_prepared (plain : bytes) (n : Z) : M C Z :=
  own (fun c =>
  let b := rs_identity (co_segment c) in
  match es_build_local b (slice 0 128 (co_container c)) with
  | None => fault ROS_FAILED
  | Some header =>
      run change (fun c => c <| co_container ::= blit 0 header |>);
      match es_info_local header b with
      | None => fault ROS_FAILED
      | Some info =>
          do refused <- store_admit 1;
          if negb (refused =? 0) then fault ROS_FAILED else
          own (fun c =>
          do r <- call (po_seal port (co_recipient c) info plain (n + 16));
          let '(rc, enc, cipher, actual) := r in
          run change (fun c => c <| co_container ::= fun p =>
            blit 193 (slice 0 (n + 16) (map u8 cipher)) (blit 128 (slice 0 65 (map u8 enc)) p) |>);
          do late <- guard;
          own (fun c =>
          if negb (late =? 0) || negb (rc =? 0) || negb (actual =? n + 16) || negb (container_shape_ok c)
          then fault (if rc =? 0 then ROS_FAILED else rc) else
          do d <- hash (slice 0 (n + 209) (co_container c));
          match d with
          | None => ret ROS_FAILED
          | Some d =>
              run change (fun c => c <| co_segment ::= fun s => set_digest s d |>);
              try catalog_segment SLOT_INTENT; ret ROS_PENDING
          end))
      end
  end).

Definition free_slot (c : ros_context) : option Z := List.find (fun i => slot_state c i =? 0) (zseq (st_slot_count (co_status c))).
Definition plain_segment (b : es_binding) (plain : bytes) (n root slot : Z) : ros_segment :=
  let bytes := u32 (n + 209) in
  RosSegment b (get64 32 plain) (get64 40 plain) (get32 68 plain) root slot 2 (Z.shiftr (get32 28 plain) 1) bytes
    (u32 (bytes + 2047) / 2048) (fill 32 0).
Definition prepare (opus : opus_parser) (ca : Z) (b : ptr es_binding) (plain : ptr bytes) (n deadline : Z) (deferred : bool) : M C Z :=
  locked (own (fun c =>
    match b, plain with
    | Some bo, Some po =>
        let b' := deref bo in let plain' := deref po in
        if negb (external ca b sizeof_es_binding) || negb (external ca plain n) || poverlap b sizeof_es_binding plain n ||
           (RP_PLAINTEXT_CAPACITY <? n) || negb (n =? eb_plaintext_bytes b') ||
           negb (rp_segment_validate opus (Some plain') n =? 0) || negb (get32 72 plain' =? 2) then ret ROS_ARGUMENT else
        if (st_mounted (co_status c) =? 0) || (co_root_count c <=? co_active_root c) then ret ROS_STATE else
        let r := record_at c (co_active_root c) in
        if negb (identity_equal b' (rr_identity r)) || negb (eb_segment_sequence b' =? rr_segments r) ||
           (co_segment_limit c <=? eb_segment_sequence b') || negb (rr_blocked r =? 0) || negb (rr_finalized r =? 0) ||
           negb (rr_interrupted r =? 0) then ret ROS_STATE else
        match free_slot c with
        | None => ret ROS_FULL
        | Some slot =>
            try begin ROS_SEGMENT deadline;
            run change (fun c => c <| co_segment := plain_segment b' plain' n (co_active_root c) slot |>);
            do bad <- sequence_valid;
            if negb (bad =? 0) then ret ROS_FAILED else
            if deferred then
              run change (fun c => c <| co_container ::= blit 193 (slice 0 n plain') |>);
              run status_set (fun s => s <| st_stage := 9 |>);
              try guard; ret ROS_PENDING
            else seal_prepared (slice 0 n plain') n
        end
    | _, _ => ret ROS_ARGUMENT
    end)).
Definition ros_prepare opus ca b plain n deadline := prepare opus ca b plain n deadline false.
Definition ros_prepare_deferred opus ca b plain n deadline := prepare opus ca b plain n deadline true.

Definition finalized_record (r : ros_record) (f : rp_completion) : ros_record :=
  RosRecord (rr_identity r) (rr_first_sample r) (rr_next_sample r) (rr_committed_samples r) (rr_present r) 1
    (rr_interrupted r) (rr_mode r) (rr_segments r) (rr_gaps r) (rr_profile r) (rr_blocked r) f.
Definition ros_finalize (ca : Z) (f : ptr rp_completion) (deadline : Z) : M C Z :=
  locked (own (fun c =>
    match f with
    | None => ret ROS_ARGUMENT
    | Some fo =>
        if negb (external ca f sizeof_rp_completion) then ret ROS_ARGUMENT else
        if (st_mounted (co_status c) =? 0) || (co_root_count c <=? co_active_root c) then ret ROS_STATE else
        if negb (st_fault (co_status c) =? 0) || negb (st_job (co_status c) =? ROS_NONE) then ret ROS_STATE else
        let r := record_at c (co_active_root c) in
        do bad <- complete_valid r (deref fo);
        if negb (bad =? 0) then ret ROS_FAILED else
        try begin ROS_FINALIZE deadline;
        let pending := finalized_record r (deref fo) in
        run change (fun c => c <| co_root := co_active_root c |> <| co_pending_record := pending |>);
        try catalog_root ROOT_FINAL pending; ret ROS_PENDING
    end)).

Definition load_job (job slot deadline : Z) : M C Z :=
  locked (own (fun c =>
    if (st_mounted (co_status c) =? 0) || (st_slot_count (co_status c) <=? slot) || negb (slot_state c slot =? SLOT_COMMIT)
    then ret ROS_NOT_FOUND else
    try begin job deadline;
    run change (fun c => c <| co_slot := slot |>); ret ROS_PENDING)).
Definition ros_load := load_job ROS_LOAD.
Definition ros_describe_committed := load_job ROS_META.

(** ** Steps *)
Definition next_stage : M C Z := run status_set (fun s => s <| st_stage ::= fun i => i + 1 |>); ret ROS_PENDING.
Definition to_stage (stage : Z) : M C Z := run status_set (fun s => s <| st_stage := stage |>); ret ROS_PENDING.
Definition next_scan_slot : M C Z := run change (fun c => c <| co_scan_slot ::= fun i => u32 (i + 1) |>); ret ROS_PENDING.

Definition blocked_record (r : ros_record) : ros_record :=
  RosRecord (rr_identity r) (rr_first_sample r) (rr_next_sample r) (rr_committed_samples r) (rr_present r)
    (rr_finalized r) 1 (rr_mode r) (rr_segments r) (rr_gaps r) (rr_profile r) 1 (rr_completion r).
Definition recovered_ok (r : ros_record) : bool :=
  negb (negb (rr_finalized r =? 0) && (negb (rr_blocked r =? 0) || negb (complete_ok r (rr_completion r)))).
Definition recover_slot : M C Z :=
  own (fun c =>
  do rc <- read_page (sector c (co_scan_slot c));
  if rc <? 0 then ret rc else
  if rc =? ROS_READ_MISSING then next_scan_slot else
  do parsed <- parse_segment (co_scan_slot c);
  match parsed with
  | None => ret ROS_FAILED
  | Some kind =>
      if kind =? SLOT_RETIRED then next_scan_slot else
      do bad <- sequence_valid;
      if negb (bad =? 0) then ret ROS_FAILED else
      run change (fun c => set_slot_state c (co_scan_slot c) kind);
      run status_set (fun s => s <| st_consumed_slots ::= fun n => u32 (n + 1) |>);
      if kind =? SLOT_INTENT then
        run change (fun c => let root := rs_root (co_segment c) in set_record c root (blocked_record (record_at c root)));
        next_scan_slot
      else if negb (co_extent_profile c =? 0) then run change account; next_scan_slot
      else run change (fun c => c <| co_index := 0 |>); to_stage 11
  end).
Definition recover_step : M C Z :=
  own (fun c =>
    let stage := st_stage (co_status c) in
    if stage =? 0 then
      if co_scan_root c <? co_root_count c then
        do rc <- read_page (co_scan_root c);
        do parsed <- (if rc =? ROS_READ_OK then parse_root (co_scan_root c) else ret 0);
        if negb (parsed =? 0) then ret ROS_FAILED else
        if rc <? 0 then ret rc else
        run change (fun c => c <| co_scan_root ::= fun i => u32 (i + 1) |>); ret ROS_PENDING
      else to_stage 10
    else if stage =? 10 then
      if co_scan_slot c =? st_slot_count (co_status c) then
        if negb (forallb recovered_ok (take (Z.to_nat (co_root_count c)) (co_records c))) then fault ROS_FAILED else
        run status_set (fun s => s <| st_mounted := 1 |>); ready
      else recover_slot
    else if co_index c <? rs_pages (co_segment c) then read_container_page
    else
      try container_valid;
      run change account;
      run change (fun c => c <| co_container := fill ROS_CONTAINER_BYTES 0 |> <| co_scan_slot ::= fun i => u32 (i + 1) |>);
      to_stage 10).

(** [read_page(c, p) != ROS_READ_OK || memcmp(c->page, expected, 2048)] faults. *)
Definition verify_page (p : Z) (expected : bytes) (k : M C Z) : M C Z :=
  do rc <- read_page p;
  own (fun c => if negb (rc =? ROS_READ_OK) || negb (bool_decide (co_page c = expected)) then fault ROS_FAILED else k).

Definition root_step : M C Z :=
  own (fun c =>
    let stage := st_stage (co_status c) in
    if stage =? 0 then try write_page (co_root c) (co_catalog c); next_stage
    else if stage =? 1 then try sync_map; next_stage
    else verify_page (co_root c) (co_catalog c) (
      run change (fun c => set_record c (co_root c) (co_pending_record c));
      run change (fun c =>
        if st_job (co_status c) =? ROS_RESERVE then c <| co_active_root := co_root c |>
        else c <| co_active_root := co_root_count c |>
               <| co_final_receipt := FinalReceipt (rr_completion (co_pending_record c)) 1 |>);
      ready)).

(** The padded page [i] of the container. *)
Definition container_page (c : ros_context) (i : Z) : bytes :=
  slice (i * 2048) (page_bytes c i) (co_container c) ++ fill (2048 - page_bytes c i) 255.
Definition segment_step : M C Z :=
  own (fun c =>
    let s := co_segment c in let stage := st_stage (co_status c) in let where_ := sector c (rs_slot s) in
    if stage =? 9 then
      let n := eb_plaintext_bytes (rs_identity s) in
      do rc <- seal_prepared (slice 193 n (co_container c)) n;
      if rc =? ROS_PENDING then to_stage 0 else ret rc
    else if stage =? 0 then try write_page where_ (co_catalog c); next_stage
    else if stage =? 1 then try sync_map; next_stage
    else if stage =? 2 then
      verify_page where_ (co_catalog c) (
        run change (fun c => set_slot_state c (rs_slot s) SLOT_INTENT);
        run status_set (fun s => s <| st_consumed_slots ::= fun n => u32 (n + 1) |>);
        try catalog_segment SLOT_COMMIT;
        run change (fun c => c <| co_index := 0 |>);
        next_stage)
    else if stage =? 3 then
      if co_index c =? rs_pages s then to_stage 6 else
      let page := container_page c (co_index c) in
      run change (fun c => c <| co_page := page |>);
      try write_page (data_page c (co_index c)) page;
      run change (fun c => c <| co_index ::= fun i => u32 (i + 1) |>); ret ROS_PENDING
    else if stage =? 5 then
      if co_index c =? rs_pages s then to_stage 8 else
      do rc <- read_page (data_page c (co_index c));
      if negb (rc =? ROS_READ_OK) then fault ROS_FAILED else
      own (fun c =>
        let n := page_bytes c (co_index c) in
        if negb (bool_decide (slice 0 n (co_page c) = slice (co_index c * 2048) n (co_container c))) ||
           negb (all (slice n (2048 - n) (co_page c)) 255) then fault ROS_FAILED else
        run change (fun c => c <| co_index ::= fun i => u32 (i + 1) |>); ret ROS_PENDING)
    else if stage =? 6 then try write_page where_ (co_catalog c); next_stage
    else if stage =? 7 then try sync_map; run change (fun c => c <| co_index := 0 |>); to_stage 5
    else verify_page where_ (co_catalog c) (
      run change (fun c => set_slot_state c (rs_slot s) SLOT_COMMIT);
      run change account;
      run change (fun c => c <| co_receipt := SegmentReceipt 1 (slice 0 128 (co_container c)) |>);
      ready)).

Definition load_step : M C Z :=
  own (fun c =>
    if st_stage (co_status c) =? 0 then
      do rc <- read_page (sector c (co_slot c));
      if negb (rc =? ROS_READ_OK) then fault ROS_FAILED else
      do parsed <- parse_segment (co_slot c);
      match parsed with
      | Some kind =>
          if negb (kind =? SLOT_COMMIT) then fault ROS_FAILED else
          run change (fun c => c <| co_index := 0 |>);
          run status_set (fun s => s <| st_stage := 1 |>);
          if st_job (co_status c) =? ROS_META then ready else ret ROS_PENDING
      | None => fault ROS_FAILED
      end
    else if co_index c <? rs_pages (co_segment c) then read_container_page
    else try container_valid; ready).

Definition ros_step : M C Z :=
  locked (own (fun c =>
    if negb (st_fault (co_status c) =? 0) || (st_job (co_status c) =? ROS_NONE) then ret ROS_STATE else
    if negb (st_ready (co_status c) =? 0) then ret ROS_READY else
    try guard;
    let job := st_job (co_status c) in
    if job =? ROS_RECOVER then recover_step
    else if (job =? ROS_RESERVE) || (job =? ROS_FINALIZE) then root_step
    else if job =? ROS_SEGMENT then segment_step
    else if (job =? ROS_META) || (job =? ROS_LOAD) then load_step
    else fault ROS_FAILED)).

(** ** Results *)
Definition finish_job (c : ros_context) : ros_context :=
  status_upd (fun s => s <| st_job := ROS_NONE |> <| st_stage := 0 |> <| st_ready := 0 |>) (no_receipts (buffers c)).
(** A locked query that writes its output with a zero code only. *)
Definition query {A} (body : ros_context -> Z * option A) (after : ros_context -> ros_context) : M C (Z * option A) :=
  do rc <- lock;
  if negb (rc =? 0) then ret (rc, None) else
  own (fun c =>
    let '(rc, out) := body c in
    run change (if rc =? 0 then after else fun c => c);
    run unlock rc; ret (rc, if rc =? 0 then out else None)).
Definition done_job (c : ros_context) (jobs : list Z) : bool :=
  (st_fault (co_status c) =? 0) && negb (st_ready (co_status c) =? 0) && existsb (Z.eqb (st_job (co_status c))) jobs.
Definition ros_take_segment_receipt (ca : Z) (out : ptr rp_segment_receipt) : M C (Z * option rp_segment_receipt) :=
  query (fun c =>
    if negb (external ca out sizeof_rp_segment_receipt) then (ROS_ARGUMENT, None) else
    if negb (done_job c [ROS_SEGMENT]) then (ROS_STATE, None) else (ROS_OK, Some (co_receipt c))) finish_job.
Definition ros_take_final_receipt (ca : Z) (out : ptr rp_final_receipt) : M C (Z * option rp_final_receipt) :=
  query (fun c =>
    if negb (external ca out sizeof_rp_final_receipt) then (ROS_ARGUMENT, None) else
    if negb (done_job c [ROS_FINALIZE]) then (ROS_STATE, None) else (ROS_OK, Some (co_final_receipt c))) finish_job.
Definition ros_finish : M C (Z * option unit) :=
  query (fun c => (if negb (done_job c [ROS_RECOVER; ROS_RESERVE; ROS_LOAD; ROS_META]) then ROS_STATE else ROS_OK, Some tt)) finish_job.
Definition ros_copy_loaded (ca offset : Z) (out : ptr bytes) (capacity : Z) (actual : ptr Z) : M C (Z * option (bytes * Z)) :=
  query (fun c =>
    if negb (external ca out capacity) || negb (external ca actual 4) || (2048 <? capacity) || poverlap out capacity actual 4
    then (ROS_ARGUMENT, None) else
    if negb (done_job c [ROS_LOAD]) || (rs_container_bytes (co_segment c) <? offset) then (ROS_STATE, None) else
    let n := Z.min capacity (rs_container_bytes (co_segment c) - offset) in
    (ROS_OK, Some (slice offset n (co_container c), n))) (fun c => c).
Definition ros_get_status (ca : Z) (out : ptr ros_status) : M C (Z * option ros_status) :=
  query (fun c => if negb (external ca out sizeof_ros_status) then (ROS_ARGUMENT, None) else (ROS_OK, Some (co_status c))) (fun c => c).
Definition ros_get_geometry (ca : Z) (out : ptr (Z * Z * Z)) : M C (Z * option (Z * Z * Z)) :=
  query (fun c =>
    if negb (external ca out 12) then (ROS_ARGUMENT, None) else
    if negb (st_fault (co_status c) =? 0) then (ROS_STATE, None) else
    (ROS_OK, Some (co_root_count c, st_slot_count (co_status c), co_extent_profile c))) (fun c => c).
Definition ros_get_loaded_segment (ca : Z) (out : ptr ros_segment) : M C (Z * option ros_segment) :=
  query (fun c =>
    if negb (external ca out sizeof_ros_segment) then (ROS_ARGUMENT, None) else
    if negb (done_job c [ROS_LOAD; ROS_META]) then (ROS_STATE, None) else (ROS_OK, Some (co_segment c))) (fun c => c).
Definition ros_get_record (ca root : Z) (out : ptr ros_record) : M C (Z * option ros_record) :=
  query (fun c =>
    if negb (external ca out sizeof_ros_record) || (co_root_count c <=? root) then (ROS_ARGUMENT, None) else
    if (st_mounted (co_status c) =? 0) || negb (st_fault (co_status c) =? 0) || (rr_present (record_at c root) =? 0)
    then (ROS_NOT_FOUND, None) else (ROS_OK, Some (record_at c root))) (fun c => c).
End Store.
