(* ===== verification/StoreRules.v ===== *)
(** The object store's proof rules: the log of its backend calls, what each
    helper does to the context, the invariant of the store and the step of a
    segment's job.  Nothing is assumed of what the backend answers. *)
From S2P Require Import Prelude OwnedPage SegmentHeader Extent RecordTypes PlainSegment Wp ObjectStore.

(** * The log of backend calls *)
Inductive event :=
  | EvRead (p rc : Z) (page : bytes)
  | EvWrite (p : Z) (page : bytes) (rc : Z)
  | EvSync (rc : Z).
Definition logged {W} (port : ros_port W) : ros_port (list event * W) := {|
  po_now_ms := fun '(t, w) => let '(n, w) := po_now_ms port w in (n, (t, w));
  po_cancelled := fun '(t, w) => let '(n, w) := po_cancelled port w in (n, (t, w));
  po_admit := fun writing d '(t, w) => let '(rc, w) := po_admit port writing d w in (rc, (t, w));
  po_read := fun p d '(t, w) =>
    let '(rc, page, w) := po_read port p d w in (rc, page, (t ++ [EvRead p rc (received page)], w));
  po_write := fun p page d '(t, w) => let '(rc, w) := po_write port p page d w in (rc, (t ++ [EvWrite p page rc], w));
  po_sync := fun d '(t, w) => let '(rc, w) := po_sync port d w in (rc, (t ++ [EvSync rc], w));
  po_seal := fun r i pl n '(t, w) => let '(rc, w) := po_seal port r i pl n w in (rc, (t, w))
|}.

(** Every call a client can make. *)
Inductive ros_op :=
  | OpRecover (deadline : Z)
  | OpRecoverRetired (ca : Z) (v : ptr es_binding) (ids : ptr bytes) (count deadline : Z)
  | OpReserve (ca : Z) (b : ptr es_binding) (mode first deadline : Z)
  | OpPrepare (ca : Z) (b : ptr es_binding) (plain : ptr bytes) (n deadline : Z) (deferred : bool)
  | OpFinalize (ca : Z) (f : ptr rp_completion) (deadline : Z)
  | OpLoad (slot deadline : Z) | OpDescribe (slot deadline : Z)
  | OpStep
  | OpTakeSegment (ca : Z) (out : ptr rp_segment_receipt) | OpTakeFinal (ca : Z) (out : ptr rp_final_receipt) | OpFinish.
Definition run_op {W} (port : ros_port W) (opus : opus_parser) (o : ros_op) : M (ros_context * W) Z :=
  let code {A} (m : M (ros_context * W) (Z * option A)) : M (ros_context * W) Z := do r <- m; ret (fst r) in
  match o with
  | OpRecover d => ros_recover port d
  | OpRecoverRetired ca v ids n d => ros_recover_retired port ca v ids n d
  | OpReserve ca b m f d => ros_reserve port ca b m f d
  | OpPrepare ca b p n d def => prepare port opus ca b p n d def
  | OpFinalize ca f d => ros_finalize port ca f d
  | OpLoad s d => ros_load port s d
  | OpDescribe s d => ros_describe_committed port s d
  | OpStep => ros_step port
  | OpTakeSegment ca out => code (ros_take_segment_receipt ca out)
  | OpTakeFinal ca out => code (ros_take_final_receipt ca out)
  | OpFinish => code ros_finish
  end.
Fixpoint run_ops {W} (port : ros_port W) (opus : opus_parser) (os : list ros_op) : M (ros_context * W) unit :=
  match os with
  | [] => ret tt
  | o :: os => run run_op port opus o; run_ops port opus os
  end.

(** * The slot index *)
Lemma set_slot_state_fields c slot v :
  co_status (set_slot_state c slot v) = co_status c /\ co_records (set_slot_state c slot v) = co_records c /\
  co_segment (set_slot_state c slot v) = co_segment c /\ zlen (co_used (set_slot_state c slot v)) = zlen (co_used c).
Proof. split_and!; try done. unfold set_slot_state. cbn. unfold zlen. by rewrite length_insert. Qed.

Lemma nibble_set x shift v shift' : 0 <= x < 256 -> 0 <= v < 16 -> shift = 0 \/ shift = 4 -> shift' = 0 \/ shift' = 4 ->
  Z.land (Z.shiftr (u8 (Z.lor (Z.land x (Z.lnot (Z.shiftl 15 shift))) (Z.shiftl v shift))) shift') 15 =
  if shift =? shift' then v else Z.land (Z.shiftr x shift') 15.
Proof.
  intros Hx Hv Hs Hs'.
  assert (Hb : forall i, 0 <= i < 8 -> Z.testbit (u8 (Z.lor (Z.land x (Z.lnot (Z.shiftl 15 shift))) (Z.shiftl v shift))) i =
    if (shift <=? i) && (i <? shift + 4) then Z.testbit v (i - shift) else Z.testbit x i).
  { intros i Hi. unfold u8. rewrite Z.mod_pow2_bits_low, Z.lor_spec, Z.land_spec, Z.lnot_spec, !Z.shiftl_spec by lia.
    change 15 with (Z.ones 4). rewrite Z.testbit_ones by lia.
    destruct (Z.leb_spec shift i); cbn [andb].
    - rewrite (proj2 (Z.leb_le 0 (i - shift))) by lia. cbn [andb].
      destruct (Z.ltb_spec i (shift + 4)).
      + rewrite (proj2 (Z.ltb_lt _ _)) by lia. cbn [negb]. by rewrite andb_false_r.
      + rewrite (proj2 (Z.ltb_ge _ _)) by lia. cbn [negb]. rewrite andb_true_r, (testbit_above v 4 (i - shift)) by lia. apply orb_false_r.
    - rewrite (proj2 (Z.leb_gt 0 (i - shift))) by lia. cbn [andb negb].
      rewrite andb_true_r, (Z.testbit_neg_r v) by lia. apply orb_false_r. }
  apply Z.bits_inj'. intros i Hi. rewrite Z.land_spec, Z.shiftr_spec by lia.
  change 15 with (Z.ones 4). rewrite Z.testbit_ones by lia. rewrite (proj2 (Z.leb_le 0 i)) by lia. cbn [andb].
  destruct (Z.ltb_spec i 4).
  - rewrite Hb, andb_true_r by lia. destruct (Z.eqb_spec shift shift') as [->|].
    + replace ((shift' <=? i + shift') && (i + shift' <? shift' + 4)) with true by lia. f_equal. lia.
    + replace ((shift <=? i + shift') && (i + shift' <? shift + 4)) with false by lia.
      rewrite Z.land_spec, Z.shiftr_spec, Z.testbit_ones by lia.
      rewrite (proj2 (Z.leb_le 0 i)), (proj2 (Z.ltb_lt i 4)) by lia. by rewrite andb_true_r.
  - rewrite andb_false_r. symmetry. destruct (shift =? shift'); [by apply (testbit_above v 4 i)|].
    rewrite Z.land_spec, Z.testbit_ones by lia. rewrite (proj2 (Z.ltb_ge i 4)) by lia. by rewrite !andb_false_r.
Qed.

Lemma slot_state_set c slot v slot' :
  zlen (co_used c) = 2560 -> is_bytes (co_used c) -> 0 <= slot < RLL_SLOTS -> 0 <= slot' < RLL_SLOTS -> 0 <= v < 16 ->
  slot_state (set_slot_state c slot v) slot' = if slot =? slot' then v else slot_state c slot'.
Proof.
  unfold RLL_SLOTS. intros Hl Hb Hs Hs' Hv. unfold slot_state.
  assert (0 <= slot / 2 < 2560 /\ 0 <= slot' / 2 < 2560) as [H1 H2] by divlia.
  assert (Hm : forall n, n mod 2 * 4 = 0 \/ n mod 2 * 4 = 4) by (intros n; divlia).
  change (co_used (set_slot_state c slot v)) with (<[Z.to_nat (slot / 2) :=
    u8 (Z.lor (Z.land (znth (slot / 2) (co_used c)) (Z.lnot (Z.shiftl 15 (slot mod 2 * 4)))) (Z.shiftl v (slot mod 2 * 4)))]> (co_used c)).
  rewrite znth_insert by lia.
  destruct (Z.eqb_spec (slot / 2) (slot' / 2)) as [E|E].
  - rewrite nibble_set by (apply Hm || done || (apply znth_range; [lia|done])). rewrite E.
    destruct (Z.eqb_spec slot slot') as [->|]; [by rewrite Z.eqb_refl|].
    rewrite (proj2 (Z.eqb_neq _ _)); [done|]. divlia.
  - destruct (Z.eqb_spec slot slot') as [->|]; done.
Qed.

(** * What a computation may write *)
Definition writes_in (A : Z -> Prop) (e : event) : Prop := match e with EvWrite p _ _ => A p | _ => True end.
Section Emits.
Context {W : Type} (port : ros_port W).
Abbreviation S := (ros_context * (list event * W))%type.
Definition trace (s : S) : list event := fst (snd s).
(** From any state, [m] only appends to the log, and writes only where [A] allows. *)
Definition emits (A : Z -> Prop) {X} (m : M S X) : Prop :=
  forall s, exists es, trace (snd (m s)) = trace s ++ es /\ Forall (writes_in A) es.

Lemma emits_ret A {X} (x : X) : emits A (ret x : M S X).
Proof. intros s. exists []. split; [by rewrite app_nil_r|done]. Qed.

Lemma emits_bind A {X Y} (m : M S X) (k : X -> M S Y) : emits A m -> (forall x, emits A (k x)) -> emits A (bind m k).
Proof.
  intros Hm Hk s. destruct (Hm s) as (es & E & F). unfold bind. destruct (m s) as [x s']. destruct (Hk x s') as (es' & E' & F').
  exists (es ++ es'). cbn in *. split; [by rewrite E', E, app_assoc|by apply Forall_app].
Qed.

Lemma emits_on_ok A (m k : M S Z) : emits A m -> emits A k -> emits A (on_ok m k).
Proof. intros Hm Hk. apply emits_bind; [done|]. intros rc. destruct (rc =? 0); [done|apply emits_ret]. Qed.

Lemma emits_own A {X} (k : ros_context -> M S X) : (forall c, emits A (k c)) -> emits A (own k).
Proof. intros Hk s. apply Hk. Qed.

Lemma emits_change A f : emits A (change f : M S unit).
Proof. intros s. exists []. split; [by rewrite app_nil_r|done]. Qed.

Lemma emits_call A {X} (f : list event * W -> X * (list event * W)) :
  (forall t w, exists es, fst (snd (f (t, w))) = t ++ es /\ Forall (writes_in A) es) -> emits A (call f : M S X).
Proof. intros Hf [c [t w]]. destruct (Hf t w) as (es & E & F). exists es. unfold call, trace in *. cbn. by destruct (f (t, w)). Qed.

Lemma emits_quiet A {X} (g : W -> X * W) (f : list event * W -> X * (list event * W)) :
  (forall t w, f (t, w) = let '(x, w) := g w in (x, (t, w))) -> emits A (call f : M S X).
Proof. intros E. apply emits_call. intros t w. exists []. rewrite E. destruct (g w). by rewrite app_nil_r. Qed.

Lemma emits_use A {X} (k : S -> X * S) s : emits A k -> exists es, trace (snd (k s)) = trace s ++ es /\ Forall (writes_in A) es.
Proof. auto. Qed.
End Emits.

Ltac emits :=
  repeat first
    [ assumption
    | match goal with
      | |- emits _ (ret _) => apply emits_ret
      | |- emits _ (change _) => apply emits_change
      | |- emits _ (on_ok _ _) => apply emits_on_ok
      | |- emits _ (bind _ _) => apply emits_bind; [|intros ?]
      | |- emits _ (own _) => apply emits_own; intros ?
      | |- emits _ (match ?x with _ => _ end) => destruct x
      | |- emits _ (let '(_, _) := ?x in _) => destruct x
      | |- emits _ (status_set _) => apply emits_change
      end
    | progress (cbv beta zeta) ].

Section StoreEmits.
Context {W : Type} (port : ros_port W) (A : Z -> Prop).
Abbreviation P := (logged port).

Lemma emits_fault rc : emits (W := W) A (fault rc).
Proof. unfold fault. emits. Qed.
Lemma emits_guard : emits A (guard P).
Proof.
  unfold guard. apply emits_bind; [by eapply (emits_quiet A (po_now_ms port)); intros|intros].
  apply emits_bind; [by eapply (emits_quiet A (po_cancelled port)); intros|intros].
  apply emits_bind; [by eapply (emits_quiet A (po_now_ms port)); intros|intros]. emits; apply emits_fault.
Qed.
Lemma emits_checked rc : emits A (checked P rc).
Proof. unfold checked. pose proof emits_guard. emits; apply emits_fault. Qed.
Lemma emits_admit writing : emits A (store_admit P writing).
Proof.
  unfold store_admit. pose proof emits_guard. emits; first [apply emits_checked|by eapply (emits_quiet A (po_admit port writing _)); intros].
Qed.
Lemma emits_hash p : emits A (hash P p).
Proof. unfold hash. pose proof emits_guard. emits; first [apply emits_fault|apply emits_checked]. Qed.
Lemma emits_read_page p : emits A (read_page P p).
Proof.
  unfold read_page. pose proof emits_guard. pose proof (emits_admit 0). emits; try apply emits_fault.
  apply emits_call. intros t w. cbn. destruct (po_read port p _ w) as [[rc page] w']. eexists. split; [done|by repeat constructor].
Qed.
Lemma emits_write_page p d : A p -> emits A (write_page P p d).
Proof.
  intros Hp. unfold write_page. pose proof (emits_admit 1). emits; try apply emits_checked.
  apply emits_call. intros t w. cbn. destruct (po_write port p d _ w) as [rc w']. eexists. split; [done|by repeat constructor].
Qed.
Lemma emits_sync_map : emits A (sync_map P).
Proof.
  unfold sync_map. pose proof (emits_admit 1). emits; try apply emits_checked.
  apply emits_call. intros t w. cbn. destruct (po_sync port _ w) as [rc w']. eexists. split; [done|by repeat constructor].
Qed.
Lemma emits_catalog_seal fields : emits A (catalog_seal P fields).
Proof. unfold catalog_seal. pose proof emits_hash. emits; apply emits_hash. Qed.
Lemma emits_catalog_check where_ : emits A (catalog_check P where_).
Proof. unfold catalog_check. emits; first [apply emits_fault|apply emits_hash]. Qed.
Lemma emits_parse_root root : emits A (parse_root P root).
Proof. unfold parse_root. pose proof emits_catalog_check. emits; first [apply emits_fault|apply emits_catalog_check]. Qed.
Lemma emits_parse_segment slot : emits A (parse_segment P slot).
Proof. unfold parse_segment. emits; first [apply emits_fault|apply emits_catalog_check]. Qed.
Lemma emits_sequence_valid : emits (W := W) A sequence_valid.
Proof. unfold sequence_valid. emits; apply emits_fault. Qed.
Lemma emits_complete_valid r f : emits (W := W) A (complete_valid r f).
Proof. unfold complete_valid. emits; apply emits_fault. Qed.
Lemma emits_container_valid : emits A (container_valid P).
Proof. unfold container_valid. emits; first [apply emits_fault|apply emits_hash]. Qed.
Lemma emits_ready : emits A (ready P).
Proof. unfold ready. pose proof emits_guard. emits. Qed.
Lemma emits_read_container_page : emits A (read_container_page P).
Proof. unfold read_container_page. emits; first [apply emits_fault|apply emits_read_page]. Qed.
Lemma emits_begin job d : emits A (begin P job d).
Proof. unfold begin. emits; first [apply emits_fault|by eapply (emits_quiet A (po_now_ms port)); intros]. Qed.
Lemma emits_verify_page p e k : emits A k -> emits A (verify_page P p e k).
Proof. intros. unfold verify_page. emits; first [apply emits_fault|apply emits_read_page]. Qed.
Lemma emits_locked (m : M (ros_context * (list event * W)) Z) : emits A m -> emits A (locked m).
Proof. intros. unfold locked, lock, unlock. emits. Qed.
Lemma emits_catalog_root k r : emits A (catalog_root P k r).
Proof. apply emits_own. intros. apply emits_catalog_seal. Qed.
Lemma emits_catalog_segment k : emits A (catalog_segment P k).
Proof. apply emits_own. intros. apply emits_catalog_seal. Qed.
Lemma emits_seal_prepared pl n : emits A (seal_prepared P pl n).
Proof.
  unfold seal_prepared. emits; first [apply emits_fault|apply emits_admit|apply emits_guard|apply emits_hash|apply emits_catalog_segment|idtac].
  by eapply (emits_quiet A (po_seal port _ _ _ _)); intros.
Qed.
Lemma emits_query {X} (body : ros_context -> Z * option X) after : emits (W := W) A (query body after).
Proof. unfold query, lock, unlock. emits. Qed.
End StoreEmits.
Create HintDb emits.
#[export] Hint Resolve emits_fault emits_guard emits_checked emits_admit emits_hash emits_read_page emits_sync_map emits_catalog_check
  emits_parse_root emits_parse_segment emits_sequence_valid emits_complete_valid emits_container_valid emits_ready
  emits_read_container_page emits_begin emits_locked emits_catalog_root emits_catalog_segment emits_seal_prepared
  emits_query : emits.

(** * What the helpers do to the context *)
Definition faulted {X} (s : ros_context * X) : Prop := st_fault (co_status (fst s)) <> 0.
Definition timed (c : ros_context) (n : Z) : ros_context := c <| co_last_now := n |>.
Definition begun (c : ros_context) (job deadline now : Z) : ros_context :=
  no_receipts (buffers (status_upd (fun s => s <| st_job := job |> <| st_stage := 0 |> <| st_ready := 0 |> <| st_error := 0 |>)
    (c <| co_last_now := now |> <| co_deadline := deadline |> <| co_index := 0 |>))).

(** Computes projections of updated contexts, and nothing else. *)
Ltac proj :=
  cbn [co_gate co_initialized co_hash co_volume co_recipient co_status co_deadline co_last_now co_root co_slot co_index
    co_scan_root co_scan_slot co_active_root co_root_count co_segment_limit co_extent_profile co_used co_retired co_records
    co_pending_record co_segment co_receipt co_final_receipt co_container co_catalog co_page st_mounted st_fault st_job
    st_stage st_ready st_slot_count st_consumed_slots st_error field_upd eta eta_ros_context eta_ros_status timed status_upd
    rs_identity rs_first_sample rs_next_sample rs_samples rs_root rs_slot rs_profile rs_gap rs_container_bytes rs_pages
    rs_digest set_digest fst snd] in *.

Section Rules.
Context {W : Type} (port : ros_port W).
Abbreviation P := (logged port).
Implicit Types (Q : Z -> ros_context * (list event * W) -> Prop) (t : list event) (w : W) (c : ros_context).
(** Every failure of a helper leaves a faulted context. *)
Definition fails (Q : Z -> ros_context * (list event * W) -> Prop) : Prop := forall s, faulted s -> Q ROS_FAILED s.

Lemma wp_fault rc Q s : fails Q -> wp (fault rc) Q s.
Proof. intros HQ. destruct s as [c [t w]]. apply HQ. by unfold faulted. Qed.

Lemma wp_guard Q c t w : fails Q -> (forall n w', Q 0 (timed c n, (t, w'))) -> wp (guard P) Q (c, (t, w)).
Proof.
  intros Hf HQ. unfold guard. apply wp_bind, wp_call. intros b [t1 w1] E1. apply wp_bind, wp_call. intros k [t2 w2] E2.
  apply wp_bind, wp_call. intros n [t3 w3] E3. cbn in E1, E2, E3.
  destruct (po_now_ms port w), (po_cancelled port w1), (po_now_ms port w2). injection E1 as <- <- <-.
  injection E2 as <- <- <-. injection E3 as <- <- <-. apply wp_own. wp_step; [by apply wp_fault|].
  apply wp_bind, wp_change. apply HQ.
Qed.

Lemma wp_checked rc Q c t w : fails Q -> (rc = 0 -> forall n w', Q 0 (timed c n, (t, w'))) -> wp (checked P rc) Q (c, (t, w)).
Proof.
  intros Hf HQ. unfold checked. apply wp_on_ok, wp_guard; [intros s Hs; by apply Hf|]. intros n w'. cbn [Z.eqb].
  destruct (Z.eqb_spec rc 0); [by apply wp_ret, HQ|by apply wp_fault].
Qed.

Lemma wp_admit writing Q c t w : fails Q -> (forall n w', Q 0 (timed c n, (t, w'))) -> wp (store_admit P writing) Q (c, (t, w)).
Proof.
  intros Hf HQ. unfold store_admit. apply wp_on_ok, wp_guard; [intros s Hs; by apply Hf|]. intros n w1. cbn [Z.eqb]. apply wp_own, wp_bind, wp_call.
  intros rc [t2 w2] E. cbn in E. destruct (po_admit port _ _ w1). injection E as <- <- <-. apply wp_checked; [done|]. intros _ m w3. apply HQ.
Qed.

Lemma wp_hash p (Q : option bytes -> ros_context * (list event * W) -> Prop) c t w :
  (forall s, faulted s -> Q None s) ->
  (forall d n w', sha_digest (co_hash c) p = Some d -> Q (Some d) (timed c n, (t, w'))) -> wp (hash P p) Q (c, (t, w)).
Proof.
  intros Hf HQ. unfold hash. apply wp_bind, wp_guard; [intros s Hs; by apply Hf|]. intros n w1. cbn [negb Z.eqb]. apply wp_own.
  change (co_hash (timed c n)) with (co_hash c). destruct (sha256 (co_hash c)) as [f|] eqn:Es.
  - apply wp_bind, wp_checked; [intros s Hs; by apply Hf|]. intros Hrc m w2. cbn [Z.eqb]. apply wp_ret, HQ.
    unfold sha_digest. rewrite Es. destruct (Z.eqb_spec (sha_rc (f p)) 0); [|done].
    by destruct (Z.eqb_spec (sha_written (f p)) 32).
  - apply wp_bind, wp_fault. intros s Hs. by apply Hf.
Qed.

Lemma zlen_received p : zlen (received p) = 2048.
Proof. unfold received. rewrite zlen_slice; [done|lia|lia|]. rewrite zlen_app, zlen_fill by lia. pose proof (zlen_nonneg (map u8 p)). lia. Qed.

Lemma is_bytes_received p : is_bytes (received p).
Proof.
  unfold received. apply is_bytes_slice, Forall_app. split; [|by apply is_bytes_fill].
  apply Forall_map, Forall_forall. intros x _. apply u8_range.
Qed.

Lemma wp_read_page p Q c t w : fails Q ->
  (forall rc page n w', rc = ROS_READ_OK \/ rc = ROS_READ_MISSING -> zlen page = 2048 /\ is_bytes page ->
     Q rc (timed (c <| co_page := page |>) n, (t ++ [EvRead p rc page], w'))) -> wp (read_page P p) Q (c, (t, w)).
Proof.
  intros Hf HQ. unfold read_page. apply wp_on_ok, wp_admit; [intros s Hs; by apply Hf|]. intros n w1. cbn [Z.eqb]. apply wp_own, wp_bind, wp_call.
  intros [rc page] [t2 w2] E. cbn in E. destruct (po_read port _ _ w1) as [[rc' page'] w']. injection E as <- <- <- <-.
  apply wp_bind, wp_change, wp_on_ok, wp_guard; [intros s Hs; by apply Hf|]. intros m w3. cbn [Z.eqb fst snd].
  wp_step; [by apply wp_fault|]. apply wp_ret.
  apply andb_false_iff in C. rewrite !negb_false_iff, !Z.eqb_eq in C. apply HQ; [done|split; [apply zlen_received|apply is_bytes_received]].
Qed.

Lemma wp_write_page p page Q c t w : fails Q ->
  (forall n w', Q 0 (timed c n, (t ++ [EvWrite p page 0], w'))) -> wp (write_page P p page) Q (c, (t, w)).
Proof.
  intros Hf HQ. unfold write_page. apply wp_on_ok, wp_admit; [intros s Hs; by apply Hf|]. intros n w1. cbn [Z.eqb]. apply wp_own, wp_bind, wp_call.
  intros rc [t2 w2] E. cbn in E. destruct (po_write port _ _ _ w1). injection E as <- <- <-. apply wp_checked; [done|]. intros -> m w3. apply HQ.
Qed.

Lemma wp_sync_map Q c t w : fails Q -> (forall n w', Q 0 (timed c n, (t ++ [EvSync 0], w'))) -> wp (sync_map P) Q (c, (t, w)).
Proof.
  intros Hf HQ. unfold sync_map. apply wp_on_ok, wp_admit; [intros s Hs; by apply Hf|]. intros n w1. cbn [Z.eqb]. apply wp_own, wp_bind, wp_call.
  intros rc [t2 w2] E. cbn in E. destruct (po_sync port _ w1). injection E as <- <- <-. apply wp_checked; [done|]. intros -> m w3. apply HQ.
Qed.

Lemma wp_verify_page p expected k Q c t w : fails Q ->
  (forall n w', wp k Q (timed (c <| co_page := expected |>) n, (t ++ [EvRead p 0 expected], w'))) ->
  wp (verify_page P p expected k) Q (c, (t, w)).
Proof.
  intros Hf HQ. unfold verify_page. apply wp_bind, wp_read_page; [intros [c' w'] Hs; apply wp_own; by apply wp_fault|].
  intros rc page n w' _ _. apply wp_own. wp_step; [by apply wp_fault|].
  apply orb_false_iff in C as [->%negb_false_iff%Z.eqb_eq E%negb_false_iff%bool_decide_eq_true]. cbn in E. subst page. apply HQ.
Qed.

Lemma wp_catalog_seal fields Q c t w : fails Q ->
  (forall d n w', sha_digest (co_hash c) (slice 0 224 (blits fields (fill 2048 255))) = Some d ->
     Q 0 (timed (c <| co_catalog := blit 224 d (blits fields (fill 2048 255)) |>) n, (t, w'))) ->
  wp (catalog_seal P fields) Q (c, (t, w)).
Proof.
  intros Hf HQ. unfold catalog_seal. apply wp_bind, wp_change, wp_bind, wp_hash; [intros [c' w'] Hs; by apply wp_ret, Hf|].
  intros d n w' Hd. apply wp_bind, wp_change, wp_ret. exact (HQ d n w' Hd).
Qed.

Lemma wp_ready Q c t w : fails Q ->
  (forall n w', Q ROS_READY (status_upd (fun s => s <| st_ready := 1 |>) (timed c n), (t, w'))) -> wp (ready P) Q (c, (t, w)).
Proof.
  intros Hf HQ. unfold ready. apply wp_on_ok, wp_guard; [intros s Hs; by apply Hf|]. intros n w'. cbn [Z.eqb].
  apply wp_bind, wp_change, wp_ret, HQ.
Qed.

Lemma wp_begin job d Q c t w : fails Q -> Q ROS_STATE (c, (t, w)) -> (forall w', Q ROS_ARGUMENT (c, (t, w'))) ->
  (forall n w', st_fault (co_status c) = 0 -> st_job (co_status c) = ROS_NONE -> Q 0 (begun c job d n, (t, w'))) ->
  wp (begin P job d) Q (c, (t, w)).
Proof.
  intros Hf Hst Ha HQ. unfold begin. apply wp_own. wp_step; [by apply wp_ret|].
  apply orb_false_iff in C as [E1%negb_false_iff%Z.eqb_eq E2%negb_false_iff%Z.eqb_eq].
  apply wp_bind, wp_call. intros n [t1 w1] E. cbn in E. destruct (po_now_ms port w). injection E as <- <- <-.
  wp_step; [by apply wp_fault|]. cbv zeta. wp_step; [apply wp_ret, Ha|].
  do 4 apply wp_bind, wp_change. apply wp_ret, HQ; done.
Qed.

Lemma wp_catalog_check where_ (Q : option (Z * es_binding) -> ros_context * (list event * W) -> Prop) c t w :
  (forall s, faulted s -> Q None s) -> (forall kind b n w', Q (Some (kind, b)) (timed c n, (t, w'))) ->
  wp (catalog_check P where_) Q (c, (t, w)).
Proof.
  intros Hf HQ. unfold catalog_check. apply wp_own. cbv zeta.
  assert (Hbad : forall s, faulted s -> wp (bind (fault ROS_FAILED) (fun _ => ret None)) Q s)
    by (intros s Hs; apply wp_bind, wp_fault; intros s' Hs'; by apply wp_ret, Hf).
  assert (Hbad' : forall n w', wp (bind (fault ROS_FAILED) (fun _ => ret None)) Q (timed c n, (t, w')))
    by (intros n w'; apply wp_bind, wp_fault; intros s' Hs'; by apply wp_ret, Hf).
  wp_step; [apply wp_bind, wp_fault; intros s' Hs'; by apply wp_ret, Hf|].
  apply wp_bind, wp_hash; [intros s Hs; by apply wp_ret, Hf|]. intros d n w' Hd. wp_step; [apply Hbad'|]. wp_step; [apply Hbad'|].
  apply wp_ret, HQ.
Qed.

Lemma wp_parse_segment slot (Q : option Z -> ros_context * (list event * W) -> Prop) c t w :
  (forall s, faulted s -> Q None s) ->
  (forall n w', Q (Some SLOT_RETIRED) (timed c n, (t, w'))) ->
  (forall kind b n w', segment_page_ok c kind b (co_page c) = true ->
     Q (Some kind) (timed (c <| co_segment := page_segment (co_page c) slot b |>) n, (t, w'))) ->
  wp (parse_segment P slot) Q (c, (t, w)).
Proof.
  intros Hf Hr HQ. unfold parse_segment. apply wp_own, wp_bind, wp_catalog_check; [intros s Hs; by apply wp_ret, Hf|].
  intros kind b n w'. apply wp_own. cbv zeta. change (co_page (timed c n)) with (co_page c).
  change (segment_page_ok (timed c n) kind b (co_page c)) with (segment_page_ok c kind b (co_page c)).
  wp_step; [apply wp_bind, wp_fault; intros s' Hs'; by apply wp_ret, Hf|]. apply negb_false_iff in C.
  wp_step; [apply wp_ret, Hr|]. wp_step; [apply wp_bind, wp_fault; intros s' Hs'; by apply wp_ret, Hf|].
  apply wp_bind, wp_change, wp_ret. exact (HQ kind b n w' C).
Qed.

Lemma wp_read_container_page Q c t w : fails Q ->
  (forall page p n t' w', Q ROS_PENDING (timed (c <| co_page := page |>
      <| co_container := p |> <| co_index := u32 (co_index c + 1) |>) n, (t', w'))) ->
  wp (read_container_page P) Q (c, (t, w)).
Proof.
  intros Hf HQ. unfold read_container_page. apply wp_own, wp_bind, wp_read_page; [intros [c' w'] Hs; by apply wp_fault|].
  intros rc page n w' _ _. wp_step; [by apply wp_fault|]. apply wp_own. cbv zeta. wp_step; [by apply wp_fault|].
  apply wp_bind, wp_change, wp_ret. exact (HQ page _ n _ w').
Qed.

Lemma wp_container_valid Q c t w : fails Q -> (forall n w', Q 0 (timed c n, (t, w'))) -> wp (container_valid P) Q (c, (t, w)).
Proof.
  intros Hf HQ. unfold container_valid. apply wp_own. wp_step; [by apply wp_fault|].
  apply wp_bind, wp_hash; [intros [c' w'] Hs; by apply wp_fault|]. intros d n w' Hd. wp_step; [apply wp_ret, HQ|by apply wp_fault].
Qed.
End Rules.

(** * The invariant *)
(** The page sealed for [s] with [kind]: its 224 bytes and their digest. *)
Definition catalog_of (c : ros_context) (kind : Z) (page : bytes) : Prop :=
  let p := blits (segment_fields c kind (co_segment c)) (fill 2048 255) in
  exists d, sha_digest (co_hash c) (slice 0 224 p) = Some d /\ page = blit 224 d p.
Definition slot_sector (c : ros_context) : Z := sector c (rs_slot (co_segment c)).
Definition announced (c : ros_context) (intent : bytes) : list event :=
  [EvWrite (slot_sector c) intent 0; EvSync 0; EvRead (slot_sector c) 0 intent].
Definition data_writes (c : ros_context) (n : Z) : list event :=
  map (fun i => EvWrite (data_page c i) (container_page c i) 0) (zseq n).
Definition data_reads (c : ros_context) (n : Z) : list event :=
  map (fun i => EvRead (data_page c i) 0 (container_page c i)) (zseq n).
Definition published (c : ros_context) (intent commit : bytes) : list event :=
  announced c intent ++ data_writes c (rs_pages (co_segment c)) ++ [EvWrite (slot_sector c) commit 0].
(** Everything a committed segment has done to the backend, in order. *)
Definition committed (c : ros_context) (intent commit : bytes) : list event :=
  published c intent commit ++ [EvSync 0] ++ data_reads c (rs_pages (co_segment c)) ++ [EvRead (slot_sector c) 0 commit].

(** What the job has done when it stands at a stage. *)
Definition progress_at (c : ros_context) (stage ready index : Z) (catalog intent : bytes) : list event :=
  if stage =? 1 then take 1 (announced c intent)
  else if stage =? 2 then take 2 (announced c intent)
  else if stage =? 3 then announced c intent ++ data_writes c index
  else if stage =? 6 then announced c intent ++ data_writes c (rs_pages (co_segment c))
  else if stage =? 7 then published c intent catalog
  else if stage =? 5 then published c intent catalog ++ [EvSync 0] ++ data_reads c index
  else if stage =? 8 then
    if ready =? 0 then published c intent catalog ++ [EvSync 0] ++ data_reads c (rs_pages (co_segment c))
    else committed c intent catalog
  else [].
Definition progress (c : ros_context) (intent : bytes) : list event :=
  progress_at c (st_stage (co_status c)) (st_ready (co_status c)) (co_index c) (co_catalog c) intent.

Record sealed (c : ros_context) : Prop := {
  se_shape : container_shape_ok c = true;
  se_digest : sha_digest (co_hash c) (slice 0 (rs_container_bytes (co_segment c)) (co_container c)) =
    Some (rs_digest (co_segment c))
}.
Record seg_inv (c : ros_context) (t : list event) : Prop := {
  sg_stage : In (st_stage (co_status c)) [9; 0; 1; 2; 3; 5; 6; 7; 8];
  sg_ready : st_ready (co_status c) <> 0 -> st_stage (co_status c) = 8;
  sg_slot : 0 <= rs_slot (co_segment c) < st_slot_count (co_status c);
  sg_bytes : rs_container_bytes (co_segment c) = eb_plaintext_bytes (rs_identity (co_segment c)) + 209;
  sg_pages : rs_pages (co_segment c) = (rs_container_bytes (co_segment c) + 2047) / 2048;
  sg_index : 0 <= co_index c <= rs_pages (co_segment c);
  sg_state : slot_state c (rs_slot (co_segment c)) =
    if existsb (Z.eqb (st_stage (co_status c))) [9; 0; 1; 2] then 0
    else if st_ready (co_status c) =? 0 then SLOT_INTENT else SLOT_COMMIT;
  sg_sealed : st_stage (co_status c) <> 9 -> sealed c;
  sg_trace : exists pre intent, t = pre ++ progress c intent /\
    (st_stage (co_status c) <> 9 -> catalog_of c SLOT_INTENT intent) /\
    (In (st_stage (co_status c)) [0; 1; 2] -> co_catalog c = intent) /\
    (In (st_stage (co_status c)) [3; 5; 6; 7; 8] -> catalog_of c SLOT_COMMIT (co_catalog c));
  sg_receipt : st_ready (co_status c) <> 0 -> co_receipt c = SegmentReceipt 1 (slice 0 128 (co_container c))
}.

Record base_inv (c : ros_context) : Prop := {
  bi_used : zlen (co_used c) = 2560; bi_bytes : is_bytes (co_used c); bi_records : length (co_records c) = 32%nat;
  bi_roots : 0 < co_root_count c <= 32; bi_slots : 0 <= st_slot_count (co_status c) <= RLL_SLOTS;
  bi_index : 0 <= co_index c <= 17; bi_pages : 0 <= rs_pages (co_segment c) <= 17;
  bi_scan_slot : 0 <= co_scan_slot c <= st_slot_count (co_status c); bi_scan_root : 0 <= co_scan_root c <= co_root_count c;
  bi_active : 0 <= co_active_root c <= co_root_count c
}.
Definition job_inv (c : ros_context) (t : list event) : Prop :=
  let job := st_job (co_status c) in
  if job =? ROS_SEGMENT then seg_inv c t
  else if job =? ROS_RESERVE then
    st_ready (co_status c) = 0 -> 0 <= co_root c < co_root_count c /\ rr_present (record_at c (co_root c)) = 0
  else if job =? ROS_FINALIZE then st_ready (co_status c) = 0 -> co_root c = co_active_root c /\ co_active_root c < co_root_count c
  else if job =? ROS_RECOVER then
    In (st_stage (co_status c)) [0; 10; 11] /\ (st_stage (co_status c) = 11 -> co_scan_slot c < st_slot_count (co_status c))
  else True.
Definition store_inv {W} (s : ros_context * (list event * W)) : Prop :=
  faulted s \/ (base_inv (fst s) /\ job_inv (fst s) (trace s)).

(** * Every job ends: what is left of one *)
Definition segment_left (stage left : Z) : Z :=
  if stage =? 9 then 60 else if stage =? 0 then 59 else if stage =? 1 then 58 else if stage =? 2 then 57
  else if stage =? 3 then 38 + left else if stage =? 6 then 37 else if stage =? 7 then 36
  else if stage =? 5 then 10 + left else 9.
Definition measure (c : ros_context) : Z :=
  let stage := st_stage (co_status c) in let job := st_job (co_status c) in
  let left := Z.max 0 (rs_pages (co_segment c) - co_index c) in
  let slots := 20 * (st_slot_count (co_status c) - co_scan_slot c) in
  if job =? ROS_SEGMENT then segment_left stage left
  else if (job =? ROS_RESERVE) || (job =? ROS_FINALIZE) then if stage =? 0 then 3 else if stage =? 1 then 2 else 1
  else if job =? ROS_RECOVER then
    if stage =? 0 then slots + 2 + (co_root_count c - co_scan_root c) else if stage =? 10 then slots + 1 else slots - 18 + left
  else if (job =? ROS_LOAD) || (job =? ROS_META) then if stage =? 0 then 20 else 1 + left
  else 0.
Definition step_post {W} (c : ros_context) (rc : Z) (s : ros_context * (list event * W)) : Prop :=
  store_inv s /\ (rc = ROS_PENDING -> 0 <= measure (fst s) < measure c).

Lemma post_fails {W} c : fails (W := W) (step_post c).
Proof. intros s Hs. split; [by left|done]. Qed.
#[export] Hint Resolve post_fails : core.

Lemma base_move c c' : base_inv c -> co_used c' = co_used c -> length (co_records c') = length (co_records c) ->
  co_root_count c' = co_root_count c -> st_slot_count (co_status c') = st_slot_count (co_status c) ->
  0 <= co_scan_slot c' <= st_slot_count (co_status c) -> 0 <= co_scan_root c' <= co_root_count c ->
  0 <= co_active_root c' <= co_root_count c -> 0 <= rs_pages (co_segment c') <= 17 -> 0 <= co_index c' <= 17 -> base_inv c'.
Proof. intros [] E0 E7 E1 E2 ? ? ? ? ?. split; rewrite ?E0, ?E1, ?E2, ?E7; done. Qed.

Lemma base_set_slot c slot v : base_inv c -> base_inv (set_slot_state c slot v).
Proof.
  intros []. split; try done; cbn.
  - unfold zlen. by rewrite length_insert.
  - apply Forall_insert; [done|apply u8_range].
Qed.

(** Accounting a segment keeps every recording's mode. *)
Lemma account_mode c root : rr_mode (record_at (account c) root) = rr_mode (record_at c root).
Proof.
  unfold account, record_at, set_record. cbn [co_records field_upd eta eta_ros_context]. set (r := rs_root (co_segment c)).
  set (l := co_records c). rewrite !nth_lookup.
  destruct (decide (Z.to_nat r < length l)%nat); [|by rewrite list_insert_ge by lia].
  destruct (decide (Z.to_nat r = Z.to_nat root)) as [<-|].
  - by rewrite list_lookup_insert_eq by done.
  - by rewrite list_lookup_insert_ne by done.
Qed.

Lemma base_set_record c root r : base_inv c -> base_inv (set_record c root r).
Proof. intros []. split; try done. cbn. by rewrite length_insert. Qed.

(** The parts of a context that a segment's pages and catalogs are made of. *)
Record same_job (c c' : ros_context) : Prop := {
  sj_segment : co_segment c' = co_segment c; sj_hash : co_hash c' = co_hash c; sj_roots : co_root_count c' = co_root_count c;
  sj_profile : co_extent_profile c' = co_extent_profile c; sj_container : co_container c' = co_container c;
  sj_mode : rr_mode (record_at c' (rs_root (co_segment c))) = rr_mode (record_at c (rs_root (co_segment c)))
}.
Lemma same_sector c c' : same_job c c' -> slot_sector c' = slot_sector c.
Proof. intros []. unfold slot_sector, sector. congruence. Qed.
Lemma same_segment_fields c c' kind : same_job c c' -> segment_fields c' kind (co_segment c') = segment_fields c kind (co_segment c).
Proof. intros []. unfold segment_fields, start_fields, sector. rewrite sj_segment0. congruence. Qed.
Lemma same_catalog c c' kind p : same_job c c' -> catalog_of c' kind p <-> catalog_of c kind p.
Proof. intros H. unfold catalog_of. rewrite (same_segment_fields c c') by done. destruct H. by rewrite sj_hash0. Qed.
Lemma same_announced c c' i : same_job c c' -> announced c' i = announced c i.
Proof. intros H. unfold announced. by rewrite (same_sector c c'). Qed.
Lemma same_writes c c' n : same_job c c' -> data_writes c' n = data_writes c n.
Proof. intros []. unfold data_writes, data_page, container_page, page_bytes, sector. by rewrite sj_segment0, sj_roots0, sj_container0. Qed.
Lemma same_reads c c' n : same_job c c' -> data_reads c' n = data_reads c n.
Proof. intros []. unfold data_reads, data_page, container_page, page_bytes, sector. by rewrite sj_segment0, sj_roots0, sj_container0. Qed.
Lemma same_published c c' i k : same_job c c' -> published c' i k = published c i k.
Proof.
  intros H. unfold published. rewrite (same_announced c c'), (same_sector c c'), (same_writes c c') by done.
  by rewrite (sj_segment _ _ H).
Qed.
Lemma same_committed c c' i k : same_job c c' -> committed c' i k = committed c i k.
Proof.
  intros H. unfold committed. rewrite (same_published c c'), (same_sector c c'), (same_reads c c') by done.
  by rewrite (sj_segment _ _ H).
Qed.
Lemma same_progress_at c c' k r i p q : same_job c c' -> progress_at c' k r i p q = progress_at c k r i p q.
Proof.
  intros H. unfold progress_at. rewrite !(same_announced c c'), !(same_published c c'), !(same_committed c c'),
    !(same_writes c c'), !(same_reads c c') by done. by rewrite (sj_segment _ _ H).
Qed.
Lemma same_sealed c c' : same_job c c' -> sealed c -> sealed c'.
Proof.
  intros [] []. split; [unfold container_shape_ok in *; by rewrite sj_container0, sj_segment0|].
  by rewrite sj_hash0, sj_container0, sj_segment0.
Qed.

Lemma zseq_snoc n : 0 <= n -> zseq (n + 1) = zseq n ++ [n].
Proof.
  intros Hn. unfold zseq. by rewrite seqZ_app by lia.
Qed.
Lemma data_writes_snoc c n : 0 <= n -> data_writes c (n + 1) = data_writes c n ++ [EvWrite (data_page c n) (container_page c n) 0].
Proof. intros. unfold data_writes. by rewrite zseq_snoc, map_app by done. Qed.
Lemma data_reads_snoc c n : 0 <= n -> data_reads c (n + 1) = data_reads c n ++ [EvRead (data_page c n) 0 (container_page c n)].
Proof. intros. unfold data_reads. by rewrite zseq_snoc, map_app by done. Qed.

(** What sealing leaves: the container, its digest in the segment and the intent
    page, all of one segment. *)
Record sealing (c c' : ros_context) : Prop := {
  sl_rest : exists p d cat m, c' = timed (c <| co_container := p |> <| co_segment := set_digest (co_segment c) d |> <| co_catalog := cat |>) m;
  sl_shape : container_shape_ok c' = true;
  sl_intent : catalog_of c' SLOT_INTENT (co_catalog c')
}.

Lemma wp_seal_prepared {W} (port : ros_port W) plain n Q c t w : fails Q ->
  (forall c' w', sealing c c' -> sha_digest (co_hash c) (slice 0 (n + 209) (co_container c')) = Some (rs_digest (co_segment c')) ->
     Q ROS_PENDING (c', (t, w'))) -> wp (seal_prepared (logged port) plain n) Q (c, (t, w)).
Proof.
  intros Hf HQ. unfold seal_prepared. apply wp_own. cbv zeta. destruct (es_build_local _ _) as [header|]; [|by apply wp_fault].
  apply wp_bind, wp_change. name_context c1 E1. destruct (es_info_local _ _) as [info|]; [|by apply wp_fault].
  apply wp_bind, wp_admit; [intros [c' w'] Hs; by apply wp_fault|]. intros m1 w1. cbn [negb Z.eqb]. name_context c2 E2. apply wp_own, wp_bind, wp_call.
  intros [[[rc enc] cipher] actual] [t2 w2] E. cbn in E. destruct (po_seal port _ _ _ _ w1) as [r w2']. injection E as _ <- <-.
  apply wp_bind, wp_change. name_context c3 E3. apply wp_bind, wp_guard; [intros [c' w3] Hs; apply wp_own; by apply wp_fault|].
  intros m3 w3. name_context c4 E4. apply wp_own. wp_step; [by apply wp_fault|].
  rewrite !orb_false_iff, !negb_false_iff in C. destruct C as [_ Hshape].
  apply wp_bind, wp_hash; [intros [c' w4] Hs; by apply wp_ret, Hf|]. intros d m4 w4 Hd. name_context c5 E5.
  apply wp_bind, wp_change. name_context c6 E6. apply wp_on_ok, wp_own, wp_catalog_seal; [intros s Hs; by apply Hf|].
  intros d' m7 w7 Hd'. cbn [Z.eqb]. apply wp_ret. name_context c7 E7.
  assert (H4 : exists p, c4 = timed (c <| co_container := p |>) m3) by (rewrite E4, E3, E2, E1; by eexists).
  clear E4 E3 E2 E1. destruct H4 as [p E4].
  assert (H6 : c6 = timed (c <| co_container := p |> <| co_segment := set_digest (co_segment c) d |>) m4) by by rewrite E6, E5, E4.
  assert (Hsame : same_job c6 c7) by by rewrite E7; split.
  apply HQ.
  - split.
    + exists p, d, (blit 224 d' (blits (segment_fields c6 SLOT_INTENT (co_segment c6)) (fill 2048 255))), m7.
      rewrite E7. generalize (blit 224 d' (blits (segment_fields c6 SLOT_INTENT (co_segment c6)) (fill 2048 255))).
      intros cat. rewrite H6. proj. reflexivity.
    + rewrite <- Hshape, E7, H6, E4. done.
    + unfold catalog_of. cbv zeta. exists d'. rewrite (same_segment_fields c6 c7) by done. rewrite (sj_hash _ _ Hsame).
      split; [exact Hd'|by rewrite E7].
  - assert (co_container c7 = co_container c4 /\ rs_digest (co_segment c7) = d /\ co_hash c4 = co_hash c) as (Ec & Ed & Eh)
      by (rewrite E7, H6, E4; done). rewrite Ec, Ed, <- Eh. exact Hd.
Qed.

Section Segment.
Context {W : Type} (port : ros_port W).
Abbreviation P := (logged port).
Context (c : ros_context) (t : list event) (w : W).
Context (Hfault : st_fault (co_status c) = 0) (Hready : st_ready (co_status c) = 0) (Hjob : st_job (co_status c) = ROS_SEGMENT).
Context (Hb : base_inv c) (Hs : seg_inv c t).

(** A successor state [c'] of the job at [stage], whose data are those of [c]. *)
Lemma seg_post c' t' w' rc :
  base_inv c' -> st_job (co_status c') = ROS_SEGMENT -> seg_inv c' t' ->
  (rc = ROS_PENDING -> 0 <= measure c' < measure c) -> step_post (W := W) c rc (c', (t', w')).
Proof using.
  intros Hb' Hj Hs' Hm. split; [|done]. right. split; [done|]. unfold job_inv. cbn [fst]. by rewrite Hj.
Qed.

Lemma seg_intro c' t' k pre intent : same_job c c' -> st_stage (co_status c') = k -> In k [0; 1; 2; 3; 5; 6; 7; 8] ->
  st_ready (co_status c') = 0 -> st_slot_count (co_status c') = st_slot_count (co_status c) ->
  0 <= co_index c' <= rs_pages (co_segment c) ->
  slot_state c' (rs_slot (co_segment c)) = (if existsb (Z.eqb k) [9; 0; 1; 2] then 0 else SLOT_INTENT) ->
  sealed c -> catalog_of c SLOT_INTENT intent -> (In k [0; 1; 2] -> co_catalog c' = intent) ->
  (In k [3; 5; 6; 7; 8] -> catalog_of c SLOT_COMMIT (co_catalog c')) -> t' = pre ++ progress c' intent -> seg_inv c' t'.
Proof using Hs.
  intros Hsame Hk Hin Hr Hsc Hi Hst Hse Hint H1 H2 Ht. pose proof (sj_segment _ _ Hsame) as Eseg. destruct Hs.
  split; rewrite ?Eseg, ?Hk, ?Hsc, ?Hr; try done; [by right|by intros _; eapply same_sealed|].
  exists pre, intent. split_and!; [done|by intros _; apply (same_catalog c c')|done|].
  intros Hin'. apply (same_catalog c c'); [done|by apply H2].
Qed.

(** What [seg_inv] says of [c] itself, past the deferred stage. *)
Lemma seg_now : st_stage (co_status c) <> 9 -> exists pre intent, sealed c /\ t = pre ++ progress c intent /\
  catalog_of c SLOT_INTENT intent /\ (In (st_stage (co_status c)) [0; 1; 2] -> co_catalog c = intent) /\
  (In (st_stage (co_status c)) [3; 5; 6; 7; 8] -> catalog_of c SLOT_COMMIT (co_catalog c)).
Proof using Hs. intros H. destruct Hs. destruct sg_trace0 as (pre & intent & ? & ? & ? & ?). exists pre, intent. auto 10. Qed.
Lemma seg_state_now k : st_stage (co_status c) = k ->
  slot_state c (rs_slot (co_segment c)) = if existsb (Z.eqb k) [9; 0; 1; 2] then 0 else SLOT_INTENT.
Proof using Hs Hready. intros <-. destruct Hs. by rewrite sg_state0, Hready. Qed.
Lemma measure_segment c' : st_job (co_status c') = ROS_SEGMENT ->
  measure c' = segment_left (st_stage (co_status c')) (Z.max 0 (rs_pages (co_segment c') - co_index c')).
Proof using. intros E. unfold measure. by rewrite E. Qed.

(** A stage that appends [es] to the log and moves on, touching neither the
    index nor the slots nor the records. *)
Lemma seg_advance c' w' k es :
  st_stage (co_status c) <> 9 -> same_job c c' -> st_stage (co_status c') = k -> In k [0; 1; 2; 3; 5; 6; 7; 8] ->
  st_ready (co_status c') = 0 -> st_slot_count (co_status c') = st_slot_count (co_status c) ->
  st_job (co_status c') = ROS_SEGMENT ->
  co_used c' = co_used c -> co_records c' = co_records c -> co_scan_slot c' = co_scan_slot c -> co_scan_root c' = co_scan_root c ->
  co_active_root c' = co_active_root c -> co_catalog c' = co_catalog c -> 0 <= co_index c' <= rs_pages (co_segment c) ->
  existsb (Z.eqb k) [9; 0; 1; 2] = existsb (Z.eqb (st_stage (co_status c))) [9; 0; 1; 2] ->
  (forall intent, (In k [0; 1; 2] -> co_catalog c = intent) ->
     progress_at c k 0 (co_index c') (co_catalog c) intent =
     progress_at c (st_stage (co_status c)) 0 (co_index c) (co_catalog c) intent ++ es) ->
  segment_left k (rs_pages (co_segment c) - co_index c') <
    segment_left (st_stage (co_status c)) (rs_pages (co_segment c) - co_index c) -> step_post (W := W) c ROS_PENDING (c', (t ++ es, w')).
Proof using Hb Hs Hready Hjob.
  intros H9 Hsame Hk Hin Hr Hsc Hj Hu Hrec Hss Hsr Ha Hcat Hi Hsame9 Hpr Hm.
  pose proof (bi_pages _ Hb) as Hp. pose proof (sg_index _ _ Hs) as Hi0.
  assert (Hm' : 0 <= measure c' < measure c).
  { rewrite !measure_segment, Hk, (sj_segment _ _ Hsame), !Z.max_r by (done || lia). split; [|done].
    unfold segment_left. repeat destruct (Z.eqb _ _); lia. }
  destruct (seg_now H9) as (pre & intent & Hse & Et & Hint & H1 & H2).
  assert (Hslot : In k [0; 1; 2] -> In (st_stage (co_status c)) [0; 1; 2]).
  { intros H. pose proof (sg_stage _ _ Hs) as Hst. clear -H H9 Hst Hsame9. cbn in Hst, H.
    destruct Hst as [E|[E|[E|[E|[E|[E|[E|[E|[E|[]]]]]]]]]]; rewrite <- E in *; cbn; try tauto;
      exfalso; destruct H as [H|[H|[H|[]]]]; by rewrite <- H in Hsame9. }
  assert (Hslot' : In k [3; 5; 6; 7; 8] -> In (st_stage (co_status c)) [3; 5; 6; 7; 8]).
  { intros H. pose proof (sg_stage _ _ Hs) as Hst. clear -H H9 Hst Hsame9. cbn in Hst, H.
    destruct Hst as [E|[E|[E|[E|[E|[E|[E|[E|[E|[]]]]]]]]]]; rewrite <- E in *; cbn; try tauto;
      exfalso; destruct H as [H|[H|[H|[H|[H|[]]]]]]; by rewrite <- H in Hsame9. }
  apply seg_post; [|done| |done].
  - pose proof Hb as []. apply (base_move c); try done; rewrite ?Hrec, ?Hss, ?Hsr, ?Ha, ?(sj_segment _ _ Hsame); try done; [by apply sj_roots|lia].
  - eapply (seg_intro _ _ k pre intent); try done.
    + unfold slot_state. rewrite Hu. fold (slot_state c (rs_slot (co_segment c))). by rewrite (seg_state_now _ eq_refl), Hsame9.
    + intros Hk'. rewrite Hcat. by apply H1, Hslot.
    + intros Hk'. rewrite Hcat. by apply H2, Hslot'.
    + unfold progress. rewrite Hk, Hr, Hcat, (same_progress_at c c'), Hpr, app_assoc; [|by intros ?; apply H1, Hslot|done].
      by rewrite Et; unfold progress; rewrite Hready.
Qed.

Lemma stage_cases : let k := st_stage (co_status c) in
  k = 9 \/ k = 0 \/ k = 1 \/ k = 2 \/ k = 3 \/ k = 5 \/ k = 6 \/ k = 7 \/ k = 8.
Proof using Hs. pose proof (sg_stage _ _ Hs) as H. cbn in *. intuition congruence. Qed.

(** The parts of an advance that compute. *)
Ltac advance k E :=
  eapply (seg_advance _ _ k _);
    first [ done | by split | cbn; tauto | by rewrite E | by (cbn; rewrite ?E) | lia | idtac ].
(** The log and the stage counter of an advance. *)
Ltac advanced E :=
  rewrite ?E; try (intros intent Hcat; try rewrite <- Hcat by (cbn; tauto)); cbn [progress_at segment_left Z.eqb Pos.eqb].

(** The container page and its padding are all of the page. *)
Lemma page_is_container i page : zlen page = 2048 -> 0 <= page_bytes c i ->
  slice 0 (page_bytes c i) page = slice (i * 2048) (page_bytes c i) (co_container c) ->
  all (slice (page_bytes c i) (2048 - page_bytes c i) page) 255 = true -> page = container_page c i.
Proof using.
  intros Hl Hn E Ha. assert (page_bytes c i <= 2048) by (unfold page_bytes; lia). unfold container_page. rewrite <- E.
  apply all_spec in Ha. rewrite zlen_slice in Ha by lia.
  rewrite <- Ha. rewrite <- (slice_all' 2048 page Hl) at 1.
  replace 2048 with (page_bytes c i + (2048 - page_bytes c i)) at 1 by lia. by rewrite slice_split by lia.
Qed.

Lemma wp_segment_step : wp (segment_step P) (step_post c) (c, (t, w)).
Proof using Hfault Hready Hjob Hb Hs.
  unfold segment_step. apply wp_own. cbv zeta.
  pose proof (bi_pages _ Hb) as Hp. pose proof (sg_index _ _ Hs) as Hi.
  destruct stage_cases as [E|[E|[E|[E|[E|[E|[E|[E|E]]]]]]]]; rewrite E; cbn [Z.eqb Pos.eqb].
  2: { apply wp_on_ok, wp_write_page; [intros s Hs1; by apply post_fails|]. intros n w1. cbn [Z.eqb]. apply wp_bind, wp_change, wp_ret.
    advance 1 E; advanced E; first [done|lia]. }
  2: { apply wp_on_ok, wp_sync_map; [intros s Hs1; by apply post_fails|]. intros n w1. cbn [Z.eqb]. apply wp_bind, wp_change, wp_ret.
    advance 2 E; advanced E; first [done|lia]. }
  3: { wp_step.
    - apply Z.eqb_eq in C. apply wp_bind, wp_change, wp_ret. rewrite <- (app_nil_r t).
      advance 6 E; advanced E; first [lia|by rewrite C, app_nil_r].
    - apply Z.eqb_neq in C. apply wp_bind, wp_change, wp_on_ok, wp_write_page; [intros s Hs1; by apply post_fails|]. intros n w1.
      cbn [Z.eqb]. apply wp_bind, wp_change, wp_ret.
      assert (Ei : u32 (co_index c + 1) = co_index c + 1) by (apply u32_small; lia).
      advance 3 E; cbn [co_index field_upd timed eta eta_ros_context]; rewrite ?Ei; try lia; advanced E; try lia.
      by rewrite data_writes_snoc, app_assoc by lia. }
  3: { wp_step.
    - apply Z.eqb_eq in C. apply wp_bind, wp_change, wp_ret. rewrite <- (app_nil_r t).
      advance 8 E; advanced E; first [lia|by rewrite C, app_nil_r].
    - apply Z.eqb_neq in C. apply wp_bind, wp_read_page; [intros [c' w'] Hs1; by apply wp_fault|]. intros rc page n w1 _ [Hlp _].
      wp_step; [by apply wp_fault|]. apply negb_false_iff, Z.eqb_eq in C0. subst rc. apply wp_own. cbv zeta.
      wp_step; [by apply wp_fault|]. apply orb_false_iff in C0 as [C1%negb_false_iff%bool_decide_eq_true C2%negb_false_iff].
      assert (Hpage : page = container_page c (co_index c)).
      { apply page_is_container; [done| |exact C1|exact C2]. pose proof (sg_pages _ _ Hs). unfold page_bytes. divlia. }
      apply wp_bind, wp_change, wp_ret.
      assert (Ei : u32 (co_index c + 1) = co_index c + 1) by (apply u32_small; lia).
      advance 5 E; cbn [co_index field_upd timed eta eta_ros_context]; rewrite ?Ei; try lia; advanced E; try lia.
      by rewrite data_reads_snoc, Hpage, !app_assoc by lia. }
  3: { apply wp_on_ok, wp_write_page; [intros s Hs1; by apply post_fails|]. intros n w1. cbn [Z.eqb]. apply wp_bind, wp_change, wp_ret.
    advance 7 E; advanced E; first [lia|unfold published; by rewrite <- app_assoc]. }
  3: { apply wp_on_ok, wp_sync_map; [intros s Hs1; by apply post_fails|]. intros n w1. cbn [Z.eqb]. apply wp_bind, wp_change, wp_bind, wp_change, wp_ret.
    advance 5 E; advanced E; cbn [co_index field_upd timed eta eta_ros_context status_upd]; try lia; by rewrite ?app_nil_r. }
  2: { apply wp_verify_page; [intros s Hs1; by apply post_fails|]. intros n w1.
    apply wp_bind, wp_change, wp_bind, wp_change, wp_on_ok, wp_own, wp_catalog_seal; [intros s Hs1; by apply post_fails|].
    intros d m w2 Hd. cbn [Z.eqb]. apply wp_bind, wp_change, wp_bind, wp_change, wp_ret.
    destruct (seg_now ltac:(by rewrite E)) as (pre & intent & Hse & Et & Hint & H1 & H2). rewrite E in H1.
    specialize (H1 ltac:(cbn; tauto)).
    match goal with |- step_post _ _ (?c', _) => set (c2 := c') end.
    assert (Hsame : same_job c c2) by by split.
    apply seg_post; [|done| |].
    - pose proof Hb as []. by apply (base_move (set_slot_state c (rs_slot (co_segment c)) SLOT_INTENT)); [apply base_set_slot|..].
    - eapply (seg_intro c2 _ 3 pre intent); try done.
      + cbn. by rewrite E.
      + cbn; tauto.
      + cbn; lia.
      + change (slot_state c2 (rs_slot (co_segment c))) with
          (slot_state (set_slot_state c (rs_slot (co_segment c)) SLOT_INTENT) (rs_slot (co_segment c))).
        rewrite slot_state_set by (apply Hb || done || (pose proof (sg_slot _ _ Hs); pose proof (bi_slots _ Hb); lia)).
        by rewrite Z.eqb_refl.
      + cbn; intros; lia.
      + intros _. exists d. split; [exact Hd|done].
      + unfold progress. rewrite (same_progress_at c c2) by done. change (st_stage (co_status c2)) with (st_stage (co_status c) + 1).
        rewrite E. cbn [progress_at Z.eqb Z.add Pos.eqb Pos.add]. rewrite Et. unfold progress. rewrite E. cbn [progress_at Z.eqb Pos.eqb]. rewrite <- app_assoc. by rewrite H1.
    - intros _. rewrite !measure_segment by done. change (st_stage (co_status c2)) with (st_stage (co_status c) + 1).
      change (co_index c2) with 0. change (co_segment c2) with (co_segment c). rewrite E. change (2 + 1) with 3.
      unfold segment_left. cbn [Z.eqb Pos.eqb]. lia. }
  - apply wp_bind, wp_seal_prepared; [intros [c' w'] Hs1; by apply wp_ret, post_fails|].
    intros c' w' Hsl Hd. cbn [Z.eqb Pos.eqb ROS_PENDING]. apply wp_bind, wp_change, wp_ret.
    destruct Hsl as [(p & d & cat & m & ->) Hshape Hint]. destruct Hs.
    destruct sg_trace0 as (pre & intent & Et & _). apply seg_post; [|done| |].
    + pose proof Hb as []. by apply (base_move c).
    + split; try done; [by right; left|by rewrite E in sg_state0| |].
      * intros _. split; [done|]. cbn in *. rewrite sg_bytes0. exact Hd.
      * exists t, cat. split_and!; [by unfold progress; rewrite app_nil_r|by intros _|done|].
        cbn. intros; lia.
    + intros _. rewrite !measure_segment by done. rewrite E. done.
  - apply wp_verify_page; [intros s Hs1; by apply post_fails|]. intros n w1.
    apply wp_bind, wp_change, wp_bind, wp_change, wp_bind, wp_change, wp_ready; [intros s Hs1; by apply post_fails|].
    intros m w2.
    destruct (seg_now ltac:(by rewrite E)) as (pre & intent & Hse & Et & Hint & _ & H2). rewrite E in H2.
    specialize (H2 ltac:(cbn; tauto)).
    match goal with |- step_post _ _ (?c', _) => set (c2 := c') end.
    assert (Hsame : same_job c c2) by (split; try done; apply (account_mode (set_slot_state c (rs_slot (co_segment c)) SLOT_COMMIT))).
    assert (Hst : slot_state c2 (rs_slot (co_segment c)) = SLOT_COMMIT).
    { change (slot_state c2 (rs_slot (co_segment c))) with
        (slot_state (set_slot_state c (rs_slot (co_segment c)) SLOT_COMMIT) (rs_slot (co_segment c))).
      rewrite slot_state_set by (apply Hb || done || (pose proof (sg_slot _ _ Hs); pose proof (bi_slots _ Hb); lia)).
      by rewrite Z.eqb_refl. }
    assert (Estage : st_stage (co_status c2) = 8) by exact E. assert (Eready : st_ready (co_status c2) = 1) by done.
    apply seg_post; [|done| |done].
    + pose proof Hb as []. by apply (base_move (account (set_slot_state c (rs_slot (co_segment c)) SLOT_COMMIT)));
        [apply base_set_record, base_set_slot|..].
    + destruct Hs. split; rewrite ?Estage, ?Eready, ?(sj_segment _ _ Hsame); try done; [cbn; tauto|..].
      * intros _. by apply (same_sealed c c2).
      * exists pre, intent. split_and!; [|intros _; by apply (same_catalog c c2)|cbn; intros; lia|intros _; by apply (same_catalog c c2)].
        unfold progress. rewrite Estage, Eready, (same_progress_at c c2) by done. change (co_catalog c2) with (co_catalog c).
        rewrite Et. unfold progress, committed. rewrite E, Hready. cbn [progress_at Z.eqb Pos.eqb]. by rewrite <- !app_assoc.
Qed.
End Segment.

