(* ===== verification/StoreJobs.v ===== *)
(** The object store's other jobs: recovery, the root page of a reservation or
    of a completion, and loading; each step keeps the invariant and brings its
    job nearer to its end. *)
From S2P Require Import Prelude OwnedPage SegmentHeader Extent RecordTypes PlainSegment Wp ObjectStore StoreRules.

(** * The other jobs *)
Lemma seg_inv_same c c' t : same_job c c' -> co_status c' = co_status c -> co_used c' = co_used c -> co_index c' = co_index c ->
  co_catalog c' = co_catalog c -> co_receipt c' = co_receipt c -> seg_inv c t -> seg_inv c' t.
Proof.
  intros Hsame Es Eu Ei Ec Er []. pose proof Hsame as [Eg _ _ _ Eco _].
  split; unfold slot_state; rewrite ?Es, ?Eu, ?Ei, ?Eg, ?Er, ?Eco; try done.
  - intros H. by eapply same_sealed, sg_sealed.
  - destruct sg_trace as (pre & intent & Et & H1 & H2 & H3). exists pre, intent. unfold progress.
    rewrite Es, Ei, Ec, (same_progress_at c c') by done.
    split_and!; [done|intros H; apply (same_catalog c c'); auto|done|intros H; apply (same_catalog c c'); auto].
Qed.

(** The gate and the clock are in no invariant. *)
Definition aside (c c' : ros_context) : Prop := exists g n, c' = c <| co_gate := g |> <| co_last_now := n |>.
Lemma aside_timed c n : aside c (timed c n).
Proof. exists (co_gate c), n. by destruct c. Qed.
Lemma aside_gate c g : aside c (c <| co_gate := g |>).
Proof. exists g, (co_last_now c). by destruct c. Qed.

Lemma base_aside c c' : aside c c' -> base_inv c -> base_inv c'.
Proof. intros (g & n & ->) []. by split. Qed.
Lemma job_aside c c' t : aside c c' -> job_inv c t -> job_inv c' t.
Proof.
  intros (g & n & ->). unfold job_inv. cbn [co_status field_upd eta eta_ros_context].
  destruct (_ =? ROS_SEGMENT); [|done]. by apply seg_inv_same.
Qed.
Lemma measure_aside c c' : aside c c' -> measure c' = measure c.
Proof. by intros (g & n & ->). Qed.
Lemma store_inv_aside {W} c c' t (w w' : W) : aside c c' -> store_inv (c, (t, w)) -> store_inv (c', (t, w')).
Proof.
  intros Ha [Hf|[Hb Hj]]; [left|right].
  - destruct Ha as (g & n & ->). exact Hf.
  - split; [by eapply base_aside|by eapply job_aside].
Qed.

Lemma page_pages c kind b p : segment_page_ok c kind b p = true -> is_bytes p -> zlen p = 2048 -> 0 <= get32 124 p <= 17.
Proof.
  unfold segment_page_ok. rewrite negb_true_iff, !orb_false_iff, !Z.ltb_ge. intros H Hp Hl. split; [|unfold ROS_DATA_PAGES in H; tauto].
  apply (get_le_range 4); [lia|lia|lia|done].
Qed.

Section Jobs.
Context {W : Type} (port : ros_port W) (opus : opus_parser).
Abbreviation P := (logged port).
Implicit Types (c : ros_context) (t : list event) (w : W).

Lemma wp_root_step c t w : st_ready (co_status c) = 0 -> base_inv c -> job_inv c t ->
  st_job (co_status c) = ROS_RESERVE \/ st_job (co_status c) = ROS_FINALIZE -> wp (root_step P) (step_post c) (c, (t, w)).
Proof.
  intros Hr Hb Hj Hjob. unfold root_step. apply wp_own. cbv zeta.
  assert (Hpost : forall c' t' w' rc, base_inv c' -> job_inv c' t' -> (rc = ROS_PENDING -> 0 <= measure c' < measure c) ->
    step_post (W := W) c rc (c', (t', w'))) by (intros; split; [right; by split|done]).
  assert (Hm : forall c', st_job (co_status c') = st_job (co_status c) -> measure c' =
    if st_stage (co_status c') =? 0 then 3 else if st_stage (co_status c') =? 1 then 2 else 1).
  { intros c' E. unfold measure. rewrite E. by destruct Hjob as [->| ->]. }
  wp_step; [|wp_step].
  - apply Z.eqb_eq in C. apply wp_on_ok, wp_write_page; [intros s Hs; by apply post_fails|]. intros n w'. cbn [Z.eqb].
    apply wp_bind, wp_change, wp_ret, Hpost; [by destruct Hb; split| |].
    + unfold job_inv in *. proj. destruct Hjob as [E|E]; rewrite E in *; exact Hj.
    + intros _. rewrite !Hm by done. proj. rewrite C. done.
  - apply Z.eqb_neq in C. apply Z.eqb_eq in C0. apply wp_on_ok, wp_sync_map; [intros s Hs; by apply post_fails|]. intros n w'. cbn [Z.eqb].
    apply wp_bind, wp_change, wp_ret, Hpost; [by destruct Hb; split| |].
    + unfold job_inv in *. proj. destruct Hjob as [E|E]; rewrite E in *; exact Hj.
    + intros _. rewrite !Hm by done. proj. rewrite C0. done.
  - apply wp_verify_page; [intros s Hs; by apply post_fails|]. intros n w'.
    apply wp_bind, wp_change, wp_bind, wp_change.
    match goal with |- wp _ _ (if ?b then ?x else ?y, _) => set (c1 := x); set (c2 := y); set (taken := b) end.
    assert (Hroot : 0 <= co_root c < co_root_count c \/ st_job (co_status c) = ROS_FINALIZE).
    { unfold job_inv in Hj. destruct Hjob as [E|E]; rewrite E in *; [left|by right]. by apply Hj. }
    assert (H1 : co_root c <= co_root_count c -> 0 <= co_root c -> base_inv c1).
    { intros ? ?. apply (base_move (set_record c (co_root c) (co_pending_record c))); try done; try apply Hb; by apply base_set_record. }
    assert (H2 : base_inv c2).
    { apply (base_move (set_record c (co_root c) (co_pending_record c))); try done; try apply Hb; [by apply base_set_record|].
      pose proof (bi_roots _ Hb). cbn. lia. }
    assert (Hready : forall c', base_inv c' -> st_job (co_status c') = st_job (co_status c) ->
      forall t' w', wp (ready P) (step_post c) (c', (t', w'))).
    { intros c' Hb' E t' w'2. apply wp_ready; [intros s Hs; by apply post_fails|]. intros m w2. apply Hpost; [by destruct Hb'; split| |done].
      unfold job_inv. proj. rewrite E. by destruct Hjob as [->| ->]. }
    assert (Htaken : taken = true -> st_job (co_status c) = ROS_RESERVE) by (intros E; by apply Z.eqb_eq in E).
    destruct taken; apply Hready; try done. apply H1; destruct Hroot as [?|E]; try lia; by rewrite (Htaken eq_refl) in E.
Qed.

Lemma wp_load_step c t w : base_inv c -> st_job (co_status c) = ROS_LOAD \/ st_job (co_status c) = ROS_META ->
  wp (load_step P) (step_post c) (c, (t, w)).
Proof.
  intros Hb Hjob. unfold load_step. apply wp_own.
  assert (Hpost : forall c' t' w' rc, base_inv c' -> st_job (co_status c') = st_job (co_status c) ->
    (rc = ROS_PENDING -> 0 <= measure c' < measure c) -> step_post (W := W) c rc (c', (t', w'))).
  { intros c' t' w' rc Hb' E Hm. split; [right; split; [done|]|done]. unfold job_inv. proj. rewrite E. by destruct Hjob as [->| ->]. }
  assert (Hm : forall c', st_job (co_status c') = st_job (co_status c) -> measure c' =
    if st_stage (co_status c') =? 0 then 20 else 1 + Z.max 0 (rs_pages (co_segment c') - co_index c')).
  { intros c' E. unfold measure. rewrite E. by destruct Hjob as [->| ->]. }
  pose proof (bi_index _ Hb) as Hi. pose proof (bi_pages _ Hb) as Hp.
  wp_step; [|wp_step].
  - apply Z.eqb_eq in C. apply wp_bind, wp_read_page; [intros [c' w'] Hs; by apply wp_fault|]. intros rc page n w' _ [Hlp Hbp].
    wp_step; [by apply wp_fault|]. apply wp_bind, wp_parse_segment; [intros [c' w1] Hs; by apply wp_fault| |].
    + intros m w1. wp_step; [by apply wp_fault|done].
    + intros kind b m w1 Hok. wp_step; [by apply wp_fault|]. apply wp_bind, wp_change, wp_bind, wp_change.
      assert (Hpages : 0 <= get32 124 page <= 17) by (by eapply page_pages).
      name_context c5 E5. assert (Hb5 : base_inv c5).
      { rewrite E5. by apply (base_move c); try apply Hb. }
      assert (Ej : st_job (co_status c5) = st_job (co_status c)) by by rewrite E5.
      assert (El : st_stage (co_status c5) = 1 /\ co_index c5 = 0 /\ rs_pages (co_segment c5) = get32 124 page) by by rewrite E5.
      clear E5. destruct El as (El1 & El2 & El3). destruct (st_job (co_status c) =? ROS_META).
      * apply wp_ready; [intros s Hs; by apply post_fails|]. intros k w2. apply Hpost; [by destruct Hb5; split|done|done].
      * apply wp_ret, Hpost; [done|done|]. intros _. rewrite !Hm, C, El1, El2, El3 by done. cbn [Z.eqb Pos.eqb]. lia.
  - apply Z.eqb_neq in C. apply Z.ltb_lt in C0. apply wp_read_container_page; [intros s Hs; by apply post_fails|].
    intros page p n t' w'. assert (Ei : u32 (co_index c + 1) = co_index c + 1) by (apply u32_small; lia).
    apply Hpost; [|done|].
    + apply (base_move c); try done; try apply Hb; proj; lia.
    + intros _. rewrite !Hm by done. proj. rewrite (proj2 (Z.eqb_neq _ _) C), Ei. lia.
  - apply wp_on_ok, wp_container_valid; [intros s Hs; by apply post_fails|]. intros n w'. cbn [Z.eqb].
    apply wp_ready; [intros s Hs; by apply post_fails|]. intros m w2. apply Hpost; [by destruct Hb; split|done|done].
Qed.

(** A recovery state keeps the shape of the index and stands at a known stage. *)
Lemma recover_post c c' t' w' rc : base_inv c' -> st_job (co_status c') = ROS_RECOVER ->
  In (st_stage (co_status c')) [0; 10; 11] -> (st_stage (co_status c') = 11 -> co_scan_slot c' < st_slot_count (co_status c')) ->
  (rc = ROS_PENDING -> 0 <= measure c' < measure c) -> step_post (W := W) c rc (c', (t', w')).
Proof. intros Hb E H1 H2 Hm. split; [right; split; [done|]|done]. unfold job_inv. proj. by rewrite E. Qed.
Lemma measure_recover c : st_job (co_status c) = ROS_RECOVER -> measure c =
  let slots := 20 * (st_slot_count (co_status c) - co_scan_slot c) in
  if st_stage (co_status c) =? 0 then slots + 2 + (co_root_count c - co_scan_root c)
  else if st_stage (co_status c) =? 10 then slots + 1 else slots - 18 + Z.max 0 (rs_pages (co_segment c) - co_index c).
Proof. intros E. unfold measure. by rewrite E. Qed.

(** What the parsing of a root may change: the records, in place. *)
Definition reindexed c c' : Prop := exists l n, length l = length (co_records c) /\ c' = timed (c <| co_records := l |>) n.
Lemma reindexed_set c c' root r : reindexed c c' -> reindexed c (set_record c' root r).
Proof. intros (l & n & E & ->). exists (<[Z.to_nat root := r]> l), n. by rewrite length_insert. Qed.
Lemma reindexed_timed c n : reindexed c (timed c n).
Proof. exists (co_records c), n. by destruct c. Qed.

Lemma reindexed_refl c : reindexed c c.
Proof. exists (co_records c), (co_last_now c). by destruct c. Qed.

Lemma wp_parse_root root Q c t w : fails Q -> (forall c' w', reindexed c c' -> Q 0 (c', (t, w'))) ->
  wp (parse_root P root) Q (c, (t, w)).
Proof.
  intros Hf HQ. unfold parse_root. apply wp_bind, wp_catalog_check; [intros s Hs; by apply wp_ret, Hf|].
  intros kind b n w'. apply wp_own. cbv zeta. wp_step; [by apply wp_fault|]. wp_step; [by apply wp_fault|].
  apply wp_bind, wp_change.
  assert (Hend : forall c1, reindexed c c1 ->
    wp (bind (change (fun c => if retired c (eb_recording_id b) then set_record c root zero_record else c)) (fun _ => ret ROS_OK)) Q (c1, (t, w'))).
  { intros c1 H. apply wp_bind, wp_change, wp_ret, HQ. destruct (retired _ _); [by apply reindexed_set|done]. }
  pose proof (reindexed_timed c n) as Hn. wp_step.
  - wp_step; [by apply wp_fault|]. by apply Hend, reindexed_set.
  - apply wp_bind, wp_change. wp_step; [by apply wp_fault|]. by apply Hend, reindexed_set, reindexed_set.
Qed.

Lemma wp_sequence_valid (Q : Z -> ros_context * (list event * W) -> Prop) c t w :
  fails Q -> (sequence_ok (record_at c (rs_root (co_segment c))) (co_segment c) = true -> Q 0 (c, (t, w))) -> wp sequence_valid Q (c, (t, w)).
Proof. intros Hf HQ. unfold sequence_valid. apply wp_own. wp_step; [by apply wp_ret, HQ|by apply wp_fault]. Qed.

Lemma base_reindexed c c' : reindexed c c' -> base_inv c -> base_inv c'.
Proof. intros (l & n & E & ->) Hb. apply (base_move c); try done; try apply Hb. Qed.
Lemma measure_reindexed c c' : reindexed c c' -> measure c' = measure c.
Proof. by intros (l & n & E & ->). Qed.

Lemma wp_recover_slot c t w : base_inv c -> st_job (co_status c) = ROS_RECOVER -> st_stage (co_status c) = 10 ->
  co_scan_slot c < st_slot_count (co_status c) -> wp (recover_slot P) (step_post c) (c, (t, w)).
Proof.
  intros Hb Hj Hst Hlt. pose proof (bi_scan_slot _ Hb) as Hss. pose proof (bi_slots _ Hb) as Hsc. unfold RLL_SLOTS in Hsc.
  assert (Eu : u32 (co_scan_slot c + 1) = co_scan_slot c + 1) by (apply u32_small; lia).
  unfold recover_slot. apply wp_own, wp_bind, wp_read_page; [intros s Hs; by apply wp_ret, post_fails|].
  intros rc page n w' Hrc [Hlp Hbp]. name_context c1 E1.
  assert (Hb1 : base_inv c1) by (rewrite E1; by destruct Hb; split).
  assert (Hnext : forall c2 t2 w2, base_inv c2 -> st_job (co_status c2) = ROS_RECOVER -> st_stage (co_status c2) = 10 ->
    st_slot_count (co_status c2) = st_slot_count (co_status c) -> co_scan_slot c2 = co_scan_slot c ->
    wp (next_scan_slot (W := list event * W)) (step_post c) (c2, (t2, w2))).
  { intros c2 t2 w2 Hb2 Ej Es Ec Ess. unfold next_scan_slot. apply wp_bind, wp_change, wp_ret. name_context c3 E3.
    assert (E3s : co_status c3 = co_status c2 /\ co_scan_slot c3 = co_scan_slot c + 1) by (rewrite E3; proj; by rewrite Ess, Eu).
    destruct E3s as [E3s E3c].
    apply recover_post; rewrite ?E3s, ?Es; [|done|cbn; tauto|done|].
    - apply (base_move c2); rewrite ?E3c, ?E3s; try done; try (rewrite E3; done); try (rewrite E3; apply Hb2); rewrite ?Ec; lia.
    - intros _. rewrite !measure_recover, E3s, E3c, Es, Hst by congruence. cbn [Z.eqb Pos.eqb]. rewrite Ec. lia. }
  assert (E1s : co_status c1 = co_status c /\ co_scan_slot c1 = co_scan_slot c /\ zlen (co_page c1) = 2048 /\ is_bytes (co_page c1)) by (rewrite E1; done).
  destruct E1s as (E1s & E1c & E1l & E1b). clear E1.
  wp_step; [by destruct Hrc as [-> | ->]|]. wp_step; [by apply Hnext; rewrite ?E1s|].
  apply wp_bind, wp_parse_segment; [intros [c' w1] Hs; by apply wp_ret, post_fails| |].
  - intros m w1. cbn [Z.eqb SLOT_RETIRED Pos.eqb]. apply Hnext; proj; rewrite ?E1s; try done. by destruct Hb1; split.
  - intros kind b m w1 Hok. assert (Hpp : 0 <= get32 124 (co_page c1) <= 17) by (by eapply page_pages).
    name_context c2 E2. assert (E2s : co_status c2 = co_status c /\ co_scan_slot c2 = co_scan_slot c) by (by rewrite E2).
    destruct E2s as [E2s E2c].
    assert (Hb2 : base_inv c2) by (rewrite E2; apply (base_move c1); try done; apply Hb1). clear E2.
    wp_step; [by apply Hnext; rewrite ?E2s|].
    apply wp_bind, wp_sequence_valid; [intros [c' w2] Hs; by apply wp_ret, post_fails|]. intros _. cbn [negb Z.eqb].
    apply wp_bind, wp_change, wp_bind, wp_change. name_context c3 E3.
    assert (Hb3 : base_inv c3).
    { rewrite E3. apply (base_move (set_slot_state c2 (co_scan_slot c2) kind)); try done; [by apply base_set_slot|..]; apply Hb2. }
    assert (E3s : st_job (co_status c3) = ROS_RECOVER /\ st_stage (co_status c3) = 10 /\
      st_slot_count (co_status c3) = st_slot_count (co_status c) /\ co_scan_slot c3 = co_scan_slot c /\
      co_segment c3 = co_segment c2) by (rewrite E3; unfold set_slot_state; proj; by rewrite E2s).
    destruct E3s as (E3j & E3t & E3n & E3c & E3g). clear E3.
    wp_step; [|wp_step].
    + apply wp_bind, wp_change, Hnext; try done. by apply base_set_record.
    + apply wp_bind, wp_change, Hnext; try done. by apply base_set_record.
    + apply wp_bind, wp_change, wp_bind, wp_change, wp_ret. name_context c4 E4.
      assert (E4s : st_job (co_status c4) = ROS_RECOVER /\ st_stage (co_status c4) = 11 /\ co_index c4 = 0 /\
        st_slot_count (co_status c4) = st_slot_count (co_status c) /\ co_scan_slot c4 = co_scan_slot c) by (by rewrite E4).
      destruct E4s as (E4j & E4t & E4i & E4n & E4c).
      assert (Hb4 : base_inv c4) by (rewrite E4; apply (base_move c3); try done; apply Hb3).
      apply recover_post; rewrite ?E4t; [done|done|cbn; tauto|by rewrite E4c, E4n|].
      intros _. rewrite !measure_recover, E4t, Hst, E4n, E4c, E4i by done. cbn [Z.eqb Pos.eqb].
      pose proof (bi_pages _ Hb4). lia.
Qed.
End Jobs.
