(* ===== verification/StoreSafety.v ===== *)
(** The object store, proved: a segment's receipt is given only for a segment
    that is durable, nothing committed is written over, and every job ends. *)
From S2P Require Import Prelude OwnedPage SegmentHeader Extent RecordTypes PlainSegment Wp ObjectStore StoreRules StoreJobs.

(** * A step *)
Section Step.
Context {W : Type} (port : ros_port W).
Abbreviation P := (logged port).
Implicit Types (c : ros_context) (t : list event) (w : W).

Lemma wp_recover_step c t w : base_inv c -> job_inv c t -> st_job (co_status c) = ROS_RECOVER ->
  wp (recover_step P) (step_post c) (c, (t, w)).
Proof.
  intros Hb Hjob Hj. pose proof (bi_scan_slot _ Hb) as Hss. pose proof (bi_slots _ Hb) as Hsc. unfold RLL_SLOTS in Hsc.
  pose proof (bi_scan_root _ Hb) as Hsr. pose proof (bi_roots _ Hb) as Hrc. pose proof (bi_index _ Hb) as Hi. pose proof (bi_pages _ Hb) as Hp.
  unfold job_inv in Hjob. rewrite Hj in Hjob. cbn [Z.eqb Pos.eqb] in Hjob. destruct Hjob as [Hstage Hscan].
  assert (Eu : u32 (co_scan_slot c + 1) = co_scan_slot c + 1) by (apply u32_small; lia).
  assert (Er : u32 (co_scan_root c + 1) = co_scan_root c + 1) by (apply u32_small; lia).
  assert (Ei : u32 (co_index c + 1) = co_index c + 1) by (apply u32_small; lia).
  unfold recover_step. apply wp_own. cbv zeta. wp_step; [|wp_step].
  - apply Z.eqb_eq in C. wp_step.
    + apply Z.ltb_lt in C0. apply wp_bind, wp_read_page; [intros s Hs; apply wp_bind, wp_ret; by apply wp_ret, post_fails|].
      intros rc page n w' Hrc' _. name_context c1 E1. apply wp_bind.
      assert (Hend : forall c2 t2 w2, reindexed c1 c2 ->
        wp (if rc <? 0 then ret rc else bind (change (fun c => c <| co_scan_root ::= fun i => u32 (i + 1) |>)) (fun _ => ret ROS_PENDING))
          (step_post (W := W) c) (c2, (t2, w2))).
      { intros c2 t2 w2 (l & m & El & E2). wp_step; [by destruct Hrc' as [-> | ->]|]. apply wp_bind, wp_change, wp_ret.
        name_context c3 E3. assert (E3s : co_status c3 = co_status c /\ co_scan_slot c3 = co_scan_slot c /\
          co_scan_root c3 = co_scan_root c + 1 /\ co_root_count c3 = co_root_count c /\ length (co_records c3) = length (co_records c) /\
          co_segment c3 = co_segment c /\ co_index c3 = co_index c /\ co_used c3 = co_used c /\ co_active_root c3 = co_active_root c)
          by (rewrite E3, E2, E1; proj; rewrite Er; split_and!; try done; rewrite El, E1; done).
        clear E3 E2 E1. destruct E3s as (E3s & E3c & E3r & E3n & E3l & E3g & E3i & E3u & E3a).
        apply recover_post; rewrite ?E3s; try done.
        - apply (base_move c); rewrite ?E3s, ?E3c, ?E3r, ?E3g, ?E3i, ?E3a; try done; try apply Hb; lia.
        - by rewrite C.
        - intros _. rewrite !measure_recover, E3s, E3c, E3r, E3n, C by congruence. cbn [Z.eqb]. lia. }
      wp_step; [|by apply wp_ret, Hend, (reindexed_refl c1)].
      apply Z.eqb_eq in C1. subst rc. apply wp_parse_root; [intros s Hs; by apply wp_ret, post_fails|]. intros c2 w2 H2. by apply Hend.
    + apply Z.ltb_ge in C0. apply wp_bind, wp_change, wp_ret. apply recover_post; try done; [by destruct Hb; split|cbn; tauto|].
      intros _. rewrite !measure_recover, C by done. proj. cbn [Z.eqb Pos.eqb]. lia.
  - apply Z.eqb_eq in C0. wp_step.
    + wp_step; [by apply wp_fault|]. apply wp_bind, wp_change, wp_ready; [intros s Hs; by apply post_fails|]. intros n w2.
      apply recover_post; try done. by destruct Hb; split.
    + apply Z.eqb_neq in C1. apply wp_recover_slot; try done. lia.
  - apply Z.eqb_neq in C, C0. assert (Est : st_stage (co_status c) = 11) by (cbn in Hstage; intuition congruence).
    specialize (Hscan Est). wp_step.
    + apply Z.ltb_lt in C1. apply wp_read_container_page; [intros s Hs; by apply post_fails|]. intros page p n t' w'.
      apply recover_post; try done; [|].
      * apply (base_move c); try done; proj; try apply Hb; rewrite ?Ei; lia.
      * intros _. rewrite !measure_recover by done. proj. rewrite Est, Ei. cbn [Z.eqb Pos.eqb]. lia.
    + apply Z.ltb_ge in C1. apply wp_on_ok, wp_container_valid; [intros s Hs; by apply post_fails|]. intros n w'. cbn [Z.eqb].
      apply wp_bind, wp_change, wp_bind, wp_change, wp_bind, wp_change, wp_ret. name_context c3 E3.
      assert (E3s : st_job (co_status c3) = ROS_RECOVER /\ st_stage (co_status c3) = 10 /\
        st_slot_count (co_status c3) = st_slot_count (co_status c) /\ co_scan_slot c3 = co_scan_slot c + 1)
        by (rewrite E3; unfold account, set_record; proj; by rewrite Eu).
      destruct E3s as (E3j & E3t & E3n & E3c).
      assert (Hb3 : base_inv c3).
      { apply (base_move (account c)); rewrite ?E3c, ?E3n; try (rewrite E3; done); [by apply base_set_record|..]; try (rewrite E3; apply Hb). 
        all: change (st_slot_count (co_status (account c))) with (st_slot_count (co_status c)); first [done|lia]. }
      clear E3. apply recover_post; rewrite ?E3t; try done; [cbn; tauto|].
      intros _. rewrite !measure_recover, E3t, E3n, E3c, Est by done. cbn [Z.eqb Pos.eqb]. lia.
Qed.

(** The gate is held during the body and released after it. *)
Definition gated c : ros_context := c <| co_gate := 1 |>.
Lemma wp_locked (body : M (ros_context * (list event * W)) Z) (Q : Z -> ros_context * (list event * W) -> Prop) c t w :
  Q ROS_ARGUMENT (c, (t, w)) -> Q ROS_BUSY (c, (t, w)) ->
  wp body (fun rc s => Q rc ((fst s) <| co_gate := 0 |>, snd s)) (gated c, (t, w)) -> wp (locked body) Q (c, (t, w)).
Proof.
  intros H1 H2 H. unfold locked, lock. apply wp_on_ok, wp_own. wp_step; [by apply wp_ret|].
  wp_step; [|by apply wp_ret]. apply wp_bind, wp_change, wp_ret. cbn [Z.eqb ROS_OK]. apply wp_bind.
  eapply wp_mono; [exact H|]. intros rc [c' w'] HQ. unfold unlock. by apply wp_bind, wp_change, wp_ret.
Qed.

Lemma store_inv_cases c t w : store_inv (c, (t, w)) -> st_fault (co_status c) = 0 -> base_inv c /\ job_inv c t.
Proof. by intros [H|H] E. Qed.

(** A call that keeps the invariant, whatever it returns. *)
Definition keeps : Z -> ros_context * (list event * W) -> Prop := fun _ s => store_inv s.
Lemma keeps_fails : fails keeps.
Proof. by left. Qed.
Lemma wp_keeps_locked (body : M (ros_context * (list event * W)) Z) c t w : store_inv (c, (t, w)) ->
  wp body keeps (gated c, (t, w)) -> wp (locked body) keeps (c, (t, w)).
Proof.
  intros Hinv H. apply wp_locked; [done|done|]. eapply wp_mono; [exact H|]. intros rc [c' [t' w']] Hs.
  eapply store_inv_aside; [|exact Hs]. apply aside_gate.
Qed.

(** Every step of a job keeps the invariant; one that is to go on has less left to do. *)
Lemma wp_ros_step c t w : store_inv (c, (t, w)) -> wp (ros_step P) (step_post c) (c, (t, w)).
Proof.
  intros Hinv. unfold ros_step.
  assert (Hsame : forall rc c' t' w', rc <> ROS_PENDING -> aside c c' -> t' = t -> step_post (W := W) c rc (c', (t', w')))
    by (intros rc c' t' w' Hrc Ha ->; split; [by eapply store_inv_aside|done]).
  apply wp_locked; [by split|by split|].
  eapply (wp_mono _ (step_post c)).
  2: { intros rc [c' [t' w']] [Hs Hm]. split; [|done]. eapply store_inv_aside; [|exact Hs]. apply aside_gate. }
  apply wp_own. wp_step; [apply wp_ret, Hsame; [done|apply aside_gate|done]|].
  wp_step; [apply wp_ret, Hsame; [done|apply aside_gate|done]|].
  apply orb_false_iff in C as [Ef%negb_false_iff%Z.eqb_eq Ej%Z.eqb_neq]. apply negb_false_iff, Z.eqb_eq in C0. rename C0 into Er.
  destruct (store_inv_cases c t w Hinv Ef) as [Hb Hj].
  apply wp_on_ok, wp_guard; [intros s Hs; by apply post_fails|]. intros n w1. cbn [Z.eqb]. cbv zeta.
  name_context c1 E1. assert (Ha : aside c c1) by (exists 1, n; by rewrite E1).
  assert (E1s : co_status c1 = co_status c) by (by rewrite E1). clear E1.
  change (co_status (gated c)) with (co_status c) in *.
  replace (step_post (W := W) c) with (step_post (W := W) c1) by (unfold step_post; by rewrite (measure_aside c c1)).
  apply (job_aside c c1 t Ha) in Hj. apply (base_aside c c1 Ha) in Hb. rewrite <- E1s in *. clear Ha Hsame Hinv.
  wp_step; [|wp_step; [|wp_step; [|wp_step]]].
  - apply Z.eqb_eq in C. by apply wp_recover_step.
  - apply wp_root_step; [done..|]. by apply orb_true_iff in C0 as [H%Z.eqb_eq|H%Z.eqb_eq]; [left|right].
  - apply Z.eqb_eq in C1. apply wp_segment_step; try done. unfold job_inv in Hj. by rewrite C1 in Hj.
  - apply wp_load_step; [done..|]. by apply orb_true_iff in C2 as [H%Z.eqb_eq|H%Z.eqb_eq]; [right|left].
  - apply wp_fault, post_fails.
Qed.
End Step.

(** * The other calls *)
Section Calls.
Context {W : Type} (port : ros_port W).
Abbreviation P := (logged port).
Implicit Types (c : ros_context) (t : list event) (w : W).

Lemma base_begun c job d n : base_inv c -> base_inv (begun c job d n).
Proof. intros []. by split. Qed.

(** What starting a job leaves, when nothing had faulted and no job was under way. *)
Lemma wp_start job d (k : M (ros_context * (list event * W)) Z) c t w : store_inv (c, (t, w)) ->
  (forall n c1 w', c1 = begun c job d n -> base_inv c1 -> wp k keeps (c1, (t, w'))) -> wp (on_ok (begin P job d) k) keeps (c, (t, w)).
Proof.
  intros Hinv H. apply wp_on_ok, wp_begin; [intros s Hs; by left|done|by intros w'; eapply (store_inv_aside c c); [exists (co_gate c), (co_last_now c); by destruct c|]|].
  intros n w' Ef Ej. cbn [Z.eqb]. eapply H, base_begun; [done|]. by destruct (store_inv_cases c t w Hinv Ef).
Qed.

Lemma store_inv_gated c t w : store_inv (c, (t, w)) -> store_inv (gated c, (t, w)).
Proof. eapply store_inv_aside, aside_gate. Qed.

(** A job of recovery starts from an empty index. *)
Lemma recover_starts c t w : base_inv c -> st_job (co_status c) = ROS_RECOVER -> st_stage (co_status c) = 0 ->
  store_inv (forget_index c, (t, w)).
Proof.
  intros Hb Ej Es. right. pose proof (bi_roots _ Hb). pose proof (bi_slots _ Hb). destruct Hb. split.
  - split; try done; first [by apply is_bytes_fill|unfold forget_index; proj; lia].
  - unfold job_inv. unfold forget_index. proj. rewrite Ej, Es. split; [cbn; tauto|done].
Qed.

Lemma wp_ros_recover d c t w : store_inv (c, (t, w)) -> wp (ros_recover P d) keeps (c, (t, w)).
Proof.
  intros Hinv. apply wp_keeps_locked; [done|]. apply wp_own. wp_step; [by apply wp_ret, store_inv_gated|].
  apply wp_start; [by apply store_inv_gated|]. intros n c1 w' E1 Hb.
  apply wp_bind, wp_change, wp_ret, recover_starts; [done|by rewrite E1..].
Qed.

Lemma wp_ros_recover_retired ca v ids count d c t w : store_inv (c, (t, w)) ->
  wp (ros_recover_retired P ca v ids count d) keeps (c, (t, w)).
Proof.
  intros Hinv. apply wp_keeps_locked; [done|]. apply store_inv_gated in Hinv. apply wp_own. destruct v as [vo|]; [|by apply wp_ret].
  cbv zeta. do 4 (wp_step; [by apply wp_ret|]). apply wp_start; [done|]. intros n c1 w' E1 Hb. wp_step.
  - apply wp_bind, wp_change, wp_ret. right. split; [by destruct Hb; split|done].
  - apply wp_bind, wp_change, wp_bind, wp_change, wp_bind, wp_change, wp_ret. apply recover_starts; [by destruct Hb; split|by rewrite E1..].
Qed.

(** The lowest absent root is one. *)
Lemma find_root_some b l i free r : find_root b l i free = Some (Some r) ->
  free = Some r \/ (i <= r < i + zlen l /\ rr_present (nth (Z.to_nat (r - i)) l zero_record) = 0).
Proof.
  revert i free. induction l as [|x l IH]; intros i free; cbn [find_root]; [intros [= ->]; by left|].
  rewrite zlen_cons. pose proof (zlen_nonneg l). assert (Hn : forall r, i + 1 <= r -> Z.to_nat (r - i) = S (Z.to_nat (r - (i + 1)))) by lia.
  destruct (negb (rr_present x =? 0)) eqn:Ep.
  - destruct (identity_equal b _); [done|]. intros [H1|[H1 H2]]%IH; [by left|right]. split; [lia|]. by rewrite Hn by lia.
  - intros H1. apply IH in H1 as [H1|[H1 H2]]; [|right; split; [lia|]; by rewrite Hn by lia].
    destruct free; [by left|]. injection H1 as <-. right. split; [lia|]. rewrite Z.sub_diag. by apply negb_false_iff, Z.eqb_eq in Ep.
Qed.

Lemma wp_ros_reserve ca b mode first d c t w : store_inv (c, (t, w)) -> wp (ros_reserve P ca b mode first d) keeps (c, (t, w)).
Proof.
  intros Hinv. apply wp_keeps_locked; [done|]. apply store_inv_gated in Hinv. apply wp_own. destruct b as [bo|]; [|by apply wp_ret].
  cbv zeta. do 2 (wp_step; [by apply wp_ret|]).
  destruct (find_root _ _ _ _) as [[free|]|] eqn:Ef; [|by apply wp_ret..]. wp_step; [by apply wp_ret|].
  apply wp_start; [done|]. intros n c1 w' E1 Hb. apply wp_bind, wp_change, wp_on_ok, wp_own, wp_catalog_seal; [intros s Hs; by left|].
  intros dg m w1 _. cbn [Z.eqb]. apply wp_ret. right.
  assert (E1s : co_root_count c1 = co_root_count c /\ co_records c1 = co_records c /\ st_job (co_status c1) = ROS_RESERVE) by by rewrite E1.
  clear E1. destruct E1s as (E1r & E1l & E1j).
  apply find_root_some in Ef as [Ef|[Hr Hp]]; [done|]. rewrite Z.sub_0_r in Hp. proj.
  assert (Hk : 0 <= free < co_root_count c).
  { unfold zlen in Hr. rewrite length_take in Hr. pose proof (bi_roots _ Hb). change (co_root_count (gated c)) with (co_root_count c) in Hr. lia. }
  split; [by destruct Hb; split|]. unfold job_inv. proj. rewrite E1j. intros _. proj. rewrite E1r. split; [done|].
  unfold record_at. proj. rewrite E1l, <- Hp. f_equal. change (co_root_count (gated c)) with (co_root_count c).
  change (co_records (gated c)) with (co_records c). rewrite !nth_lookup, lookup_take_lt by lia. done.
Qed.

Lemma wp_ros_finalize ca f d c t w : store_inv (c, (t, w)) -> wp (ros_finalize P ca f d) keeps (c, (t, w)).
Proof.
  intros Hinv. apply wp_keeps_locked; [done|]. apply store_inv_gated in Hinv. apply wp_own. destruct f as [fo|]; [|by apply wp_ret].
  wp_step; [by apply wp_ret|]. wp_step; [by apply wp_ret|]. wp_step; [by apply wp_ret|]. cbv zeta.
  apply wp_bind. unfold complete_valid. wp_step; [|apply wp_fault; intros s Hs; by apply wp_ret; left].
  apply wp_ret. cbn [negb Z.eqb ROS_OK]. apply wp_start; [done|]. intros n c1 w' E1 Hb.
  apply wp_bind, wp_change, wp_on_ok, wp_own, wp_catalog_seal; [intros s Hs; by left|].
  intros dg m w1 _. cbn [Z.eqb]. apply wp_ret. right.
  assert (E1s : co_root_count c1 = co_root_count c /\ co_active_root c1 = co_active_root c /\ st_job (co_status c1) = ROS_FINALIZE) by by rewrite E1.
  clear E1. destruct E1s as (E1r & E1a & E1j). proj. split; [by destruct Hb; split|]. unfold job_inv. proj. rewrite E1j. intros _. proj.
  rewrite E1a, E1r. split; [done|]. apply orb_false_iff in C0 as [_ C0%Z.leb_gt]. exact C0.
Qed.

Lemma wp_load_job job slot d c t w : job = ROS_LOAD \/ job = ROS_META -> store_inv (c, (t, w)) ->
  wp (load_job P job slot d) keeps (c, (t, w)).
Proof.
  intros Hjob Hinv. apply wp_keeps_locked; [done|]. apply store_inv_gated in Hinv. apply wp_own.
  wp_step; [by apply wp_ret|]. apply wp_start; [done|]. intros n c1 w' E1 Hb. apply wp_bind, wp_change, wp_ret. right.
  assert (E1j : st_job (co_status c1) = job) by by rewrite E1. clear E1. proj.
  split; [by destruct Hb; split|]. unfold job_inv. proj. rewrite E1j. by destruct Hjob as [-> | ->].
Qed.

Lemma wp_query {X} (body : ros_context -> Z * option X) after c t w : store_inv (c, (t, w)) ->
  (forall c', store_inv (c', (t, w)) -> fst (body c') = ROS_OK -> store_inv (after c', (t, w))) ->
  wp (bind (query body after) (fun r => ret (fst r))) keeps (c, (t, w)).
Proof.
  intros Hinv H. apply wp_bind. unfold query, lock. apply wp_bind, wp_own. wp_step; [by apply wp_ret, wp_ret, wp_ret|].
  wp_step; [|by apply wp_ret, wp_ret, wp_ret]. apply wp_bind, wp_change, wp_ret. cbn [negb Z.eqb ROS_OK]. apply wp_own.
  name_context c1 E1. assert (H1 : store_inv (c1, (t, w))) by (rewrite E1; by apply store_inv_gated). clear E1.
  specialize (H c1 H1). destruct (body c1) as [rc out].
  assert (Hrc : store_inv ((if rc =? 0 then after else fun c => c) c1, (t, w))) by (destruct (Z.eqb_spec rc 0); [by apply H|done]).
  apply wp_bind, wp_change, wp_bind. unfold unlock. apply wp_bind, wp_change, wp_ret, wp_ret, wp_ret.
  eapply store_inv_aside, Hrc. apply aside_gate.
Qed.

Lemma finish_keeps c t w : store_inv (c, (t, w)) -> store_inv (finish_job c, (t, w)).
Proof. intros [H|[Hb _]]; [by left|right]. split; [by destruct Hb; split|done]. Qed.

Lemma free_slot_some c slot : free_slot c = Some slot -> 0 <= slot < st_slot_count (co_status c) /\ slot_state c slot = 0.
Proof.
  unfold free_slot. intros [Hin H]%List.find_some. split; [|by apply Z.eqb_eq].
  apply list_elem_of_In, elem_of_seqZ in Hin. lia.
Qed.

(** What [prepare] knows of the segment it describes. *)
Record described c n : Prop := {
  de_job : st_job (co_status c) = ROS_SEGMENT; de_ready : st_ready (co_status c) = 0; de_index : co_index c = 0;
  de_slot : 0 <= rs_slot (co_segment c) < st_slot_count (co_status c); de_free : slot_state c (rs_slot (co_segment c)) = 0;
  de_size : eb_plaintext_bytes (rs_identity (co_segment c)) = n; de_bytes : rs_container_bytes (co_segment c) = n + 209;
  de_pages : rs_pages (co_segment c) = (n + 209 + 2047) / 2048
}.
Lemma described_deferred c n t w : base_inv c -> described c n -> 0 <= n <= RP_PLAINTEXT_CAPACITY -> st_stage (co_status c) = 9 ->
  store_inv (c, (t, w)).
Proof.
  intros Hb [] Hn Es. right. split; [done|]. unfold job_inv. cbn [fst]. rewrite de_job0. cbn [Z.eqb Pos.eqb].
  split; rewrite ?Es, ?de_ready0, ?de_index0; try done; [by left|congruence|by rewrite de_pages0, de_bytes0|rewrite de_pages0; divlia|].
  exists t, []. unfold progress. rewrite Es. cbn. split_and!; [by rewrite app_nil_r|done|intros; lia|intros; lia].
Qed.
Lemma described_sealed c c' n t w : base_inv c -> described c n -> 0 <= n <= RP_PLAINTEXT_CAPACITY -> st_stage (co_status c) = 0 ->
  sealing c c' -> sha_digest (co_hash c) (slice 0 (n + 209) (co_container c')) = Some (rs_digest (co_segment c')) ->
  store_inv (c', (t, w)).
Proof.
  intros Hb [] Hn Es [(p & d & cat & m & E) Hshape Hint] Hd. right.
  assert (E1 : co_status c' = co_status c /\ co_used c' = co_used c /\ co_records c' = co_records c /\ co_index c' = co_index c /\
    co_hash c' = co_hash c /\ co_segment c' = set_digest (co_segment c) d) by by rewrite E.
  destruct E1 as (E1 & E2 & E3 & E4 & E5 & E6). split; [rewrite E; by apply (base_move c); try apply Hb|].
  unfold job_inv. cbn [fst]. rewrite E1, de_job0. cbn [Z.eqb Pos.eqb].
  split; unfold slot_state; rewrite ?E1, ?E2, ?E4, ?E6, ?Es, ?de_ready0, ?de_index0; proj; try done; [cbn; tauto|congruence|by rewrite de_pages0, de_bytes0|rewrite de_pages0; divlia| |].
  - intros _. split; [done|]. rewrite E5, E6. proj. rewrite de_bytes0, Hd, E6. done.
  - exists t, (co_catalog c'). unfold progress. rewrite E1, Es. cbn. split_and!; [by rewrite app_nil_r|done|done|intros; lia].
Qed.

Lemma wp_prepare opus ca b plain n d deferred c t w : store_inv (c, (t, w)) ->
  wp (prepare P opus ca b plain n d deferred) keeps (c, (t, w)).
Proof.
  intros Hinv. apply wp_keeps_locked; [done|]. apply store_inv_gated in Hinv. apply wp_own. destruct b as [bo|]; [|by apply wp_ret].
  destruct plain as [po|]; [|by apply wp_ret]. cbv zeta. wp_step; [by apply wp_ret|]. wp_step; [by apply wp_ret|]. wp_step; [by apply wp_ret|].
  destruct (free_slot _) as [slot|] eqn:Ef; [|by apply wp_ret]. apply free_slot_some in Ef as [Hslot Hfree].
  assert (Hn : 80 <= n <= RP_PLAINTEXT_CAPACITY /\ n = eb_plaintext_bytes (deref bo)).
  { rewrite !orb_false_iff, !negb_false_iff in C. destruct C as (((((_ & _) & D1) & D2) & D3) & _). unfold rp_segment_validate in D3.
    apply Z.eqb_eq in D2. apply Z.ltb_ge in D1. destruct (Z.ltb_spec n RP_HEADER_BYTES); [done|]. unfold RP_HEADER_BYTES in *. lia. }
  destruct Hn as [Hn Esize]. apply wp_start; [done|]. intros n1 c1 w1 E1 Hb.
  assert (E1s : co_status c1 = co_status (begun (gated c) ROS_SEGMENT d n1) /\ co_index c1 = 0 /\ co_used c1 = co_used c /\
    co_root_count c1 = co_root_count c) by by rewrite E1.
  clear E1. destruct E1s as (E1s & E1i & E1u & E1r). apply wp_bind, wp_change. name_context c2 E2.
  assert (Hd : described c2 n /\ co_index c2 = 0 /\ st_stage (co_status c2) = 0 /\ 0 <= rs_pages (co_segment c2) <= 17).
  { assert (Eu : u32 (n + 209) = n + 209) by (apply u32_small; change RP_PLAINTEXT_CAPACITY with 34148 in Hn; lia).
    assert (Ev : u32 (n + 209 + 2047) = n + 209 + 2047) by (apply u32_small; change RP_PLAINTEXT_CAPACITY with 34148 in Hn; lia).
    assert (Eseg : co_segment c2 = plain_segment (deref bo) (deref po) n (co_active_root c1) slot) by by rewrite E2.
    assert (E2s : co_status c2 = co_status c1 /\ co_index c2 = 0 /\ co_used c2 = co_used c) by by rewrite E2.
    destruct E2s as (E2s & E2i & E2u). unfold plain_segment in Eseg. rewrite Eu, Ev in Eseg.
    split_and!; [split; unfold slot_state; rewrite ?Eseg, ?E2s, ?E1s, ?E2u; done|done|by rewrite E2s, E1s|rewrite Eseg; cbn; change RP_PLAINTEXT_CAPACITY with 34148 in Hn; divlia..]. }
  destruct Hd as (Hd & Hi & Hstage & Hp).
  assert (Hb2 : base_inv c2) by (rewrite E2 in *; apply (base_move c1); try done; try apply Hb; proj; lia). clear E2.
  apply wp_bind, wp_sequence_valid; [intros s Hs; by apply wp_ret; left|]. intros _. cbn [negb Z.eqb].
  assert (H0 : 0 <= n <= RP_PLAINTEXT_CAPACITY) by lia. destruct deferred.
  - apply wp_bind, wp_change, wp_bind, wp_change, wp_on_ok, wp_guard; [intros s Hs; by left|]. intros m w2. cbn [Z.eqb]. apply wp_ret.
    apply (described_deferred _ n); [by destruct Hb2; split|by destruct Hd; split|done|done].
  - apply wp_seal_prepared; [intros s Hs; by left|]. intros c3 w2 Hs Hdg. by eapply described_sealed.
Qed.

(** Every call keeps the invariant. *)
Lemma wp_run_op opus o c t w : store_inv (c, (t, w)) -> wp (run_op P opus o) keeps (c, (t, w)).
Proof.
  intros Hinv. destruct o; cbn [run_op].
  - by apply wp_ros_recover.
  - by apply wp_ros_recover_retired.
  - by apply wp_ros_reserve.
  - by apply wp_prepare.
  - by apply wp_ros_finalize.
  - apply wp_load_job; [by left|done].
  - apply wp_load_job; [by right|done].
  - eapply wp_mono; [by apply wp_ros_step|]. by intros rc s [H _].
  - apply wp_query; [done|]. intros c' H _. by apply finish_keeps.
  - apply wp_query; [done|]. intros c' H _. by apply finish_keeps.
  - apply wp_query; [done|]. intros c' H _. by apply finish_keeps.
Qed.
Lemma wp_run_ops opus os s : store_inv s -> wp (run_ops P opus os) (fun _ s' => store_inv s') s.
Proof.
  revert s. induction os as [|o os IH]; intros [c [t w]] Hinv; [done|]. apply wp_bind.
  eapply wp_mono; [by apply wp_run_op|]. intros rc s'. apply IH.
Qed.
End Calls.

(** * Reachable states *)
(** The contexts [ros_init], [ros_init_extent] and [ros_init_full] leave. *)
Definition started (c : ros_context) : Prop :=
  exists ca from p h v recipient,
    (exists capacity, ros_init ca from p h v recipient capacity = (ROS_OK, Some c)) \/
    ros_init_extent ca from p h v recipient = (ROS_OK, Some c) \/ ros_init_full ca from p h v recipient = (ROS_OK, Some c).

Lemma initialize_inv ca from p h v recipient capacity extent c : In extent [0; 1; 2] -> 
  (extent <> 0 -> ROS_EXTENT_CAPACITY <= capacity) ->
  initialize ca from p h v recipient capacity extent = (ROS_OK, Some c) -> base_inv c /\ job_inv c [].
Proof.
  unfold initialize. intros Hext Hcap H. destruct from as [co|], p as [po|], h as [ho|], v as [vo|], recipient as [ro|]; try done.
  cbv zeta in H. destruct (_ || _) eqn:E in H; [done|]. destruct (sha_digest _ _); [|done]. destruct (bool_decide _); [|done].
  cbn [negb] in H. apply orb_false_iff in E as [_ E%Z.ltb_ge]. change (ROS_ROOTS + ROS_SLOT_PAGES) with 26 in E.
  change ROS_EXTENT_CAPACITY with 64832 in Hcap.
  assert (Hroots : 0 < (if extent =? 0 then ROS_ROOTS else ROS_EXTENT_ROOTS) <= 32 /\
    0 <= (capacity - (if extent =? 0 then ROS_ROOTS else ROS_EXTENT_ROOTS)) / ROS_SLOT_PAGES).
  { change ROS_SLOT_PAGES with 18. destruct (Z.eqb_spec extent 0); unfold ROS_ROOTS, ROS_EXTENT_ROOTS; [divlia|].
    specialize (Hcap n). divlia. }
  assert (Hlimit : 0 <= (if extent =? 2 then RLL_SLOTS else if extent =? 0 then ROS_SLOTS else ROS_EXTENT_SLOTS) <= RLL_SLOTS)
    by (destruct (extent =? 2); [done|]; by destruct (extent =? 0)).
  revert H Hroots Hlimit. generalize (if extent =? 0 then ROS_ROOTS else ROS_EXTENT_ROOTS).
  generalize (if extent =? 2 then RLL_SLOTS else if extent =? 0 then ROS_SLOTS else ROS_EXTENT_SLOTS). intros limit roots H Hroots Hlimit.
  injection H as <-. split; [|done]. split; try done; try (by apply is_bytes_fill); proj; cbn; lia.
Qed.

Lemma started_inv c : started c -> base_inv c /\ job_inv c [].
Proof.
  intros (ca & from & p & h & v & rc & [[cap H]|[H|H]]); (eapply initialize_inv; [| |exact H]); first [by cbn; tauto|done].
Qed.

(** A state reached from a fresh context by a run of calls. *)
Definition reached {W} (port : ros_port W) (opus : opus_parser) (os : list ros_op) (c : ros_context) (t : list event) : Prop :=
  exists c0 w0 w, started c0 /\ run_ops (logged port) opus os (c0, ([], w0)) = (tt, (c, (t, w))).
Lemma reached_inv {W} (port : ros_port W) opus os c t : reached port opus os c t -> forall w : W, store_inv (c, (t, w)).
Proof.
  intros (c0 & w0 & w & H0 & E) w'. apply started_inv in H0.
  pose proof (wp_elim _ _ _ _ _ (wp_run_ops port opus os (c0, ([], w0)) (or_intror H0)) E) as H. exact H.
Qed.

(** What the store's invariant says of a receipt that is taken. *)
Lemma take_receipt_inv {W} c t (w : W) ca out r s' :
  store_inv (c, (t, w)) -> ros_take_segment_receipt (W := list event * W) ca out (c, (t, w)) = ((ROS_OK, Some r), s') ->
  exists pre intent commit, t = pre ++ committed c intent commit /\
    catalog_of c SLOT_INTENT intent /\ catalog_of c SLOT_COMMIT commit /\
    container_shape_ok c = true /\
    sha_digest (co_hash c) (slice 0 (rs_container_bytes (co_segment c)) (co_container c)) = Some (rs_digest (co_segment c)) /\
    r = SegmentReceipt 1 (slice 0 128 (co_container c)) /\ slot_state c (rs_slot (co_segment c)) = SLOT_COMMIT.
Proof.
  intros Hr H. unfold ros_take_segment_receipt, query, lock in H.
  unfold bind, own, change, ret, unlock in H. cbn [fst snd] in H. destruct (negb _) in H; [done|]. destruct (co_gate c =? 0); [|done].
  cbn [negb Z.eqb ROS_OK fst snd] in H. destruct (negb (external _ _ _)) in H; [done|].
  fold (gated c) in H. destruct (done_job _ _) eqn:Hd in H; [|done]. cbn in H. injection H as <- _.
  unfold done_job in Hd. rewrite !andb_true_iff, negb_true_iff in Hd. cbn in Hd. rewrite orb_false_r in Hd.
  change (co_status (gated c)) with (co_status c) in Hd.
  destruct Hd as [[Hf%Z.eqb_eq Hrd%Z.eqb_neq] Hj%Z.eqb_eq].
  destruct (store_inv_cases _ _ _ Hr Hf) as [_ Hs]. unfold job_inv in Hs. rewrite Hj in Hs. cbn [Z.eqb Pos.eqb ROS_SEGMENT] in Hs.
  destruct Hs. pose proof (sg_ready Hrd) as E8. destruct sg_trace as (pre & intent & Et & H1 & _ & H3).
  unfold progress in Et. rewrite E8 in *. apply Z.eqb_neq in Hrd as Hrd'. rewrite Hrd' in *. cbn [progress_at Z.eqb Pos.eqb] in Et. rewrite Hrd' in Et.
  destruct (sg_sealed ltac:(done)) as [Hsh Hdg]. exists pre, intent, (co_catalog c).
  split_and!; [exact Et|..]; try done; [by apply H1|by apply H3; cbn; tauto|by apply sg_receipt].
Qed.

(** C1. A receipt means durability: whenever the client takes the receipt of a
    segment, the last thing the store has done to the backend is, in this order:
    write the segment's intent page, sync, read it back; write every page of the
    container; write the commit page, sync; read every page of the container and
    the commit page back and find them equal.  The container is well formed and
    its digest is the one in both catalog pages; the receipt carries its header. *)
Theorem ros_receipt_durable {W} (port : ros_port W) opus os c t w ca out r s' :
  reached port opus os c t -> ros_take_segment_receipt (W := list event * W) ca out (c, (t, w)) = ((ROS_OK, Some r), s') ->
  exists pre intent commit, t = pre ++ committed c intent commit /\
    catalog_of c SLOT_INTENT intent /\ catalog_of c SLOT_COMMIT commit /\
    container_shape_ok c = true /\
    sha_digest (co_hash c) (slice 0 (rs_container_bytes (co_segment c)) (co_container c)) = Some (rs_digest (co_segment c)) /\
    r = SegmentReceipt 1 (slice 0 128 (co_container c)) /\ slot_state c (rs_slot (co_segment c)) = SLOT_COMMIT.
Proof. intros Hr H. apply reached_inv with (w := w) in Hr. by eapply take_receipt_inv. Qed.

(** * Nothing committed is written over *)
Section Overwrite.
Context {W : Type} (port : ros_port W).
Abbreviation P := (logged port).
Implicit Types (c : ros_context) (t : list event) (w : W).

(** The pages a call may write in a context: outside the slots that hold a
    committed segment and the roots of the recordings that are not being recorded. *)
Definition free_page c (p : Z) : Prop :=
  (forall slot, 0 <= slot < st_slot_count (co_status c) -> slot_state c slot = SLOT_COMMIT ->
    ~ (sector c slot <= p < sector c slot + ROS_SLOT_PAGES)) /\
  (forall root, 0 <= root < co_root_count c -> rr_present (record_at c root) <> 0 -> root <> co_active_root c -> p <> root).
Definition appends (A : Z -> Prop) t (s : ros_context * (list event * W)) : Prop :=
  exists es, trace s = t ++ es /\ Forall (writes_in A) es.

Lemma emits_appends A {X} (m : M (ros_context * (list event * W)) X) c t w :
  emits A m -> wp m (fun _ s => appends A t s) (c, (t, w)).
Proof. intros H. exact (H (c, (t, w))). Qed.

Lemma emits_next_stage A : emits (W := W) A next_stage.
Proof. unfold next_stage. emits. Qed.
Lemma emits_to_stage A k : emits (W := W) A (to_stage k).
Proof. unfold to_stage. emits. Qed.
Hint Resolve emits_next_stage emits_to_stage : emits.

(** A page of the segment at work, whose slot is not committed. *)
Lemma free_segment_page c i : base_inv c -> 0 <= i < ROS_SLOT_PAGES -> 0 <= rs_slot (co_segment c) ->
  slot_state c (rs_slot (co_segment c)) <> SLOT_COMMIT -> free_page c (sector c (rs_slot (co_segment c)) + i).
Proof.
  intros Hb Hi Hs Hst. split.
  - intros slot Hslot Hc. unfold sector, ROS_SLOT_PAGES, ROS_DATA_PAGES in *.
    assert (slot <> rs_slot (co_segment c)) by congruence. lia.
  - intros root Hr _ _. unfold sector, ROS_SLOT_PAGES, ROS_DATA_PAGES in *. lia.
Qed.

Lemma segment_step_writes c t w : st_ready (co_status c) = 0 -> base_inv c -> seg_inv c t ->
  wp (segment_step P) (fun _ s => appends (free_page c) t s) (c, (t, w)).
Proof.
  intros Hr Hb Hs. pose proof (sg_slot _ _ Hs) as Hslot. pose proof (sg_index _ _ Hs) as Hi. pose proof (bi_pages _ Hb) as Hp.
  assert (Hst : slot_state c (rs_slot (co_segment c)) <> SLOT_COMMIT).
  { rewrite (sg_state _ _ Hs), Hr. by destruct (existsb _ _). }
  assert (Hw : free_page c (sector c (rs_slot (co_segment c)))).
  { rewrite <- (Z.add_0_r (sector _ _)). apply free_segment_page; [done|done|lia|done]. }
  unfold segment_step. apply wp_own, emits_appends. cbv zeta.
  repeat match goal with |- emits _ (if ?b then _ else _) => destruct b eqn:? end;
    emits; try (by apply emits_write_page); eauto with emits; try (apply emits_verify_page; emits; by eauto with emits).
  apply emits_write_page.
  unfold data_page. rewrite <- Z.add_assoc. apply free_segment_page; try done; [|lia].
  unfold ROS_SLOT_PAGES, ROS_DATA_PAGES. repeat match goal with H : (_ =? _) = _ |- _ => rewrite ?Z.eqb_eq, ?Z.eqb_neq in H end. lia.
Qed.

Lemma root_step_writes c t w : free_page c (co_root c) -> wp (root_step P) (fun _ s => appends (free_page c) t s) (c, (t, w)).
Proof.
  intros Hp. unfold root_step. apply wp_own, emits_appends. cbv zeta. emits; eauto with emits; [by apply emits_write_page|].
  apply emits_verify_page. emits; eauto with emits.
Qed.
Lemma emits_recover_step A : emits A (recover_step P).
Proof. unfold recover_step, recover_slot, next_scan_slot. emits; eauto with emits. Qed.
Lemma emits_load_step A : emits A (load_step P).
Proof. unfold load_step. emits; eauto with emits. Qed.

Lemma guard_appends A c t w : wp (guard P) (fun rc s => appends A t s /\ (rc = 0 -> exists n w', s = (timed c n, (t, w')))) (c, (t, w)).
Proof.
  split; [apply (emits_guard port A (c, (t, w)))|].
  assert (H : wp (guard P) (fun rc s => rc = 0 -> exists n w', s = (timed c n, (t, w'))) (c, (t, w))); [|exact H].
  apply wp_guard; [by intros s _|]. intros n w' _. by exists n, w'.
Qed.

Lemma free_aside c c' p : aside c c' -> free_page c' p -> free_page c p.
Proof. by intros (g & n & ->). Qed.

Lemma appends_weaken A B t s : (forall p, A p -> B p) -> appends A t s -> appends B t s.
Proof. intros H (es & E & F). exists es. split; [done|]. eapply Forall_impl; [exact F|]. intros []; cbn; auto. Qed.

Lemma ros_step_writes c t w : store_inv (c, (t, w)) -> wp (ros_step P) (fun _ s => appends (free_page c) t s) (c, (t, w)).
Proof.
  intros Hinv. assert (Hnil : forall c', appends (free_page c) t (c', (t, w))) by (intros c'; exists []; by rewrite app_nil_r).
  unfold ros_step. apply wp_locked; [done|done|]. eapply (wp_mono _ (fun _ s => appends (free_page c) t s)); [|by intros rc [c' [t' w']]].
  apply wp_own. change (co_status (gated c)) with (co_status c). wp_step; [by apply wp_ret|]. wp_step; [by apply wp_ret|].
  apply orb_false_iff in C as [Ef%negb_false_iff%Z.eqb_eq Ej%Z.eqb_neq]. apply negb_false_iff, Z.eqb_eq in C0. rename C0 into Er.
  destruct (store_inv_cases c t w Hinv Ef) as [Hb Hj]. apply wp_on_ok.
  eapply wp_mono; [apply (guard_appends (free_page c))|]. intros rc s [Happ H]. destruct (Z.eqb_spec rc 0) as [->|]; [|done].
  destruct (H eq_refl) as (n & w1 & ->). cbv zeta. name_context c1 E1.
  assert (Ha : aside c c1) by (exists 1, n; by rewrite E1). assert (E1s : co_status c1 = co_status c) by (by rewrite E1). clear E1 H Hnil Happ.
  assert (Hfree : forall m : M (ros_context * (list event * W)) Z, wp m (fun _ s => appends (free_page c1) t s) (c1, (t, w1)) ->
    wp m (fun _ s => appends (free_page c) t s) (c1, (t, w1))).
  { intros m Hm. eapply wp_mono; [exact Hm|]. intros rc s. apply appends_weaken. intros p. by apply free_aside. }
  apply (job_aside c c1 t Ha) in Hj. apply (base_aside c c1 Ha) in Hb. clear Ha Hinv. rewrite <- E1s in *. apply Hfree. unfold job_inv in Hj.
  wp_step; [|wp_step; [|wp_step; [|wp_step]]].
  - apply emits_appends, emits_recover_step.
  - apply root_step_writes. apply orb_true_iff in C0 as [H%Z.eqb_eq|H%Z.eqb_eq]; rewrite H in Hj; cbn [Z.eqb Pos.eqb] in Hj; destruct (Hj Er) as [H1 H2].
    + split; [intros slot Hs _; unfold sector, ROS_SLOT_PAGES, ROS_DATA_PAGES; lia|congruence].
    + pose proof (bi_active _ Hb). split; [intros slot Hs _; unfold sector, ROS_SLOT_PAGES, ROS_DATA_PAGES; lia|congruence].
  - by apply segment_step_writes.
  - apply emits_appends, emits_load_step.
  - apply emits_appends, emits_fault.
Qed.

(** Only a step writes. *)
Lemma run_op_quiet A opus o : o <> OpStep -> emits A (run_op P opus o).
Proof.
  intros Ho. destruct o; try done; cbn [run_op];
    unfold ros_recover, ros_recover_retired, ros_reserve, prepare, ros_finalize, ros_load, ros_describe_committed, load_job,
      ros_take_segment_receipt, ros_take_final_receipt, ros_finish; try apply emits_locked; emits; eauto with emits.
Qed.
End Overwrite.

(** C2. Nothing committed is written over: whatever the client calls in a
    reachable state, and whatever the backend answered, no page of a slot that
    holds a committed segment is written, and no root of a present recording
    other than the one being recorded. *)
Theorem ros_no_overwrite {W} (port : ros_port W) opus os o c t w rc c' t' w' :
  reached port opus os c t -> run_op (logged port) opus o (c, (t, w)) = (rc, (c', (t', w'))) ->
  exists es, t' = t ++ es /\ forall p page r, In (EvWrite p page r) es ->
    (forall slot, 0 <= slot < st_slot_count (co_status c) -> slot_state c slot = SLOT_COMMIT ->
       ~ (sector c slot <= p < sector c slot + ROS_SLOT_PAGES)) /\
    (forall root, 0 <= root < co_root_count c -> rr_present (record_at c root) <> 0 -> root <> co_active_root c -> p <> root).
Proof.
  intros Hr E. apply reached_inv with (w := w) in Hr.
  assert (H : wp (run_op (logged port) opus o) (fun _ s => appends (free_page c) t s) (c, (t, w))).
  { destruct o; try (by apply emits_appends, run_op_quiet). by apply ros_step_writes. }
  apply (wp_elim _ _ _ _ _ H) in E as (es & E & F). exists es. split; [exact E|].
  intros p page r Hin. rewrite Forall_forall in F. apply list_elem_of_In in Hin. exact (F _ Hin).
Qed.

(** * Every job ends *)
Definition ROS_DRIVE_MAX : Z := 20 * RLL_SLOTS + 64.
(** Steps until one is not pending, at most [n]. *)
Fixpoint drive {W} (port : ros_port W) (n : nat) : M (ros_context * W) Z :=
  match n with
  | O => ret ROS_PENDING
  | S n => do rc <- ros_step port; if rc =? ROS_PENDING then drive port n else ret rc
  end.

Lemma wp_drive {W} (port : ros_port W) n c t w : store_inv (c, (t, w)) -> (Z.to_nat (measure c) < n)%nat ->
  wp (drive (logged port) n) (fun rc _ => rc <> ROS_PENDING) (c, (t, w)).
Proof.
  revert c t w. induction n as [|n IH]; intros c t w Hinv Hn; [lia|]. cbn [drive]. apply wp_bind.
  eapply wp_mono; [by apply wp_ros_step|]. intros rc [c' [t' w']] [Hinv' Hm]. cbn [fst] in Hm.
  destruct (Z.eqb_spec rc ROS_PENDING) as [E|E]; [|done]. apply IH; [done|]. specialize (Hm E). lia.
Qed.

Lemma measure_bound c : base_inv c -> measure c < ROS_DRIVE_MAX.
Proof.
  intros []. unfold RLL_SLOTS in *. change ROS_DRIVE_MAX with 102464. unfold measure, segment_left. cbv zeta.
  repeat destruct (Z.eqb _ _); cbn [orb]; lia.
Qed.

(** C16. Every job ends: from any reachable state, whatever the backend answers,
    driving [ros_step] at most 102,464 times gives an answer other than
    "pending" (the job is ready, or the store has refused or faulted). *)
Theorem ros_jobs_end {W} (port : ros_port W) opus os c t w :
  reached port opus os c t -> fst (drive (logged port) (Z.to_nat ROS_DRIVE_MAX) (c, (t, w))) <> ROS_PENDING.
Proof.
  intros Hr. apply reached_inv with (w := w) in Hr. destruct (decide (st_fault (co_status c) = 0)) as [Hf|Hf].
  - apply (wp_drive port _ c t w Hr). destruct (store_inv_cases _ _ _ Hr Hf) as [Hb _]. apply measure_bound in Hb. change ROS_DRIVE_MAX with 102464 in *. lia.
  - assert (Hs : forall n, fst (drive (logged port) (S n) (c, (t, w))) <> ROS_PENDING).
    { intros n. cbn [drive]. assert (H : wp (ros_step (logged port)) (fun rc _ => rc <> ROS_PENDING) (c, (t, w))).
      { apply wp_locked; [done|done|]. apply wp_own. change (co_status (gated c)) with (co_status c).
        rewrite (proj2 (Z.eqb_neq _ _) Hf). by apply wp_ret. }
      unfold bind. unfold wp in H. destruct (ros_step _ _) as [rc s]. cbn in H. by rewrite (proj2 (Z.eqb_neq _ _) H). }
    replace (Z.to_nat ROS_DRIVE_MAX) with (S (Z.to_nat (ROS_DRIVE_MAX - 1))) by (unfold ROS_DRIVE_MAX, RLL_SLOTS; lia). apply Hs.
Qed.

(** * A concrete run *)
(** A backend that answers every call and keeps the pages written to it; the
    seal "encrypts" by copying. *)
Definition demo_port : ros_port (list (Z * bytes)) := {|
  po_now_ms := fun w => (1000, w);
  po_cancelled := fun w => (0, w);
  po_admit := fun _ _ w => (0, w);
  po_read := fun p _ w =>
    match List.find (fun e => fst e =? p) w with Some e => (ROS_READ_OK, snd e, w) | None => (ROS_READ_MISSING, [], w) end;
  po_write := fun p page _ w => (0, (p, page) :: w);
  po_sync := fun _ w => (0, w);
  po_seal := fun _ _ plain n w => (0, fill 65 4, plain ++ fill 16 9, n, w)
|}.
Definition demo_opus : opus_parser := OpusParser (fun _ _ => 320) (fun _ => 1) (fun _ => 1).
Definition demo_hash : owned_page_hash :=
  {| sha256 := Some (fun _ => {| sha_rc := 0; sha_out := fill 32 7; sha_written := 32 |}) |}.
Definition demo_volume : es_binding := EsBinding (fill 32 7) (fill 16 1) (fill 16 2) (fill 16 0) 5 0 0.
Definition demo_session : es_binding := EsBinding (fill 32 7) (fill 16 1) (fill 16 2) (fill 16 3) 5 0 0.
Definition demo_binding (sequence : Z) : es_binding := EsBinding (fill 32 7) (fill 16 1) (fill 16 2) (fill 16 3) 5 sequence 216.
(** One frame and the codec's tail. *)
Definition demo_plain (first : Z) : bytes :=
  blits ([(0, rp_magic); put16 8 1; put16 10 80; put32 12 16000; put16 16 1; put16 18 320; put32 20 24000; put32 24 3; put32 28 1;
    put64 32 first; put64 40 (first + 320); put32 48 1; put32 52 2; put32 56 40; put32 60 280; put32 64 136; put32 68 320; put32 72 2;
    put16 80 60; put16 82 0; put32 84 0; (88, fill 60 0x80); put16 148 60; put16 150 1; put32 152 1; (156, fill 60 0x80)])
    (fill 216 0).
Definition demo_init : Z * option ros_context :=
  ros_init 0 (Some (Obj 0 zero_context)) (Some (Obj 100000 true)) (Some (Obj 100100 demo_hash)) (Some (Obj 100200 demo_volume))
    (Some (Obj 100300 (fill 65 4))) 44.
Definition demo_steps (n : nat) : list ros_op := repeat OpStep n.
Definition demo_reserve : list ros_op :=
  [OpRecover 2000] ++ demo_steps 12 ++ [OpFinish; OpReserve 0 (Some (Obj 100000 demo_session)) RP_MANUAL 0 2000] ++ demo_steps 3 ++ [OpFinish].
Definition demo_prepare (sequence first : Z) : ros_op :=
  OpPrepare 0 (Some (Obj 100000 (demo_binding sequence))) (Some (Obj 100100 (demo_plain first))) 216 2000 false.
Definition demo_commit : list ros_op :=
  demo_reserve ++ [demo_prepare 0 0] ++ demo_steps 10.
(** A second segment, ready to be written. *)
Definition demo_second : list ros_op :=
  demo_commit ++ [OpTakeSegment 0 (Some (Obj 100000 zero_segment_receipt)); demo_prepare 1 320].
Definition demo_state (os : list ros_op) : ros_context * (list event * list (Z * bytes)) :=
  match demo_init with (0, Some c) => snd (run_ops (logged demo_port) demo_opus os (c, ([], []))) | _ => (zero_context, ([], [])) end.
Definition demo_take := ros_take_segment_receipt 0 (Some (Obj 100000 zero_segment_receipt)) (demo_state demo_commit).

Lemma demo_reached os : reached demo_port demo_opus os (fst (demo_state os)) (fst (snd (demo_state os))).
Proof.
  assert (H : fst demo_init = 0 /\ match snd demo_init with Some _ => True | None => False end) by (by vm_compute).
  unfold demo_state. destruct demo_init as [rc [c|]] eqn:E; destruct H as [H1 H2]; [|done]. cbn in H1. subst rc.
  exists c, [], (snd (snd (snd (run_ops (logged demo_port) demo_opus os (c, ([], [])))))). split.
  - do 6 eexists. left. eexists. exact E.
  - by destruct (run_ops _ _ _ _) as [[] [c' [t' w']]].
Qed.

Lemma ros_receipt_durable_witness : exists r c t pre intent commit,
  snd (fst demo_take) = Some r /\ t = pre ++ committed c intent commit /\ slot_state c (rs_slot (co_segment c)) = SLOT_COMMIT.
Proof.
  assert (H : fst (fst demo_take) = ROS_OK /\ match snd (fst demo_take) with Some _ => True | None => False end) by (by vm_compute).
  pose proof (demo_reached demo_commit) as Hr. unfold demo_take in *. destruct (demo_state demo_commit) as [c [t w]].
  destruct (ros_take_segment_receipt _ _ _) as [[rc [r|]] s'] eqn:E; destruct H as [H1 H2]; [|done]. cbn in H1. subst rc.
  destruct (ros_receipt_durable demo_port demo_opus _ _ _ _ _ _ _ _ Hr E) as (pre & intent & commit & Et & _ & _ & _ & _ & _ & Hst).
  by exists r, c, t, pre, intent, commit.
Defined.

Definition demo_step := run_op (logged demo_port) demo_opus OpStep (demo_state demo_second).
Lemma ros_no_overwrite_witness : exists c t es, reached demo_port demo_opus demo_second c t /\ slot_state c 0 = SLOT_COMMIT /\
  length es = 1%nat /\ forall p page r, In (EvWrite p page r) es -> ~ (sector c 0 <= p < sector c 0 + ROS_SLOT_PAGES).
Proof.
  assert (H : 0 < st_slot_count (co_status (fst (demo_state demo_second))) /\
    slot_state (fst (demo_state demo_second)) 0 = SLOT_COMMIT /\
    length (fst (snd (snd demo_step))) = S (length (fst (snd (demo_state demo_second))))) by (by vm_compute).
  pose proof (demo_reached demo_second) as Hr. unfold demo_step in H. destruct (demo_state demo_second) as [c [t w]]. cbn [fst snd] in *.
  destruct (run_op (logged demo_port) demo_opus OpStep (c, (t, w))) as [rc [c' [t' w']]] eqn:E.
  destruct (ros_no_overwrite demo_port demo_opus _ _ _ _ _ _ _ _ _ Hr E) as (es & Et & Hes). destruct H as (H1 & H2 & H3).
  exists c, t, es. split_and!; try done; [cbn in H3; rewrite Et, length_app in H3; lia|].
  intros p page r Hin. by apply (Hes p page r Hin).
Defined.

Lemma ros_jobs_end_witness :
  fst (drive (logged demo_port) (Z.to_nat ROS_DRIVE_MAX) (demo_state demo_reserve)) <> ROS_PENDING.
Proof.
  pose proof (demo_reached demo_reserve) as Hr. destruct (demo_state demo_reserve) as [c [t w]].
  exact (ros_jobs_end demo_port demo_opus _ _ _ w Hr).
Defined.
