(* ===== verification/StoreOwner.v ===== *)
(** The segment a store is committing: while its job runs, no call but the one
    that takes its receipt replaces it, and a call that would start another job
    is refused. *)
From S2P Require Import Prelude OwnedPage SegmentHeader RecordTypes PlainSegment Wp ObjectStore StoreRules StoreJobs StoreSafety.

(** The store is committing the segment [b], or has failed. *)
Definition holds (b : es_binding) (d : ros_context) : Prop :=
  st_fault (co_status d) <> 0 \/ (st_job (co_status d) = ROS_SEGMENT /\ rs_identity (co_segment d) = b).
Lemma holds_aside b d d' : aside d d' -> holds b d -> holds b d'.
Proof. by intros (g & n & ->). Qed.

Section Holding.
Context {W : Type} (port : ros_port W).
Abbreviation S := (ros_context * (list event * W))%type.
Abbreviation P := (logged port).
(** A computation that leaves the segment of a segment's job alone. *)
Definition holding {X} (m : M S X) : Prop := forall b s, holds b (fst s) -> holds b (fst (snd (m s))).

Lemma holding_ret {X} (x : X) : holding (ret x : M S X).
Proof. by intros b s H. Qed.
Lemma holding_bind {X Y} (m : M S X) (k : X -> M S Y) : holding m -> (forall x, holding (k x)) -> holding (bind m k).
Proof. intros Hm Hk b s H. unfold bind. apply (Hm b) in H. destruct (m s) as [x s']. by apply Hk. Qed.
Lemma holding_on_ok (m k : M S Z) : holding m -> holding k -> holding (on_ok m k).
Proof. intros Hm Hk. apply holding_bind; [done|]. intros rc. destruct (rc =? 0); [done|by intros b s H]. Qed.
Lemma holding_own {X} (k : ros_context -> M S X) : (forall c, holding (k c)) -> holding (own k).
Proof. intros Hk b s. apply Hk. Qed.
Lemma holding_change f : (forall b d, holds b d -> holds b (f d)) -> holding (change f : M S unit).
Proof. intros Hf b s. apply Hf. Qed.
Lemma holding_call {X} (f : list event * W -> X * (list event * W)) : holding (call f : M S X).
Proof. intros b [d w] H. unfold call. cbn. by destruct (f w). Qed.

Lemma holding_fault rc : holding (fault rc : M S Z).
Proof. intros b s _. by left. Qed.
Ltac hold :=
  repeat first
    [ solve [auto 2]
    | match goal with
      | |- holding (ret _) => apply holding_ret
      | |- holding (fault _) => apply holding_fault
      | |- holding (change _) => apply holding_change; intros ?b ?d; exact id
      | |- holding (status_set _) => apply holding_change; intros ?b ?d; exact id
      | |- holding (on_ok _ _) => apply holding_on_ok
      | |- holding (bind _ _) => apply holding_bind; [|intros ?]
      | |- holding (own _) => apply holding_own; intros ?
      | |- holding (call _) => apply holding_call
      | |- holding (match ?x with _ => _ end) => destruct x
      end
    | progress (cbv beta zeta) ].
Lemma holding_guard : holding (guard P).
Proof. unfold guard. hold. Qed.
Hint Resolve holding_guard : core.
Lemma holding_checked rc : holding (checked P rc).
Proof. unfold checked. hold. Qed.
Hint Resolve holding_checked : core.
Lemma holding_admit writing : holding (store_admit P writing).
Proof. unfold store_admit. hold. Qed.
Hint Resolve holding_admit : core.
Lemma holding_hash p : holding (hash P p).
Proof. unfold hash. hold. Qed.
Hint Resolve holding_hash : core.
Lemma holding_read_page p : holding (read_page P p).
Proof. unfold read_page. hold. Qed.
Lemma holding_write_page p d : holding (write_page P p d).
Proof. unfold write_page. hold. Qed.
Lemma holding_sync_map : holding (sync_map P).
Proof. unfold sync_map. hold. Qed.
Hint Resolve holding_read_page holding_write_page holding_sync_map : core.
Lemma holding_catalog_seal fields : holding (catalog_seal P fields).
Proof. unfold catalog_seal. hold. Qed.
Lemma holding_ready : holding (ready P).
Proof. unfold ready. hold. Qed.
Hint Resolve holding_catalog_seal holding_ready : core.
Lemma holding_catalog_segment kind : holding (catalog_segment P kind).
Proof. unfold catalog_segment. hold. Qed.
Hint Resolve holding_catalog_segment : core.
Lemma holding_verify_page p e k : holding k -> holding (verify_page P p e k).
Proof. intros Hk. unfold verify_page. hold. Qed.
Lemma holding_seal_prepared pl n : holding (seal_prepared P pl n).
Proof. unfold seal_prepared. hold. Qed.
Hint Resolve holding_seal_prepared : core.
Lemma holding_segment_step : holding (segment_step P).
Proof. unfold segment_step, next_stage, to_stage. hold; apply holding_verify_page; hold. Qed.

(** ** The calls *)
Lemma holding_locked (body : M S Z) : holding body -> holding (locked body).
Proof. intros Hb. unfold locked, lock, unlock. hold. Qed.
Lemma holding_ros_step : holding (ros_step P).
Proof.
  apply holding_locked. intros b s H. unfold own at 1. destruct (_ || _) eqn:E; [done|]. destruct (negb (st_ready _ =? 0)); [done|].
  apply orb_false_iff in E as [E%negb_false_iff%Z.eqb_eq _]. assert (Hj : st_job (co_status (fst s)) = ROS_SEGMENT) by by destruct H as [?|[? _]].
  cbv zeta. rewrite Hj. cbn [Z.eqb Pos.eqb orb ROS_RECOVER ROS_RESERVE ROS_FINALIZE ROS_SEGMENT].
  by apply (holding_on_ok _ _ holding_guard holding_segment_step).
Qed.

(** A job is refused while a segment's runs, and after a fault. *)
Lemma begin_busy b job deadline s : holds b (fst s) -> begin P job deadline s = (ROS_STATE, s).
Proof.
  intros H. unfold begin, own. destruct (_ || _) eqn:E; [done|].
  apply orb_false_iff in E as [E1%negb_false_iff%Z.eqb_eq E2%negb_false_iff%Z.eqb_eq]. destruct H as [?|[H _]]; [done|]. by rewrite H in E2.
Qed.
Lemma holding_begin job deadline k : holding (on_ok (begin P job deadline) k).
Proof.
  intros b s H. unfold on_ok, bind. by rewrite (begin_busy b).
Qed.

Lemma holding_ros_reserve ca b mode first deadline : holding (ros_reserve P ca b mode first deadline).
Proof. apply holding_locked. pose proof holding_begin. hold. Qed.
Lemma holding_prepare opus ca b plain n deadline deferred : holding (prepare P opus ca b plain n deadline deferred).
Proof. apply holding_locked. pose proof holding_begin. hold. Qed.
Lemma holding_ros_finalize ca f deadline : holding (ros_finalize P ca f deadline).
Proof. apply holding_locked. pose proof holding_begin. unfold complete_valid. hold. Qed.
Lemma holding_query {X} (body : ros_context -> Z * option X) after :
  (forall b d, holds b d -> fst (body d) = ROS_OK -> holds b (after d)) -> holding (query body after : M S _).
Proof.
  intros Hf. unfold query, lock, unlock. apply holding_bind; [hold|]. intros rc. destruct (negb _); [hold|].
  intros b s H. unfold own at 1. specialize (Hf b (fst s) H). destruct (body (fst s)) as [rc' out].
  assert (Hrc : holds b ((if rc' =? 0 then after else fun c => c) (fst s))) by (destruct (Z.eqb_spec rc' 0); auto).
  exact Hrc.
Qed.
Lemma not_done b d jobs : holds b d -> ~ In ROS_SEGMENT jobs -> done_job d jobs = false.
Proof.
  intros H Hj. unfold done_job. destruct (Z.eqb_spec (st_fault (co_status d)) 0) as [E|]; [|done]. destruct H as [?|[H _]]; [done|].
  rewrite H. destruct (existsb _ _) eqn:F; [|by rewrite andb_false_r]. apply existsb_exists in F as (x & Hx & <-%Z.eqb_eq). done.
Qed.
Lemma holding_ros_finish : holding (ros_finish : M S _).
Proof. apply holding_query. intros b d H E. rewrite (not_done b) in E; [done|done|cbn; intuition discriminate]. Qed.
Lemma holding_take_final ca out : holding (ros_take_final_receipt ca out : M S _).
Proof. apply holding_query. intros b d H E. rewrite (not_done b) in E; [|done|cbn; intuition discriminate]. by destruct (negb _) in E. Qed.

(** A prepared segment is the store's. *)
Lemma holding_sequence_valid : holding (sequence_valid : M S Z).
Proof. unfold sequence_valid. hold. Qed.
Definition owns (b : es_binding) (rc : Z) (s : S) : Prop := rc = ROS_PENDING -> holds b (fst s).
Lemma wp_holding {X} b (m : M S X) (Q : X -> S -> Prop) s : holding m -> holds b (fst s) ->
  (forall x s', holds b (fst s') -> Q x s') -> wp m Q s.
Proof. intros Hm H HQ. apply HQ. by apply Hm. Qed.
Lemma wp_prepare_owns opus ca bo plain n deadline deferred d t w :
  wp (prepare P opus ca (Some bo) plain n deadline deferred) (owns (deref bo)) (d, (t, w)).
Proof.
  apply wp_locked; [done|done|]. apply (wp_mono _ (owns (deref bo))); [|by intros rc [d' w'] H].
  apply wp_own. destruct plain as [po|]; [|by apply wp_ret]. cbv zeta. do 3 (wp_step; [by apply wp_ret|]).
  destruct (free_slot _) as [slot|]; [|by apply wp_ret].
  apply wp_on_ok, wp_begin; [by intros s Hs _; left|done|done|]. intros m w1 _ Hj. cbn [Z.eqb].
  apply wp_bind, wp_change. eapply (wp_holding (deref bo)); [|by right|by intros x s' H _].
  pose proof holding_sequence_valid. pose proof (holding_seal_prepared (slice 0 n (deref po)) n). hold.
Qed.
End Holding.
