(* ===== verification/RecordingPipeline.v ===== *)
(** The recording pipeline ([recording_pipeline.c/.h]): frames are encoded into
    plaintext segments, sealed and committed through a sink, now or later, and
    the recording is finalized with an account of what was committed.  Opus and
    the sink are parameters; the sink's callbacks act on a world [W]. *)
From Stdlib Require Import String.
From S2P Require Import Prelude SegmentHeader RecordTypes PlainSegment Wp.

Definition RP_ENCODER_CAPACITY : Z := 32768.
Definition RP_WORKER_STACK_MIN : Z := 65536.
Definition RP_UNINITIALIZED : Z := 0.
Definition RP_IDLE : Z := 1.
Definition RP_RECORDING : Z := 2.
Definition RP_PAUSED : Z := 3.
Definition RP_FINALIZING : Z := 4.
Definition RP_STOPPED : Z := 5.
Definition RP_FULL : Z := 6.
Definition RP_OVERFLOW : Z := 7.
Definition RP_LOW_POWER : Z := 8.
Definition RP_FAULT : Z := 9.
Definition RP_DRAINING : Z := 10.
Definition RP_REASON_NONE : Z := 0.
Definition RP_REASON_USER : Z := 1.
Definition RP_REASON_FULL : Z := 2.
Definition RP_REASON_OVERFLOW : Z := 3.
Definition RP_REASON_LOW_POWER : Z := 4.
Definition RP_REASON_CODEC : Z := 5.
Definition RP_REASON_STORE : Z := 6.
Definition RP_REASON_RECEIPT : Z := 7.
Definition RP_REASON_CONTINUITY : Z := 8.
Definition RP_REASON_EXTERNAL : Z := 9.
Definition RP_PENDING : Z := 1.
Definition RP_BUSY : Z := -2.
Definition RP_STATE : Z := -3.
Definition RP_CODEC_ERROR : Z := -4.
Definition RP_STORE_ERROR : Z := -5.
Definition RP_RECEIPT_ERROR : Z := -6.
Definition RP_CONTINUITY_ERROR : Z := -7.
Definition RP_STORAGE_FULL : Z := -8.
Definition RP_LIMIT : Z := -9.
Definition RP_EXTERNAL_ERROR : Z := -10.
Definition RP_IO_OK : Z := 0.
Definition RP_IO_FULL : Z := 1.
Definition RP_IO_FAILED : Z := 2.
Definition RP_IO_UNCERTAIN : Z := 3.
Definition RP_IO_PENDING : Z := 4.

Record rp_status := RpStatus {
  ps_state : Z; ps_mode : Z; ps_reason : Z; ps_segments : Z; ps_segment_frames : Z; ps_gaps : Z; ps_lookahead : Z;
  ps_session_reserved : Z; ps_manifest_finalized : Z; ps_commit_uncertain : Z; ps_buffers_wiped : Z;
  ps_error : Z; ps_codec_error : Z; ps_store_error : Z;
  ps_captured_samples : Z; ps_committed_samples : Z; ps_next_sample : Z; ps_discarded_samples : Z;
  ps_codec_profile : Z; ps_pending_segments : Z; ps_pending_samples : Z
}.
#[export] Instance eta_rp_status : Eta rp_status := fun s =>
  RpStatus (ps_state s) (ps_mode s) (ps_reason s) (ps_segments s) (ps_segment_frames s) (ps_gaps s) (ps_lookahead s)
    (ps_session_reserved s) (ps_manifest_finalized s) (ps_commit_uncertain s) (ps_buffers_wiped s) (ps_error s)
    (ps_codec_error s) (ps_store_error s) (ps_captured_samples s) (ps_committed_samples s) (ps_next_sample s)
    (ps_discarded_samples s) (ps_codec_profile s) (ps_pending_segments s) (ps_pending_samples s).
Definition zero_rp_status : rp_status := RpStatus 0 0 0 0 0 0 0 0 0 0 0 0 0 0 0 0 0 0 0 0 0.

(** The file's statics.  [pc_async]: [async_poll] is not NULL. *)
Record pipeline := Pipeline {
  rp_active : Z; rp_initialized : Z; status : rp_status; session : es_binding; encoder_state : bytes; plaintext : bytes;
  packet : bytes; packet_count : Z; segment_flags : Z; segment_first : Z; committed_next : Z; pc_async : bool;
  pending_binding : es_binding; pending_next : Z; drain_action : Z; drain_reason : Z
}.
#[export] Instance eta_pipeline : Eta pipeline := fun p =>
  Pipeline (rp_active p) (rp_initialized p) (status p) (session p) (encoder_state p) (plaintext p) (packet p)
    (packet_count p) (segment_flags p) (segment_first p) (committed_next p) (pc_async p) (pending_binding p)
    (pending_next p) (drain_action p) (drain_reason p).
Definition no_bytes (n : Z) : bytes := fill n 0.
Definition boot_pipeline : pipeline :=
  Pipeline 0 0 zero_rp_status zero_binding (no_bytes RP_ENCODER_CAPACITY) (no_bytes RP_PLAINTEXT_CAPACITY) (no_bytes 1275)
    0 0 0 0 false zero_binding 0 0 0.
(** [flush_pcm]: never written but to wipe it. *)
Definition flush_pcm : list Z := fill RP_FRAME_SAMPLES 0.

(** libopus: each encoder call acts on the bytes of its state. *)
Inductive opus_ctl :=
  | SET_BITRATE (v : Z) | SET_COMPLEXITY (v : Z) | SET_VBR (v : Z) | SET_DTX (v : Z) | SIGNAL_VOICE
  | SET_INBAND_FEC (v : Z) | SET_PACKET_LOSS_PERC (v : Z).
Record opus_codec := {
  oc_parser : opus_parser;
  oc_version : option string;
  oc_size : Z;
  oc_init : Z -> bytes -> Z * bytes;
  oc_ctl : opus_ctl -> bytes -> Z * bytes;
  (** The code and the delay it wrote, if it did. *)
  oc_lookahead : bytes -> Z * option Z * bytes;
  (** The length or a code, the packet bytes written, the state. *)
  oc_encode : bytes -> list Z -> Z * bytes * bytes
}.
Definition OPUS_OK : Z := 0.
Definition OPUS_APPLICATION_VOIP : Z := 2048.
Definition OPUS_APPLICATION_RESTRICTED_LOWDELAY : Z := 2051.

Record rp_sink (W : Type) := {
  sk_reserve : es_binding -> W -> Z * W;
  sk_seal_commit : es_binding -> bytes -> Z -> W -> (Z * rp_segment_receipt) * W;
  sk_finalize : rp_completion -> W -> (Z * rp_final_receipt) * W;
  sk_poll : es_binding -> W -> (Z * rp_segment_receipt) * W
}.
Arguments sk_reserve {W} _ _ _.
Arguments sk_seal_commit {W} _ _ _ _ _.
Arguments sk_finalize {W} _ _ _.
Arguments sk_poll {W} _ _ _.

Definition status_upd (f : rp_status -> rp_status) (c : pipeline) : pipeline := c <| status ::= f |>.
Definition clear_scratch (c : pipeline) : pipeline :=
  c <| encoder_state := no_bytes RP_ENCODER_CAPACITY |> <| plaintext := no_bytes RP_PLAINTEXT_CAPACITY |>
    <| packet := no_bytes 1275 |> <| packet_count := 0 |>
    <| status ::= fun s => s <| ps_buffers_wiped := 1 |> <| ps_segment_frames := 0 |> |>.
Definition complete_state (s : rp_status) : bool :=
  (ps_state s =? RP_STOPPED) || (ps_state s =? RP_FULL) || (ps_state s =? RP_OVERFLOW) || (ps_state s =? RP_LOW_POWER).
Definition can_start (s : rp_status) : bool :=
  (ps_pending_segments s =? 0) &&
  ((ps_state s =? RP_IDLE) || (complete_state s && (negb (ps_manifest_finalized s =? 0) || (ps_session_reserved s =? 0)))).
Definition same_identity (a b : es_binding) : bool :=
  same_bytes (eb_key_fingerprint a) (eb_key_fingerprint b) && same_bytes (eb_device_id a) (eb_device_id b) &&
  same_bytes (eb_volume_id a) (eb_volume_id b) && same_bytes (eb_recording_id a) (eb_recording_id b) &&
  (eb_generation a =? eb_generation b) && (eb_segment_sequence a =? eb_segment_sequence b) &&
  (eb_plaintext_bytes a =? eb_plaintext_bytes b).
Definition same_completion (a b : rp_completion) : bool :=
  same_identity (pc_session a) (pc_session b) && (pc_mode a =? pc_mode b) && (pc_reason a =? pc_reason b) &&
  (pc_segments a =? pc_segments b) && (pc_gaps a =? pc_gaps b) && (pc_captured_samples a =? pc_captured_samples b) &&
  (pc_committed_samples a =? pc_committed_samples b) && (pc_next_sample a =? pc_next_sample b).
(** [zero(&receipt, sizeof(receipt))] *)
Definition receipt_zero (r : rp_segment_receipt) : bool := (sr_durable r =? 0) && all (sr_es_header r) 0.
(** [receipt.durable == 1 && !es_header_validate(receipt.es_header, …, binding)] *)
Definition receipt_durable (r : rp_segment_receipt) (b : es_binding) : bool :=
  (sr_durable r =? 1) &&
  match es_header_validate (Some (Obj 0 (sr_es_header r))) ES_HEADER_BYTES (Some (Obj 256 b)) with
  | ES_OK => true
  | _ => false
  end.

Section Pipeline.
Context {W : Type} (opus : opus_codec) (sink : rp_sink W).
Definition P : Type := pipeline * W.
Definition status_set (f : rp_status -> rp_status) : M P unit := change (status_upd f).
Definition clear : M P unit := change clear_scratch.

(** [rc = lock(); if (rc) return rc;] a body, [return unlock(rc)]: a call made
    while another is in a callback is refused. *)
Definition locked (body : M P Z) : M P Z :=
  own (fun c =>
    if negb (rp_active c =? 0) then ret RP_BUSY else
    run change (fun c => c <| rp_active := 1 |>);
    do rc <- body;
    run change (fun c => c <| rp_active := 0 |>); ret rc).

Definition fault (rc reason : Z) : M P Z :=
  run status_set (fun s =>
    s <| ps_commit_uncertain := if ps_pending_segments s =? 0 then ps_commit_uncertain s else 1 |>
      <| ps_discarded_samples := u64 (ps_discarded_samples s + ps_segment_frames s * RP_FRAME_SAMPLES) |>
      <| ps_error := rc |> <| ps_reason := reason |> <| ps_state := RP_FAULT |>);
  run clear; ret rc.

Definition CODEC (f : bytes -> Z * bytes) (k : M P Z) : M P Z :=
  own (fun c =>
    let '(rc, e) := f (encoder_state c) in
    run change (fun c => c <| encoder_state := e |>);
    run status_set (fun s => s <| ps_codec_error := rc |>);
    if negb (rc =? OPUS_OK) then fault RP_CODEC_ERROR RP_REASON_CODEC else k).
Definition codec_init : M P Z :=
  run clear;
  run status_set (fun s => s <| ps_buffers_wiped := 0 |>);
  own (fun c =>
    let profile := ps_codec_profile (status c) in
    if negb (match oc_version opus with Some v => String.eqb v "libopus 1.6.1-fixed" | None => false end)
    then fault RP_CODEC_ERROR RP_REASON_CODEC else
    if (oc_size opus <=? 0) || (RP_ENCODER_CAPACITY <? oc_size opus) then fault RP_CODEC_ERROR RP_REASON_CODEC else
    if negb (profile =? RP_PROFILE_LEGACY_VOIP) && negb (profile =? RP_PROFILE_CELT_LOW_DELAY)
    then fault RP_CODEC_ERROR RP_REASON_CODEC else
    let application := if profile =? RP_PROFILE_CELT_LOW_DELAY then OPUS_APPLICATION_RESTRICTED_LOWDELAY
                       else OPUS_APPLICATION_VOIP in
    CODEC (oc_init opus application) (
    CODEC (oc_ctl opus (SET_BITRATE 24000)) (
    CODEC (oc_ctl opus (SET_COMPLEXITY 3)) (
    CODEC (oc_ctl opus (SET_VBR 0)) (
    CODEC (oc_ctl opus (SET_DTX 0)) (
    CODEC (oc_ctl opus SIGNAL_VOICE) (
    CODEC (oc_ctl opus (SET_INBAND_FEC 0)) (
    CODEC (oc_ctl opus (SET_PACKET_LOSS_PERC 0)) (
    own (fun c =>
      let '(rc, written, e) := oc_lookahead opus (encoder_state c) in
      let delay := match written with Some d => d | None => -1 end in
      CODEC (fun _ => (rc, e)) (
      if negb (delay =? (if profile =? RP_PROFILE_CELT_LOW_DELAY then 40 else 104))
      then fault RP_CODEC_ERROR RP_REASON_CODEC else
      run status_set (fun s => s <| ps_lookahead := delay |>);
      run change (fun c =>
        let s := status c in
        c <| segment_first := ps_next_sample s |>
          <| segment_flags :=
               if ps_next_sample s =? (if ps_pending_segments s =? 0 then committed_next c else pending_next c) then 1 else 3 |>);
      ret RP_OK))))))))))).

Definition record_at (count : Z) : Z := RP_HEADER_BYTES + count * RP_RECORD_BYTES.
Definition encode (pcm : list Z) (flushing : bool) : M P Z :=
  own (fun c =>
    if RP_SEGMENT_FRAMES + 1 <=? packet_count c then fault RP_LIMIT RP_REASON_LIMIT else
    let '(n, out, e) := oc_encode opus (encoder_state c) pcm in
    let p := slice 0 1275 (map u8 out ++ no_bytes 1275) in
    run change (fun c => c <| encoder_state := e |> <| packet := p |>);
    run status_set (fun s => s <| ps_codec_error := if n <? 0 then n else 0 |>);
    if negb (n =? RP_PACKET_BYTES) || negb (valid_packet (oc_parser opus) (slice 0 RP_PACKET_BYTES p) (ps_codec_profile (status c)))
    then fault RP_CODEC_ERROR RP_REASON_CODEC else
    run change (fun c =>
      let record := record_at (packet_count c) in
      c <| plaintext ::= blits [put16 record RP_PACKET_BYTES; put16 (record + 2) (if flushing then 1 else 0);
             put32 (record + 4) (packet_count c); (record + 8, slice 0 RP_PACKET_BYTES p)] |>
        <| packet_count ::= fun n => u32 (n + 1) |> <| packet := no_bytes 1275 |>);
    ret RP_OK).

Definition poll_pending : M P Z :=
  own (fun c =>
    if ps_pending_segments (status c) =? 0 then ret RP_OK else
    if negb (pc_async c) || negb (ps_pending_segments (status c) =? 1) || (ps_pending_samples (status c) =? 0)
    then fault RP_RECEIPT_ERROR RP_REASON_RECEIPT else
    do r <- call (sk_poll sink (pending_binding c));
    let '(rc, receipt) := r in
    run status_set (fun s => s <| ps_store_error := rc |>);
    own (fun c =>
    if (rc =? RP_IO_PENDING) && receipt_zero receipt then ret RP_PENDING else
    if negb (rc =? RP_IO_OK) then fault RP_STORE_ERROR RP_REASON_STORE else
    if negb (receipt_durable receipt (pending_binding c)) then fault RP_RECEIPT_ERROR RP_REASON_RECEIPT else
    if (INT32_MAX <=? ps_segments (status c)) ||
       (UINT64_MAX - ps_pending_samples (status c) <? ps_committed_samples (status c)) then fault RP_LIMIT RP_REASON_LIMIT else
    run status_set (fun s =>
      s <| ps_segments := u32 (ps_segments s + 1) |>
        <| ps_committed_samples := u64 (ps_committed_samples s + ps_pending_samples s) |>
        <| ps_pending_segments := 0 |> <| ps_pending_samples := 0 |>);
    run change (fun c => c <| committed_next := pending_next c |> <| pending_next := 0 |> <| pending_binding := zero_binding |>);
    ret RP_OK)).

(** The 80 header bytes of the segment under way. *)
Definition header_fields (c : pipeline) : list field :=
  let s := status c in
  [(0, rp_magic); put16 8 1; put16 10 80; put32 12 16000; put16 16 1; put16 18 320; put32 20 24000; put32 24 3;
   put32 28 (segment_flags c); put64 32 (segment_first c); put64 40 (ps_next_sample s); put32 48 (ps_segment_frames s);
   put32 52 (packet_count c); put32 56 (ps_lookahead s); put32 60 (if ps_lookahead s =? 0 then 0 else 320 - ps_lookahead s);
   put32 64 (packet_count c * RP_RECORD_BYTES); put32 68 (ps_segment_frames s * 320); put32 72 (ps_codec_profile s); put32 76 0].
Definition segment_binding (c : pipeline) (size : Z) : es_binding :=
  let b := session c in
  EsBinding (eb_key_fingerprint b) (eb_device_id b) (eb_volume_id b) (eb_recording_id b) (eb_generation b)
    (ps_segments (status c)) (u32 size).
(** What the sink's answer to a submission leads to. *)
Definition submitted (binding : es_binding) (rc : Z) (receipt : rp_segment_receipt) : M P Z :=
  own (fun c =>
  if pc_async c && (rc =? RP_IO_PENDING) && receipt_zero receipt then
    run change (fun c => c <| pending_binding := binding |> <| pending_next := ps_next_sample (status c) |>);
    run status_set (fun s => s <| ps_pending_segments := 1 |> <| ps_pending_samples := ps_segment_frames s * 320 |>);
    run clear; ret RP_OK
  else if (rc =? RP_IO_FULL) && receipt_zero receipt then
    run status_set (fun s => s <| ps_discarded_samples := u64 (ps_discarded_samples s + ps_segment_frames s * 320) |>);
    run clear; ret RP_STORAGE_FULL
  else if negb (rc =? RP_IO_OK) then
    run status_set (fun s => s <| ps_commit_uncertain := if negb (rc =? RP_IO_FULL) && negb (rc =? RP_IO_FAILED) then 1 else 0 |>);
    fault RP_STORE_ERROR RP_REASON_STORE
  else if negb (receipt_durable receipt binding) then
    run status_set (fun s => s <| ps_commit_uncertain := 1 |>);
    fault RP_RECEIPT_ERROR RP_REASON_RECEIPT
  else
    run status_set (fun s =>
      s <| ps_segments := u32 (ps_segments s + 1) |>
        <| ps_committed_samples := u64 (ps_committed_samples s + ps_segment_frames s * 320) |>);
    run change (fun c => c <| committed_next := ps_next_sample (status c) |>);
    run clear; ret RP_OK).
Definition submit : M P Z :=
  own (fun c =>
  let p := blits (header_fields c) (plaintext c) in
  let size := RP_HEADER_BYTES + packet_count c * RP_RECORD_BYTES in
  run change (fun c => c <| plaintext := p |>);
  if negb (rp_segment_validate (oc_parser opus) (Some p) size =? 0) then fault RP_CODEC_ERROR RP_REASON_CODEC else
  let binding := segment_binding c size in
  run status_set (fun s => s <| ps_state := RP_FINALIZING |>);
  do r <- call (sk_seal_commit sink binding (slice 0 size p) size);
  run status_set (fun s => s <| ps_store_error := fst r |>);
  submitted binding (fst r) (snd r)).
Definition seal : M P Z :=
  own (fun c =>
  if ps_segment_frames (status c) =? 0 then ret RP_OK else
  do polled <- poll_pending;
  if polled <? 0 then ret polled else
  if polled =? RP_PENDING then fault RP_STORE_ERROR RP_REASON_STORE else
  own (fun c =>
  if INT32_MAX <=? ps_segments (status c) then fault RP_LIMIT RP_REASON_LIMIT else
  try (if ps_lookahead (status c) =? 0 then ret RP_OK else encode flush_pcm true);
  submit)).

Definition completion_of (c : pipeline) (reason : Z) : rp_completion :=
  let s := status c in
  Completion (session c) (ps_mode s) reason (ps_segments s) (ps_gaps s) (ps_captured_samples s) (ps_committed_samples s)
    (ps_next_sample s).
Definition drain (action reason : Z) : M P Z :=
  run change (fun c => c <| drain_action := action |> <| drain_reason := reason |>);
  run status_set (fun s => s <| ps_state := RP_DRAINING |>); ret RP_PENDING.
Definition finalize (reason : Z) : M P Z :=
  run status_set (fun s => s <| ps_state := RP_FINALIZING |> <| ps_reason := reason |>);
  own (fun c =>
  let completion := completion_of c reason in
  do r <- call (sk_finalize sink completion);
  let '(rc, receipt) := r in
  run status_set (fun s => s <| ps_store_error := rc |>);
  if negb (rc =? RP_IO_OK) then
    run status_set (fun s => s <| ps_commit_uncertain := if negb (rc =? RP_IO_FAILED) && negb (rc =? RP_IO_FULL) then 1 else 0 |>);
    fault RP_STORE_ERROR RP_REASON_STORE
  else if negb (fr_durable receipt =? 1) || negb (same_completion (fr_completion receipt) completion) then
    run status_set (fun s => s <| ps_commit_uncertain := 1 |>);
    fault RP_RECEIPT_ERROR RP_REASON_RECEIPT
  else
    run status_set (fun s => s <| ps_manifest_finalized := 1 |>);
    run clear;
    let error := if reason =? RP_REASON_FULL then RP_STORAGE_FULL else 0 in
    run status_set (fun s =>
      s <| ps_reason := reason |>
        <| ps_state := if reason =? RP_REASON_FULL then RP_FULL else if reason =? RP_REASON_OVERFLOW then RP_OVERFLOW
                       else if reason =? RP_REASON_LOW_POWER then RP_LOW_POWER else RP_STOPPED |>
        <| ps_error := error |>);
    ret error).
Definition finish (reason : Z) : M P Z :=
  own (fun c =>
  if negb (ps_pending_segments (status c) =? 0) then drain 2 reason else
  do rc <- seal;
  if negb (rc =? RP_STORAGE_FULL) && negb (rc =? 0) then ret rc else
  let reason := if rc =? RP_STORAGE_FULL then RP_REASON_FULL else reason in
  own (fun c => if negb (ps_pending_segments (status c) =? 0) then drain 2 reason else finalize reason)).
Definition pause_drain : M P Z :=
  run change (fun c => c <| drain_action := 1 |>);
  run status_set (fun s => s <| ps_state := RP_DRAINING |>); ret RP_PENDING.
Definition pause_finish : M P Z :=
  own (fun c =>
  if negb (ps_pending_segments (status c) =? 0) then pause_drain else
  do rc <- seal;
  if rc =? RP_STORAGE_FULL then finish RP_REASON_FULL else
  if negb (rc =? 0) then ret rc else
  own (fun c =>
    if negb (ps_pending_segments (status c) =? 0) then pause_drain else
    run change (fun c => c <| drain_action := 0 |>);
    run clear;
    run status_set (fun s => s <| ps_state := RP_PAUSED |>); ret RP_OK)).

(** ** The calls *)
Definition initial_status (mode profile : Z) : rp_status :=
  RpStatus RP_IDLE mode 0 0 0 0 0 0 0 0 0 0 0 0 0 0 0 0 profile 0 0.
(** The statics [init_core] writes before it wipes the buffers. *)
Definition initial_core (mode profile : Z) (poll : bool) (c : pipeline) : pipeline :=
  Pipeline (rp_active c) 1 (initial_status mode profile) (session c) (encoder_state c) (plaintext c) (packet c)
    (packet_count c) (segment_flags c) (segment_first c) (committed_next c) poll zero_binding 0 0 0.
(** [callbacks]: every callback of the sink is present. *)
Definition init_core (callbacks : bool) (mode stack profile : Z) (poll : bool) : M P Z :=
  if negb callbacks || (negb (mode =? RP_MANUAL) && negb (mode =? RP_CONTINUOUS)) || (stack <? RP_WORKER_STACK_MIN) ||
     (negb (profile =? RP_PROFILE_LEGACY_VOIP) && negb (profile =? RP_PROFILE_CELT_LOW_DELAY)) then ret RP_ARGUMENT else
  locked (own (fun c =>
    if negb (rp_initialized c =? 0) then ret RP_STATE else
    run change (initial_core mode profile poll); run clear; ret RP_OK)).
Definition rp_init_profile (callbacks : bool) (mode stack profile : Z) : M P Z := init_core callbacks mode stack profile false.
Definition rp_init (callbacks : bool) (mode stack : Z) : M P Z := rp_init_profile callbacks mode stack RP_PROFILE_LEGACY_VOIP.
(** [poll]: the structure is there with its poll callback. *)
Definition rp_init_async_profile (poll callbacks : bool) (mode stack profile : Z) : M P Z :=
  if negb poll then ret RP_ARGUMENT else init_core callbacks mode stack profile true.

Definition rp_poll : M P Z :=
  locked (own (fun c =>
    let state := ps_state (status c) in
    if negb (pc_async c) || (negb (state =? RP_RECORDING) && negb (state =? RP_DRAINING) && negb (state =? RP_PAUSED))
    then ret RP_STATE else
    try poll_pending;
    own (fun c =>
      if ps_state (status c) =? RP_DRAINING then
        if drain_action c =? 1 then pause_finish
        else if drain_action c =? 2 then run change (fun c => c <| drain_action := 0 |>); finish (drain_reason c)
        else fault RP_STATE RP_REASON_EXTERNAL
      else ret RP_OK))).
Definition rp_get_status (out : bool) : M P (Z * option rp_status) :=
  if negb out then ret (RP_ARGUMENT, None) else
  own (fun c => if negb (rp_active c =? 0) then ret (RP_BUSY, None) else ret (RP_OK, Some (status c))).
Definition rp_select_mode (mode : Z) : M P Z :=
  if negb (mode =? RP_MANUAL) && negb (mode =? RP_CONTINUOUS) then ret RP_ARGUMENT else
  locked (own (fun c =>
    if negb (can_start (status c)) then ret RP_STATE else run status_set (fun s => s <| ps_mode := mode |>); ret RP_OK)).
Definition started_status (s : rp_status) (first : Z) : rp_status :=
  RpStatus 0 (ps_mode s) 0 0 0 0 0 0 0 0 0 0 0 0 0 0 first 0 (ps_codec_profile s) 0 0.
(** [rp_start] past the checks of its arguments. *)
Definition start_session (b : es_binding) (first : Z) : M P Z :=
  own (fun c =>
  if negb (can_start (status c)) then ret RP_STATE else
  if negb (ps_session_reserved (status c) =? 0) && same_identity b (session c) then ret RP_ARGUMENT else
  run change (fun c =>
    c <| status ::= fun s => started_status s first |> <| session := b |> <| committed_next := first |>
      <| drain_action := 0 |> <| drain_reason := 0 |>);
  run status_set (fun s => s <| ps_state := RP_FINALIZING |>);
  do rc <- call (sk_reserve sink b);
  run status_set (fun s => s <| ps_store_error := rc |>);
  if rc =? RP_IO_FULL then
    run status_set (fun s => s <| ps_state := RP_FULL |> <| ps_reason := RP_REASON_FULL |> <| ps_error := RP_STORAGE_FULL |>);
    run clear; ret RP_STORAGE_FULL
  else if negb (rc =? RP_IO_OK) then
    run status_set (fun s => s <| ps_commit_uncertain := if negb (rc =? RP_IO_FAILED) then 1 else 0 |>);
    fault RP_STORE_ERROR RP_REASON_STORE
  else
    run status_set (fun s => s <| ps_session_reserved := 1 |>);
    try codec_init;
    run status_set (fun s => s <| ps_state := RP_RECORDING |>); ret RP_OK).
Definition start_binding_ok (b : es_binding) (first : Z) : bool :=
  negb (negb (eb_segment_sequence b =? 0) || negb (eb_plaintext_bytes b =? 0) || (UINT64_MAX - 320 <? first)) &&
  match es_build_local (EsBinding (eb_key_fingerprint b) (eb_device_id b) (eb_volume_id b) (eb_recording_id b) (eb_generation b)
          (eb_segment_sequence b) 1) (no_bytes ES_HEADER_BYTES) with
  | Some _ => true
  | None => false
  end.
Definition rp_start (identity : option es_binding) (first : Z) : M P Z :=
  match identity with
  | None => ret RP_ARGUMENT
  | Some b => if negb (start_binding_ok b first) then ret RP_ARGUMENT else locked (start_session b first)
  end.
Definition rp_push_frame (first : Z) (pcm : ptr (list Z)) : M P Z :=
  match pcm with
  | None => ret RP_ARGUMENT
  | Some po =>
      if UINTPTR_MAX - RP_FRAME_SAMPLES * 2 <? addr po then ret RP_ARGUMENT else
      locked (own (fun c =>
        if negb (ps_state (status c) =? RP_RECORDING) then ret RP_STATE else
        do rc <- poll_pending;
        if rc <? 0 then ret rc else
        own (fun c =>
        if negb (first =? ps_next_sample (status c)) then fault RP_CONTINUITY_ERROR RP_REASON_CONTINUITY else
        if (UINT64_MAX - 320 <? first) || (UINT64_MAX - 320 <? ps_captured_samples (status c)) then fault RP_LIMIT RP_REASON_LIMIT else
        try encode (deref po) false;
        run status_set (fun s =>
          s <| ps_segment_frames := u32 (ps_segment_frames s + 1) |> <| ps_next_sample := u64 (ps_next_sample s + 320) |>
            <| ps_captured_samples := u64 (ps_captured_samples s + 320) |>);
        own (fun c =>
          if ps_segment_frames (status c) =? RP_SEGMENT_FRAMES then
            do rc <- seal;
            if rc =? RP_STORAGE_FULL then finish RP_REASON_FULL else
            if negb (rc =? 0) then ret rc else
            try codec_init;
            run status_set (fun s => s <| ps_state := RP_RECORDING |>); ret RP_OK
          else ret RP_OK))))
  end.
Definition rp_pause : M P Z :=
  locked (own (fun c => if negb (ps_state (status c) =? RP_RECORDING) then ret RP_STATE else pause_finish)).
Definition rp_resume (next : Z) : M P Z :=
  locked (own (fun c =>
    if negb (ps_state (status c) =? RP_PAUSED) then ret RP_STATE else
    if (next <? ps_next_sample (status c)) || (UINT64_MAX - 320 <? next) then ret RP_ARGUMENT else
    let gap := negb (next =? ps_next_sample (status c)) in
    if gap && (ps_gaps (status c) =? UINT32_MAX) then fault RP_LIMIT RP_REASON_LIMIT else
    run status_set (fun s => s <| ps_next_sample := next |>);
    try codec_init;
    run change (fun c =>
      if gap then c <| status ::= fun s => s <| ps_gaps := u32 (ps_gaps s + 1) |> |> <| segment_flags ::= fun f => Z.lor f 2 |> else c);
    run status_set (fun s => s <| ps_state := RP_RECORDING |>); ret RP_OK)).
Definition rp_end (reason : Z) : M P Z :=
  if negb (reason =? RP_REASON_USER) && negb (reason =? RP_REASON_FULL) && negb (reason =? RP_REASON_OVERFLOW) &&
     negb (reason =? RP_REASON_LOW_POWER) then ret RP_ARGUMENT else
  locked (own (fun c =>
    let state := ps_state (status c) in
    if (state =? RP_DRAINING) && (drain_action c =? 1) then
      run change (fun c => c <| drain_action := 2 |> <| drain_reason := reason |>); ret RP_PENDING
    else if negb (state =? RP_RECORDING) && negb (state =? RP_PAUSED) then ret RP_STATE
    else finish reason)).
Definition rp_external_fault : M P Z :=
  locked (own (fun c =>
    let state := ps_state (status c) in
    if negb (state =? RP_RECORDING) && negb (state =? RP_PAUSED) && negb (state =? RP_DRAINING) then ret RP_STATE
    else fault RP_EXTERNAL_ERROR RP_REASON_EXTERNAL)).
End Pipeline.
