(* ===== verification/PipelineSafety.v ===== *)
(** The recording pipeline, proved: it keeps the sink's contract whatever Opus
    and the sink answer, and every captured sample is accounted for once. *)
From Stdlib Require Import String.
From S2P Require Import Prelude SegmentHeader RecordTypes PlainSegment Wp RecordingPipeline.

(** * The log of sink calls *)
Inductive sink_event :=
  | EvReserve (b : es_binding) (rc : Z)
  | EvSeal (b : es_binding) (plain : bytes) (n rc : Z) (receipt : rp_segment_receipt)
  | EvPoll (b : es_binding) (rc : Z) (receipt : rp_segment_receipt)
  | EvFinalize (f : rp_completion) (rc : Z) (receipt : rp_final_receipt).
Definition logged {W} (sink : rp_sink W) : rp_sink (list sink_event * W) := {|
  sk_reserve := fun b '(t, w) => let '(rc, w) := sk_reserve sink b w in (rc, (t ++ [EvReserve b rc], w));
  sk_seal_commit := fun b p n '(t, w) =>
    let '(rc, r, w) := sk_seal_commit sink b p n w in (rc, r, (t ++ [EvSeal b p n rc r], w));
  sk_finalize := fun f '(t, w) => let '(rc, r, w) := sk_finalize sink f w in (rc, r, (t ++ [EvFinalize f rc r], w));
  sk_poll := fun b '(t, w) => let '(rc, r, w) := sk_poll sink b w in (rc, r, (t ++ [EvPoll b rc r], w))
|}.

(** * The sink's contract *)
#[export] Instance es_binding_eq_dec : EqDecision es_binding.
Proof. solve_decision. Defined.
(** A reading of the log alone: the recording that is open, how many of its
    segments are durable and how many samples they hold, the submission that is
    still pending, whether the sink is full, and whether anything went wrong. *)
Record ledger := Ledger {
  le_session : option es_binding; le_count : Z; le_samples : Z; le_pending : option (es_binding * Z);
  le_full : bool; le_dead : bool
}.
Definition closed : ledger := Ledger None 0 0 None false false.
Definition dead : ledger := Ledger None 0 0 None false true.
(** The binding of segment [k] of a recording. *)
Definition numbered (b : es_binding) (k n : Z) : es_binding :=
  EsBinding (eb_key_fingerprint b) (eb_device_id b) (eb_volume_id b) (eb_recording_id b) (eb_generation b) k n.
(** One call, if the contract allows it: a recording is reserved when none is
    open; segments are submitted one at a time, numbered from zero without a
    hole, never again once submitted, each a valid plaintext segment; the pending
    one is the one polled; the recording is finalized with nothing pending, and
    its completion counts the durable segments and their samples.  Nothing is
    called after an unexpected answer, nor submitted to a full sink. *)
Definition post (parser : opus_parser) (async : bool) (l : ledger) (e : sink_event) : option ledger :=
  if le_dead l then None else
  match e, le_session l with
  | EvReserve b rc, None => Some (if rc =? RP_IO_OK then Ledger (Some b) 0 0 None false false else if rc =? RP_IO_FULL then closed else dead)
  | EvSeal b p n rc r, Some s =>
      match le_pending l with
      | Some _ => None
      | None =>
          if le_full l || negb (bool_decide (b = numbered s (le_count l) n)) || negb (rp_segment_validate parser (Some p) n =? RP_OK)
          then None else
          let samples := 320 * get32 48 p in
          if async && (rc =? RP_IO_PENDING) && receipt_zero r then Some (Ledger (Some s) (le_count l) (le_samples l) (Some (b, samples)) false false)
          else if (rc =? RP_IO_FULL) && receipt_zero r then Some (Ledger (Some s) (le_count l) (le_samples l) None true false)
          else if (rc =? RP_IO_OK) && receipt_durable r b then Some (Ledger (Some s) (le_count l + 1) (le_samples l + samples) None false false)
          else Some dead
      end
  | EvPoll b rc r, Some s =>
      match le_pending l with
      | Some (b', samples) =>
          if negb (bool_decide (b = b')) then None else
          if (rc =? RP_IO_PENDING) && receipt_zero r then Some l
          else if (rc =? RP_IO_OK) && receipt_durable r b then Some (Ledger (Some s) (le_count l + 1) (le_samples l + samples) None (le_full l) false)
          else Some dead
      | None => None
      end
  | EvFinalize f rc r, Some s =>
      match le_pending l with
      | Some _ => None
      | None =>
          if negb (bool_decide (pc_session f = s)) || negb (pc_segments f =? le_count l) || negb (pc_committed_samples f =? le_samples l)
          then None else
          Some (if (rc =? RP_IO_OK) && (fr_durable r =? 1) && same_completion (fr_completion r) f then closed else dead)
      end
  | _, _ => None
  end.
Fixpoint ledger_of (parser : opus_parser) (async : bool) (l : ledger) (t : list sink_event) : option ledger :=
  match t with
  | [] => Some l
  | e :: t => match post parser async l e with Some l => ledger_of parser async l t | None => None end
  end.

Lemma ledger_snoc parser async l t e : ledger_of parser async l (t ++ [e]) =
  match ledger_of parser async l t with Some l => post parser async l e | None => None end.
Proof.
  revert l. induction t as [|x t IH]; intros l; cbn; [by destruct (post _ _ l e)|]. destruct (post _ _ l x); [apply IH|done].
Qed.

(** * What a submission holds *)
(** Validation reads only the segment's own bytes. *)
Lemma rp_segment_validate_slice parser p n : zlen p = RP_PLAINTEXT_CAPACITY ->
  rp_segment_validate parser (Some p) n = RP_OK -> rp_segment_validate parser (Some (slice 0 n p)) n = RP_OK.
Proof.
  intros Hl. unfold rp_segment_validate. destruct (_ || _) eqn:E; [done|]. unfold RP_HEADER_BYTES in E.
  apply orb_false_iff in E as [E1%Z.ltb_ge E2%Z.ltb_ge]. destruct (_ && _) eqn:Hv; [|done]. intros _.
  apply andb_true_iff in Hv as [Hh Hp].
  assert (Hs : forall o k, 0 <= o -> 0 <= k -> o + k <= n -> slice o k (slice 0 n p) = slice o k p)
    by (intros; by rewrite slice_slice by lia).
  assert (H32 : forall o, 0 <= o -> o + 4 <= n -> get32 o (slice 0 n p) = get32 o p) by (intros; unfold get32; by rewrite Hs by lia).
  assert (H16 : forall o, 0 <= o -> o + 2 <= n -> get16 o (slice 0 n p) = get16 o p) by (intros; unfold get16; by rewrite Hs by lia).
  assert (H64 : forall o, 0 <= o -> o + 8 <= n -> get64 o (slice 0 n p) = get64 o p) by (intros; unfold get64; by rewrite Hs by lia).
  assert (Hh' : segment_header_valid (slice 0 n p) n = true).
  { unfold segment_header_valid in *. by rewrite !H32, !H16, !H64, Hs by lia. }
  assert (Hn : n = RP_HEADER_BYTES + get32 52 p * RP_RECORD_BYTES).
  { unfold segment_header_valid in Hh. rewrite negb_true_iff, !orb_false_iff, !negb_false_iff, !Z.eqb_eq in Hh. tauto. }
  unfold RP_HEADER_BYTES, RP_RECORD_BYTES, RP_PACKET_BYTES in Hn.
  assert (Hp' : forallb (packet_valid parser (slice 0 n p)) (zseq (get32 52 (slice 0 n p))) = true).
  { rewrite H32 by lia. rewrite forallb_forall in Hp |- *. intros i Hi. specialize (Hp i Hi).
    apply list_elem_of_In, elem_of_seqZ in Hi. unfold packet_valid in *. unfold RP_HEADER_BYTES, RP_RECORD_BYTES, RP_PACKET_BYTES in *.
    by rewrite !H32, !H16, Hs by lia. }
  by rewrite Hh', Hp'.
Qed.

Lemma validate_size parser p n : rp_segment_validate parser (Some p) n = RP_OK -> 80 <= n <= 34148.
Proof.
  unfold rp_segment_validate. change RP_PLAINTEXT_CAPACITY with 34148. unfold RP_HEADER_BYTES.
  destruct (Z.ltb_spec n 80); [done|]. destruct (Z.ltb_spec 34148 n); [done|]. lia.
Qed.

(** The frames a submission states. *)
Lemma header_frames c n : zlen (plaintext c) = RP_PLAINTEXT_CAPACITY -> 80 <= n <= 34148 -> 0 <= ps_segment_frames (status c) < 2 ^ 32 ->
  get32 48 (slice 0 n (blits (header_fields c) (plaintext c))) = ps_segment_frames (status c).
Proof.
  intros Hl Hn Hf. unfold get32 at 1. rewrite slice_slice by lia. change (0 + 48) with 48. fold (get32 48 (blits (header_fields c) (plaintext c))).
  by apply (get32_blits _ _ (shape_of (header_fields c)) RP_PLAINTEXT_CAPACITY eq_refl Hl eq_refl 48 11%nat).
Qed.

(** Every call a client can make. *)
Inductive rp_op :=
  | OpInit (poll callbacks : bool) (mode stack profile : Z)
  | OpPoll | OpSelectMode (mode : Z) | OpStart (b : option es_binding) (first : Z) | OpPush (first : Z) (pcm : ptr (list Z))
  | OpPause | OpResume (next : Z) | OpEnd (reason : Z) | OpExternalFault.
Definition run_op {W} (opus : opus_codec) (sink : rp_sink W) (o : rp_op) : M (pipeline * W) Z :=
  match o with
  | OpInit poll cb m s p => init_core cb m s p poll
  | OpPoll => rp_poll opus sink
  | OpSelectMode m => rp_select_mode m
  | OpStart b first => rp_start opus sink b first
  | OpPush first pcm => rp_push_frame opus sink first pcm
  | OpPause => rp_pause opus sink
  | OpResume next => rp_resume opus next
  | OpEnd reason => rp_end opus sink reason
  | OpExternalFault => rp_external_fault
  end.
Fixpoint run_ops {W} (opus : opus_codec) (sink : rp_sink W) (os : list rp_op) : M (pipeline * W) unit :=
  match os with
  | [] => ret tt
  | o :: os => run run_op opus sink o; run_ops opus sink os
  end.

(** * The invariant *)
(** What the books are kept in. *)
Definition books (c : pipeline) :=
  let s := status c in
  (rp_initialized c, pc_async c, session c, pending_binding c,
   (ps_segments s, ps_committed_samples s, ps_pending_segments s, ps_pending_samples s, ps_discarded_samples s,
    ps_segment_frames s, ps_captured_samples s)).
Definition ledger_at (c : pipeline) (full : bool) : ledger :=
  let s := status c in
  Ledger (Some (session c)) (ps_segments s) (ps_committed_samples s)
    (if ps_pending_segments s =? 0 then None else Some (pending_binding c, ps_pending_samples s)) full false.
Record accounted (c : pipeline) : Prop := {
  ac_init : rp_initialized c = 1;
  ac_captured : ps_captured_samples (status c) = ps_committed_samples (status c) + ps_pending_samples (status c) +
    ps_discarded_samples (status c) + 320 * ps_segment_frames (status c);
  ac_bound : ps_captured_samples (status c) <= UINT64_MAX;
  ac_committed : 0 <= ps_committed_samples (status c);
  ac_discarded : 0 <= ps_discarded_samples (status c);
  ac_frames : 0 <= ps_segment_frames (status c) <= RP_SEGMENT_FRAMES;
  ac_segments : 0 <= ps_segments (status c) <= INT32_MAX;
  ac_pending : ps_pending_segments (status c) = 0 /\ ps_pending_samples (status c) = 0 \/
    ps_pending_segments (status c) = 1 /\ 0 < ps_pending_samples (status c) /\ pc_async c = true /\ ps_segments (status c) < INT32_MAX
}.
Lemma accounted_same c c' : books c' = books c -> accounted c -> accounted c'.
Proof. unfold books. intros [= E1 E2 E3 E4 E5 E6 E7 E8 E9 E10 E11] []. split; rewrite ?E1, ?E2, ?E5, ?E6, ?E7, ?E8, ?E9, ?E10, ?E11; done. Qed.
Lemma ledger_at_same c c' full : books c' = books c -> ledger_at c' full = ledger_at c full.
Proof. unfold books, ledger_at. by intros [= E1 E2 -> -> -> -> -> -> E9 E10 E11]. Qed.

Section Safety.
Context {W : Type} (opus : opus_codec) (sink : rp_sink W).
Abbreviation K := (logged sink).
Implicit Types (c : pipeline) (t : list sink_event) (w : W) (full : bool).
Definition reads c t (l : ledger) : Prop := ledger_of (oc_parser opus) (pc_async c) closed t = Some l.
Definition plain_wf c : Prop := zlen (plaintext c) = RP_PLAINTEXT_CAPACITY /\ 0 <= packet_count c.
(** A recording is open and the log says what the status says of it. *)
Definition live c t full : Prop := accounted c /\ plain_wf c /\ reads c t (ledger_at c full).
(** The pipeline has faulted: the log has kept the contract to its end. *)
Definition failed c t : Prop := ps_state (status c) = RP_FAULT /\ accounted c /\ plain_wf c /\ exists l, reads c t l.
Definition resting c t : Prop :=
  failed c t \/
  (In (ps_state (status c)) [RP_RECORDING; RP_PAUSED; RP_DRAINING] /\ live c t false /\
   ps_segment_frames (status c) < RP_SEGMENT_FRAMES /\ (ps_state (status c) = RP_PAUSED -> ps_segment_frames (status c) = 0)) \/
  (In (ps_state (status c)) [RP_IDLE; RP_STOPPED; RP_FULL; RP_OVERFLOW; RP_LOW_POWER] /\ accounted c /\ plain_wf c /\
   ps_pending_segments (status c) = 0 /\ ps_segment_frames (status c) = 0 /\ reads c t closed).

Lemma live_same c c' t full : books c' = books c -> plain_wf c' -> live c t full -> live c' t full.
Proof.
  intros E Hp (Ha & _ & Hr). split_and!; [by eapply accounted_same|done|].
  unfold reads in *. rewrite (ledger_at_same c) by done. by injection E as _ -> _.
Qed.
Lemma zlen_no_bytes n : 0 <= n -> zlen (no_bytes n) = n.
Proof. apply zlen_fill. Qed.
Lemma plain_cleared c : plain_wf (clear_scratch c).
Proof. unfold plain_wf. cbn. unfold no_bytes. by rewrite zlen_fill. Qed.
Lemma plain_same c c' : plaintext c' = plaintext c -> packet_count c' = packet_count c -> plain_wf c -> plain_wf c'.
Proof. unfold plain_wf. by intros -> ->. Qed.
#[local] Opaque no_bytes.

(** Faulting gives up the frames in hand, and nothing else. *)
Lemma wp_rp_fault rc reason (Q : Z -> pipeline * (list sink_event * W) -> Prop) c t w l :
  accounted c -> reads c t l -> (forall c', failed c' t -> Q rc (c', (t, w))) -> wp (fault rc reason) Q (c, (t, w)).
Proof.
  intros Ha Hr HQ. unfold fault. apply wp_bind, wp_change, wp_bind, wp_change, wp_ret, HQ.
  split_and!; [done| |apply plain_cleared|exists l; exact Hr].
  destruct Ha. cbn in *. assert (Eu : u64 (ps_discarded_samples (status c) + ps_segment_frames (status c) * RP_FRAME_SAMPLES) =
    ps_discarded_samples (status c) + ps_segment_frames (status c) * 320).
  { unfold RP_FRAME_SAMPLES. apply u64_small. unfold UINT64_MAX in *. lia. }
  split; cbn; rewrite ?Eu; try done; lia.
Qed.

(** A run that has kept the books, the state and the buffers' shape. *)
Record kept c c' : Prop := {
  kp_books : books c' = books c; kp_state : ps_state (status c') = ps_state (status c); kp_plain : plain_wf c -> plain_wf c'
}.
Lemma kept_live c c' t full : kept c c' -> live c t full -> live c' t full.
Proof. intros [] Hl. eapply live_same; [done|apply kp_plain0, Hl|done]. Qed.
Lemma kept_trans c1 c2 c3 : kept c1 c2 -> kept c2 c3 -> kept c1 c3.
Proof. intros [] []. split; [congruence|congruence|auto]. Qed.

(** Everything that fails, fails the same way. *)
Definition fails_with (Q : Z -> pipeline * (list sink_event * W) -> Prop) t : Prop :=
  forall rc c' w, rc < 0 -> rc <> RP_STORAGE_FULL -> failed c' t -> Q rc (c', (t, w)).
Lemma wp_fault_live rc reason Q c t w full : live c t full -> rc < 0 -> rc <> RP_STORAGE_FULL -> fails_with Q t ->
  wp (fault rc reason) Q (c, (t, w)).
Proof. intros Hl Hrc Hf HQ. eapply wp_rp_fault; [apply Hl|apply Hl|]. intros c' Hc. by apply HQ. Qed.

(** The codec's own calls touch no books. *)
Lemma wp_CODEC f k Q c t w full : live c t full -> fails_with Q t ->
  (forall c', kept c c' -> live c' t full -> wp k Q (c', (t, w))) -> wp (CODEC f k) Q (c, (t, w)).
Proof.
  intros Hl Hf Hk. unfold CODEC. apply wp_own. destruct (f (encoder_state c)) as [rc e].
  apply wp_bind, wp_change, wp_bind, wp_change. name_context c1 E1.
  assert (H1 : kept c c1) by by rewrite E1; split. clear E1. pose proof (kept_live _ _ _ _ H1 Hl) as Hl1.
  wp_step; [by eapply wp_fault_live|by apply Hk].
Qed.

(** Starting the encoder needs no frames in hand, and keeps the books. *)
Lemma wp_codec_init Q c t w full : live c t full -> ps_segment_frames (status c) = 0 -> fails_with Q t ->
  (forall c', kept c c' -> live c' t full -> Q 0 (c', (t, w))) -> wp (codec_init opus) Q (c, (t, w)).
Proof.
  intros Hl H0 Hf HQ. unfold codec_init. apply wp_bind, wp_change, wp_bind, wp_change. name_context c1 E1.
  assert (H1 : kept c c1).
  { rewrite E1. split; [unfold books; cbn; by rewrite H0|done|intros _; apply plain_cleared]. }
  clear E1. pose proof (kept_live _ _ _ _ H1 Hl) as Hl1. apply wp_own. cbv zeta.
  wp_step; [by eapply wp_fault_live|]. wp_step; [by eapply wp_fault_live|]. wp_step; [by eapply wp_fault_live|].
  do 8 (eapply wp_CODEC; [eassumption|exact Hf|]; intros ? ? ?).
  apply wp_own. destruct (oc_lookahead opus _) as [[rc written] e]. cbv zeta.
  eapply wp_CODEC; [eassumption|done|]. intros c2 Hk Hl2. wp_step; [by eapply wp_fault_live|].
  apply wp_bind, wp_change, wp_bind, wp_change, wp_ret.
  match goal with |- Q _ (?x, _) => assert (Hend : kept c2 x) by by split end.
  apply HQ; [|by eapply kept_live]. eapply kept_trans; [exact H1|].
  repeat (eapply kept_trans; [eassumption|]). done.
Qed.

Lemma zlen_packet out : zlen (slice 0 RP_PACKET_BYTES (slice 0 1275 (map u8 out ++ no_bytes 1275))) = 60.
Proof.
  assert (Hl : zlen (map u8 out ++ no_bytes 1275) = zlen out + 1275) by (rewrite zlen_app; rewrite (zlen_no_bytes 1275) by lia; unfold zlen; by rewrite length_map).
  pose proof (zlen_nonneg out). rewrite slice_slice by (unfold RP_PACKET_BYTES; lia). by rewrite zlen_slice by (unfold RP_PACKET_BYTES; lia).
Qed.

Lemma wp_encode pcm flushing Q c t w full : live c t full -> fails_with Q t ->
  (forall c', kept c c' -> live c' t full -> Q 0 (c', (t, w))) -> wp (encode opus pcm flushing) Q (c, (t, w)).
Proof.
  intros Hl Hf HQ. unfold encode. apply wp_own. wp_step; [by eapply wp_fault_live|]. apply Z.leb_gt in C.
  destruct (oc_encode opus (encoder_state c) pcm) as [[n out] e]. cbv zeta.
  apply wp_bind, wp_change, wp_bind, wp_change. name_context c1 E1.
  assert (H1 : kept c c1 /\ packet_count c1 = packet_count c) by by rewrite E1; split. destruct H1 as [H1 Hpc]. clear E1.
  pose proof (kept_live _ _ _ _ H1 Hl) as Hl1. wp_step; [by eapply wp_fault_live|]. apply wp_bind, wp_change, wp_ret.
  match goal with |- Q _ (?x, _) => assert (H2 : kept c1 x) end.
  { split; [done|done|]. intros [Hp Hpos]. split; [|cbn; unfold u32; apply Z.mod_pos_bound; lia].
    cbn [plaintext field_upd eta eta_pipeline]. rewrite zlen_blits; [done|]. apply fits_spec. rewrite Hp, Hpc in *.
    change RP_PLAINTEXT_CAPACITY with 34148. change (RP_SEGMENT_FRAMES + 1) with 501 in C. unfold record_at, RP_HEADER_BYTES, RP_RECORD_BYTES.
    repeat constructor; cbn [fst snd put16 put32]; rewrite ?zlen_packet, ?zlen_le; unfold RP_PACKET_BYTES; lia. }
  apply HQ; [by eapply kept_trans|by eapply kept_live].
Qed.

Definition fails_any (Q : Z -> pipeline * (list sink_event * W) -> Prop) : Prop := forall t, fails_with Q t.
Definition same_hand c c' : Prop :=
  ps_segment_frames (status c') = ps_segment_frames (status c) /\ ps_state (status c') = ps_state (status c) /\
  ps_lookahead (status c') = ps_lookahead (status c).
Lemma same_hand_refl c : same_hand c c.
Proof. done. Qed.

Lemma wp_poll_pending Q c t w full : live c t full -> fails_any Q ->
  (forall c' t' w', live c' t' full -> same_hand c c' -> ps_pending_segments (status c') = 0 -> Q 0 (c', (t', w'))) ->
  (forall c' t' w', live c' t' full -> same_hand c c' -> Q RP_PENDING (c', (t', w'))) ->
  wp (poll_pending K) Q (c, (t, w)).
Proof.
  intros Hl Hf H0 H1. unfold poll_pending. apply wp_own. wp_step; [apply Z.eqb_eq in C; by apply wp_ret, H0|].
  apply Z.eqb_neq in C. wp_step; [by eapply wp_fault_live|]. clear C0.
  apply wp_bind, wp_call. intros [rc receipt] [t1 w1] E. cbn in E. destruct (sk_poll sink _ w) as [[rc' r'] w'].
  injection E as -> -> <- <-. apply wp_bind, wp_change. name_context c1 E1.
  assert (Hc : books c1 = books c /\ plain_wf c1 /\ same_hand c c1) by (rewrite E1; split_and!; try done; apply Hl).
  clear E1. destruct Hc as (Eb & Hp & Hh). destruct Hl as (Ha & _ & Hr). pose proof Ha as [].
  destruct ac_pending0 as [[? _]|(Ep & Hps & Hasync & Hseg)]; [done|].
  pose proof (accounted_same _ _ Eb Ha) as Ha1. pose proof (ledger_at_same _ c1 full Eb) as El.
  assert (Hpost : reads c1 (t ++ [EvPoll (pending_binding c) rc receipt])
    (if (rc =? RP_IO_PENDING) && receipt_zero receipt then ledger_at c full
     else if (rc =? RP_IO_OK) && receipt_durable receipt (pending_binding c)
     then Ledger (Some (session c)) (ps_segments (status c) + 1) (ps_committed_samples (status c) + ps_pending_samples (status c)) None full false
     else dead)).
  { unfold reads in *. rewrite ledger_snoc. replace (pc_async c1) with (pc_async c) by (by injection Eb). rewrite Hr.
    unfold post, ledger_at. cbn [le_dead le_session le_pending le_full le_count le_samples]. rewrite (proj2 (Z.eqb_neq _ _) C).
    rewrite bool_decide_eq_true_2 by done. cbn [negb]. by repeat destruct (_ && _). }
  assert (Hbad : forall reason rc', rc' < 0 -> rc' <> RP_STORAGE_FULL -> wp (fault rc' reason) Q (c1, (t ++ [EvPoll (pending_binding c) rc receipt], w'))).
  { intros. eapply wp_rp_fault; [done|exact Hpost|]. intros c' Hc. by apply Hf. }
  apply wp_own. wp_step; [apply wp_ret, H1; [split_and!; [done|done|by rewrite El]|done]|].
  wp_step; [by apply Hbad|]. apply negb_false_iff in C1. rewrite C1 in *.
  replace (pending_binding c1) with (pending_binding c) by (by injection Eb).
  wp_step; [by apply Hbad|]. apply negb_false_iff in C2. rewrite C2 in *. cbn [andb] in Hpost.
  assert (Eseg : ps_segments (status c1) = ps_segments (status c) /\ ps_committed_samples (status c1) = ps_committed_samples (status c) /\
    ps_pending_samples (status c1) = ps_pending_samples (status c) /\ session c1 = session c) by (by injection Eb).
  destruct Eseg as (Es & Ec & Epp & Esn).
  assert (Eu : u32 (ps_segments (status c) + 1) = ps_segments (status c) + 1) by (apply u32_small; unfold INT32_MAX in *; lia).
  assert (Ev : u64 (ps_committed_samples (status c) + ps_pending_samples (status c)) = ps_committed_samples (status c) + ps_pending_samples (status c))
    by (apply u64_small; unfold UINT64_MAX, RP_SEGMENT_FRAMES in *; lia).
  wp_step; [by apply Hbad|]. clear C3. apply wp_bind, wp_change, wp_bind, wp_change, wp_ret. apply H0; [|done|done].
  split_and!; [destruct Ha1; split; cbn; rewrite ?Es, ?Ec, ?Epp, ?Eu, ?Ev in *; try done; try lia; left; done|done|].
  eapply eq_trans; [exact Hpost|]. unfold ledger_at. cbn. by rewrite Es, Ec, Epp, Eu, Ev, Esn.
Qed.

(** One submission, of a segment that validates, when nothing is pending. *)
Lemma wp_submit Q c t w : live c t false -> ps_pending_segments (status c) = 0 -> 0 < ps_segment_frames (status c) ->
  ps_segments (status c) < INT32_MAX -> fails_any Q ->
  (forall c' t' w', live c' t' false -> ps_segment_frames (status c') = 0 -> Q 0 (c', (t', w'))) ->
  (forall c' t' w', live c' t' true -> ps_segment_frames (status c') = 0 -> ps_pending_segments (status c') = 0 ->
     Q RP_STORAGE_FULL (c', (t', w'))) ->
  wp (submit opus K) Q (c, (t, w)).
Proof.
  intros Hl H0 Hfr Hseg Hf HOK HFULL. unfold submit. apply wp_own. cbv zeta.
  set (size := RP_HEADER_BYTES + packet_count c * RP_RECORD_BYTES). set (p := blits (header_fields c) (plaintext c)).
  apply wp_bind, wp_change. name_context c1 E1.
  destruct Hl as (Ha & [Hp Hpc] & Hr). pose proof Ha as [].
  assert (Hlp : zlen p = RP_PLAINTEXT_CAPACITY) by (unfold p; by rewrite zlen_blits by (by rewrite Hp)).
  assert (Hc1 : books c1 = books c /\ plain_wf c1) by (rewrite E1; done). clear E1. destruct Hc1 as [Eb1 Hw1].
  assert (Hl1 : live c1 t false) by (apply (live_same c); done).
  wp_step; [by eapply wp_fault_live|]. apply negb_false_iff, Z.eqb_eq in C.
  pose proof (validate_size _ _ _ C) as Hsize. apply rp_segment_validate_slice in C; [|done].
  assert (Hframes : get32 48 (slice 0 size p) = ps_segment_frames (status c)) by (apply header_frames; [done|done|unfold RP_SEGMENT_FRAMES in *; lia]).
  assert (Ebind : segment_binding c size = numbered (session c) (ps_segments (status c)) size)
    by (unfold segment_binding, numbered; by rewrite u32_small by lia).
  apply wp_bind, wp_change, wp_bind, wp_call. intros [rc receipt] [t1 w1] E. cbn in E.
  destruct (sk_seal_commit sink _ _ _ w) as [[rc' r'] w']. injection E as -> -> <- <-. apply wp_bind, wp_change. cbn [fst snd].
  rewrite Ebind. set (b := numbered (session c) (ps_segments (status c)) size). name_context c2 E2.
  assert (Hc2 : books c2 = books c /\ plain_wf c2) by (rewrite E2; done). clear E2. destruct Hc2 as [Eb2 Hw2].
  pose proof (accounted_same _ _ Eb2 Ha) as Ha2. set (ev := EvSeal b (slice 0 size p) size rc receipt).
  set (f := ps_segment_frames (status c)) in *.
  assert (Hpost : reads c2 (t ++ [ev])
    (if pc_async c && (rc =? RP_IO_PENDING) && receipt_zero receipt
     then Ledger (Some (session c)) (ps_segments (status c)) (ps_committed_samples (status c)) (Some (b, 320 * f)) false false
     else if (rc =? RP_IO_FULL) && receipt_zero receipt
     then Ledger (Some (session c)) (ps_segments (status c)) (ps_committed_samples (status c)) None true false
     else if (rc =? RP_IO_OK) && receipt_durable receipt b
     then Ledger (Some (session c)) (ps_segments (status c) + 1) (ps_committed_samples (status c) + 320 * f) None false false
     else dead)).
  { unfold reads in *. rewrite ledger_snoc. replace (pc_async c2) with (pc_async c) by (by injection Eb2). rewrite Hr.
    unfold post, ledger_at, ev. cbn [le_dead le_session le_pending le_full le_count le_samples]. rewrite H0. cbn [Z.eqb].
    rewrite bool_decide_eq_true_2 by done. rewrite C, Hframes. cbn [negb orb Z.eqb RP_OK]. by repeat destruct (_ && _). }
  assert (Hbad : forall c3 reason rc', accounted c3 -> pc_async c3 = pc_async c -> rc' < 0 -> rc' <> RP_STORAGE_FULL ->
    wp (fault rc' reason) Q (c3, (t ++ [ev], w'))).
  { intros c3 reason rc' Ha3 Eas ? ?. eapply wp_rp_fault; [done| |intros c' Hc; by apply Hf].
    unfold reads in *. rewrite Eas. replace (pc_async c2) with (pc_async c) in Hpost by (by injection Eb2). exact Hpost. }
  assert (Eas2 : pc_async c2 = pc_async c) by (by injection Eb2).
  assert (Ec2 : ps_segments (status c2) = ps_segments (status c) /\ ps_committed_samples (status c2) = ps_committed_samples (status c) /\
    ps_pending_segments (status c2) = 0 /\ session c2 = session c /\ ps_segment_frames (status c2) = f /\
    ps_discarded_samples (status c2) = ps_discarded_samples (status c)) by (unfold f; unfold books in Eb2; injection Eb2; intros; split_and!; congruence).
  destruct Ec2 as (Es & Ec & Epp & Esn & Ef & Ed). unfold submitted. apply wp_own. rewrite Eas2.
  unfold UINT64_MAX, RP_SEGMENT_FRAMES, INT32_MAX in *.
  assert (Eu : u32 (ps_segments (status c) + 1) = ps_segments (status c) + 1) by (apply u32_small; lia).
  assert (Ev : u64 (ps_committed_samples (status c) + f * 320) = ps_committed_samples (status c) + 320 * f) by (rewrite u64_small; lia).
  assert (Ew : u64 (ps_discarded_samples (status c) + f * 320) = ps_discarded_samples (status c) + 320 * f) by (rewrite u64_small; lia).
  assert (Ep2 : ps_pending_samples (status c2) = 0) by (destruct Ha2 as []; destruct ac_pending1 as [[? ?]|[? ?]]; [done|congruence]).
  assert (Ecap : ps_captured_samples (status c2) <= UINT64_MAX /\ ps_captured_samples (status c2) = ps_committed_samples (status c) +
    ps_discarded_samples (status c) + 320 * f) by (destruct Ha2; rewrite Ec, Ep2, Ed, Ef in *; split; [done|lia]).
  destruct Ecap as [Ecb Ecap].
  wp_step; [|wp_step; [|wp_step; [|wp_step]]].
  - apply andb_true_iff in C0 as [[Has _]%andb_true_iff _].
    do 2 apply wp_bind, wp_change; apply wp_bind, wp_change, wp_ret, HOK; [|done].
    split_and!; [|apply plain_cleared|].
    + destruct Ha2; split; cbn; rewrite ?Es, ?Ec, ?Ed, ?Ef, ?Epp, ?Eas2 in *; try done; try lia. right. split_and!; try done; lia.
    + eapply eq_trans; [exact Hpost|]. unfold ledger_at. cbn. rewrite Es, Ec, Ef, Esn. do 3 f_equal. f_equal. lia.
  - do 1 apply wp_bind, wp_change; apply wp_bind, wp_change, wp_ret, HFULL; [|done|done].
    split_and!; [|apply plain_cleared|].
    + destruct Ha2; split; cbn; rewrite ?Es, ?Ec, ?Ed, ?Ef, ?Ew, ?Epp, ?Ep2 in *; try done; lia.
    + eapply eq_trans; [exact Hpost|]. unfold ledger_at. cbn. by rewrite Es, Ec, Epp, Esn.
  - apply wp_bind, wp_change, Hbad; [by eapply accounted_same, Ha2|done..].
  - apply wp_bind, wp_change, Hbad; [by eapply accounted_same, Ha2|done..].
  - apply negb_false_iff in C2, C3. rewrite C2, C3 in Hpost.
    do 2 apply wp_bind, wp_change; apply wp_bind, wp_change, wp_ret, HOK; [|done].
    split_and!; [|apply plain_cleared|].
    + destruct Ha2; split; cbn; rewrite ?Es, ?Ec, ?Ed, ?Ef, ?Eu, ?Ev, ?Epp, ?Ep2 in *; try done; unfold INT32_MAX in *; lia.
    + eapply eq_trans; [exact Hpost|]. unfold ledger_at. cbn. by rewrite Es, Ec, Ef, Epp, Esn, Eu, Ev.
Qed.

(** Sealing leaves no frames in hand. *)
Lemma wp_seal Q c t w full : live c t full -> (full = true -> ps_segment_frames (status c) = 0 /\ ps_pending_segments (status c) = 0) ->
  fails_any Q ->
  (forall c' t' w', live c' t' full -> (full = true -> ps_pending_segments (status c') = 0) -> ps_segment_frames (status c') = 0 ->
     Q 0 (c', (t', w'))) ->
  (forall c' t' w', live c' t' true -> ps_segment_frames (status c') = 0 -> ps_pending_segments (status c') = 0 ->
     Q RP_STORAGE_FULL (c', (t', w'))) ->
  wp (seal opus K) Q (c, (t, w)).
Proof.
  intros Hl Hfull Hf HOK HFULL. unfold seal. apply wp_own. wp_step.
  { apply Z.eqb_eq in C. apply wp_ret, HOK; [done|by intros H; apply Hfull|done]. }
  apply Z.eqb_neq in C. destruct full; [by destruct (Hfull eq_refl)|]. apply wp_bind, (wp_poll_pending _ _ _ _ false); [done| | |].
  - intros t1 rc c1 w1 Hrc Hrf Hc. rewrite (proj2 (Z.ltb_lt _ _) Hrc). by apply wp_ret, Hf.
  - intros c1 t1 w1 Hl1 (Hh1 & Hh2 & Hh3) Hp. cbn [Z.ltb Z.compare Z.eqb RP_PENDING]. apply wp_own. wp_step; [by eapply wp_fault_live|].
    apply Z.leb_gt in C0. apply wp_on_ok.
    assert (Hfr : 0 < ps_segment_frames (status c1)) by (destruct Hl as [[] _]; lia).
    assert (Hsub : forall c2, kept c1 c2 -> live c2 t1 false -> wp (submit opus K) Q (c2, (t1, w1))).
    { intros c2 [Eb2 _ _] Hl2. injection Eb2 as _ _ _ _ E5 _ E7 _ _ E10 _. apply wp_submit; try done; rewrite ?E5, ?E7, ?E10; try done.
      intros. by apply HOK. }
    wp_step; [by apply wp_ret, Hsub|]. eapply wp_encode; [done| |].
    + intros rc c2 w2 Hrc Hrf Hc. rewrite (proj2 (Z.eqb_neq _ _)) by lia. by apply Hf.
    + intros c2 Hk Hl2. cbn [Z.eqb]. by apply Hsub.
  - intros c1 t1 w1 Hl1 _. cbn [Z.ltb Z.compare Z.eqb RP_PENDING Pos.eqb]. by eapply wp_fault_live.
Qed.

Definition rests : Z -> pipeline * (list sink_event * W) -> Prop := fun _ s => resting (fst s) (fst (snd s)).
Lemma fails_rests : fails_any rests.
Proof. intros t rc c w _ _ H. by left. Qed.
Hint Resolve fails_rests : core.

(** An open recording with no segment's worth of frames in hand, waiting. *)
Lemma rests_open c c' t w rc : live c t false -> books c' = books c -> plain_wf c' ->
  In (ps_state (status c')) [RP_RECORDING; RP_PAUSED; RP_DRAINING] -> ps_segment_frames (status c) < RP_SEGMENT_FRAMES ->
  (ps_state (status c') = RP_PAUSED -> ps_segment_frames (status c) = 0) -> rests rc (c', (t, w)).
Proof.
  intros Hl Eb Hp Hs Hf H0. right. left. assert (E : ps_segment_frames (status c') = ps_segment_frames (status c)) by by injection Eb.
  cbn [fst snd]. rewrite E. split; [done|]. split; [by eapply live_same|done].
Qed.

Lemma wp_finalize reason c t w full : live c t full -> ps_segment_frames (status c) = 0 -> ps_pending_segments (status c) = 0 ->
  wp (finalize K reason) rests (c, (t, w)).
Proof.
  intros Hl Hfr Hp. unfold finalize. apply wp_bind, wp_change. name_context c1 E1.
  assert (Hc1 : books c1 = books c /\ plain_wf c1) by (rewrite E1; split; [done|apply Hl]). clear E1. destruct Hc1 as [Eb1 Hw1].
  pose proof (live_same _ _ _ _ Eb1 Hw1 Hl) as Hl1.
  assert (E1 : ps_segment_frames (status c1) = 0 /\ ps_pending_segments (status c1) = 0) by (unfold books in Eb1; injection Eb1; split; congruence).
  destruct E1 as [Hfr1 Hp1]. clear Eb1 Hw1 Hl Hfr Hp. apply wp_own. cbv zeta. set (f := completion_of c1 reason).
  apply wp_bind, wp_call. intros [rc receipt] [t1 w1] E. cbn in E. destruct (sk_finalize sink f w) as [[rc' r'] w'].
  injection E as -> -> <- <-. apply wp_bind, wp_change. name_context c2 E2.
  assert (Hc2 : books c2 = books c1 /\ plain_wf c2) by (rewrite E2; split; [done|apply Hl1]). clear E2. destruct Hc2 as [Eb2 Hw2].
  destruct Hl1 as (Ha1 & _ & Hr1). pose proof (accounted_same _ _ Eb2 Ha1) as Ha2.
  assert (Eas : pc_async c2 = pc_async c1 /\ ps_segment_frames (status c2) = 0 /\ ps_pending_segments (status c2) = 0)
    by (unfold books in Eb2; injection Eb2; intros; split_and!; congruence). destruct Eas as (Eas & Hfr2 & Hp2).
  assert (Hpost : reads c2 (t ++ [EvFinalize f rc receipt])
    (if (rc =? RP_IO_OK) && (fr_durable receipt =? 1) && same_completion (fr_completion receipt) f then closed else dead)).
  { unfold reads in *. rewrite ledger_snoc, Eas, Hr1. unfold post, ledger_at. cbn [le_dead le_session le_pending le_count le_samples].
    rewrite Hp1. cbn [Z.eqb]. unfold f, completion_of. cbn [pc_session pc_segments pc_committed_samples].
    by rewrite bool_decide_eq_true_2, !Z.eqb_refl by done. }
  assert (Hbad : forall c3 reason rc', books c3 = books c2 -> wp (fault rc' reason) rests (c3, (t ++ [EvFinalize f rc receipt], w'))).
  { intros c3 reason' rc' Eb3. eapply wp_rp_fault; [by eapply accounted_same| |intros c' Hc; by left].
    unfold reads in *. replace (pc_async c3) with (pc_async c2) by (by injection Eb3). exact Hpost. }
  wp_step; [by apply wp_bind, wp_change, Hbad|]. apply negb_false_iff in C. wp_step; [by apply wp_bind, wp_change, Hbad|].
  apply orb_false_iff in C0 as [C1%negb_false_iff C2%negb_false_iff]. rewrite C, C1, C2 in Hpost. cbn [andb] in Hpost.
  apply wp_bind, wp_change, wp_bind, wp_change. cbv zeta. apply wp_bind, wp_change, wp_ret. right. right.
  cbn [fst snd]. set (state := if reason =? RP_REASON_FULL then RP_FULL else _).
  match goal with |- In (ps_state (status ?x)) _ /\ _ => remember x as c3 eqn:E3 end.
  assert (H3 : ps_state (status c3) = state /\ books c3 = books c2 /\ plaintext c3 = plaintext (clear_scratch c2) /\
    packet_count c3 = packet_count (clear_scratch c2)) by (rewrite E3; split_and!; try done; unfold books; cbn; by rewrite Hfr2).
  clear E3. destruct H3 as (Es3 & Eb3 & Ep3 & En3). pose proof (accounted_same _ _ Eb3 Ha2) as Ha3.
  assert (E3 : pc_async c3 = pc_async c2 /\ ps_segment_frames (status c3) = 0 /\ ps_pending_segments (status c3) = 0)
    by (unfold books in Eb3; injection Eb3; intros; split_and!; congruence). destruct E3 as (Eas3 & Hfr3 & Hp3).
  split_and!; [|done|by apply (plain_same (clear_scratch c2)); try apply plain_cleared|done|done|by unfold reads in *; rewrite Eas3].
  rewrite Es3. unfold state. cbn. destruct (reason =? RP_REASON_FULL); [tauto|]. destruct (reason =? RP_REASON_OVERFLOW); [tauto|].
  destruct (reason =? RP_REASON_LOW_POWER); tauto.
Qed.

Lemma wp_rp_finish reason c t w full : live c t full -> (full = true -> ps_segment_frames (status c) = 0 /\ ps_pending_segments (status c) = 0) ->
  ps_segment_frames (status c) < RP_SEGMENT_FRAMES -> wp (finish opus K reason) rests (c, (t, w)).
Proof.
  intros Hl Hfull Hfr. unfold finish. apply wp_own. wp_step.
  { apply negb_true_iff, Z.eqb_neq in C. destruct full; [by destruct (Hfull eq_refl)|].
    apply wp_bind, wp_change, wp_bind, wp_change, wp_ret. apply (rests_open c); try done; [apply Hl|cbn; tauto]. }
  apply wp_bind, (wp_seal _ _ _ _ full); [done|done| | |].
  - intros t1 rc c1 w1 Hrc Hrf Hc. rewrite (proj2 (Z.eqb_neq _ _) Hrf), (proj2 (Z.eqb_neq rc 0)) by lia. by left.
  - intros c1 t1 w1 Hl1 Hp1 Hf1. cbn [Z.eqb negb andb RP_STORAGE_FULL]. apply wp_own. wp_step.
    + apply negb_true_iff, Z.eqb_neq in C0. destruct full; [by rewrite Hp1 in C0|].
      apply wp_bind, wp_change, wp_bind, wp_change, wp_ret. apply (rests_open c1); try done; [apply Hl1|cbn; tauto|by rewrite Hf1].
    + apply negb_false_iff, Z.eqb_eq in C0. by eapply wp_finalize.
  - intros c1 t1 w1 Hl1 Hf1 Hp1. cbn [Z.eqb negb andb RP_STORAGE_FULL Pos.eqb]. apply wp_own. rewrite Hp1. cbn [Z.eqb negb]. by eapply wp_finalize.
Qed.

Lemma wp_pause_finish c t w : live c t false -> ps_segment_frames (status c) < RP_SEGMENT_FRAMES -> wp (pause_finish opus K) rests (c, (t, w)).
Proof.
  intros Hl Hfr. unfold pause_finish. apply wp_own.
  assert (Hdrain : forall c1 t1 w1, live c1 t1 false -> ps_segment_frames (status c1) < RP_SEGMENT_FRAMES -> wp pause_drain rests (c1, (t1, w1))).
  { intros c1 t1 w1 Hl1 Hf1. unfold pause_drain. apply wp_bind, wp_change, wp_bind, wp_change, wp_ret.
    apply (rests_open c1); try done; [apply Hl1|cbn; tauto]. }
  wp_step; [by apply Hdrain|]. apply wp_bind, (wp_seal _ _ _ _ false); [done|done| | |].
  - intros t1 rc c1 w1 Hrc Hrf Hc. rewrite (proj2 (Z.eqb_neq _ _) Hrf), (proj2 (Z.eqb_neq rc 0)) by lia. by left.
  - intros c1 t1 w1 Hl1 _ Hf1. cbn [Z.eqb negb RP_STORAGE_FULL]. apply wp_own. wp_step; [by apply Hdrain; rewrite ?Hf1|].
    apply wp_bind, wp_change, wp_bind, wp_change, wp_bind, wp_change, wp_ret.
    apply (rests_open c1); [done|unfold books; cbn; by rewrite Hf1|exact (plain_cleared c1)|cbn; tauto|by rewrite Hf1|done].
  - intros c1 t1 w1 Hl1 Hf1 Hp1. cbn [Z.eqb Pos.eqb RP_STORAGE_FULL]. eapply wp_rp_finish; [done|done|by rewrite Hf1].
Qed.

(** * The calls *)
Lemma resting_gate c t g : resting c t -> resting (c <| rp_active := g |>) t.
Proof.
  assert (Ha : accounted c -> accounted (c <| rp_active := g |>)) by by apply accounted_same.
  intros [(H1 & H2 & H3 & l & H4)|[(H1 & (H2 & H3 & H4) & H5)|(H1 & H2 & H3 & H4 & H5 & H6)]].
  - left. exact (conj H1 (conj (Ha H2) (conj H3 (ex_intro _ l H4)))).
  - right. left. exact (conj H1 (conj (conj (Ha H2) (conj H3 H4)) H5)).
  - right. right. exact (conj H1 (conj (Ha H2) (conj H3 (conj H4 (conj H5 H6))))).
Qed.
Lemma wp_rp_locked (body : M (pipeline * (list sink_event * W)) Z) c t w : resting c t ->
  (forall c', resting c' t -> wp body rests (c', (t, w))) -> wp (locked body) rests (c, (t, w)).
Proof.
  intros Hr Hb. unfold locked. apply wp_own. wp_step; [by apply wp_ret|]. apply wp_bind, wp_change, wp_bind.
  eapply wp_mono; [by apply Hb, resting_gate|]. intros rc [c' [t' w']] H. apply wp_bind, wp_change, wp_ret. by apply resting_gate.
Qed.

(** A state test that only an open recording passes. *)
Lemma resting_open c t : resting c t -> In (ps_state (status c)) [RP_RECORDING; RP_PAUSED; RP_DRAINING] ->
  live c t false /\ ps_segment_frames (status c) < RP_SEGMENT_FRAMES /\ (ps_state (status c) = RP_PAUSED -> ps_segment_frames (status c) = 0).
Proof.
  intros [(H1 & _)|[(H1 & H2 & H3)|(H1 & _)]] H; [rewrite H1 in H; cbn in H; intuition discriminate|done|].
  cbn in H, H1. destruct H as [H|[H|[H|[]]]]; rewrite <- H in H1; intuition discriminate.
Qed.
Lemma resting_closed c t : resting c t -> can_start (status c) = true ->
  accounted c /\ plain_wf c /\ ps_pending_segments (status c) = 0 /\ ps_segment_frames (status c) = 0 /\ reads c t closed.
Proof.
  intros H Hc. unfold can_start, complete_state in Hc. rewrite !andb_true_iff, !orb_true_iff, !andb_true_iff, !orb_true_iff, !Z.eqb_eq in Hc.
  destruct H as [(H1 & _)|[(H1 & _)|(H1 & H2)]]; [rewrite H1 in Hc; intuition discriminate| |done].
  cbn in H1. exfalso. destruct H1 as [H|[H|[H|[]]]]; rewrite <- H in Hc; intuition discriminate.
Qed.

Lemma wp_rp_poll c t w : resting c t -> wp (rp_poll opus K) rests (c, (t, w)).
Proof.
  intros Hr. apply wp_rp_locked; [done|]. clear c Hr. intros c Hr. apply wp_own. cbv zeta. wp_step; [by apply wp_ret|].
  assert (Hin : In (ps_state (status c)) [RP_RECORDING; RP_PAUSED; RP_DRAINING]).
  { apply orb_false_iff in C as [_ C]. rewrite !andb_false_iff, !negb_false_iff, !Z.eqb_eq in C. cbn. intuition congruence. }
  destruct (resting_open _ _ Hr Hin) as (Hl & Hf & Hf0). apply wp_on_ok, (wp_poll_pending _ _ _ _ false); [done| | |].
  - intros t1 rc c1 w1 Hrc _ Hc. rewrite (proj2 (Z.eqb_neq _ _)) by lia. by left.
  - intros c1 t1 w1 Hl1 (Hf1 & Hs1 & _) _. cbn [Z.eqb]. rewrite <- Hf1 in Hf. rewrite <- Hs1 in Hin. rewrite <- Hs1, <- Hf1 in Hf0. apply wp_own. wp_step; [wp_step; [|wp_step]|].
    + by apply wp_pause_finish.
    + apply wp_bind, wp_change. eapply (wp_rp_finish _ _ _ _ false); [|done|done]. apply (live_same c1); [done|apply Hl1|done].
    + by eapply wp_fault_live.
    + apply wp_ret, (rests_open c1); [done|done|apply Hl1|done..].
  - intros c1 t1 w1 Hl1 (Hf1 & Hs1 & _). cbn [Z.eqb RP_PENDING]. apply (rests_open c1); try done; [apply Hl1|by rewrite Hs1|by rewrite Hf1|by rewrite Hs1, Hf1].
Qed.

Lemma wp_rp_pause c t w : resting c t -> wp (rp_pause opus K) rests (c, (t, w)).
Proof.
  intros Hr. apply wp_rp_locked; [done|]. clear c Hr. intros c Hr. apply wp_own. wp_step; [by apply wp_ret|].
  apply negb_false_iff, Z.eqb_eq in C. destruct (resting_open _ _ Hr) as (Hl & Hf & Hf0); [rewrite C; cbn; tauto|]. by apply wp_pause_finish.
Qed.

Lemma wp_rp_end reason c t w : resting c t -> wp (rp_end opus K reason) rests (c, (t, w)).
Proof.
  intros Hr. unfold rp_end. wp_step; [by apply wp_ret|]. apply wp_rp_locked; [done|]. clear c Hr C. intros c Hr. apply wp_own. cbv zeta.
  wp_step; [|wp_step; [by apply wp_ret|]].
  - apply andb_true_iff in C as [C%Z.eqb_eq _]. destruct (resting_open _ _ Hr) as (Hl & Hf & Hf0); [rewrite C; cbn; tauto|].
    apply wp_bind, wp_change, wp_ret, (rests_open c); [done|done|apply Hl|cbn; rewrite C; tauto|done|cbn; by rewrite C].
  - rewrite andb_false_iff, !negb_false_iff, !Z.eqb_eq in C0.
    destruct (resting_open _ _ Hr) as (Hl & Hf & Hf0); [cbn; intuition congruence|]. by eapply (wp_rp_finish _ _ _ _ false).
Qed.

Lemma wp_rp_external_fault c t w : resting c t -> wp (rp_external_fault (W := list sink_event * W)) rests (c, (t, w)).
Proof.
  intros Hr. apply wp_rp_locked; [done|]. clear c Hr. intros c Hr. apply wp_own. cbv zeta. wp_step; [by apply wp_ret|].
  rewrite !andb_false_iff, !negb_false_iff, !Z.eqb_eq in C.
  destruct (resting_open _ _ Hr) as (Hl & Hf & Hf0); [cbn; intuition congruence|]. by eapply wp_fault_live.
Qed.

Lemma wp_rp_select_mode mode c t w : resting c t -> wp (rp_select_mode (W := list sink_event * W) mode) rests (c, (t, w)).
Proof.
  intros Hr. unfold rp_select_mode. wp_step; [by apply wp_ret|]. apply wp_rp_locked; [done|]. clear c Hr C. intros c Hr. apply wp_own.
  wp_step; [by apply wp_ret|]. apply negb_false_iff in C. destruct (resting_closed _ _ Hr C) as (H1 & H2 & H3 & H4 & H5).
  apply wp_bind, wp_change, wp_ret. right. right. cbn [fst snd].
  match goal with |- In (ps_state (status ?x)) _ /\ _ => assert (Ha : accounted x) by by apply (accounted_same c) end.
  split; [|exact (conj Ha (conj H2 (conj H3 (conj H4 H5))))]. clear Ha.
  destruct Hr as [(E & _)|[(E & _)|(E & _)]]; [| |exact E]; exfalso; unfold can_start, complete_state in C.
  - by rewrite E, andb_false_r in C.
  - cbn in E. destruct E as [E|[E|[E|[]]]]; rewrite <- E, andb_false_r in C; done.
Qed.

(** A pause ends, or a segment is complete: the encoder starts again. *)
Lemma wp_restart c t w : live c t false -> ps_segment_frames (status c) = 0 ->
  wp (on_ok (codec_init opus) (bind (status_set (fun s => s <| ps_state := RP_RECORDING |>)) (fun _ => ret RP_OK))) rests (c, (t, w)).
Proof.
  intros Hl Hf. apply wp_on_ok. eapply wp_codec_init; [done|done| |].
  - intros rc c1 w1 Hrc _ Hc. rewrite (proj2 (Z.eqb_neq _ _)) by lia. by left.
  - intros c1 [Eb _ Hp] Hl1. cbn [Z.eqb]. apply wp_bind, wp_change, wp_ret, (rests_open c1); try done; [apply Hl1|cbn; tauto|].
    by replace (ps_segment_frames (status c1)) with (ps_segment_frames (status c)) by (by injection Eb); rewrite Hf.
Qed.

Lemma wp_rp_resume next c t w : resting c t -> wp (rp_resume (W := list sink_event * W) opus next) rests (c, (t, w)).
Proof.
  intros Hr. apply wp_rp_locked; [done|]. clear c Hr. intros c Hr. apply wp_own. wp_step; [by apply wp_ret|].
  apply negb_false_iff, Z.eqb_eq in C. destruct (resting_open _ _ Hr) as (Hl & Hf & Hf0); [rewrite C; cbn; tauto|]. specialize (Hf0 C).
  wp_step; [by apply wp_ret|]. cbv zeta. wp_step; [by eapply wp_fault_live|]. apply wp_bind, wp_change. name_context c1 E1.
  assert (H1 : books c1 = books c /\ plain_wf c1) by (rewrite E1; split; [done|apply Hl]). clear E1. destruct H1 as [Eb1 Hp1].
  assert (Hl1 : live c1 t false) by by apply (live_same c). assert (Hf1 : ps_segment_frames (status c1) = 0) by (rewrite <- Hf0; by injection Eb1).
  apply wp_on_ok. eapply wp_codec_init; [done|done| |].
  - intros rc c2 w2 Hrc _ Hc. rewrite (proj2 (Z.eqb_neq _ _)) by lia. by left.
  - intros c2 [Eb _ Hp] Hl2. cbn [Z.eqb]. apply wp_bind, wp_change. name_context c3 E3.
    assert (H3 : books c3 = books c2 /\ plain_wf c3) by (rewrite E3; destruct (negb _); (split; [done|apply Hl2])). clear E3. destruct H3 as [Eb3 Hp3].
    assert (Hf2 : ps_segment_frames (status c2) = 0) by (rewrite <- Hf1; by injection Eb).
    apply wp_bind, wp_change, wp_ret, (rests_open c2); [done|done|done|cbn; tauto|by rewrite Hf2|done].
Qed.

(** One more frame in hand. *)
Definition framed (s : rp_status) : rp_status :=
  s <| ps_segment_frames := u32 (ps_segment_frames s + 1) |> <| ps_next_sample := u64 (ps_next_sample s + 320) |>
    <| ps_captured_samples := u64 (ps_captured_samples s + 320) |>.
Lemma live_framed c t : live c t false -> ps_segment_frames (status c) < RP_SEGMENT_FRAMES ->
  ps_captured_samples (status c) <= UINT64_MAX - 320 ->
  live (status_upd framed c) t false /\ ps_segment_frames (status (status_upd framed c)) = ps_segment_frames (status c) + 1.
Proof.
  intros (Ha & Hp & Hr) Hf Hc. destruct Ha. unfold RP_SEGMENT_FRAMES, UINT64_MAX in *.
  assert (Eu : u32 (ps_segment_frames (status c) + 1) = ps_segment_frames (status c) + 1) by (apply u32_small; lia).
  assert (Ev : u64 (ps_captured_samples (status c) + 320) = ps_captured_samples (status c) + 320) by (apply u64_small; lia).
  split; [|exact Eu]. split; [|split; [exact Hp|exact Hr]].
  split; cbn; rewrite ?Eu, ?Ev; try done; unfold UINT64_MAX, RP_SEGMENT_FRAMES; lia.
Qed.

Lemma wp_rp_push first pcm c t w : resting c t -> wp (rp_push_frame opus K first pcm) rests (c, (t, w)).
Proof.
  intros Hr. destruct pcm as [po|]; [|by apply wp_ret]. cbn [rp_push_frame]. wp_step; [by apply wp_ret|].
  apply wp_rp_locked; [done|]. clear c Hr C. intros c Hr. apply wp_own. wp_step; [by apply wp_ret|].
  apply negb_false_iff, Z.eqb_eq in C. destruct (resting_open _ _ Hr) as (Hl & Hf & _); [rewrite C; cbn; tauto|].
  assert (Hgo : forall c1 t1 w1, live c1 t1 false -> same_hand c c1 -> wp (own (fun c =>
        if negb (first =? ps_next_sample (status c)) then fault RP_CONTINUITY_ERROR RP_REASON_CONTINUITY else
        if (UINT64_MAX - 320 <? first) || (UINT64_MAX - 320 <? ps_captured_samples (status c)) then fault RP_LIMIT RP_REASON_LIMIT else
        on_ok (encode opus (deref po) false) (
        bind (status_set framed) (fun _ =>
        own (fun c =>
          if ps_segment_frames (status c) =? RP_SEGMENT_FRAMES then
            bind (seal opus K) (fun rc =>
            if rc =? RP_STORAGE_FULL then finish opus K RP_REASON_FULL else
            if negb (rc =? 0) then ret rc else
            on_ok (codec_init opus) (bind (status_set (fun s => s <| ps_state := RP_RECORDING |>)) (fun _ => ret RP_OK)))
          else ret RP_OK))))) rests (c1, (t1, w1))).
  { intros c1 t1 w1 Hl1 (Hf1 & Hs1 & _). apply wp_own. wp_step; [by eapply wp_fault_live|]. wp_step; [by eapply wp_fault_live|].
    apply orb_false_iff in C1 as [_ Hcap%Z.ltb_ge]. apply wp_on_ok. eapply wp_encode; [done| |].
    - intros rc c2 w2 Hrc _ Hc. rewrite (proj2 (Z.eqb_neq _ _)) by lia. by left.
    - intros c2 Hk Hl2. cbn [Z.eqb]. pose proof Hk as [Eb2 Es2 Hp2].
      assert (E2 : ps_segment_frames (status c2) = ps_segment_frames (status c1) /\ ps_captured_samples (status c2) = ps_captured_samples (status c1))
        by (unfold books in Eb2; injection Eb2; intros; split; congruence).
      destruct E2 as [Ef2 Ec2]. destruct (live_framed c2 t1 Hl2) as [Hl3 Ef3]; [by rewrite Ef2, Hf1|by rewrite Ec2|].
      apply wp_bind, wp_change. assert (Es3 : ps_state (status (status_upd framed c2)) = RP_RECORDING) by (change (ps_state (status c2) = RP_RECORDING); congruence).
      rewrite Ef2, Hf1 in Ef3. name_context c3 E3. clear E3 Hl1 Hl2. apply wp_own. wp_step.
      + apply wp_bind, (wp_seal _ _ _ _ false); [done|done| | |].
        * intros t4 rc c4 w4 Hrc Hrf Hc. rewrite (proj2 (Z.eqb_neq _ _) Hrf), (proj2 (Z.eqb_neq rc 0)) by lia. by left.
        * intros c4 t4 w4 Hl4 _ Hf4. cbn [Z.eqb negb RP_STORAGE_FULL]. by apply wp_restart.
        * intros c4 t4 w4 Hl4 Hf4 Hp4. cbn [Z.eqb Pos.eqb RP_STORAGE_FULL]. eapply wp_rp_finish; [done|done|by rewrite Hf4].
      + apply Z.eqb_neq in C1. apply wp_ret, (rests_open c3); [done|done|apply Hl3|rewrite Es3; cbn; tauto| |by rewrite Es3].
        unfold RP_SEGMENT_FRAMES in *. lia. }
  apply wp_bind, (wp_poll_pending _ _ _ _ false); [done| | |].
  - intros t1 rc c1 w1 Hrc _ Hc. rewrite (proj2 (Z.ltb_lt _ _) Hrc). by left.
  - intros c1 t1 w1 Hl1 Hh _. cbn [Z.ltb Z.compare]. by apply Hgo.
  - intros c1 t1 w1 Hl1 Hh. cbn [Z.ltb Z.compare RP_PENDING]. by apply Hgo.
Qed.

Lemma accounted_start c : rp_initialized c = 1 -> ps_captured_samples (status c) = 0 -> ps_committed_samples (status c) = 0 ->
  ps_pending_samples (status c) = 0 -> ps_discarded_samples (status c) = 0 -> ps_segment_frames (status c) = 0 ->
  ps_segments (status c) = 0 -> ps_pending_segments (status c) = 0 -> accounted c.
Proof. intros E1 E2 E3 E4 E5 E6 E7 E8. split; rewrite ?E2, ?E3, ?E4, ?E5, ?E6, ?E7; try done. by left. Qed.

Lemma wp_start_session b first c t w : resting c t -> wp (start_session opus K b first) rests (c, (t, w)).
Proof.
  intros Hr. unfold start_session. apply wp_own.
  wp_step; [by apply wp_ret|]. apply negb_false_iff in C. destruct (resting_closed _ _ Hr C) as (Ha & Hp & _ & _ & Hread).
  wp_step; [by apply wp_ret|]. apply wp_bind, wp_change, wp_bind, wp_change, wp_bind, wp_call.
  intros rc [t1 w1] E. cbn in E. destruct (sk_reserve sink b w) as [rc' w']. injection E as -> <- <-. apply wp_bind, wp_change.
  name_context c1 E1.
  assert (H1 : session c1 = b /\ pc_async c1 = pc_async c /\ plaintext c1 = plaintext c /\ packet_count c1 = packet_count c /\
    rp_initialized c1 = rp_initialized c /\ status c1 = (started_status (status c) first) <| ps_state := RP_FINALIZING |> <| ps_store_error := rc |>)
    by by rewrite E1.
  clear E1. destruct H1 as (Eb & Eas & Epl & Epc & Ein & Est).
  assert (Ha1 : accounted c1) by (apply accounted_start; rewrite ?Ein, ?Est; [apply Ha|done..]).
  assert (Hp1 : plain_wf c1) by by apply (plain_same c).
  assert (Hpost : reads c1 (t ++ [EvReserve b rc])
    (if rc =? RP_IO_OK then Ledger (Some b) 0 0 None false false else if rc =? RP_IO_FULL then closed else dead)).
  { unfold reads in *. by rewrite ledger_snoc, Eas, Hread. }
  wp_step; [|wp_step].
  - apply Z.eqb_eq in C1. subst rc. apply wp_bind, wp_change, wp_bind, wp_change, wp_ret. right. right. cbn [fst snd].
    match goal with |- In (ps_state (status ?x)) _ /\ _ => remember x as c2 eqn:E2 end.
    assert (H2 : ps_state (status c2) = RP_FULL /\ books c2 = books c1 /\ pc_async c2 = pc_async c1 /\ ps_pending_segments (status c2) = 0 /\
      ps_segment_frames (status c2) = 0 /\ plaintext c2 = plaintext (clear_scratch c1) /\ packet_count c2 = packet_count (clear_scratch c1))
      by (rewrite E2; unfold books; cbn; rewrite Est; split_and!; done).
    clear E2. destruct H2 as (E1 & E2 & E3 & E4 & E5 & E6 & E7). rewrite E1. split; [cbn; tauto|].
    split; [by eapply accounted_same|]. split; [by apply (plain_same (clear_scratch c1)); try apply plain_cleared|].
    split; [done|]. split; [done|]. unfold reads in *. by rewrite E3.
  - apply negb_true_iff in C2. rewrite C2 in Hpost. apply wp_bind, wp_change. eapply wp_rp_fault; [by eapply accounted_same, Ha1| |intros c' Hc; by left].
    exact Hpost.
  - apply negb_false_iff in C2. rewrite C2 in Hpost. apply wp_bind, wp_change. name_context c2 E2.
    assert (H2 : books c2 = books c1 /\ plain_wf c2) by (rewrite E2; split; [done|exact Hp1]). clear E2. destruct H2 as [Eb2 Hp2].
    apply wp_restart.
    + apply (live_same c1); [done|done|]. split; [done|]. split; [done|]. unfold ledger_at. by rewrite Est, Eb.
    + transitivity (ps_segment_frames (status c1)); [by injection Eb2|by rewrite Est].
Qed.

Lemma wp_rp_start b first c t w : resting c t -> wp (rp_start opus K b first) rests (c, (t, w)).
Proof.
  intros Hr. unfold rp_start. destruct b as [b|]; [|by apply wp_ret]. wp_step; [by apply wp_ret|].
  apply wp_rp_locked; [done|]. intros c' Hc'. by apply wp_start_session.
Qed.

(** Once initialised, nothing initialises the pipeline again. *)
Lemma wp_init_core poll cb mode stack profile c t w : resting c t ->
  wp (init_core (W := list sink_event * W) cb mode stack profile poll) rests (c, (t, w)).
Proof.
  intros Hr. unfold init_core. wp_step; [by apply wp_ret|]. apply wp_rp_locked; [done|]. clear c Hr C. intros c Hr. apply wp_own.
  assert (E : rp_initialized c = 1) by (destruct Hr as [(_ & [] & _)|[(_ & ([] & _) & _)|(_ & [] & _)]]; done).
  rewrite E. by apply wp_ret.
Qed.

Lemma wp_rp_op o c t w : resting c t -> wp (run_op opus K o) rests (c, (t, w)).
Proof.
  intros Hr. destruct o; cbn [run_op]; auto using wp_init_core, wp_rp_poll, wp_rp_select_mode, wp_rp_start, wp_rp_push, wp_rp_pause,
    wp_rp_resume, wp_rp_end, wp_rp_external_fault.
Qed.
Lemma wp_rp_ops os c t w : resting c t -> wp (run_ops opus K os) (fun _ s => resting (fst s) (fst (snd s))) (c, (t, w)).
Proof.
  revert c t w. induction os as [|o os IH]; intros c t w Hr; [done|]. apply wp_bind.
  eapply wp_mono; [by apply wp_rp_op|]. intros rc [c' [t' w']] H. by apply IH.
Qed.

(** The state a successful initialisation leaves. *)
Definition initialised c : Prop :=
  exists cb mode stack profile poll (w : list sink_event * W), init_core cb mode stack profile poll (boot_pipeline, w) = (RP_OK, (c, w)).
Lemma cleared_core c : status (clear_scratch c) = (status c) <| ps_buffers_wiped := 1 |> <| ps_segment_frames := 0 |> /\ rp_initialized (clear_scratch c) = rp_initialized c.
Proof. by destruct c. Qed.
Lemma init_core_resting cb mode stack profile poll c (w : list sink_event * W) : rp_active c = 0 -> rp_initialized c = 0 ->
  wp (init_core cb mode stack profile poll) (fun rc s => rc = RP_OK -> resting (fst s) []) (c, w).
Proof.
  intros H1 H2. unfold init_core. wp_step; [by apply wp_ret|]. unfold locked. apply wp_own. rewrite H1. cbn [negb Z.eqb].
  apply wp_bind, wp_change, wp_bind, wp_own. name_context c1 E1. assert (E : rp_initialized c1 = 0) by by rewrite E1. clear E1.
  rewrite E. cbn [negb Z.eqb]. apply wp_bind, wp_change. name_context c2 E2.
  assert (Es : status c2 = initial_status mode profile) by by rewrite E2.
  assert (Ei : rp_initialized c2 = 1) by by rewrite E2.
  clear E2. apply wp_bind, wp_change, wp_ret. destruct (cleared_core c2) as [Ec Ej].
  assert (Hp : plain_wf (clear_scratch c2)) by apply plain_cleared.
  generalize dependent (clear_scratch c2). intros c3 Ec Ej Hp. rewrite Es in Ec. rewrite Ei in Ej.
  apply wp_bind, wp_change, wp_ret. intros _. cbn [fst snd]. apply resting_gate.
  right. right. split; [rewrite Ec; by left|]. split; [by apply accounted_start; rewrite ?Ec|]. split; [done|]. by rewrite Ec.
Qed.
Lemma initialised_resting c : initialised c -> resting c [].
Proof.
  intros (cb & mode & stack & profile & poll & w & E).
  exact (wp_elim _ _ _ _ _ (init_core_resting cb mode stack profile poll boot_pipeline w eq_refl eq_refl) E eq_refl).
Qed.
End Safety.

(** A state reached from a successful initialisation by a run of calls. *)
Definition reached {W} (opus : opus_codec) (sink : rp_sink W) (os : list rp_op) (c : pipeline) (t : list sink_event) : Prop :=
  exists c0 w0 w, initialised (W := W) c0 /\ run_ops opus (logged sink) os (c0, ([], w0)) = (tt, (c, (t, w))).
Lemma reached_resting {W} opus (sink : rp_sink W) os c t : reached opus sink os c t -> resting opus c t.
Proof.
  intros (c0 & w0 & w & H0 & E). eapply initialised_resting in H0. exact (wp_elim _ _ _ _ _ (wp_rp_ops opus sink os _ _ _ H0) E).
Qed.

(** C15. Every captured sample is accounted for exactly once, whatever Opus and the
    sink answer: it is committed (durable), pending in the sink, discarded, or in
    the frames in hand; no counter wraps. *)
Theorem rp_samples_accounted {W} opus (sink : rp_sink W) os c t :
  reached opus sink os c t ->
  ps_captured_samples (status c) = ps_committed_samples (status c) + ps_pending_samples (status c) +
    ps_discarded_samples (status c) + 320 * ps_segment_frames (status c) /\
  0 <= ps_committed_samples (status c) /\ 0 <= ps_pending_samples (status c) /\ 0 <= ps_discarded_samples (status c) /\
  ps_captured_samples (status c) <= UINT64_MAX /\ 0 <= ps_segments (status c) <= INT32_MAX /\
  (ps_pending_segments (status c) = 0 <-> ps_pending_samples (status c) = 0).
Proof.
  intros H%reached_resting. assert (Ha : accounted c) by (destruct H as [(_ & H & _)|[(_ & (H & _) & _)|(_ & H & _)]]; exact H).
  destruct Ha. split_and!; try done; destruct ac_pending0 as [[? ?]|(? & ? & _)]; lia.
Qed.

Lemma states_apart st : In st [RP_RECORDING; RP_PAUSED; RP_DRAINING] ->
  In st [RP_STOPPED; RP_FULL; RP_OVERFLOW; RP_LOW_POWER] \/ In st [RP_IDLE; RP_STOPPED; RP_FULL; RP_OVERFLOW; RP_LOW_POWER] -> False.
Proof. cbn. intros Hin E. destruct Hin as [<-|[<-|[<-|[]]]]; intuition discriminate. Qed.

(** C4. The pipeline keeps the sink's contract, whatever Opus and the sink answer:
    the log of its calls is a history the contract allows ([post]), and while a
    recording is open the status says of it exactly what the history says: the
    durable segments and their samples, and the submission that is pending. *)
Theorem rp_sink_contract {W} opus (sink : rp_sink W) os c t :
  reached opus sink os c t ->
  exists l, ledger_of (oc_parser opus) (pc_async c) closed t = Some l /\
    (In (ps_state (status c)) [RP_RECORDING; RP_PAUSED; RP_DRAINING] -> l = ledger_at c false) /\
    (In (ps_state (status c)) [RP_STOPPED; RP_FULL; RP_OVERFLOW; RP_LOW_POWER] -> l = closed).
Proof.
  intros H%reached_resting. destruct H as [(E & _ & _ & l & Hr)|[(E & (_ & _ & Hr) & _)|(E & _ & _ & _ & _ & Hr)]].
  - exists l. split; [done|]. by rewrite E; split; intros Hin; cbn in Hin; intuition discriminate.
  - exists (ledger_at c false). split; [done|]. split; [done|]. intros Hin. by destruct (states_apart _ E (or_introl Hin)).
  - exists closed. split; [done|]. split; [|done]. intros Hin. by destruct (states_apart _ Hin (or_intror E)).
Qed.

(** * A concrete run: two frames, an end request, and a poll that finds the
    submission durable. *)
Definition demo_codec : opus_codec := {|
  oc_parser := OpusParser (fun _ _ => 320) (fun _ => 1) (fun _ => 1);
  oc_version := Some "libopus 1.6.1-fixed"%string; oc_size := 1000;
  oc_init := fun _ e => (0, e); oc_ctl := fun _ e => (0, e); oc_lookahead := fun e => (0, Some 104, e);
  oc_encode := fun e _ => (60, fill 60 0x80, e)
|}.
Definition demo_sink : rp_sink unit := {|
  sk_reserve := fun _ w => (RP_IO_OK, w);
  sk_seal_commit := fun _ _ _ w => (RP_IO_PENDING, zero_segment_receipt, w);
  sk_finalize := fun f w => (RP_IO_OK, FinalReceipt f 1, w);
  sk_poll := fun b w =>
    match es_build_local b (no_bytes ES_HEADER_BYTES) with
    | Some h => (RP_IO_OK, SegmentReceipt 1 h, w)
    | None => (RP_IO_FAILED, zero_segment_receipt, w)
    end
|}.
Definition demo_session : es_binding := EsBinding (fill 32 7) (fill 16 1) (fill 16 2) (fill 16 3) 5 0 0.
Definition demo_calls : list rp_op :=
  [OpStart (Some demo_session) 0; OpPush 0 (Some (Obj 0 (fill 320 0))); OpPush 320 (Some (Obj 0 (fill 320 0))); OpEnd RP_REASON_USER; OpPoll].
Definition demo_init : Z * (pipeline * (list sink_event * unit)) :=
  init_core true RP_MANUAL RP_WORKER_STACK_MIN RP_PROFILE_LEGACY_VOIP true (boot_pipeline, ([], tt)).
Definition demo_end : pipeline * (list sink_event * unit) := snd (run_ops demo_codec (logged demo_sink) demo_calls (snd demo_init)).
Lemma rp_demo_reached : reached demo_codec demo_sink demo_calls (fst demo_end) (fst (snd demo_end)).
Proof.
  assert (H : fst demo_init = RP_OK /\ length (fst (snd (snd demo_init))) = 0%nat) by (by vm_compute).
  unfold demo_end. destruct demo_init as [rc [c [t w]]] eqn:E. destruct H as [H1 H2]. cbn [fst snd] in *. subst rc.
  apply nil_length_inv in H2. subst t. destruct w.
  exists c, tt, (snd (snd (snd (run_ops demo_codec (logged demo_sink) demo_calls (c, ([], tt)))))). split.
  - by exists true, RP_MANUAL, RP_WORKER_STACK_MIN, RP_PROFILE_LEGACY_VOIP, true, ([], tt).
  - by destruct (run_ops demo_codec (logged demo_sink) demo_calls (c, ([], tt))) as [[] [c' [t' w']]].
Qed.
Lemma rp_samples_accounted_witness : exists c t, reached demo_codec demo_sink demo_calls c t /\
  ps_captured_samples (status c) = 640 /\ ps_committed_samples (status c) = 640 /\
  ps_captured_samples (status c) = ps_committed_samples (status c) + ps_pending_samples (status c) +
    ps_discarded_samples (status c) + 320 * ps_segment_frames (status c).
Proof.
  assert (H : ps_captured_samples (status (fst demo_end)) = 640 /\ ps_committed_samples (status (fst demo_end)) = 640) by (by vm_compute).
  exists (fst demo_end), (fst (snd demo_end)). split; [exact rp_demo_reached|]. split; [exact (proj1 H)|]. split; [exact (proj2 H)|].
  exact (proj1 (rp_samples_accounted demo_codec demo_sink _ _ _ rp_demo_reached)).
Defined.
Lemma rp_sink_contract_witness : exists c t, reached demo_codec demo_sink demo_calls c t /\
  length t = 4%nat /\ ps_state (status c) = RP_STOPPED /\ ledger_of (oc_parser demo_codec) (pc_async c) closed t = Some closed.
Proof.
  assert (H : length (fst (snd demo_end)) = 4%nat /\ ps_state (status (fst demo_end)) = RP_STOPPED) by (by vm_compute).
  exists (fst demo_end), (fst (snd demo_end)). split; [exact rp_demo_reached|]. split; [exact (proj1 H)|]. split; [exact (proj2 H)|].
  destruct (rp_sink_contract demo_codec demo_sink _ _ _ rp_demo_reached) as (l & E & _ & Hl).
  rewrite E. f_equal. apply Hl. rewrite (proj2 H). by left.
Defined.
