(* ===== verification/PipelineWorld.v ===== *)
(** What a sink's callbacks keep, the pipeline keeps: a predicate of the world
    that every callback preserves holds after every call of the pipeline. *)
From S2P Require Import Prelude SegmentHeader RecordTypes PlainSegment Wp RecordingPipeline.

Section World.
Context {W : Type} (opus : opus_codec) (sink : rp_sink W) (J : W -> Prop).
(** A computation that preserves [J], whatever the pipeline's own state. *)
Definition worldly {A} (m : M (pipeline * W) A) : Prop := forall s, J (snd s) -> J (snd (snd (m s))).
Lemma worldly_ret {A} (a : A) : worldly (ret a).
Proof. by intros s H. Qed.
Lemma worldly_bind {A B} (m : M (pipeline * W) A) (k : A -> M (pipeline * W) B) : worldly m -> (forall a, worldly (k a)) -> worldly (bind m k).
Proof. intros Hm Hk s H%Hm. unfold bind. destruct (m s) as [a s']. by apply Hk. Qed.
Lemma worldly_on_ok (m k : M (pipeline * W) Z) : worldly m -> worldly k -> worldly (on_ok m k).
Proof. intros Hm Hk. apply worldly_bind; [done|]. intros rc. destruct (rc =? 0); [done|by intros s H]. Qed.
Lemma worldly_own {A} (k : pipeline -> M (pipeline * W) A) : (forall c, worldly (k c)) -> worldly (own k).
Proof. intros Hk s. apply Hk. Qed.
Lemma worldly_change f : worldly (change f : M (pipeline * W) unit).
Proof. by intros s H. Qed.
Lemma worldly_call {A} (f : W -> A * W) : (forall w, J w -> J (snd (f w))) -> worldly (call f).
Proof. intros Hf [c w] H%Hf. unfold call. cbn in *. by destruct (f w). Qed.

Ltac world :=
  repeat first
    [ solve [auto 2]
    | match goal with
      | |- worldly (ret _) => apply worldly_ret
      | |- worldly (change _) => apply worldly_change
      | |- worldly (status_set _) => apply worldly_change
      | |- worldly clear => apply worldly_change
      | |- worldly (on_ok _ _) => apply worldly_on_ok
      | |- worldly (bind _ _) => apply worldly_bind; [|intros ?]
      | |- worldly (own _) => apply worldly_own; intros ?
      | |- worldly (call _) => apply worldly_call
      | |- worldly (locked _) => unfold locked
      | |- worldly (match ?x with _ => _ end) => destruct x
      end
    | progress (cbv beta zeta) ].
Lemma worldly_fault rc reason : worldly (fault rc reason).
Proof. unfold fault. world. Qed.
Hint Resolve worldly_fault : core.
Lemma worldly_CODEC f k : worldly k -> worldly (CODEC f k).
Proof. intros Hk. unfold CODEC. world. Qed.
Lemma worldly_codec_init : worldly (codec_init opus).
Proof. unfold codec_init. world. repeat (apply worldly_CODEC; world). Qed.
Lemma worldly_encode pcm flushing : worldly (encode opus pcm flushing).
Proof. unfold encode. world. Qed.
Hint Resolve worldly_codec_init worldly_encode : core.

(** Starting calls one callback only. *)
Lemma worldly_rp_start identity first : (forall b w, J w -> J (snd (sk_reserve sink b w))) -> worldly (rp_start opus sink identity first).
Proof. intros Hr. unfold rp_start, start_session. world. Qed.
Lemma worldly_rp_external_fault : worldly rp_external_fault.
Proof. unfold rp_external_fault. world. Qed.
Lemma worldly_rp_get_status out : worldly (rp_get_status out).
Proof. unfold rp_get_status. world. Qed.
Lemma worldly_rp_select_mode mode : worldly (rp_select_mode mode).
Proof. unfold rp_select_mode. world. Qed.
Lemma worldly_init_core callbacks mode stack profile poll : worldly (init_core callbacks mode stack profile poll).
Proof. unfold init_core. world. Qed.

Context (Hseal : forall b p n w, J w -> J (snd (sk_seal_commit sink b p n w)))
  (Hfinalize : forall f w, J w -> J (snd (sk_finalize sink f w))) (Hpoll : forall b w, J w -> J (snd (sk_poll sink b w))).
Lemma worldly_poll_pending : worldly (poll_pending sink).
Proof. unfold poll_pending. world. Qed.
Hint Resolve worldly_poll_pending : core.
Lemma worldly_submit : worldly (submit opus sink).
Proof. unfold submit, submitted. world. Qed.
Hint Resolve worldly_submit : core.
Lemma worldly_seal : worldly (seal opus sink).
Proof. unfold seal. world. Qed.
Lemma worldly_finalize reason : worldly (finalize sink reason).
Proof. unfold finalize. world. Qed.
Hint Resolve worldly_seal worldly_finalize : core.
Lemma worldly_finish reason : worldly (finish opus sink reason).
Proof. unfold finish, drain. world. Qed.
Hint Resolve worldly_finish : core.
Lemma worldly_pause_finish : worldly (pause_finish opus sink).
Proof. unfold pause_finish, pause_drain. world. Qed.
Hint Resolve worldly_pause_finish : core.
Lemma worldly_rp_poll : worldly (rp_poll opus sink).
Proof. unfold rp_poll. world. Qed.
Lemma worldly_rp_push_frame first pcm : worldly (rp_push_frame opus sink first pcm).
Proof. unfold rp_push_frame. world. Qed.
Lemma worldly_rp_end reason : worldly (rp_end opus sink reason).
Proof. unfold rp_end. world. Qed.
End World.
