(* ===== verification/RecordingWorker.v ===== *)
(** The recording worker ([recording_worker.c/.h]): one session from its start
    to its finalized stop.  It owns the frame queue and the pipeline, gives the
    pipeline a sink made of the caller's hooks, and watches a deadline around
    every hook.

    The pipeline's calls run over the worker's memory and the world: the state of
    an outer call is [pipeline * (rw_mem * W)], that of an inner one [rw_mem * W].
    The producer's calls ([rw_submit], [rw_request_stop]) preempt the worker at
    every access to shared memory and inside every hook; each is cut into the
    sections its own accesses delimit, and a section runs between two of the
    worker's. *)
From S2P Require Import Prelude FrameQueue SegmentHeader RecordTypes PlainSegment Wp RecordingPipeline.

Definition RW_CALL_BUDGET_MAX_MS : Z := 8000.
Definition RW_CAPACITY_MAX_SLOTS : Z := 5120.
Definition RW_DRAIN_BUDGET_JOBS : Z := 3.
Definition RW_EPOCH_MAX : Z := 0x7fffffff.
Definition RW_EPOCH_FAULT : Z := 0x80000000.
Definition RW_UNINITIALIZED : Z := 0.
Definition RW_IDLE : Z := 1.
Definition RW_STARTING : Z := 2.
Definition RW_RUNNING : Z := 3.
Definition RW_STOPPING : Z := 4.
Definition RW_STOPPED : Z := 5.
Definition RW_FAULT : Z := 6.
Definition RW_DRAINING : Z := 7.
Definition RW_NONE : Z := 0.
Definition RW_USER : Z := 1.
Definition RW_LOW_POWER : Z := 2.
Definition RW_OVERFLOW : Z := 3.
Definition RW_CONTINUITY : Z := 4.
Definition RW_EXTERNAL : Z := 5.
Definition RW_TIMEOUT : Z := 6.
Definition RW_CLOCK : Z := 7.
Definition RW_CORE : Z := 8.
Definition RW_STOP_FAILED : Z := 9.
Definition RW_ADMISSION : Z := 10.
Definition RW_FULL : Z := 11.
Definition RW_RELEASE_FAILED : Z := 12.
Definition RW_OK : Z := 0.
Definition RW_WAIT : Z := 1.
Definition RW_COMPLETE : Z := 2.
Definition RW_ARGUMENT : Z := -1.
Definition RW_BUSY : Z := -2.
Definition RW_STATE : Z := -3.
Definition RW_STALE : Z := -4.
Definition RW_STOPPED_INPUT : Z := -5.
Definition RW_ERROR : Z := -6.
Definition RW_NO_CAPACITY : Z := -7.
Definition RW_CANCELLED : Z := -8.

Record rw_readiness := Readiness {
  owner_verified : Z; recovery_verified : Z; store_ready : Z; capture_ready : Z; power_safe : Z; profile_qualified : Z
}.
Record rw_status := RwStatus {
  ws_state : Z; ws_epoch : Z; ws_reason : Z; ws_stop_reason : Z; ws_fault : Z; ws_lease_held : Z; ws_producer_fenced : Z;
  ws_queue_closed : Z; ws_supervisor_armed : Z; ws_supervisor_confirmed : Z; ws_queue_summary_valid : Z; ws_mode : Z;
  ws_error : Z; ws_callback_error : Z; ws_worker_discarded_frames : Z; ws_queue : rfq_summary; ws_pipeline : rp_status;
  ws_capacity_known : Z; ws_admitted_frames : Z
}.
#[export] Instance eta_rw_status : Eta rw_status := fun s =>
  RwStatus (ws_state s) (ws_epoch s) (ws_reason s) (ws_stop_reason s) (ws_fault s) (ws_lease_held s) (ws_producer_fenced s)
    (ws_queue_closed s) (ws_supervisor_armed s) (ws_supervisor_confirmed s) (ws_queue_summary_valid s) (ws_mode s) (ws_error s)
    (ws_callback_error s) (ws_worker_discarded_frames s) (ws_queue s) (ws_pipeline s) (ws_capacity_known s) (ws_admitted_frames s).
Definition zero_rw_status : rw_status := RwStatus 0 0 0 0 0 0 0 0 0 0 0 0 0 0 0 (Summary 0 0 0 0 0 0 0 0) zero_rp_status 0 0.

(** The calls a producer makes, and where one of them is once it holds the gate. *)
Inductive rw_call := Submit (epoch first : Z) (pcm : ptr (list Z)) | RequestStop (epoch reason : Z).
Inductive rw_phase := Entered (c : rw_call) | Pushing (first : Z) (pcm : obj (list Z)).

(** The file's statics.  [wk_poll], [wk_capacity]: the pointer is not NULL;
    [wk_gate]: the producer's gate, and the call that holds it. *)
Record rw_mem := RwMem {
  wk_poll : bool; wk_capacity : bool; wk_report : rw_status; wk_frame : rfq_frame; wk_budget : Z; wk_last_now : Z;
  wk_deadline : Z; wk_drain_deadline : Z; wk_pending_deadline : Z; wk_clock_seen : bool; wk_queue_initialized : bool;
  wk_capture_possible : bool; wk_stop_attempted : bool; wk_unsafe : bool; wk_unsafe_reason : Z; wk_remaining_frames : Z;
  wk_queue : rfq_queue; wk_entry : Z; wk_gate : Z; wk_in_flight : option rw_phase; wk_initialized : Z; wk_state : Z;
  wk_epoch : Z; wk_stop : Z; wk_external : Z
}.
#[export] Instance eta_rw_mem : Eta rw_mem := fun m =>
  RwMem (wk_poll m) (wk_capacity m) (wk_report m) (wk_frame m) (wk_budget m) (wk_last_now m) (wk_deadline m)
    (wk_drain_deadline m) (wk_pending_deadline m) (wk_clock_seen m) (wk_queue_initialized m) (wk_capture_possible m)
    (wk_stop_attempted m) (wk_unsafe m) (wk_unsafe_reason m) (wk_remaining_frames m) (wk_queue m) (wk_entry m) (wk_gate m)
    (wk_in_flight m) (wk_initialized m) (wk_state m) (wk_epoch m) (wk_stop m) (wk_external m).
Definition boot_worker : rw_mem :=
  RwMem false false zero_rw_status wiped 0 0 0 0 0 false false false false false 0 0 RFQ_INITIALIZER 0 0 None 0 0 0 0 0.
Definition report_upd (f : rw_status -> rw_status) (m : rw_mem) : rw_mem := m <| wk_report ::= f |>.

(** * The producer's calls *)
(** [compare_exchange(&rw_stop, NONE, reason)] *)
Definition latched (reason : Z) (m : rw_mem) : rw_mem :=
  let m := if wk_stop m =? RW_NONE then m <| wk_stop := reason |> else m in
  if reason =? RW_EXTERNAL then m <| wk_external := 1 |> else m.
Definition rw_token (m : rw_mem) : Z := Z.land (wk_epoch m) RW_EPOCH_MAX.
Definition epoch_faulted (m : rw_mem) : bool := negb (Z.land (wk_epoch m) RW_EPOCH_FAULT =? 0).
Definition producer_fault (epoch : Z) (m : rw_mem) : rw_mem :=
  if wk_epoch m =? epoch then m <| wk_epoch := Z.lor epoch RW_EPOCH_FAULT |> else m.
(** [rw_take(&rw_producer)] by a call, and [rw_drop(&rw_producer); return rc;]. *)
Definition admit_call (c : rw_call) (m : rw_mem) : rw_mem := m <| wk_gate := 1 |> <| wk_in_flight := Some (Entered c) |>.
Definition drop_gate (m : rw_mem) : rw_mem := m <| wk_gate := 0 |> <| wk_in_flight := None |>.
Definition stop_requestable (reason : Z) : bool := (reason =? RW_USER) || (reason =? RW_LOW_POWER) || (reason =? RW_EXTERNAL).
(** The first section of a call; [Some rc]: it has returned. *)
Definition enter_call (c : rw_call) (m : rw_mem) : rw_mem * option Z :=
  match c with
  | Submit epoch first pcm =>
      if (epoch =? 0) || (RW_EPOCH_MAX <? epoch) || match pcm with None => true | Some _ => false end then (m, Some RW_ARGUMENT) else
      if negb (epoch =? rw_token m) then (m, Some RW_STALE) else
      if negb (wk_gate m =? 0) then (producer_fault epoch m, Some RW_BUSY) else (admit_call c m, None)
  | RequestStop epoch reason =>
      if negb (stop_requestable reason) then (m, Some RW_ARGUMENT) else
      if (epoch =? 0) || (RW_EPOCH_MAX <? epoch) || negb (epoch =? rw_token m) then (m, Some RW_STALE) else
      if negb (wk_gate m =? 0) then (m, Some RW_BUSY) else (admit_call c m, None)
  end.
(** [rfq_push] and what is latched of it. *)
Definition queue_stopped_as (reason : Z) : Z :=
  if reason =? RFQ_FULL then RW_OVERFLOW
  else if (reason =? RFQ_CONTINUITY) || (reason =? RFQ_SAMPLE_OVERFLOW) then RW_CONTINUITY else RW_EXTERNAL.
Definition push_section (qa : Z) (first : Z) (pcm : obj (list Z)) (m : rw_mem) : rw_mem * Z :=
  let '(rc, _, q, _) := run_alone (rfq_push (Some qa) first (Some (addr pcm)) (deref pcm)) (wk_queue m) in
  let m := m <| wk_queue := q |> in
  if negb (rc =? RFQ_OK) then
    let '(reason, _, q, _) := run_alone (rfq_stop_reason (Some qa)) q in
    (latched (queue_stopped_as reason) (m <| wk_queue := q |>), RW_STOPPED_INPUT)
  else if wk_capacity m then
    let m := m <| wk_remaining_frames ::= fun n => u32 (n - 1) |> in
    ((if wk_remaining_frames m =? 0 then latched RW_FULL m else m), RW_OK)
  else (m, RW_OK).
Definition proceed_call (qa : Z) (m : rw_mem) : rw_mem * option Z :=
  match wk_in_flight m with
  | None => (m, None)
  | Some (Entered (Submit epoch first pcm)) =>
      if negb (epoch =? rw_token m) then (drop_gate m, Some RW_STALE) else
      if epoch_faulted m then (drop_gate (latched RW_EXTERNAL m), Some RW_STOPPED_INPUT) else
      if negb (wk_state m =? RW_RUNNING) || negb (wk_stop m =? RW_NONE) then (drop_gate m, Some RW_STOPPED_INPUT) else
      if wk_capacity m && (wk_remaining_frames m =? 0) then (drop_gate (latched RW_FULL m), Some RW_STOPPED_INPUT) else
      match pcm with
      | Some po => (m <| wk_in_flight := Some (Pushing first po) |>, None)
      | None => (m, None) (* refused by [enter_call] *)
      end
  | Some (Entered (RequestStop epoch reason)) =>
      if negb (epoch =? rw_token m) then (drop_gate m, Some RW_STALE) else
      if negb (wk_state m =? RW_RUNNING) && negb (wk_state m =? RW_STOPPING) && negb (wk_state m =? RW_DRAINING)
      then (drop_gate m, Some RW_STATE) else (drop_gate (latched reason m), Some RW_OK)
  | Some (Pushing first pcm) => let '(m, rc) := push_section qa first pcm m in (drop_gate m, Some rc)
  end.
Inductive interruption := Enter (c : rw_call) | Proceed.
Definition interrupt (qa : Z) (i : interruption) (m : rw_mem) : rw_mem :=
  match i with Enter c => fst (enter_call c m) | Proceed => fst (proceed_call qa m) end.
(** A call alone, from its entry to its return. *)
Definition call_alone (qa : Z) (c : rw_call) (m : rw_mem) : rw_mem * Z :=
  match enter_call c m with
  | (m, Some rc) => (m, rc)
  | (m, None) =>
      match proceed_call qa m with
      | (m, Some rc) => (m, rc)
      | (m, None) => match proceed_call qa m with (m, Some rc) => (m, rc) | (m, None) => (m, RW_OK) (* no fourth section *) end
      end
  end.
Definition rw_submit (qa epoch first : Z) (pcm : ptr (list Z)) : rw_mem -> rw_mem * Z := call_alone qa (Submit epoch first pcm).
Definition rw_request_stop (qa epoch reason : Z) : rw_mem -> rw_mem * Z := call_alone qa (RequestStop epoch reason).

(** * The worker *)
(** [struct rw_hooks], the poll, the capacity query and the start check.
    [preempt]: the sections of producer calls that run before the worker goes on. *)
Record rw_hooks (W : Type) := {
  now_ms : W -> Z * W;
  supervisor_arm : Z -> W -> Z * W;
  supervisor_disarm : W -> Z * W;
  acquire : Z -> W -> (Z * rw_readiness) * W;
  release : Z -> W -> Z * W;
  capture_start : Z -> Z -> Z -> W -> Z * W;
  stop_and_join : Z -> Z -> W -> Z * W;
  reserve : es_binding -> Z -> W -> Z * W;
  seal_commit : es_binding -> bytes -> Z -> Z -> W -> (Z * rp_segment_receipt) * W;
  finalize_hook : rp_completion -> Z -> W -> (Z * rp_final_receipt) * W;
  poll_hook : es_binding -> Z -> W -> (Z * rp_segment_receipt) * W;
  capacity_hook : es_binding -> Z -> W -> (Z * Z) * W;
  consent_hook : Z -> Z -> Z -> W -> Z * W;
  preempt : W -> list interruption * W
}.
Arguments now_ms {W}. Arguments supervisor_arm {W}. Arguments supervisor_disarm {W}. Arguments acquire {W}.
Arguments release {W}. Arguments capture_start {W}. Arguments stop_and_join {W}. Arguments reserve {W}.
Arguments seal_commit {W}. Arguments finalize_hook {W}. Arguments poll_hook {W}. Arguments capacity_hook {W}.
Arguments consent_hook {W}. Arguments preempt {W}.

(** [qa], [frame_at], [summary_at]: where the linker put [rw_queue], [rw.frame]
    and [rw.report.queue]. *)
Section Worker.
Context {W : Type} (hooks : rw_hooks W) (opus : opus_codec) (qa frame_at summary_at : Z).
Definition I : Type := rw_mem * W.
Definition T : Type := pipeline * I.
(** Producer calls run here. *)
Definition preempted : M I unit :=
  do l <- call (preempt hooks);
  change (fun m => fold_left (fun m i => interrupt qa i m) l m).
(** A hook; its producer calls have run when it returns. *)
Definition hook {A} (f : W -> A * W) : M I A := do a <- call f; run preempted; ret a.
(** An access to an atomic. *)
Definition load {A} (f : rw_mem -> A) : M I A := run preempted; own (fun m => ret (f m)).
Definition store (f : rw_mem -> rw_mem) : M I unit := run preempted; change f.
Definition report (f : rw_status -> rw_status) : M I unit := change (report_upd f).
(** A call of the frame queue.  It is one step here: [FrameQueueSpec] shows that
    the queue's calls behave so however their accesses interleave. *)
Definition queue (p : prog) : M I (Z * option rfq_out) :=
  run preempted;
  own (fun m => let '(rc, out, q, _) := run_alone p (wk_queue m) in run change (fun m => m <| wk_queue := q |>); ret (rc, out)).
(** [a && b] *)
Definition both (a b : M I bool) : M I bool := do x <- a; if x then b else ret false.

Definition rw_take_producer : M I bool :=
  run preempted;
  own (fun m => if wk_gate m =? 0 then run change (fun m => m <| wk_gate := 1 |>); ret true else ret false).
Definition rw_drop_producer : M I unit := store drop_gate.
Definition rw_state_set (state : Z) : M I unit :=
  run report (fun s => s <| ws_state := state |>); store (fun m => m <| wk_state := state |>).
Definition rw_latch (reason : Z) : M I unit := store (latched reason).
Definition rw_collect_fault : M I unit := do f <- load epoch_faulted; if f then rw_latch RW_EXTERNAL else ret tt.
Definition is_external : M I bool := load (fun m => negb (wk_external m =? 0)).
Definition stop_reason : M I Z := load wk_stop.
(** [rw.unsafe=1; if(!rw.unsafe_reason) rw.unsafe_reason=reason; rw_latch(reason);] *)
Definition unsafe_unless (reason : Z) : M I unit :=
  run change (fun m => m <| wk_unsafe := true |> <| wk_unsafe_reason := if wk_unsafe_reason m =? 0 then reason else wk_unsafe_reason m |>);
  rw_latch reason.
Definition overdue (m : rw_mem) : bool :=
  (negb (ws_supervisor_armed (wk_report m) =? 0) && (wk_deadline m <=? wk_last_now m)) ||
  (negb (wk_pending_deadline m =? 0) && (wk_pending_deadline m <=? wk_last_now m)) ||
  (negb (wk_drain_deadline m =? 0) && (wk_drain_deadline m <=? wk_last_now m)).
Definition rw_clock : M I bool :=
  do now <- hook (now_ms hooks);
  own (fun m =>
    if wk_clock_seen m && (now <? wk_last_now m) then
      run change (fun m => m <| wk_unsafe := true |> <| wk_unsafe_reason := RW_CLOCK |>);
      run rw_latch RW_CLOCK; ret false
    else
    run change (fun m => m <| wk_clock_seen := true |> <| wk_last_now := now |>);
    own (fun m => if overdue m then run unsafe_unless RW_TIMEOUT; ret false else ret true)).
Definition is_safe : M I bool := own (fun m => ret (negb (wk_unsafe m))).
Definition rw_guard : M I bool :=
  run rw_collect_fault; both rw_clock (both is_safe (do e <- is_external; ret (negb e))).
Definition rw_arm : M I bool :=
  do ok <- rw_clock;
  own (fun m =>
    if negb ok || (UINT64_MAX - wk_budget m <? wk_last_now m) then run unsafe_unless RW_CLOCK; ret false else
    let deadline := wk_last_now m + wk_budget m in
    let deadline := if negb (wk_drain_deadline m =? 0) && (wk_drain_deadline m <? deadline) then wk_drain_deadline m else deadline in
    run change (fun m => m <| wk_deadline := deadline |>);
    run report (fun s => s <| ws_supervisor_armed := 1 |>);
    do rc <- hook (supervisor_arm hooks deadline);
    run report (fun s => s <| ws_callback_error := rc |> <| ws_supervisor_confirmed := if rc =? 0 then 1 else 0 |>);
    do ok <- (if rc =? 0 then rw_clock else ret false);
    if ok then ret true else
    run change (fun m => m <| wk_unsafe := true |>);
    if rc =? 0 then ret false else
    run change (fun m => m <| wk_unsafe_reason := RW_EXTERNAL |>);
    run rw_latch RW_EXTERNAL; ret false).
Definition rw_disarm : M I bool :=
  do ok <- both rw_clock is_safe;
  if negb ok then ret false else
  do rc <- hook (supervisor_disarm hooks);
  run report (fun s => s <| ws_callback_error := rc |> <| ws_supervisor_confirmed := 0 |>);
  do ok <- (if rc =? 0 then rw_clock else ret false);
  if ok then run report (fun s => s <| ws_supervisor_armed := 0 |>); ret true else
  run change (fun m => m <| wk_unsafe := true |>);
  run (if rc =? 0 then ret tt else change (fun m => m <| wk_unsafe_reason := RW_EXTERNAL |>));
  run rw_latch (if rc =? 0 then RW_TIMEOUT else RW_EXTERNAL); ret false.
Definition rw_begin_drain : M I bool :=
  own (fun m =>
    if negb (wk_poll m) || negb (wk_drain_deadline m =? 0) then rw_guard else
    do ok <- rw_guard;
    own (fun m =>
      if negb ok || (ws_producer_fenced (wk_report m) =? 0) || wk_capture_possible m then ret false else
      let span := wk_budget m * RW_DRAIN_BUDGET_JOBS in
      if UINT64_MAX - span <? wk_last_now m then
        run change (fun m => m <| wk_unsafe := true |> <| wk_unsafe_reason := RW_CLOCK |>);
        run rw_latch RW_CLOCK; ret false
      else run change (fun m => m <| wk_drain_deadline := wk_last_now m + span |>); ret true)).
Definition rw_new_job : M I bool :=
  do ok <- rw_guard;
  own (fun m =>
    if negb ok || negb (wk_pending_deadline m =? 0) then ret false else
    if wk_drain_deadline m =? 0 then ret true else both rw_disarm rw_arm).

(** ** Stopping the producer *)
Definition rw_fault : M I unit :=
  do stopped <- stop_reason;
  run report (fun s => s <| ws_fault := 1 |> <| ws_stop_reason := stopped |>);
  own (fun m =>
    run (if wk_unsafe m then report (fun s => s <| ws_reason := wk_unsafe_reason m |>) else
      do e <- is_external;
      report (fun s => s <| ws_reason := if e then RW_EXTERNAL else if ws_reason s =? 0 then ws_stop_reason s else ws_reason s |>));
    run report (fun s => s <| ws_reason := if ws_reason s =? 0 then RW_CORE else ws_reason s |>);
    rw_state_set RW_FAULT).
(** [rw.report.reason=RW_STOP_FAILED; rw_latch(RW_STOP_FAILED); rw_fault(); return 0;] *)
Definition stop_failed : M I bool :=
  run report (fun s => s <| ws_reason := RW_STOP_FAILED |>); run rw_latch RW_STOP_FAILED; run rw_fault; ret false.
Definition queue_open (m : rw_mem) : bool := wk_queue_initialized m && (ws_queue_closed (wk_report m) =? 0).
(** Capture is stopped, once. *)
Definition stop_capture : M I bool :=
  own (fun m =>
    if negb (wk_capture_possible m) then ret true else
    if wk_stop_attempted m then run report (fun s => s <| ws_reason := RW_STOP_FAILED |>); run rw_fault; ret false else
    run change (fun m => m <| wk_stop_attempted := true |>);
    do token <- load rw_token;
    own (fun m =>
    do rc <- hook (stop_and_join hooks token (wk_deadline m));
    run report (fun s => s <| ws_callback_error := rc |>);
    run rw_clock;
    if negb (rc =? 0) then stop_failed else run change (fun m => m <| wk_capture_possible := false |>); ret true)).
Definition rw_fence : M I bool :=
  run rw_state_set RW_STOPPING;
  own (fun m =>
  run (if queue_open m then do r <- queue (rfq_request_stop (Some qa)); ret tt else ret tt);
  do stopped <- stop_capture;
  if negb stopped then ret false else
  do taken <- rw_take_producer;
  if negb taken then stop_failed else
  own (fun m =>
  do fenced <- (if queue_open m then do r <- queue (rfq_confirm_producer_stopped (Some qa)); ret (fst r =? RFQ_OK) else ret true);
  if negb fenced then run rw_drop_producer; stop_failed else
  run report (fun s => s <| ws_producer_fenced := 1 |>);
  run rw_drop_producer; ret true)).
Definition rw_close_queue : M I bool :=
  own (fun m =>
    if negb (queue_open m) then ret true else
    do r <- queue (rfq_discard (Some qa));
    do summary <- (if fst r =? 0 then queue (rfq_get_summary (Some qa) (Some summary_at)) else ret (fst r, None));
    match summary with
    | (0, Some (OutSummary s)) =>
        run report (fun t => t <| ws_queue := s |> <| ws_queue_closed := 1 |> <| ws_queue_summary_valid := 1 |>); ret true
    | _ => run rw_latch RW_CORE; run rw_fault; ret false
    end).
Definition rw_release_lease : M I bool :=
  own (fun m =>
    if ws_lease_held (wk_report m) =? 0 then ret true else
    do ok <- rw_guard;
    if negb ok then ret false else
    own (fun m =>
    do rc <- hook (release hooks (wk_deadline m));
    run report (fun s => s <| ws_callback_error := rc |>);
    do ok <- (if rc =? 0 then rw_clock else ret false);
    if ok then run report (fun s => s <| ws_lease_held := 0 |>); ret true else
    run report (fun s => s <| ws_reason := RW_RELEASE_FAILED |>); run rw_latch RW_RELEASE_FAILED; ret false)).

(** ** The pipeline's sink *)
Definition rw_reserve (s : es_binding) : M I Z :=
  do ok <- rw_guard;
  if negb ok then ret RP_IO_FAILED else
  own (fun m => do rc <- hook (reserve hooks s (wk_deadline m)); run rw_clock; ret rc).
(** The receipt a hook did not get to write is the zeroed one it was given. *)
Definition rw_commit (s : es_binding) (p : bytes) (n : Z) : M I (Z * rp_segment_receipt) :=
  do ok <- rw_new_job;
  if negb ok then ret (RP_IO_FAILED, zero_segment_receipt) else
  own (fun m =>
  do r <- hook (seal_commit hooks s p n (wk_deadline m));
  run change (fun m => if fst r =? RP_IO_PENDING then m <| wk_pending_deadline := wk_deadline m |> else m);
  run report (fun t => if (fst r =? RP_IO_FULL) && wk_capacity m then t <| ws_fault := 1 |> else t);
  run rw_clock; ret r).
Definition rw_poll (s : es_binding) : M I (Z * rp_segment_receipt) :=
  own (fun m =>
    if negb (wk_poll m) then ret (RP_IO_FAILED, zero_segment_receipt) else
    do ok <- rw_guard;
    own (fun m =>
    if negb ok || (wk_pending_deadline m =? 0) then ret (RP_IO_FAILED, zero_segment_receipt) else
    do r <- hook (poll_hook hooks s (wk_deadline m));
    run rw_clock;
    run change (fun m => if fst r =? RP_IO_OK then m <| wk_pending_deadline := 0 |> else m);
    ret r)).
Definition rw_finalize (s : rp_completion) : M I (Z * rp_final_receipt) :=
  let failed := ret (RP_IO_FAILED, zero_final_receipt) in
  do ok <- rw_guard;
  if negb ok then failed else
  own (fun m =>
  do fenced <- (
    if negb (ws_producer_fenced (wk_report m) =? 0) && negb (ws_queue_closed (wk_report m) =? 0) then ret true else
    if negb (pc_reason s =? RP_REASON_FULL) then run rw_latch RW_CORE; ret false else
    run rw_latch RW_FULL; both rw_fence (both rw_close_queue rw_guard));
  if negb fenced then failed else
  do ok <- both rw_begin_drain rw_new_job;
  if negb ok then failed else
  own (fun m => do r <- hook (finalize_hook hooks s (wk_deadline m)); run rw_clock; ret r)).
Definition bridge : rp_sink I := {|
  sk_reserve := rw_reserve; sk_seal_commit := rw_commit; sk_finalize := rw_finalize; sk_poll := rw_poll
|}.

(** ** Around the pipeline *)
Definition inner {A} (m : M I A) : M T A := call m.
Definition rw_entered (body : M T Z) : M T Z :=
  do taken <- inner (own (fun m => if wk_entry m =? 0 then run change (fun m => m <| wk_entry := 1 |>); ret true else ret false));
  if negb taken then ret RW_BUSY else
  do rc <- body;
  run inner (change (fun m => m <| wk_entry := 0 |>)); ret rc.
Definition memory : M T rw_mem := inner (own ret).
Definition set_error (rc : Z) : M T unit := inner (report (fun s => s <| ws_error := rc |>)).
Definition rw_pipeline : M T bool :=
  do r <- rp_get_status true;
  match r with
  | (0, Some s) => run inner (report (fun t => t <| ws_pipeline := s |>)); ret true
  | (rc, _) =>
      run inner (report (fun t => t <| ws_error := rc |> <| ws_fault := 1 |>));
      run inner (rw_latch RW_CORE); ret false
  end.
Definition rw_wipe : M T unit := inner (change (fun m => m <| wk_frame := wiped |>)).
Definition discarded : M T unit := inner (report (fun s => s <| ws_worker_discarded_frames ::= fun n => u64 (n + 1) |>)).
(** The frame in hand goes to the pipeline. *)
Definition rw_feed : M T Z :=
  do ok <- rw_pipeline;
  do ok <- (if ok then inner rw_guard else ret false);
  if negb ok then run discarded; run rw_wipe; ret RW_ERROR else
  do m <- memory;
  let before := ps_captured_samples (ws_pipeline (wk_report m)) in
  do rc <- rp_push_frame opus bridge (fr_first_sample (wk_frame m)) (Some (Obj (frame_at + 8) (fr_pcm (wk_frame m))));
  run rw_wipe;
  run set_error rc;
  run inner rw_clock;
  do ok <- rw_pipeline;
  if negb ok then ret RW_ERROR else
  do m <- memory;
  let after := ps_captured_samples (ws_pipeline (wk_report m)) in
  if after =? before then run discarded; ret rc else
  if (UINT64_MAX - 320 <? before) || negb (after =? before + 320) then
    run inner (report (fun s => s <| ws_fault := 1 |>));
    run inner (rw_latch RW_CORE); ret RW_ERROR
  else ret rc.

(** ** Shutting down *)
Definition drains (reason : Z) (m : rw_mem) : bool :=
  (reason =? RW_USER) || (reason =? RW_LOW_POWER) || (reason =? RW_OVERFLOW) || ((reason =? RW_FULL) && wk_capacity m).
Definition may_drain : M T bool :=
  do ok <- inner (
    do reason <- stop_reason;
    own (fun m => if wk_unsafe m then ret false else do e <- is_external; ret (negb e && drains reason m)));
  do read <- rw_pipeline;
  do m <- memory;
  if negb ok || negb read || negb (ps_state (ws_pipeline (wk_report m)) =? RP_RECORDING) || negb (ws_queue_closed (wk_report m) =? 0)
  then ret false else inner rw_begin_drain.
(** The accepted frames still queued, at most [n] of them. *)
Fixpoint drain_frames (n : nat) : M T unit :=
  match n with
  | O => ret tt
  | S n =>
      do ok <- inner rw_guard;
      if negb ok then ret tt else
      do r <- inner (queue (rfq_pop (Some qa) (Some frame_at)));
      match r with
      | (rc, out) =>
          if rc =? RFQ_DRAINED then ret tt else
          match out with
          | Some (OutFrame f) =>
              run inner (change (fun m => m <| wk_frame := f |>));
              do rc <- rw_feed;
              do m <- memory;
              if negb (rc =? 0) || wk_unsafe m then ret tt else drain_frames n
          | _ => run inner (rw_latch RW_CORE); inner (report (fun s => s <| ws_fault := 1 |>))
          end
      end
  end.
Definition is_finalizable (reason : Z) : M T bool :=
  inner (own (fun m =>
    if negb (ws_fault (wk_report m) =? 0) then ret false else
    do ok <- rw_guard; ret (ok && drains reason m))).
Definition end_reason (reason : Z) : Z :=
  if reason =? RW_FULL then RP_REASON_FULL else if reason =? RW_LOW_POWER then RP_REASON_LOW_POWER
  else if reason =? RW_OVERFLOW then RP_REASON_OVERFLOW else RP_REASON_USER.
(** The session is ended, or faulted. *)
Definition end_session (reason : Z) (finalizable : bool) : M T unit :=
  do m <- memory;
  let state := ps_state (ws_pipeline (wk_report m)) in
  if (state =? RP_RECORDING) || (state =? RP_PAUSED) || ((state =? RP_DRAINING) && negb finalizable) then
    do rc <- (if finalizable then rp_end opus bridge (end_reason reason) else rp_external_fault);
    run set_error rc;
    run inner rw_clock; ret tt
  else ret tt.
Definition fault_error : M T Z := run inner rw_fault; ret RW_ERROR.
Definition one (n : Z) : bool := n =? 1.
Definition ended_clean (reason : Z) (external : bool) (m : rw_mem) : bool :=
  let p := ws_pipeline (wk_report m) in
  negb (wk_unsafe m) && negb external && (ws_fault (wk_report m) =? 0) &&
  ((reason =? RW_USER) || (reason =? RW_LOW_POWER) || (reason =? RW_FULL)) &&
  one (ps_buffers_wiped p) && (ps_commit_uncertain p =? 0) && one (ps_manifest_finalized p) && (ps_pending_segments p =? 0).
(** What is reported of the session. *)
Definition report_reason : M T Z :=
  do m <- memory;
  run inner (if (ps_reason (ws_pipeline (wk_report m)) =? RP_REASON_FULL) && negb (wk_unsafe m) then rw_latch RW_FULL else ret tt);
  do reason <- inner stop_reason;
  run inner (report (fun s => s <| ws_stop_reason := reason |> <| ws_reason := reason |>));
  do m <- memory;
  let p := ws_pipeline (wk_report m) in
  do external <- (if wk_unsafe m then ret true else inner is_external);
  run inner (report (fun s => if (ps_reason p =? RP_REASON_FULL) && negb external then s <| ws_reason := RW_FULL |> else s));
  do external <- (if wk_unsafe m then ret true else inner is_external);
  run inner (report (fun s => if (ps_state p =? RP_FAULT) && negb external &&
    ((reason =? RW_USER) || (reason =? RW_LOW_POWER) || (reason =? RW_FULL) || (reason =? RW_NONE)) then s <| ws_reason := RW_CORE |> else s));
  ret reason.
(** The lease is released and the supervisor disarmed. *)
Definition conclude (reason : Z) : M T Z :=
  do external <- inner is_external;
  do m <- memory;
  let clean := ended_clean reason external m in
  let p := ws_pipeline (wk_report m) in
  do released <- (if negb (wk_unsafe m) && negb (ps_buffers_wiped p =? 0) && (ps_commit_uncertain p =? 0)
                  then inner rw_release_lease else ret false);
  do disarmed <- inner rw_disarm;
  if clean && released && disarmed then run inner (rw_state_set RW_STOPPED); ret RW_COMPLETE else fault_error.
Definition settle (reason : Z) (finalizable : bool) : M T Z :=
  do m <- memory;
  do waiting <- (
    if negb (ps_state (ws_pipeline (wk_report m)) =? RP_DRAINING) then ret (Some false) else
    do wait <- (if wk_poll m && finalizable then inner rw_guard else ret false);
    if wait then ret (Some true) else
    run rp_external_fault;
    do read <- rw_pipeline;
    ret (if read then Some false else None));
  match waiting with
  | None => fault_error
  | Some true =>
      run inner (report (fun s => s <| ws_reason := reason |> <| ws_stop_reason := reason |>));
      run inner (rw_state_set RW_DRAINING); ret RW_WAIT
  | Some false =>
      do m <- memory;
      let p := ws_pipeline (wk_report m) in
      if negb (ps_pending_segments p =? 0) || (wk_poll m && negb (ps_commit_uncertain p =? 0)) then fault_error else
      do reason <- report_reason;
      conclude reason
  end.
Definition rw_shutdown : M T Z :=
  do m <- memory;
  if ws_supervisor_confirmed (wk_report m) =? 0 then fault_error else
  do fenced <- inner rw_fence;
  if negb fenced then ret RW_ERROR else
  do can <- may_drain;
  run (if can then drain_frames (Z.to_nat RFQ_CAPACITY) else ret tt);
  do closed <- inner rw_close_queue;
  if negb closed then ret RW_ERROR else
  do read <- rw_pipeline;
  if negb read then fault_error else
  do reason <- inner stop_reason;
  do finalizable <- is_finalizable reason;
  run end_session reason finalizable;
  run rw_wipe;
  do read <- rw_pipeline;
  if negb read then fault_error else settle reason finalizable.

(** ** Initializing *)
(** [given]: every hook is there; [lock_free]: what [atomic_is_lock_free] answers. *)
Definition rw_init_core (given lock_free poll capacity : bool) (mode stack budget : Z) : M T Z :=
  if negb given || (negb (mode =? RP_MANUAL) && negb (mode =? RP_CONTINUOUS)) || (stack <? RP_WORKER_STACK_MIN) || (budget =? 0) ||
     (RW_CALL_BUDGET_MAX_MS <? budget) then ret RW_ARGUMENT else
  if negb lock_free then ret RW_ARGUMENT else
  rw_entered (
    do m <- memory;
    if negb (wk_initialized m =? 0) then ret RW_STATE else
    run inner (change (fun m => m <| wk_initialized := 1 |> <| wk_poll := poll |> <| wk_capacity := capacity |> <| wk_budget := budget |>));
    run inner (report (fun s => s <| ws_mode := mode |>));
    do rc <- (if poll then rp_init_async_profile true true mode stack RP_PROFILE_CELT_LOW_DELAY
              else rp_init_profile true mode stack RP_PROFILE_CELT_LOW_DELAY);
    if rc =? 0 then run inner (rw_state_set RW_IDLE); ret RW_OK else
    run inner (rw_latch RW_CORE); run inner rw_fault; ret RW_ERROR).
Definition rw_init (given lock_free : bool) : Z -> Z -> Z -> M T Z := rw_init_core given lock_free false false.
Definition rw_init_async (given lock_free poll : bool) (mode stack budget : Z) : M T Z :=
  if negb poll then ret RW_ARGUMENT else rw_init_core given lock_free true false mode stack budget.
Definition rw_init_capacity_async (given lock_free poll capacity : bool) (mode stack budget : Z) : M T Z :=
  if negb poll || negb capacity then ret RW_ARGUMENT else rw_init_core given lock_free true true mode stack budget.
Definition at_rest (m : rw_mem) : bool := (ws_state (wk_report m) =? RW_IDLE) || (ws_state (wk_report m) =? RW_STOPPED).
Definition rw_select_mode (mode : Z) : M T Z :=
  if negb (mode =? RP_MANUAL) && negb (mode =? RP_CONTINUOUS) then ret RW_ARGUMENT else
  rw_entered (
    do m <- memory;
    if at_rest m && (ws_fault (wk_report m) =? 0) then
      do rc <- rp_select_mode mode;
      run inner (report (fun s => if rc =? 0 then s <| ws_mode := mode |> else s)); ret rc
    else ret RW_STATE).

(** ** Starting *)
(** [rw_latch(RW_ADMISSION); (void)rw_release_lease(); (void)rw_disarm(); rw_fault();] *)
Definition not_admitted : M T Z :=
  run inner (rw_latch RW_ADMISSION); run inner rw_release_lease; run inner rw_disarm; fault_error.
(** The start is given up before a session exists. *)
Definition withdrawn (reason rc : Z) : M T Z :=
  run inner (rw_latch reason);
  run inner (report (fun s => s <| ws_reason := reason |> <| ws_stop_reason := reason |>));
  do ok <- inner (both rw_release_lease rw_disarm);
  if ok then run inner (rw_state_set RW_IDLE); ret rc else fault_error.
Definition ready_ok (r : rw_readiness) : bool :=
  one (owner_verified r) && one (recovery_verified r) && one (store_ready r) && one (capture_ready r) && one (power_safe r) &&
  one (profile_qualified r).
(** The start check before a session exists. *)
Definition early_consent (consent : bool) (k : M T Z) : M T Z :=
  if negb consent then k else
  do m <- memory;
  do admitted <- inner (hook (consent_hook hooks 0 0 (wk_deadline m)));
  do ok <- inner rw_guard;
  if negb ok || (admitted <? 0) || (1 <? admitted) then not_admitted else
  if admitted =? 0 then k else withdrawn RW_USER RW_CANCELLED.
Definition query_capacity (s : es_binding) (k : M T Z) : M T Z :=
  do m <- memory;
  if negb (wk_capacity m) then k else
  do r <- inner (hook (capacity_hook hooks s (wk_deadline m)));
  run inner (report (fun t => t <| ws_callback_error := fst r |>));
  do ok <- inner rw_guard;
  let slots := snd r in
  if negb ok || negb (fst r =? 0) || (RW_CAPACITY_MAX_SLOTS <? slots) then not_admitted else
  run inner (report (fun t => t <| ws_capacity_known := 1 |> <| ws_admitted_frames := u32 (slots * RP_SEGMENT_FRAMES) |>));
  if slots =? 0 then withdrawn RW_FULL RW_NO_CAPACITY else
  run inner (change (fun m => m <| wk_remaining_frames := u32 (slots * RP_SEGMENT_FRAMES) |>)); k.
Definition acquire_lease (k : M T Z) : M T Z :=
  do m <- memory;
  do r <- inner (hook (acquire hooks (wk_deadline m)));
  run inner (report (fun s => s <| ws_callback_error := fst r |> <| ws_lease_held := if fst r =? 0 then 1 else ws_lease_held s |>));
  do ok <- inner rw_clock;
  if negb ok || negb (fst r =? 0) || negb (ready_ok (snd r)) then not_admitted else k.
(** A queue for the session, under a new epoch. *)
Definition open_queue (lock_free : bool) (first : Z) (k : Z -> M T Z) : M T Z :=
  do taken <- inner rw_take_producer;
  if negb taken then run inner (rw_latch RW_STOP_FAILED); fault_error else
  do m <- memory;
  do q <- inner (queue (if wk_queue_initialized m then rfq_rearm_closed (Some qa) first else rfq_init (Some qa) lock_free first));
  if negb (fst q =? 0) then run inner rw_drop_producer; run inner (rw_latch RW_CORE); fault_error else
  run inner (change (fun m => m <| wk_queue_initialized := true |>));
  do previous <- inner (load rw_token);
  do moved <- inner (run preempted; own (fun m =>
    if wk_epoch m =? previous then run change (fun m => m <| wk_epoch := previous + 1 |>); ret true else ret false));
  if negb moved then
    do token <- inner (load rw_token);
    run inner (report (fun s => s <| ws_epoch := token |>));
    run inner rw_drop_producer; run inner rw_collect_fault; rw_shutdown
  else
    run inner (report (fun s => s <| ws_epoch := previous + 1 |>));
    run inner rw_drop_producer; k (previous + 1).
(** The start check of the session that exists. *)
Definition late_consent (consent : bool) (epoch : Z) (k : M T Z) : M T Z :=
  if negb consent then k else
  do m <- memory;
  do admitted <- inner (hook (consent_hook hooks epoch 1 (wk_deadline m)));
  do ok <- inner rw_guard;
  if negb ok || (admitted <? 0) || (1 <? admitted) then run inner (rw_latch RW_EXTERNAL); rw_shutdown else
  if admitted =? 0 then k else run inner (rw_latch RW_USER); rw_shutdown.
Definition start_capture (epoch first : Z) : M T Z :=
  run inner (change (fun m => m <| wk_capture_possible := true |>));
  run inner (rw_state_set RW_RUNNING);
  do m <- memory;
  do rc <- inner (hook (capture_start hooks epoch first (wk_deadline m)));
  run inner (report (fun s => s <| ws_callback_error := rc |>));
  run inner rw_clock;
  do ok <- inner (if rc =? 0 then rw_guard else ret false);
  run inner (if ok then ret tt else rw_latch RW_EXTERNAL);
  do reason <- inner stop_reason;
  if negb (reason =? RW_NONE) then rw_shutdown else
  do ok <- inner rw_disarm;
  if ok then ret RW_OK else rw_shutdown.
Definition begin_session (s : es_binding) (first epoch : Z) (consent : bool) : M T Z :=
  do ok <- inner rw_guard;
  if negb ok then run inner (rw_latch RW_EXTERNAL); rw_shutdown else
  do rc <- rp_start opus bridge (Some s) first;
  run set_error rc;
  run inner rw_clock;
  do ok <- inner (if rc =? 0 then rw_guard else ret false);
  if negb ok then run inner (rw_latch (if rc =? RP_STORAGE_FULL then RW_FULL else RW_CORE)); rw_shutdown else
  late_consent consent epoch (start_capture epoch first).
Definition new_session : M I unit :=
  run report (fun s => zero_rw_status <| ws_mode := ws_mode s |>);
  run store (fun m => m <| wk_stop := RW_NONE |>);
  run store (fun m => m <| wk_external := 0 |>);
  run change (fun m => m <| wk_unsafe := false |> <| wk_unsafe_reason := 0 |> <| wk_stop_attempted := false |>
                         <| wk_drain_deadline := 0 |> <| wk_pending_deadline := 0 |>);
  rw_state_set RW_STARTING.
Definition rw_start_inner (lock_free : bool) (identity : option es_binding) (first : Z) (consent : bool) : M T Z :=
  match identity with
  | None => ret RW_ARGUMENT
  | Some s =>
      if negb (start_binding_ok s first) then ret RW_ARGUMENT else
      rw_entered (
        do m <- memory;
        do token <- inner (load wk_epoch);
        if negb (at_rest m) || negb (ws_fault (wk_report m) =? 0) || negb (ws_lease_held (wk_report m) =? 0) || (RW_EPOCH_MAX <=? token)
        then ret RW_STATE else
        run inner new_session;
        do armed <- inner rw_arm;
        if negb armed then fault_error else
        acquire_lease (early_consent consent (query_capacity s (early_consent consent (
          open_queue lock_free first (fun epoch => begin_session s first epoch consent))))))
  end.
Definition rw_start (lock_free : bool) (identity : option es_binding) (first : Z) : M T Z := rw_start_inner lock_free identity first false.
(** [check]: the start check is there. *)
Definition rw_start_controlled (lock_free : bool) (identity : option es_binding) (first : Z) (check : bool) : M T Z :=
  do m <- memory;
  if negb check || negb (wk_capacity m) then ret RW_ARGUMENT else rw_start_inner lock_free identity first true.

(** ** Stepping *)
Definition drain_step : M T Z :=
  do m <- memory;
  let s := wk_report m in
  if (ws_supervisor_confirmed s =? 0) || (ws_producer_fenced s =? 0) || (ws_queue_closed s =? 0) then
    run inner (report (fun s => s <| ws_fault := 1 |>));
    run inner (rw_latch RW_CORE); fault_error
  else
  do ok <- inner rw_guard;
  if negb ok then rw_shutdown else
  do polled <- rp_poll opus bridge;
  run set_error polled;
  run inner rw_clock;
  run inner rw_collect_fault;
  do read <- rw_pipeline;
  if negb read then fault_error else
  run (if (polled <? 0) && negb (polled =? RP_STORAGE_FULL)
       then run inner (report (fun s => s <| ws_fault := 1 |>)); inner (rw_latch RW_CORE) else ret tt);
  do ok <- inner rw_guard;
  do m <- memory;
  if negb ok || (polled <? 0) || negb (ps_state (ws_pipeline (wk_report m)) =? RP_DRAINING) then rw_shutdown else ret RW_WAIT.
Definition disarm_or_stop (rc : Z) : M T Z := do ok <- inner rw_disarm; if ok then ret rc else rw_shutdown.
Definition idle_step : M T Z :=
  do m <- memory;
  if negb (wk_poll m) then disarm_or_stop RW_WAIT else
  do polled <- rp_poll opus bridge;
  run set_error polled;
  run inner rw_clock;
  run inner rw_collect_fault;
  do ok <- inner (if polled <? 0 then ret false else rw_guard);
  if ok then disarm_or_stop RW_WAIT else run inner (rw_latch RW_CORE); rw_shutdown.
Definition frame_step : M T Z :=
  do rc <- rw_feed;
  run inner rw_collect_fault;
  do m <- memory;
  run inner (if negb (rc =? 0) || wk_unsafe m then rw_latch (if rc =? RP_STORAGE_FULL then RW_FULL else RW_CORE) else ret tt);
  do reason <- inner stop_reason;
  if negb (reason =? RW_NONE) then rw_shutdown else disarm_or_stop RW_OK.
Definition running_step : M T Z :=
  do armed <- inner rw_arm;
  if negb armed then rw_shutdown else
  run inner rw_collect_fault;
  do reason <- inner stop_reason;
  if negb (reason =? RW_NONE) then rw_shutdown else
  do r <- inner (queue (rfq_pop (Some qa) (Some frame_at)));
  if fst r =? RFQ_EMPTY then idle_step else
  match snd r with
  | Some (OutFrame f) => run inner (change (fun m => m <| wk_frame := f |>)); frame_step
  | _ => run inner (rw_latch RW_CORE); rw_shutdown
  end.
Definition rw_step : M T Z :=
  rw_entered (
    do m <- memory;
    let state := ws_state (wk_report m) in
    if state =? RW_DRAINING then drain_step else if state =? RW_RUNNING then running_step else ret RW_STATE).
Definition rw_get_status (out : bool) : M T (Z * option rw_status) :=
  if negb out then ret (RW_ARGUMENT, None) else
  do m <- memory;
  if negb (wk_entry m =? 0) then ret (RW_BUSY, None) else
  do r <- rp_get_status true;
  match r with
  | (0, Some s) =>
      run inner (report (fun t => t <| ws_pipeline := s |>));
      do m <- memory; ret (RW_OK, Some (wk_report m))
  | _ => ret (RW_ERROR, None)
  end.
End Worker.
