(* ===== verification/WorkerSafety.v ===== *)
(** The recording worker over logged hooks: an automaton says which hook may be
    called when, and no run of the worker's calls, however the producer's calls
    interleave with them, leaves it. *)
From S2P Require Import Prelude FrameQueue SegmentHeader RecordTypes PlainSegment Wp RecordingPipeline PipelineWorld RecordingWorker.

(** * The log of hook calls, and the order they keep *)
Inductive hook_event :=
  | EvNow (now : Z)
  | EvArm (deadline rc : Z) | EvDisarm (rc : Z)
  | EvAcquire (deadline rc : Z) | EvRelease (deadline rc : Z)
  | EvCapture (epoch first deadline rc : Z) | EvStop (epoch deadline rc : Z)
  (** reserve, seal_commit, poll, capacity or the start check *)
  | EvHook (deadline : Z)
  | EvFinalize (deadline : Z).
Definition logged {W} (h : rw_hooks W) : rw_hooks (list hook_event * W) := {|
  now_ms := fun '(t, w) => let '(n, w) := now_ms h w in (n, (t ++ [EvNow n], w));
  supervisor_arm := fun d '(t, w) => let '(rc, w) := supervisor_arm h d w in (rc, (t ++ [EvArm d rc], w));
  supervisor_disarm := fun '(t, w) => let '(rc, w) := supervisor_disarm h w in (rc, (t ++ [EvDisarm rc], w));
  acquire := fun d '(t, w) => let '(r, w) := acquire h d w in (r, (t ++ [EvAcquire d (fst r)], w));
  release := fun d '(t, w) => let '(rc, w) := release h d w in (rc, (t ++ [EvRelease d rc], w));
  capture_start := fun e f d '(t, w) => let '(rc, w) := capture_start h e f d w in (rc, (t ++ [EvCapture e f d rc], w));
  stop_and_join := fun e d '(t, w) => let '(rc, w) := stop_and_join h e d w in (rc, (t ++ [EvStop e d rc], w));
  reserve := fun b d '(t, w) => let '(rc, w) := reserve h b d w in (rc, (t ++ [EvHook d], w));
  seal_commit := fun b p n d '(t, w) => let '(r, w) := seal_commit h b p n d w in (r, (t ++ [EvHook d], w));
  finalize_hook := fun f d '(t, w) => let '(r, w) := finalize_hook h f d w in (r, (t ++ [EvFinalize d], w));
  poll_hook := fun b d '(t, w) => let '(r, w) := poll_hook h b d w in (r, (t ++ [EvHook d], w));
  capacity_hook := fun b d '(t, w) => let '(r, w) := capacity_hook h b d w in (r, (t ++ [EvHook d], w));
  consent_hook := fun e s d '(t, w) => let '(rc, w) := consent_hook h e s d w in (rc, (t ++ [EvHook d], w));
  preempt := fun '(t, w) => let '(l, w) := preempt h w in (l, (t, w))
|}.

Inductive mic := MicOff | MicOn | MicStuck.
#[export] Instance mic_eq_dec : EqDecision mic.
Proof. solve_decision. Defined.
(** [su_armed]: the deadline of the supervisor, while it stands confirmed;
    [su_last]: the latest time; [su_expired]: the clock went back, a supervised
    deadline passed, or the supervisor refused. *)
Record supervised := Supervised { su_armed : option Z; su_last : option Z; su_expired : bool; su_lease : bool; su_mic : mic }.
#[export] Instance eta_supervised : Eta supervised := fun s =>
  Supervised (su_armed s) (su_last s) (su_expired s) (su_lease s) (su_mic s).
Definition unsupervised : supervised := Supervised None None false false MicOff.
(** A hook that is given the deadline the supervisor stands armed with, in time. *)
Definition in_time (d : Z) (s : supervised) : bool := bool_decide (su_armed s = Some d) && negb (su_expired s).
Definition supervise (s : supervised) (e : hook_event) : option supervised :=
  match e with
  | EvNow n =>
      let back := match su_last s with Some l => n <? l | None => false end in
      let late := match su_armed s with Some d => d <=? n | None => false end in
      Some (s <| su_last := if back then su_last s else Some n |> <| su_expired := su_expired s || back || late |>)
  | EvArm d rc =>
      if bool_decide (su_armed s = None) && negb (su_expired s)
      then Some (s <| su_armed := if rc =? 0 then Some d else None |> <| su_expired := negb (rc =? 0) |>) else None
  | EvDisarm rc =>
      if negb (bool_decide (su_armed s = None)) && negb (su_expired s)
      then Some (s <| su_armed := None |> <| su_expired := negb (rc =? 0) |>) else None
  | EvAcquire d rc =>
      if in_time d s && negb (su_lease s) && bool_decide (su_mic s = MicOff) then Some (s <| su_lease := rc =? 0 |>) else None
  | EvRelease d rc =>
      if in_time d s && su_lease s && bool_decide (su_mic s = MicOff) then Some (s <| su_lease := negb (rc =? 0) |>) else None
  | EvCapture _ _ d _ =>
      if in_time d s && su_lease s && bool_decide (su_mic s = MicOff) then Some (s <| su_mic := MicOn |>) else None
  | EvStop _ d rc =>
      if bool_decide (su_armed s = Some d) && su_lease s && bool_decide (su_mic s = MicOn)
      then Some (s <| su_mic := if rc =? 0 then MicOff else MicStuck |>) else None
  | EvHook d => if in_time d s && su_lease s then Some s else None
  | EvFinalize d => if in_time d s && su_lease s && bool_decide (su_mic s = MicOff) then Some s else None
  end.
Fixpoint supervision (s : supervised) (t : list hook_event) : option supervised :=
  match t with
  | [] => Some s
  | e :: t => match supervise s e with Some s => supervision s t | None => None end
  end.
Lemma supervision_snoc t s s' e : supervision s t = Some s' -> supervision s (t ++ [e]) = supervise s' e.
Proof.
  revert s. induction t as [|e' t IH]; intros s H; cbn in *; [injection H as ->; by destruct (supervise _ _)|].
  destruct (supervise s e'); [by apply IH|done].
Qed.

(** * The worker's memory and the automaton *)
Definition confirmed (m : rw_mem) : Prop := ws_supervisor_confirmed (wk_report m) <> 0.
Definition mic_of (m : rw_mem) : mic := if wk_capture_possible m then if wk_stop_attempted m then MicStuck else MicOn else MicOff.
(** What the worker's memory says of the automaton's state; [x]: the microphone
    and the lease as the automaton has them. *)
Record agrees (x : mic * bool) (m : rw_mem) (a : supervised) : Prop := {
  ag_armed : su_armed a = if ws_supervisor_confirmed (wk_report m) =? 0 then None else Some (wk_deadline m);
  ag_flag : confirmed m -> ws_supervisor_armed (wk_report m) <> 0;
  ag_last : su_last a = if wk_clock_seen m then Some (wk_last_now m) else None;
  ag_expired : su_expired a = true -> wk_unsafe m = true;
  ag_lease : su_lease a = snd x;
  ag_mic : su_mic a = fst x;
  ag_fenced : ws_producer_fenced (wk_report m) <> 0 -> wk_capture_possible m = false
}.
Section Inv.
Context {W : Type}.
Definition IW : Type := rw_mem * (list hook_event * W).
Definition obeys (x : mic * bool) (s : IW) : Prop :=
  exists a, supervision unsupervised (fst (snd s)) = Some a /\ agrees x (fst s) a.
Definition inv (y : bool) (s : IW) : Prop := obeys (mic_of (fst s), y) s.
End Inv.

(** ** What changes and what does not *)
(** The fields only the worker writes. *)
Definition owned (m : rw_mem) :=
  (wk_poll m, wk_capacity m, wk_report m, wk_frame m, wk_budget m, wk_last_now m, wk_deadline m, wk_drain_deadline m,
   (wk_pending_deadline m, wk_clock_seen m, wk_queue_initialized m, wk_capture_possible m, wk_stop_attempted m, wk_unsafe m,
    wk_unsafe_reason m, wk_entry m, wk_initialized m)).
(** A preemption: nothing of the worker's own. *)
Definition touched (m m' : rw_mem) : Prop := owned m' = owned m.
(** The session: nothing the clock or a latch changes. *)
Definition core (m : rw_mem) :=
  let s := wk_report m in
  (ws_state s, ws_lease_held s, ws_producer_fenced s, ws_queue_closed s, ws_pipeline s, ws_fault s,
   (wk_capture_possible m, wk_stop_attempted m, wk_queue_initialized m, wk_poll m, wk_capacity m)).
Definition guarded (m : rw_mem) :=
  (ws_supervisor_armed (wk_report m), ws_supervisor_confirmed (wk_report m), wk_deadline m).
Definition spoils (m m' : rw_mem) : Prop := wk_unsafe m = true -> wk_unsafe m' = true.
Definition kept (m m' : rw_mem) : Prop := core m' = core m /\ spoils m m'.
Definition framed (m m' : rw_mem) : Prop := kept m m' /\ guarded m' = guarded m.
Lemma kept_refl m : kept m m.
Proof. split; [done|by intros ?]. Qed.
Lemma worker_kept_trans m1 m2 m3 : kept m1 m2 -> kept m2 m3 -> kept m1 m3.
Proof. intros [E1 H1] [E2 H2]. split; [congruence|by intros H; apply H2, H1]. Qed.
Lemma framed_refl m : framed m m.
Proof. split; [apply kept_refl|done]. Qed.
Lemma framed_trans m1 m2 m3 : framed m1 m2 -> framed m2 m3 -> framed m1 m3.
Proof. intros [H1 E1] [H2 E2]. split; [by eapply worker_kept_trans|congruence]. Qed.
Lemma touched_framed m m' : touched m m' -> framed m m'.
Proof. unfold touched, owned. intros [=]. repeat split; unfold core, guarded, spoils; congruence. Qed.
Lemma touched_trans m1 m2 m3 : touched m1 m2 -> touched m2 m3 -> touched m1 m3.
Proof. unfold touched. congruence. Qed.
Lemma agrees_touched x m m' a : touched m m' -> agrees x m a -> agrees x m' a.
Proof.
  unfold touched, owned. intros [=] []. unfold confirmed in *.
  split; unfold confirmed; repeat match goal with E : _ m' = _ m |- _ => rewrite E; clear E end; done.
Qed.
Lemma obeys_touched {W} x m m' t (w w' : W) : touched m m' -> obeys x (m, (t, w)) -> obeys x (m', (t, w')).
Proof. intros H (a & E & Ha). exists a. split; [done|by eapply agrees_touched]. Qed.

(** ** Preemption *)
Lemma touched_latched reason m : touched m (latched reason m).
Proof. unfold latched. by destruct (_ =? _), (_ =? _). Qed.
Lemma touched_enter c m : touched m (fst (enter_call c m)).
Proof. destruct c; cbn [enter_call]; unfold producer_fault, admit_call; by repeat case_match. Qed.
Lemma touched_push qa first pcm m : touched m (fst (push_section qa first pcm m)).
Proof.
  unfold push_section. destruct (run_alone _ _) as [[[rc out] q] evs]. cbv zeta. destruct (negb _).
  - destruct (run_alone _ _) as [[[rc' out'] q'] evs']. eapply touched_trans; [|apply touched_latched]. done.
  - destruct (wk_capacity _); [|done]. destruct (_ =? 0); [|done]. eapply touched_trans; [|apply touched_latched]. done.
Qed.
Lemma touched_drop m : touched m (drop_gate m).
Proof. done. Qed.
Lemma touched_interrupt qa i m : touched m (interrupt qa i m).
Proof.
  destruct i; cbn [interrupt]; [apply touched_enter|]. unfold proceed_call. pose proof touched_latched as Hl.
  assert (Hd : forall m', touched m m' -> touched m (drop_gate m')) by (intros m' H; by eapply touched_trans, touched_drop).
  destruct (wk_in_flight m) as [[[epoch first pcm|epoch reason]|first pcm]|]; [| |..|done].
  - repeat case_match; first [reflexivity|apply Hd, Hl].
  - repeat case_match; first [reflexivity|apply Hd, Hl].
  - pose proof (touched_push qa first pcm m) as H. destruct (push_section _ _ _ _) as [m' rc]. by apply Hd.
Qed.
Lemma touched_interrupts qa l : forall m, touched m (fold_left (fun m i => interrupt qa i m) l m).
Proof.
  induction l as [|i l IH]; intros m; cbn [fold_left]; [done|]. eapply touched_trans; [apply (touched_interrupt qa i)|apply IH].
Qed.

(** * The worker's inner calls *)
Section Inner.
Context {W : Type} (h : rw_hooks W) (qa frame_at summary_at : Z).
Abbreviation H := (logged h).
Abbreviation IW := (rw_mem * (list hook_event * W))%type.
Implicit Types (m : rw_mem) (t : list hook_event) (w : W) (x : mic * bool) (y : bool).

(** A computation that only lets the producer run. *)
Definition quiet {A} (o : M IW A) : Prop := forall m t w, wp o (fun _ s => touched m (fst s) /\ fst (snd s) = t) (m, (t, w)).
Lemma wp_quiet {A} (o : M IW A) Q m t w : quiet o -> (forall a m' w', touched m m' -> Q a (m', (t, w'))) -> wp o Q (m, (t, w)).
Proof. intros Ho HQ. eapply wp_mono; [apply Ho|]. intros a [m' [t' w']] [Ht E]. cbn in *. subst t'. by apply HQ. Qed.
Lemma quiet_ret {A} (a : A) : quiet (ret a : M IW A).
Proof. by intros m t w. Qed.
Lemma quiet_bind {A B} (o : M IW A) (k : A -> M IW B) : quiet o -> (forall a, quiet (k a)) -> quiet (bind o k).
Proof.
  intros Ho Hk m t w. apply wp_bind, wp_quiet; [done|]. intros a m' w' Hm. eapply wp_mono; [apply Hk|].
  intros b s [H1 H2]. split; [by eapply touched_trans|done].
Qed.
Lemma quiet_own {A} (k : rw_mem -> M IW A) : (forall m, quiet (k m)) -> quiet (own k).
Proof. intros Hk m t w. apply wp_own, Hk. Qed.
Lemma quiet_change f : (forall m, touched m (f m)) -> quiet (change f : M IW unit).
Proof. intros Hf m t w. apply wp_change. by split. Qed.
Lemma quiet_preempted : quiet (preempted H qa).
Proof.
  intros m t w. unfold preempted. apply wp_bind, wp_call. intros l s E. cbn in E. destruct (preempt h w) as [l' w'].
  injection E as <- <-. apply wp_change. split; [apply touched_interrupts|done].
Qed.
Lemma quiet_load {A} (f : rw_mem -> A) : quiet (load H qa f).
Proof. apply quiet_bind; [apply quiet_preempted|]. intros _. by apply quiet_own. Qed.
Lemma quiet_store f : (forall m, touched m (f m)) -> quiet (store H qa f).
Proof. intros Hf. apply quiet_bind; [apply quiet_preempted|]. intros _. by apply quiet_change. Qed.
Lemma quiet_latch reason : quiet (rw_latch H qa reason).
Proof. apply quiet_store, touched_latched. Qed.
Lemma quiet_queue p : quiet (queue H qa p).
Proof.
  apply quiet_bind; [apply quiet_preempted|]. intros _ m t w. apply wp_own. destruct (run_alone _ _) as [[[rc out] q] evs].
  by apply wp_bind, wp_change, wp_ret.
Qed.
Lemma quiet_collect : quiet (rw_collect_fault H qa).
Proof. apply quiet_bind; [apply quiet_load|]. intros [|]; [apply quiet_latch|apply quiet_ret]. Qed.
Lemma quiet_take : quiet (rw_take_producer H qa).
Proof.
  apply quiet_bind; [apply quiet_preempted|]. intros _. apply quiet_own. intros m. destruct (_ =? 0); [|apply quiet_ret].
  apply quiet_bind; [by apply quiet_change|intros _; apply quiet_ret].
Qed.
Lemma quiet_drop : quiet (rw_drop_producer H qa).
Proof. by apply quiet_store. Qed.

(** A hook adds its event. *)
Lemma wp_hook {A} (f : list hook_event * W -> A * (list hook_event * W)) (e : A -> hook_event) Q m t w :
  (forall t w, exists a w', f (t, w) = (a, (t ++ [e a], w'))) ->
  (forall a m' w', touched m m' -> Q a (m', (t ++ [e a], w'))) -> wp (hook H qa f) Q (m, (t, w)).
Proof.
  intros Hf HQ. unfold hook. apply wp_bind, wp_call. intros a s E. destruct (Hf t w) as (a' & w' & E'). rewrite E in E'. injection E' as -> ->.
  apply wp_bind, wp_quiet; [apply quiet_preempted|]. intros [] m' w'' Hm. by apply wp_ret, HQ.
Qed.
Ltac logs := intros ?t ?w; cbn; destruct (_ : _ * _) as [?a ?w']; do 2 eexists; reflexivity.

Lemma obeys_step x' m' t (w' : W) e a a' : supervision unsupervised t = Some a -> supervise a e = Some a' -> agrees x' m' a' ->
  obeys x' (m', (t ++ [e], w')).
Proof. intros E E' Ha. exists a'. split; [|done]. cbn [fst snd]. by rewrite (supervision_snoc _ _ a). Qed.

Definition clocked x m (ok : bool) (s : IW) : Prop :=
  obeys x s /\ framed m (fst s) /\ wk_unsafe (fst s) = if ok then wk_unsafe m else true.
(** What the automaton makes of the time. *)
Definition ticks (n : Z) (a : supervised) : supervised :=
  let back := match su_last a with Some l => n <? l | None => false end in
  let late := match su_armed a with Some d => d <=? n | None => false end in
  a <| su_last := if back then su_last a else Some n |> <| su_expired := su_expired a || back || late |>.
Lemma agrees_spoiled x m a n : agrees x m a -> wk_clock_seen m && (n <? wk_last_now m) = true ->
  agrees x (m <| wk_unsafe := true |> <| wk_unsafe_reason := RW_CLOCK |>) (ticks n a).
Proof.
  intros [] [E1 E2]%andb_prop. unfold ticks. rewrite E1 in ag_last0. rewrite ag_last0, E2.
  split; try done. cbn. by rewrite E1.
Qed.
Lemma agrees_ticked x m a n u r : agrees x m a -> wk_clock_seen m && (n <? wk_last_now m) = false ->
  (overdue (m <| wk_last_now := n |>) = true -> u = true) -> (wk_unsafe m = true -> u = true) ->
  agrees x (m <| wk_clock_seen := true |> <| wk_last_now := n |> <| wk_unsafe := u |> <| wk_unsafe_reason := r |>) (ticks n a).
Proof.
  intros [] E Hu Hs.
  assert (Eb : (match su_last a with Some l => n <? l | None => false end) = false)
    by (rewrite ag_last0; by destruct (wk_clock_seen m)).
  unfold ticks. rewrite Eb. split; try done. cbn. rewrite orb_false_r. intros [Ex|El]%orb_prop; [auto|]. apply Hu.
  rewrite ag_armed0 in El. destruct (Z.eqb_spec (ws_supervisor_confirmed (wk_report m)) 0) as [|Hc]; [done|].
  unfold overdue. cbn. specialize (ag_flag0 Hc). apply Z.eqb_neq in ag_flag0. by rewrite ag_flag0, El.
Qed.
Lemma wp_clock x m t w : obeys x (m, (t, w)) -> wp (rw_clock H qa) (clocked x m) (m, (t, w)).
Proof.
  intros (a & E & Ha). cbn [fst snd] in *. unfold rw_clock. apply wp_bind. eapply (wp_hook _ EvNow); [intros t' w'; cbn; destruct (now_ms h w'); eauto|].
  intros n m1 w1 Hm. assert (Hf := touched_framed _ _ Hm). assert (Eu : wk_unsafe m1 = wk_unsafe m) by by injection Hm.
  apply (agrees_touched x _ _ _ Hm) in Ha. apply wp_own. wp_step.
  - apply wp_bind, wp_change, wp_bind, wp_quiet; [apply quiet_latch|]. intros _ m3 w3 H3. apply wp_ret.
    assert (Eu3 : wk_unsafe m3 = true) by by injection H3. split_and!; [|eapply framed_trans; [exact Hf|]|done].
    + eapply (obeys_step x); [exact E|reflexivity|]. eapply agrees_touched; [exact H3|]. by apply agrees_spoiled.
    + eapply framed_trans; [|by apply touched_framed]. repeat split; by intros ?.
  - apply wp_bind, wp_change, wp_own. wp_step.
    + unfold unsafe_unless. apply wp_bind, wp_bind, wp_change, wp_quiet; [apply quiet_latch|]. intros _ m3 w3 H3. apply wp_ret.
      assert (Eu3 : wk_unsafe m3 = true) by by injection H3. split_and!; [|eapply framed_trans; [exact Hf|]|done].
      * eapply (obeys_step x); [exact E|reflexivity|]. eapply agrees_touched; [exact H3|]. by apply agrees_ticked.
      * eapply framed_trans; [|by apply touched_framed]. repeat split; by intros ?.
    + apply wp_ret. split_and!; [|eapply framed_trans; [exact Hf|]; by repeat split; intros ?|done].
      eapply (obeys_step x); [exact E|reflexivity|].
      eapply agrees_touched; [|apply (agrees_ticked x m1 a n (wk_unsafe m1) (wk_unsafe_reason m1) Ha C); [|done]]; [done|].
      intros Ho. change (overdue _) with (overdue (m1 <| wk_last_now := n |>)) in C0. by rewrite Ho in C0.
Qed.

(** Nothing that the automaton, the session or the clock speaks of. *)
Definition plain m m' : Prop :=
  core m' = core m /\ guarded m' = guarded m /\ wk_unsafe m' = wk_unsafe m /\ wk_clock_seen m' = wk_clock_seen m /\ wk_last_now m' = wk_last_now m.
Lemma plain_framed m m' : plain m m' -> framed m m'.
Proof. intros (E1 & E2 & E3 & _). repeat split; [done| |done]. intros E. congruence. Qed.
Lemma agrees_plain x m m' a : plain m m' -> agrees x m a -> agrees x m' a.
Proof.
  intros (E1 & E2 & E3 & E4 & E5) []. unfold core, guarded in *. injection E1 as ? ? ? ? ? ? ? ? ? ? ?. injection E2 as ? ? ?. unfold confirmed in *.
  split; unfold confirmed; repeat match goal with E : _ = _ (wk_report m) |- _ => rewrite E; clear E | E : _ m' = _ m |- _ => rewrite E; clear E end; done.
Qed.
Lemma obeys_plain x m m' t w w' : plain m m' -> obeys (W := W) x (m, (t, w)) -> obeys (W := W) x (m', (t, w')).
Proof. intros Hp (a & E & Ha). exists a. split; [done|by eapply agrees_plain]. Qed.
Lemma touched_plain m m' : touched m m' -> plain m m'.
Proof. unfold touched, owned. intros [=]. split_and!; unfold core, guarded; congruence. Qed.
Lemma agrees_unsafe x m a r : agrees x m a -> agrees x (m <| wk_unsafe := true |> <| wk_unsafe_reason := r |>) a.
Proof. intros []. by split. Qed.
Lemma obeys_unsafe x m t w w' r : obeys (W := W) x (m, (t, w)) -> obeys (W := W) x (m <| wk_unsafe := true |> <| wk_unsafe_reason := r |>, (t, w')).
Proof. intros (a & E & Ha). exists a. split; [done|by apply agrees_unsafe]. Qed.

Definition safely x m (ok : bool) (s : IW) : Prop :=
  obeys x s /\ framed m (fst s) /\ (ok = true -> wk_unsafe (fst s) = false).
Lemma safely_framed x m m' ok s : framed m m' -> safely x m' ok s -> safely x m ok s.
Proof. intros Hf (H1 & H2 & H3). split_and!; [done|by eapply framed_trans|done]. Qed.
Lemma wp_quietly x {A} (o : M IW A) (Q : A -> IW -> Prop) m t w : quiet o -> obeys x (m, (t, w)) ->
  (forall a m' w', framed m m' -> wk_unsafe m' = wk_unsafe m -> obeys x (m', (t, w')) -> Q a (m', (t, w'))) -> wp o Q (m, (t, w)).
Proof.
  intros Ho Hx HQ. apply wp_quiet; [done|]. intros a m' w' Hm. apply HQ; [by apply touched_framed|by injection Hm|by eapply obeys_touched].
Qed.
Lemma wp_rw_guard x m t w : obeys x (m, (t, w)) -> wp (rw_guard H qa) (safely x m) (m, (t, w)).
Proof.
  intros Hx. unfold rw_guard, both. apply wp_bind, (wp_quietly x); [apply quiet_collect|done|]. intros _ m1 w1 H1 _ Hx1.
  apply wp_bind. eapply wp_mono; [by apply wp_clock|]. intros ok [m2 [t2 w2]] (Hx2 & H2 & _). cbn [fst] in *.
  assert (H12 : framed m m2) by by eapply framed_trans.
  destruct ok; [|apply wp_ret; by split_and!]. apply wp_bind. unfold is_safe. apply wp_own, wp_ret. destruct (wk_unsafe m2) eqn:Eu; cbn [negb]; [apply wp_ret; by split_and!|].
  apply wp_bind, (wp_quietly x); [apply quiet_load|done|]. intros e m3 w3 H3 Eu3 Hx3. apply wp_ret.
  split_and!; [done|by eapply framed_trans|]. intros _. cbn [fst]. congruence.
Qed.

(** ** The supervisor *)
Definition armed_post x m (ok : bool) (s : IW) : Prop :=
  obeys x s /\ kept m (fst s) /\ (if ok then wk_unsafe (fst s) = false /\ confirmed (fst s) else wk_unsafe (fst s) = true).
Lemma wp_unsafe_unless x reason m t w : obeys x (m, (t, w)) ->
  wp (unsafe_unless H qa reason) (fun _ s => obeys x s /\ kept m (fst s) /\ wk_unsafe (fst s) = true) (m, (t, w)).
Proof.
  intros Hx. unfold unsafe_unless. apply wp_bind, wp_change, (wp_quietly x); [apply quiet_latch|by eapply obeys_unsafe|].
  intros _ m1 w1 [H1 _] E Hx1. split_and!; [done| |exact E]. eapply worker_kept_trans; [|exact H1]. by split; [|by intros ?].
Qed.
Lemma agrees_sup x m m' a f c d e : agrees x m a -> core m' = core m -> guarded m' = (f, c, d) ->
  wk_clock_seen m' = wk_clock_seen m -> wk_last_now m' = wk_last_now m -> (c <> 0 -> f <> 0) -> (e = true -> wk_unsafe m' = true) ->
  agrees x m' (a <| su_armed := if c =? 0 then None else Some d |> <| su_expired := e |>).
Proof.
  unfold core, guarded. intros [] E1 E2 E4 E5 Hf He. injection E1 as ? ? ? ? ? ? ? ? ? ? ?. injection E2 as <- <- <-. unfold confirmed in *.
  split; unfold confirmed; cbn [su_armed su_last su_expired su_lease su_mic field_upd eta eta_supervised];
    repeat match goal with E : _ = _ (wk_report m) |- _ => rewrite E; clear E | E : _ m' = _ m |- _ => rewrite E; clear E end; try done.
Qed.
Ltac own_fields H :=
  injection H as ? ? ? ? ? ? ? ? ? ? ? ? ? ? ? ? ?; cbn in *;
  repeat match goal with E : ?f ?m = _ |- context [?f ?m] => rewrite E end.
Lemma wp_arm x m t w : obeys x (m, (t, w)) -> ws_supervisor_confirmed (wk_report m) = 0 -> wk_unsafe m = false ->
  wp (rw_arm H qa) (armed_post x m) (m, (t, w)).
Proof.
  intros Hx Hc Hu. unfold rw_arm. apply wp_bind. eapply wp_mono; [by apply wp_clock|].
  intros ok [m1 [t1 w1]] (Hx1 & [Hk1 Hg1] & Hu1). cbn [fst] in *. apply wp_own. wp_step.
  { apply wp_bind. eapply wp_mono; [by apply (wp_unsafe_unless x)|]. intros _ s (H1 & H2 & H3). apply wp_ret.
    split_and!; [done|by eapply worker_kept_trans|done]. }
  apply orb_false_iff in C as [->%negb_false_iff _]. rewrite Hu in Hu1. clear Hx. cbv zeta.
  match goal with |- context [supervisor_arm H ?d] => set (deadline := d) end. clearbody deadline.
  apply wp_bind, wp_change, wp_bind. unfold report at 1. apply wp_change, wp_bind.
  eapply (wp_hook _ (EvArm deadline)); [intros t' w'; cbn; destruct (supervisor_arm h deadline w'); eauto|].
  intros rc m2 w2 H2. apply wp_bind. unfold report at 1. apply wp_change. name_context m3 E3.
  destruct Hx1 as (a & Ea & Ha). cbn [fst snd] in Ea, Ha.
  assert (Ev : supervise a (EvArm deadline rc) = Some (a <| su_armed := if rc =? 0 then Some deadline else None |> <| su_expired := negb (rc =? 0) |>)).
  { cbn. destruct Ha. rewrite ag_armed0. injection Hg1 as _ -> _. rewrite Hc. cbn. destruct (su_expired a); [|done].
    by rewrite ag_expired0 in Hu1. }
  assert (E3' : core m3 = core m1 /\ guarded m3 = (1, if rc =? 0 then 1 else 0, deadline) /\ wk_clock_seen m3 = wk_clock_seen m1 /\
    wk_last_now m3 = wk_last_now m1 /\ wk_unsafe m3 = wk_unsafe m1).
  { rewrite E3. unfold core, guarded. cbn. by own_fields H2. }
  clear E3. destruct E3' as (E1 & E2 & E4 & E5 & E6).
  assert (Hk : kept m m3) by (eapply worker_kept_trans; [exact Hk1|]; split; [done|unfold spoils; by rewrite E6]).
  destruct (Z.eqb_spec rc 0) as [->|Hrc]; cbn [negb Z.eqb] in *.
  - assert (Hx3 : obeys x (m3, (t1 ++ [EvArm deadline 0], w2))).
    { eapply obeys_step; [exact Ea|exact Ev|]. by apply (agrees_sup x m1 m3 a 1 1 deadline false Ha E1 E2). }
    apply wp_bind. eapply wp_mono; [by apply wp_clock|]. intros ok [m4 [t4 w4]] (Hx4 & [Hk4 Hg4] & Hu4). cbn [fst] in *. destruct ok.
    + apply wp_ret. split_and!; [done|by eapply worker_kept_trans|cbn [fst]; congruence|]. cbn [fst]. unfold confirmed. rewrite E2 in Hg4.
      injection Hg4 as _ -> _. done.
    + apply wp_bind, wp_change, wp_ret. split_and!; [|eapply worker_kept_trans; [exact Hk|]; eapply worker_kept_trans; [exact Hk4|]; by split; [|intros ?]|done].
      eapply obeys_plain, Hx4. split_and!; done.
  - apply wp_bind, wp_ret, wp_bind, wp_change, wp_bind, wp_change, wp_bind, wp_quiet; [apply quiet_latch|]. intros _ m5 w5 H5. apply wp_ret.
    assert (Eu : wk_unsafe m5 = true) by by injection H5. split_and!; [| |done].
    + eapply (obeys_touched x _ _ _ w5); [exact H5|]. eapply obeys_step; [exact Ea|exact Ev|]. by apply (agrees_sup x m1 _ a 1 0 deadline true Ha).
    + eapply worker_kept_trans; [exact Hk|]. eapply worker_kept_trans; [|exact (proj1 (touched_framed _ _ H5))]. by split; [|intros ?].
Qed.

(** The supervisor stands confirmed, or the worker has gone unsafe. *)
Definition live m : Prop := confirmed m \/ wk_unsafe m = true.
Lemma worker_live_framed m m' : framed m m' -> live m -> live m'.
Proof.
  intros [[_ Hs] Hg] [Hc|Hu]; [left|by right; apply Hs]. unfold confirmed, guarded in *. injection Hg as _ -> _. exact Hc.
Qed.
Definition disarmed_post x m (ok : bool) (s : IW) : Prop :=
  obeys x s /\ kept m (fst s) /\
  if ok then wk_unsafe (fst s) = false /\ ws_supervisor_confirmed (wk_report (fst s)) = 0 /\ ws_supervisor_armed (wk_report (fst s)) = 0
  else wk_unsafe (fst s) = true.
Lemma wp_disarm x m t w : obeys x (m, (t, w)) -> live m -> wp (rw_disarm H qa) (disarmed_post x m) (m, (t, w)).
Proof.
  intros Hx Hl. unfold rw_disarm. apply wp_bind. unfold both at 1. apply wp_bind. eapply wp_mono; [by apply wp_clock|].
  intros ok [m1 [t1 w1]] (Hx1 & Hf1 & Hu1). cbn [fst] in *. assert (Hl1 := worker_live_framed _ _ Hf1 Hl). destruct Hf1 as [Hk1 Hg1].
  destruct ok; [|apply wp_ret; by split_and!]. apply wp_own, wp_ret. destruct (wk_unsafe m1) eqn:Eu1; cbn [negb]; [by apply wp_ret; split_and!|].
  destruct Hl1 as [Hc1|]; [|congruence]. destruct Hx1 as (a & Ea & Ha). cbn [fst snd] in Ea, Ha.
  apply wp_bind. eapply (wp_hook _ EvDisarm); [intros t' w'; cbn; destruct (supervisor_disarm h w'); eauto|].
  intros rc m2 w2 H2. apply wp_bind. unfold report at 1. apply wp_change. name_context m3 E3.
  assert (Ev : supervise a (EvDisarm rc) = Some (a <| su_armed := None |> <| su_expired := negb (rc =? 0) |>)).
  { cbn. destruct Ha. rewrite ag_armed0. apply Z.eqb_neq in Hc1. rewrite Hc1. cbn. destruct (su_expired a); [|done].
    by rewrite ag_expired0 in Eu1. }
  assert (E3' : core m3 = core m1 /\ guarded m3 = (ws_supervisor_armed (wk_report m1), 0, wk_deadline m1) /\
    wk_clock_seen m3 = wk_clock_seen m1 /\ wk_last_now m3 = wk_last_now m1 /\ wk_unsafe m3 = wk_unsafe m1).
  { rewrite E3. unfold core, guarded. cbn. by own_fields H2. }
  clear E3. destruct E3' as (E1 & E2 & E4 & E5 & E6).
  assert (Hk : kept m m3) by (eapply worker_kept_trans; [exact Hk1|]; split; [done|unfold spoils; by rewrite E6]).
  destruct (Z.eqb_spec rc 0) as [->|Hrc]; cbn [negb Z.eqb] in *.
  - assert (Hx3 : obeys x (m3, (t1 ++ [EvDisarm 0], w2))).
    { eapply obeys_step; [exact Ea|exact Ev|]. by apply (agrees_sup x m1 m3 a _ 0 _ false Ha E1 E2). }
    apply wp_bind. eapply wp_mono; [by apply wp_clock|]. intros ok [m4 [t4 w4]] (Hx4 & [Hk4 Hg4] & Hu4). cbn [fst] in *. rewrite E2 in Hg4. destruct ok.
    + apply wp_bind. unfold report. apply wp_change, wp_ret. split_and!; [|eapply worker_kept_trans; [exact Hk|]; exact Hk4|cbn; congruence| |done].
      * destruct Hx4 as (a4 & Ea4 & Ha4). exists a4. split; [done|]. destruct Ha4. injection Hg4 as _ Hc4 _. by split.
      * by injection Hg4.
    + apply wp_bind, wp_change, wp_bind, wp_ret, wp_bind, wp_quiet; [apply quiet_latch|]. intros _ m5 w5 H5. apply wp_ret.
      split_and!; [eapply (obeys_touched x _ _ _ w4); [exact H5|]; eapply obeys_plain, Hx4; by split_and!|
        eapply worker_kept_trans; [exact Hk|]; eapply worker_kept_trans; [exact Hk4|]; eapply worker_kept_trans; [|exact (proj1 (touched_framed _ _ H5))]; by split; [|intros ?]
        |by injection H5].
  - apply wp_bind, wp_ret, wp_bind, wp_change, wp_bind, wp_change, wp_bind, wp_quiet; [apply quiet_latch|]. intros _ m5 w5 H5. apply wp_ret.
    assert (Eu : wk_unsafe m5 = true) by by injection H5. split_and!; [| |done].
    + eapply (obeys_touched x _ _ _ w5); [exact H5|]. eapply obeys_step; [exact Ea|exact Ev|]. by apply (agrees_sup x m1 _ a (ws_supervisor_armed (wk_report m1)) 0 (wk_deadline m1) true Ha).
    + eapply worker_kept_trans; [exact Hk|]. eapply worker_kept_trans; [|exact (proj1 (touched_framed _ _ H5))]. by split; [|intros ?].
Qed.

(** ** Jobs *)
Definition job_post x m (ok : bool) (s : IW) : Prop :=
  obeys x s /\ kept m (fst s) /\ live (fst s) /\ (ok = true -> wk_unsafe (fst s) = false).
Lemma safely_job x m ok s : live m -> safely x m ok s -> job_post x m ok s.
Proof. intros Hl (H1 & H2 & H3). split_and!; [done|apply H2|by eapply worker_live_framed|done]. Qed.
Lemma job_kept x m m' ok s : kept m m' -> job_post x m' ok s -> job_post x m ok s.
Proof. intros Hk (H1 & H2 & H3 & H4). split_and!; [done|by eapply worker_kept_trans|done..]. Qed.
Lemma wp_begin_drain x m t w : obeys x (m, (t, w)) -> live m -> wp (rw_begin_drain H qa) (job_post x m) (m, (t, w)).
Proof.
  intros Hx Hl. unfold rw_begin_drain. apply wp_own. wp_step; [eapply wp_mono; [by apply (wp_rw_guard x)|]; intros ok s; by apply safely_job|].
  apply wp_bind. eapply wp_mono; [by apply (wp_rw_guard x)|]. intros ok [m1 [t1 w1]] Hs. apply (safely_job x m ok _ Hl) in Hs.
  apply wp_own. wp_step; [apply wp_ret; destruct Hs as (H1 & H2 & H3 & _); by split_and!|]. apply orb_false_iff in C0 as [C0 _]. apply orb_false_iff in C0 as [->%negb_false_iff _].
  destruct Hs as (H1 & H2 & H3 & H4). cbn [fst] in *. specialize (H4 eq_refl). cbv zeta. wp_step.
  - apply wp_bind, wp_change, wp_bind, (wp_quietly x); [apply quiet_latch|by eapply obeys_unsafe|]. intros _ m2 w2 [Hf2 _] Eu Hx2. apply wp_ret.
    split_and!; [done| |by right|done]. eapply worker_kept_trans; [exact H2|]. eapply worker_kept_trans; [|exact Hf2]. by split; [|intros ?].
  - apply wp_bind, wp_change, wp_ret. split_and!; [|exact H2|exact H3|done]. eapply obeys_plain, H1. by split_and!.
Qed.
Lemma wp_new_job x m t w : obeys x (m, (t, w)) -> live m -> wp (rw_new_job H qa) (job_post x m) (m, (t, w)).
Proof.
  intros Hx Hl. unfold rw_new_job. apply wp_bind. eapply wp_mono; [by apply (wp_rw_guard x)|]. intros ok [m1 [t1 w1]] Hs.
  apply (safely_job x m ok _ Hl) in Hs. destruct Hs as (H1 & H2 & H3 & H4). cbn [fst] in *. apply wp_own. wp_step; [by apply wp_ret; split_and!|].
  apply orb_false_iff in C as [->%negb_false_iff _]. specialize (H4 eq_refl). wp_step; [by apply wp_ret; split_and!|].
  unfold both. apply wp_bind. eapply wp_mono; [by apply (wp_disarm x)|]. intros ok [m2 [t2 w2]] (Hx2 & Hk2 & Hok). cbn [fst] in *.
  destruct ok; [|apply wp_ret; split_and!; [done|by eapply worker_kept_trans|by right|done]]. destruct Hok as (Hu2 & Hc2 & _).
  eapply wp_mono; [by apply (wp_arm x)|]. intros ok [m3 [t3 w3]] (Hx3 & Hk3 & Hok). cbn [fst] in *.
  split_and!; [done|by eapply worker_kept_trans, worker_kept_trans| |]; destruct ok; try done; [by left; apply Hok|by right|by intros _; apply Hok].
Qed.

(** ** Stopping the producer *)
Definition stated (st : Z) m m' : Prop := kept (report_upd (fun s => s <| ws_state := st |>) m) m' /\ guarded m' = guarded m.
Lemma wp_state_set x st m t w : obeys x (m, (t, w)) -> wp (rw_state_set H qa st) (fun _ s => obeys x s /\ stated st m (fst s) /\
  wk_unsafe (fst s) = wk_unsafe m) (m, (t, w)).
Proof.
  intros (a & E & Ha). cbn [fst snd] in *. unfold rw_state_set. apply wp_bind. unfold report. apply wp_change, (wp_quietly x); [by apply quiet_store|exists a; split; [done|by destruct Ha; split]|].
  intros _ m' w' [Hk Hg] Hu Hx'. by split_and!.
Qed.
(** The session, but for its state and its fault. *)
Definition session m :=
  let s := wk_report m in
  (ws_lease_held s, ws_producer_fenced s, ws_queue_closed s, ws_pipeline s,
   (wk_capture_possible m, wk_stop_attempted m, wk_queue_initialized m, wk_poll m, wk_capacity m)).
Definition keeps_session m m' : Prop := session m' = session m /\ guarded m' = guarded m /\ spoils m m'.
Lemma worker_keeps_refl m : keeps_session m m.
Proof. split_and!; [done..|by intros ?]. Qed.
Lemma worker_keeps_trans m1 m2 m3 : keeps_session m1 m2 -> keeps_session m2 m3 -> keeps_session m1 m3.
Proof. intros (E1 & G1 & S1) (E2 & G2 & S2). split_and!; [congruence..|by intros H; apply S2, S1]. Qed.
Lemma core_session m m' : core m' = core m -> session m' = session m.
Proof. unfold core, session. intros [=]. congruence. Qed.
Lemma framed_keeps m m' : framed m m' -> keeps_session m m'.
Proof. intros [[E S] G]. split_and!; [by apply core_session|done|done]. Qed.
Lemma keeps_mic m m' : keeps_session m m' -> mic_of m' = mic_of m.
Proof. intros (E & _ & _). unfold session, mic_of in *. injection E as _ _ _ _ -> -> _ _ _. done. Qed.
Lemma keeps_live m m' : keeps_session m m' -> live m -> live m'.
Proof. intros (_ & G & S) [Hc|Hu]; [left|right; by apply S]. unfold confirmed, guarded in *. injection G as _ -> _. exact Hc. Qed.

(** A report of what the automaton does not see. *)
Definition harmless (f : rw_status -> rw_status) : Prop := forall s,
  ws_lease_held (f s) = ws_lease_held s /\ ws_producer_fenced (f s) = ws_producer_fenced s /\ ws_queue_closed (f s) = ws_queue_closed s /\
  ws_pipeline (f s) = ws_pipeline s /\ ws_supervisor_armed (f s) = ws_supervisor_armed s /\
  ws_supervisor_confirmed (f s) = ws_supervisor_confirmed s.
Lemma obeys_report x f m t w : harmless f -> obeys (W := W) x (m, (t, w)) -> obeys (W := W) x (report_upd f m, (t, w)).
Proof.
  intros Hf (a & E & Ha). exists a. split; [done|]. destruct (Hf (wk_report m)) as (E1 & E2 & _ & _ & E3 & E4). destruct Ha. unfold confirmed in *.
  split; unfold confirmed; cbn; by rewrite ?E1, ?E2, ?E3, ?E4.
Qed.
Lemma keeps_report f m : harmless f -> keeps_session m (report_upd f m).
Proof.
  intros Hf. destruct (Hf (wk_report m)) as (E1 & E2 & E3 & E4 & E5 & E6). unfold keeps_session, session, guarded. cbn.
  split_and!; [by rewrite E1, E2, E3, E4|by rewrite E5, E6|by intros ?].
Qed.
Definition held_post x m (s : IW) : Prop := obeys x s /\ keeps_session m (fst s).
Lemma held_trans x m m' s : keeps_session m m' -> held_post x m' s -> held_post x m s.
Proof. intros Hk [H1 H2]. split; [done|by eapply worker_keeps_trans]. Qed.
Lemma wp_report x f (Q : unit -> IW -> Prop) m t w : harmless f -> obeys x (m, (t, w)) ->
  (obeys x (report_upd f m, (t, w)) -> keeps_session m (report_upd f m) -> Q tt (report_upd f m, (t, w))) -> wp (report f) Q (m, (t, w)).
Proof. intros Hf Hx HQ. apply wp_change, HQ; [by apply obeys_report|by apply keeps_report]. Qed.
Lemma wp_rw_fault x m t w : obeys x (m, (t, w)) ->
  wp (rw_fault H qa) (fun _ s => held_post x m s /\ ws_state (wk_report (fst s)) = RW_FAULT) (m, (t, w)).
Proof.
  intros Hx. unfold rw_fault. apply wp_bind, (wp_quietly x); [apply quiet_load|done|]. intros stopped m1 w1 H1%framed_keeps _ Hx1.
  apply wp_bind, (wp_report x); [done|done|]. intros Hx2 H2. name_context m2 E2. clear E2. apply wp_own, wp_bind.
  assert (H12 : keeps_session m m2) by by eapply worker_keeps_trans. clear H1 H2 Hx1 m1.
  assert (Hlast : forall m3 w3, obeys x (m3, (t, w3)) -> keeps_session m m3 ->
    wp (run report (fun s => s <| ws_reason := if ws_reason s =? 0 then RW_CORE else ws_reason s |>); rw_state_set H qa RW_FAULT)
      (fun _ s => held_post x m s /\ ws_state (wk_report (fst s)) = RW_FAULT) (m3, (t, w3))).
  { intros m3 w3 Hx3 H3. apply wp_bind, (wp_report x); [done|done|]. intros Hx4 H4. eapply wp_mono; [by apply (wp_state_set x)|].
    intros _ [m5 [t5 w5]] (Hx5 & [[E5 S5] G5] & _). cbn [fst] in *. split; [split; [done|]|by injection E5].
    eapply worker_keeps_trans; [exact H3|]. eapply worker_keeps_trans; [exact H4|]. split_and!; [|done|done]. apply core_session in E5. exact E5. }
  wp_step.
  - apply (wp_report x); [done|done|]. intros Hx3 H3. apply Hlast; [done|by eapply worker_keeps_trans].
  - apply wp_bind, (wp_quietly x); [apply quiet_load|done|]. intros e m3 w3 H3%framed_keeps _ Hx3. apply (wp_report x); [done|done|]. intros Hx4 H4.
    apply Hlast; [done|]. eapply worker_keeps_trans; [exact H12|]. by eapply worker_keeps_trans.
Qed.

(** Within a session: the lease stays, a stopped capture stays stopped and a
    closed queue closed, and the state goes nowhere but towards the end. *)
Definition state_of m : Z := ws_state (wk_report m).
Definition onward st m' : Prop := In (state_of m') [st; RW_STOPPING; RW_FAULT].
Record steady m m' : Prop := {
  sd_lease : ws_lease_held (wk_report m') = ws_lease_held (wk_report m);
  sd_capture : wk_capture_possible m = false -> wk_capture_possible m' = false;
  sd_closed : ws_queue_closed (wk_report m) <> 0 -> ws_queue_closed (wk_report m') <> 0;
  sd_state : onward (state_of m) m';
  sd_spoils : spoils m m'
}.
Lemma steady_refl m : steady m m.
Proof. split; try done; [by left|by intros ?]. Qed.
Lemma steady_trans m1 m2 m3 : steady m1 m2 -> steady m2 m3 -> steady m1 m3.
Proof.
  intros [L1 C1 Q1 S1 U1] [L2 C2 Q2 S2 U2]. split; auto; [congruence| |by intros H; apply U2, U1].
  unfold onward in *. destruct S2 as [E2|[E2|[E2|[]]]]; [by rewrite <- E2|right; by left|right; right; by left].
Qed.
Lemma keeps_steady m m' : keeps_session m m' -> onward (state_of m) m' -> steady m m'.
Proof.
  intros (E & _ & Sp) Ho. unfold session in E. injection E as E1 _ E3 _ E5 _ _ _ _. split; try done; [by rewrite E5|by rewrite E3].
Qed.
Lemma kept_steady m m' : kept m m' -> steady m m'.
Proof.
  intros [E Sp]. pose proof (core_session _ _ E) as E'. unfold session in E'. injection E' as E1 _ E3 _ E5 _ _ _ _.
  split; try done; [by rewrite E5|by rewrite E3|]. left. unfold core, state_of in *. by injection E.
Qed.
Lemma framed_steady m m' : framed m m' -> steady m m'.
Proof. intros [H _]. by apply kept_steady. Qed.
Lemma framed_state m m' : framed m m' -> state_of m' = state_of m.
Proof. intros [[E _] _]. unfold core, state_of in *. by injection E. Qed.
Lemma inv_keeps y m s : keeps_session m (fst s) -> obeys (mic_of m, y) s -> inv (W := W) y s.
Proof. intros Hk Ho. unfold inv. by rewrite (keeps_mic _ _ Hk). Qed.

(** The worker has given up: its state is the fault. *)
Definition gave_up y m (s : IW) : Prop := inv y s /\ keeps_session m (fst s) /\ state_of (fst s) = RW_FAULT.
Lemma wp_gave_up y m t w : inv y (m, (t, w)) -> wp (rw_fault H qa) (fun _ s => gave_up y m s) (m, (t, w)).
Proof.
  intros Hi. eapply wp_mono; [by apply (wp_rw_fault (mic_of m, y))|]. intros _ s [[Hx Hk] Hst]. split_and!; [by eapply inv_keeps|done|done].
Qed.
Lemma gave_up_trans y m m' s : keeps_session m m' -> gave_up y m' s -> gave_up y m s.
Proof. intros Hk (H1 & H2 & H3). split_and!; [done|by eapply worker_keeps_trans|done]. Qed.
Lemma wp_stop_failed y m t w : inv y (m, (t, w)) -> wp (stop_failed H qa) (fun ok s => ok = false /\ gave_up y m s) (m, (t, w)).
Proof.
  intros Hi. unfold stop_failed. apply wp_bind, (wp_report (mic_of m, y)); [done|done|]. intros Hx1 H1. apply wp_bind, (wp_quietly (mic_of m, y)); [apply quiet_latch|done|].
  intros _ m2 w2 H2%framed_keeps _ Hx2. assert (H12 := worker_keeps_trans _ _ _ H1 H2). apply wp_bind. eapply wp_mono; [apply wp_gave_up; by eapply inv_keeps|].
  intros [] s Hs. apply wp_ret. split; [done|by eapply gave_up_trans].
Qed.

Lemma supervise_stop a e d rc : su_armed a = Some d -> su_lease a = true -> su_mic a = MicOn ->
  supervise a (EvStop e d rc) = Some (a <| su_mic := if rc =? 0 then MicOff else MicStuck |>).
Proof. intros E1 E2 E3. cbn [supervise]. by rewrite E1, E2, E3, !bool_decide_eq_true_2. Qed.
Lemma agrees_armed x m a : agrees x m a -> confirmed m -> su_armed a = Some (wk_deadline m).
Proof. intros [] Hc. apply Z.eqb_neq in Hc. by rewrite ag_armed0, Hc. Qed.
Lemma framed_confirmed m m' : framed m m' -> confirmed m -> confirmed m'.
Proof. intros [_ G]. unfold confirmed, guarded in *. by injection G as _ -> _. Qed.
Definition fence_post y m (ok : bool) (s : IW) : Prop :=
  inv y s /\ guarded (fst s) = guarded m /\ steady m (fst s) /\
  if ok then wk_capture_possible (fst s) = false else state_of (fst s) = RW_FAULT.
Lemma fence_trans y m m' ok s : steady m m' -> guarded m' = guarded m -> fence_post y m' ok s -> fence_post y m ok s.
Proof. intros Hs Hg (H1 & H2 & H3 & H4). split_and!; [done|congruence|by eapply steady_trans|done]. Qed.
Lemma gave_up_fence y m s : gave_up y m s -> fence_post y m false s.
Proof.
  intros (H1 & H2 & H3). split_and!; [done|apply H2| |done]. apply keeps_steady; [done|]. right. right. by left.
Qed.
Lemma wp_stop_capture m t w : inv true (m, (t, w)) -> confirmed m -> wp (stop_capture H qa) (fence_post true m) (m, (t, w)).
Proof.
  intros Hi Hc. set (y := true) in *. unfold stop_capture. apply wp_own. destruct (wk_capture_possible m) eqn:Ecap; cbn [negb];
    [|apply wp_ret; split_and!; try done; apply steady_refl].
  destruct (wk_stop_attempted m) eqn:Eatt.
  { apply wp_bind, (wp_report (mic_of m, y)); [done|done|]. intros Hx1 H1. apply wp_bind. eapply wp_mono; [apply wp_gave_up; by eapply inv_keeps|].
    intros [] s Hs. apply wp_ret, gave_up_fence. by eapply gave_up_trans. }
  unfold inv, mic_of in Hi. cbn [fst] in Hi. rewrite Ecap, Eatt in Hi. apply wp_bind, wp_change.
  assert (Hx1 : obeys (MicOn, y) (m <| wk_stop_attempted := true |>, (t, w))) by (destruct Hi as (a & E & []); exists a; by split).
  apply wp_bind, (wp_quietly (MicOn, y)); [apply quiet_load|done|]. intros token m2 w2 H2 Eu2 (a & Ea & Ha). cbn [fst snd] in Ea, Ha. clear Hx1.
  apply wp_own, wp_bind. eapply (wp_hook _ (EvStop token (wk_deadline m2))); [intros t' w'; cbn; destruct (stop_and_join h token (wk_deadline m2) w'); eauto|].
  intros rc m3 w3 H3. set (x := (if rc =? 0 then MicOff else MicStuck, y)).
  assert (H23 : framed (m <| wk_stop_attempted := true |>) m3) by (eapply framed_trans; [exact H2|by apply touched_framed]).
  assert (Hx3 : obeys x (m3, (t ++ [EvStop token (wk_deadline m2) rc], w3))).
  { eapply (obeys_step x); [exact Ea|apply supervise_stop|].
    - eapply agrees_armed; [exact Ha|by eapply framed_confirmed].
    - by destruct Ha.
    - by destruct Ha.
    - apply (agrees_touched _ _ _ _ H3) in Ha. destruct Ha. by split. }
  clear Ha Ea H3 Hi. apply wp_bind, (wp_report x); [done|done|]. intros Hx4 H4. name_context m4 E4.
  assert (E34 : state_of m4 = state_of m3) by by rewrite E4. clear E4. apply wp_bind.
  eapply wp_mono; [by apply (wp_clock x)|]. intros ok [m5 [t5 w5]] (Hx5 & H5 & _). cbn [fst] in *.
  assert (H35 : keeps_session (m <| wk_stop_attempted := true |>) m5).
  { eapply worker_keeps_trans; [by apply framed_keeps|]. eapply worker_keeps_trans; [exact H4|by apply framed_keeps]. }
  assert (Hst : state_of m5 = state_of m) by (rewrite (framed_state _ _ H5), E34, (framed_state _ _ H23); done).
  clear H23 H4 H5 E34 Hx3 Hx4 H2. assert (Hk5 : guarded m5 = guarded m) by apply H35.
  assert (Hs5 : steady m m5).
  { destruct (keeps_steady _ _ H35) as [L C Q _ U]; [by left|]. split; try done. by left. }
  assert (E5 : wk_capture_possible m5 = true /\ wk_stop_attempted m5 = true).
  { destruct H35 as [E _]. unfold session in E. injection E as _ _ _ _ -> -> _ _ _. by rewrite Ecap. }
  destruct E5 as [Ec5 Ea5]. destruct (Z.eqb_spec rc 0) as [->|Hrc]; cbn [negb].
  - apply wp_bind, wp_change, wp_ret. split_and!; [|done| |done].
    + unfold inv. change (mic_of _) with MicOff. destruct Hx5 as (a5 & E & []). exists a5. by split.
    + destruct Hs5. by split.
  - eapply wp_mono; [apply wp_stop_failed; unfold inv, mic_of; cbn [fst]; by rewrite Ec5, Ea5|].
    intros ok' s [-> Hs]. eapply fence_trans; [exact Hs5|exact Hk5|by apply gave_up_fence].
Qed.
Lemma wp_fence m t w : inv true (m, (t, w)) -> confirmed m -> wp (rw_fence H qa) (fence_post true m) (m, (t, w)).
Proof.
  intros Hi Hc. set (y := true) in *. unfold rw_fence. apply wp_bind. eapply wp_mono; [by apply (wp_state_set (mic_of m, y))|].
  intros _ [m1 [t1 w1]] (Hx1 & [[E1 S1] G1] & _). cbn [fst] in *. apply wp_own.
  assert (Hs1 : steady m m1 /\ mic_of m1 = mic_of m).
  { assert (E := core_session _ _ E1). unfold session in E. cbn in E. injection E as L1 _ Q1 _ C1 A1 _ _ _. split; [|unfold mic_of; by rewrite C1, A1].
    split; try done; [by rewrite C1|by rewrite Q1|]. right. left. unfold core in E1. cbn in E1. unfold state_of. by injection E1. }
  destruct Hs1 as [Hs1 Em1]. rewrite <- Em1 in Hx1. clear S1 Em1 E1. apply wp_bind.
  eapply (wp_mono _ (fun _ s => inv y s /\ framed m1 (fst s))).
  { destruct (queue_open m1).
    - apply wp_bind, (wp_quietly (mic_of m1, y)); [apply quiet_queue|done|]. intros r m2 w2 H2 _ Hx2. apply wp_ret. split; [|done].
      by eapply inv_keeps; [apply framed_keeps|].
    - apply wp_ret. split; [done|apply framed_refl]. }
  intros _ [m2 [t2 w2]] [Hi2 H2]. cbn [fst] in *. assert (Hs2 : steady m m2) by (eapply steady_trans; [exact Hs1|by apply framed_steady]).
  assert (G2 : guarded m2 = guarded m) by (rewrite <- G1; apply H2). apply wp_bind. eapply wp_mono; [apply wp_stop_capture; [done|]|].
  { unfold confirmed, guarded in *. by injection G2 as _ -> _. }
  intros ok [m3 [t3 w3]] Hf3. apply (fence_trans y m) in Hf3; [|done..]. destruct ok; [|by apply wp_ret]. destruct Hf3 as (Hi3 & G3 & Hs3 & Hc3). cbn [fst] in *.
  clear Hi2 H2 Hs2 G2 Hx1 Hs1 G1. apply wp_bind, (wp_quietly (mic_of m3, y)); [apply quiet_take|done|]. intros taken m4 w4 H4 _ Hx4.
  assert (Hpost : forall m5 w5, framed m3 m5 -> obeys (mic_of m3, y) (m5, (t3, w5)) -> wp (stop_failed H qa) (fence_post y m) (m5, (t3, w5))).
  { intros m5 w5 H5%framed_keeps Hx5. eapply wp_mono; [apply wp_stop_failed; by eapply inv_keeps|]. intros ok s [-> Hs].
    eapply fence_trans; [exact Hs3|exact G3|]. apply gave_up_fence. by eapply gave_up_trans. }
  destruct taken; [|by apply Hpost]. apply wp_own, wp_bind.
  eapply (wp_mono _ (fun _ s => framed m3 (fst s) /\ obeys (mic_of m3, y) s /\ fst (snd s) = t3)).
  { destruct (queue_open m4); [|by apply wp_ret]. apply wp_bind, (wp_quietly (mic_of m3, y)); [apply quiet_queue|done|]. intros r m5 w5 H5 _ Hx5.
    apply wp_ret. split_and!; [by eapply framed_trans|done..]. }
  intros fenced [m5 [t5 w5]] (H5 & Hx5 & E5). cbn [fst snd] in *. subst t5. destruct fenced.
  - apply wp_bind. unfold report. apply wp_change. name_context m6 E6. apply wp_bind, (wp_quietly (mic_of m3, y)); [apply quiet_drop| |].
    + destruct Hx5 as (a & Ea & []). exists a. split; [done|]. rewrite E6. split; try done. intros _. by apply (sd_capture _ _ (framed_steady _ _ H5)).
    + intros _ m7 w7 H7 _ Hx7. apply wp_ret. assert (Hk : keeps_session m6 m7) by by apply framed_keeps.
      assert (Hs6 : steady m3 m6 /\ mic_of m6 = mic_of m3 /\ guarded m6 = guarded m3).
      { rewrite E6. destruct H5 as [[E S] G]. split_and!; [|by rewrite <- (keeps_mic m3 m5); [|apply framed_keeps; repeat split]|done].
        apply (steady_trans _ m5); [by apply kept_steady|]. split; try done; [by left|by intros ?]. }
      destruct Hs6 as (Hs6 & Em6 & G6). rewrite <- Em6 in Hx7. split_and!; [by eapply inv_keeps|cbn [fst]; destruct H7 as [_ ->]; congruence| |].
      * cbn [fst]. eapply steady_trans; [exact Hs3|]. eapply steady_trans; [exact Hs6|by apply framed_steady].
      * cbn [fst]. apply (sd_capture _ _ (framed_steady _ _ H7)), (sd_capture _ _ Hs6), Hc3.
  - apply wp_bind, (wp_quietly (mic_of m3, y)); [apply quiet_drop|done|]. intros _ m6 w6 H6 _ Hx6. apply Hpost; [by eapply framed_trans|done].
Qed.
Definition close_post y m (ok : bool) (s : IW) : Prop :=
  inv y s /\ guarded (fst s) = guarded m /\ steady m (fst s) /\ (ok = false -> state_of (fst s) = RW_FAULT).
Lemma wp_close_queue y m t w : inv y (m, (t, w)) -> wp (rw_close_queue H qa summary_at) (close_post y m) (m, (t, w)).
Proof.
  intros Hi. unfold rw_close_queue. apply wp_own. wp_step; [apply wp_ret; split_and!; [done|done|apply steady_refl|done]|].
  apply wp_bind, (wp_quietly (mic_of m, y)); [apply quiet_queue|done|]. intros r m1 w1 H1 _ Hx1. apply wp_bind.
  eapply (wp_mono _ (fun _ s => framed m (fst s) /\ obeys (mic_of m, y) s)).
  { wp_step; [|apply wp_ret; by split]. apply (wp_quietly (mic_of m, y)); [apply quiet_queue|done|]. intros r2 m2 w2 H2 _ Hx2. split; [by eapply framed_trans|done]. }
  intros [rc out] [m2 [t2 w2]] [H2 Hx2]. cbn [fst] in H2.
  assert (Hbad : wp (run rw_latch H qa RW_CORE; run rw_fault H qa; ret false) (close_post y m) (m2, (t2, w2))).
  { apply wp_bind, (wp_quietly (mic_of m, y)); [apply quiet_latch|done|]. intros _ m3 w3 H3 _ Hx3. apply wp_bind.
    assert (Hk : keeps_session m m3) by (eapply worker_keeps_trans; by apply framed_keeps). eapply wp_mono; [apply wp_gave_up; by eapply inv_keeps|].
    intros [] s Hs. apply wp_ret. apply (gave_up_trans y m) in Hs; [|done]. apply gave_up_fence in Hs as (G1 & G2 & G3 & G4). by split_and!. }
  destruct rc as [|rc|rc]; [|exact Hbad..]. destruct out as [[f|sm]|]; [exact Hbad| |exact Hbad].
  apply wp_bind. unfold report. apply wp_change, wp_ret. destruct H2 as [H2 G2]. assert (Hs := kept_steady _ _ H2).
  assert (Em : mic_of m2 = mic_of m) by (apply keeps_mic, framed_keeps; by split). rewrite <- Em in Hx2.
  split_and!; [destruct Hx2 as (a & E & []); exists a; by split|done| |done]. destruct Hs. by split.
Qed.

(** ** The lease *)
Lemma in_time_ok x m a : agrees x m a -> confirmed m -> wk_unsafe m = false -> in_time (wk_deadline m) a = true.
Proof.
  intros Ha Hc Hu. unfold in_time. rewrite (agrees_armed x m a), bool_decide_eq_true_2 by done.
  destruct (su_expired a) eqn:E; [|done]. apply (ag_expired x m a Ha) in E. congruence.
Qed.
Lemma live_confirmed m : live m -> wk_unsafe m = false -> confirmed m.
Proof. by intros [Hc|Hu] E; [|congruence]. Qed.
(** A hook that is called in time, under a safe guard. *)
Lemma wp_timely {A} x after (f : Z -> list hook_event * W -> A * (list hook_event * W)) (e : Z -> A -> hook_event) (Q : A -> IW -> Prop) m t w :
  (forall d t w, exists a w', f d (t, w) = (a, (t ++ [e d a], w'))) ->
  (forall d a r, in_time d a = true -> su_lease a = snd x -> su_mic a = fst x ->
     supervise a (e d r) = Some (a <| su_lease := snd (after r) |> <| su_mic := fst (after r) |>)) ->
  obeys x (m, (t, w)) -> live m -> wk_unsafe m = false ->
  (forall r m' w', touched m m' -> obeys (after r) (m', (t ++ [e (wk_deadline m) r], w')) -> Q r (m', (t ++ [e (wk_deadline m) r], w'))) ->
  wp (hook H qa (f (wk_deadline m))) Q (m, (t, w)).
Proof.
  intros Hf Hs (a & Ea & Ha) Hl Hu HQ. cbn [fst snd] in Ea, Ha. apply (wp_hook _ (e (wk_deadline m))); [done|]. intros r m' w' Hm. apply HQ; [done|].
  assert (Ht := in_time_ok x m a Ha (live_confirmed m Hl Hu) Hu). apply (agrees_touched _ _ _ _ Hm) in Ha. destruct Ha.
  eapply obeys_step; [exact Ea|by apply Hs|]. by split.
Qed.
Ltac supervises :=
  intros ?d ?a ?r ?Ht ?El ?Em; cbn [supervise fst snd] in *;
  match goal with Ht : in_time _ _ = true, El : su_lease ?a = _, Em : su_mic ?a = _ |- _ => rewrite Ht, El, Em; destruct a; cbn in *; subst; reflexivity end.
Definition released_post m (ok : bool) (s : IW) : Prop :=
  (exists y, inv y s /\ (ok = true -> y = false)) /\ guarded (fst s) = guarded m /\ spoils m (fst s) /\
  wk_capture_possible (fst s) = wk_capture_possible m /\ state_of (fst s) = state_of m /\
  ws_fault (wk_report (fst s)) = ws_fault (wk_report m) /\ ws_pipeline (wk_report (fst s)) = ws_pipeline (wk_report m) /\
  ws_queue_closed (wk_report (fst s)) = ws_queue_closed (wk_report m) /\ (ok = true -> ws_lease_held (wk_report (fst s)) = 0).
Lemma wp_release_lease m t w : inv true (m, (t, w)) -> live m -> wk_capture_possible m = false -> ws_lease_held (wk_report m) <> 0 ->
  wp (rw_release_lease H qa) (released_post m) (m, (t, w)).
Proof.
  intros Hi Hl Hcap Hh. unfold rw_release_lease. apply wp_own. wp_step; [by apply Z.eqb_eq in C|]. clear C.
  assert (Em : mic_of m = MicOff) by (unfold mic_of; by rewrite Hcap). unfold inv in Hi. cbn [fst] in Hi. rewrite Em in Hi.
  assert (Hfr : forall y m' s', framed m m' -> obeys (MicOff, y) (m', s') -> released_post m false (m', s')).
  { intros y m' s' Hf Hx. assert (E2 := framed_keeps _ _ Hf). destruct Hf as [[E S] G]. unfold core in E. injection E as ? ? ? ? ? ? ? ? ? ? ?.
    split_and!; try done. exists y. split; [|done]. eapply inv_keeps; [exact E2|]. by rewrite Em. }
  apply wp_bind. eapply wp_mono; [by apply (wp_rw_guard (MicOff, true))|]. intros ok [m1 [t1 w1]] (Hx1 & Hf1 & Hu1). cbn [fst] in *.
  destruct ok; cbn [negb]; [|apply wp_ret; by eapply Hfr]. specialize (Hu1 eq_refl). apply wp_own, wp_bind.
  apply (wp_timely (MicOff, true) (fun rc => (MicOff, negb (rc =? 0))) (release H) EvRelease); [| |done|by eapply worker_live_framed|done|].
  { intros d t' w'. cbn. destruct (release h d w'); eauto. }
  { supervises. }
  intros rc m2 w2 H2 Hx2. apply wp_bind, (wp_report (MicOff, negb (rc =? 0))); [done|done|]. intros Hx3 _. name_context m3 E3.
  assert (H3 : framed m m3).
  { eapply framed_trans; [exact Hf1|]. eapply framed_trans; [by apply touched_framed|]. rewrite E3. repeat split. by intros ?. }
  clear E3 H2. cbn [fst snd] in *.
  assert (Hbad : forall y m4 w4 t4, framed m m4 -> obeys (MicOff, y) (m4, (t4, w4)) ->
    wp (run report (fun s => s <| ws_reason := RW_RELEASE_FAILED |>); run rw_latch H qa RW_RELEASE_FAILED; ret false) (released_post m) (m4, (t4, w4))).
  { intros y m4 w4 t4 H4 Hx4. apply wp_bind, (wp_report (MicOff, y)); [done|done|]. intros Hx5 _. apply wp_bind, (wp_quietly (MicOff, y)); [apply quiet_latch|done|].
    intros _ m6 w6 H6 _ Hx6. apply wp_ret. apply (Hfr y); [|done]. eapply framed_trans; [exact H4|]. eapply framed_trans; [|exact H6]. repeat split. by intros ?. }
  apply wp_bind. destruct (Z.eqb_spec rc 0) as [->|Hrc]; cbn [negb Z.eqb] in *; [|by apply wp_ret, (Hbad true)].
  eapply wp_mono; [by apply (wp_clock (MicOff, false))|]. intros ok [m4 [t4 w4]] (Hx4 & H4 & _). cbn [fst] in *.
  assert (Hf4 : framed m m4) by by eapply framed_trans. destruct ok; [|by apply (Hbad false)].
  apply wp_bind. unfold report. apply wp_change, wp_ret. destruct (Hfr false m4 _ Hf4 Hx4) as ((y & Hy & _) & G & Sp & R1 & R2 & R3 & R4 & R5 & _).
  split_and!; try done. exists false. split; [|done]. unfold inv. change (mic_of _) with (mic_of m4). rewrite <- Em, <- (keeps_mic m m4) in Hx4 by by apply framed_keeps.
  destruct Hx4 as (a & E & []). exists a. by split.
Qed.

(** ** The pipeline's sink *)
Definition in_session m (s : IW) : Prop := inv true s /\ live (fst s) /\ steady m (fst s).
Lemma in_session_from m m' s : steady m m' -> in_session m' s -> in_session m s.
Proof. intros Hs (H1 & H2 & H3). split_and!; [done|done|by eapply steady_trans]. Qed.
Lemma in_session_framed x m m' t w : framed m m' -> live m -> x = (mic_of m, true) -> obeys x (m', (t, w)) -> in_session m (m', (t, w)).
Proof.
  intros Hf Hl -> Hx. split_and!; [by eapply inv_keeps; [apply framed_keeps|]|by eapply worker_live_framed|by apply framed_steady].
Qed.
(** The session goes on as it was. *)
Definition calm m m' : Prop := session m' = session m /\ state_of m' = state_of m /\ spoils m m'.
Lemma calm_trans m1 m2 m3 : calm m1 m2 -> calm m2 m3 -> calm m1 m3.
Proof. intros (E1 & S1 & U1) (E2 & S2 & U2). split_and!; [congruence..|by intros H; apply U2, U1]. Qed.
Lemma kept_calm m m' : kept m m' -> calm m m'.
Proof. intros [E U]. split_and!; [by apply core_session| |done]. unfold core, state_of in *. by injection E. Qed.
Lemma touched_calm m m' : touched m m' -> calm m m'.
Proof. intros H. apply kept_calm, touched_framed, H. Qed.
Lemma in_session_calm x m m' t w : calm m m' -> live m' -> x = (mic_of m, true) -> obeys x (m', (t, w)) -> in_session m (m', (t, w)).
Proof.
  intros (E & S & U) Hl -> Hx. unfold session in E. injection E as E1 _ E3 _ E5 E6 _ _ _. split_and!; [|done|].
  - unfold inv, mic_of in *. cbn [fst]. by rewrite E5, E6.
  - split; cbn [fst]; [done|by rewrite E5|by rewrite E3|by left|done].
Qed.
Lemma in_session_refl m t w : inv true (m, (t, w)) -> live m -> in_session m (m, (t, w)).
Proof. intros Hi Hl. split_and!; [done|done|apply steady_refl]. Qed.
(** The check of the clock after a hook. *)
Lemma wp_after_hook x {A} (r : A) m0 m t w : calm m0 m -> live m -> x = (mic_of m0, true) -> obeys x (m, (t, w)) ->
  wp (run rw_clock H qa; ret r) (fun _ => in_session m0) (m, (t, w)).
Proof.
  intros Hk Hl Ex Hx. apply wp_bind. eapply wp_mono; [by apply (wp_clock x)|]. intros ok [m' [t' w']] (Hx' & Hf & _). cbn [fst] in *. apply wp_ret.
  eapply (in_session_calm x); [|by eapply worker_live_framed|done|done]. eapply calm_trans; [exact Hk|apply kept_calm, Hf].
Qed.
Lemma supervise_hook x d a : in_time d a = true -> su_lease a = snd x -> su_mic a = fst x -> snd x = true ->
  supervise a (EvHook d) = Some (a <| su_lease := snd x |> <| su_mic := fst x |>).
Proof. intros Ht El Em Hx. cbn [supervise]. rewrite Ht, El, Hx. destruct a, x. cbn in *. by subst. Qed.

(** [rw_reserve] changes nothing but the clock's findings. *)
Definition reserving x m (s : IW) : Prop := obeys x s /\ framed m (fst s).
Lemma wp_reserve x b m t w : snd x = true -> obeys x (m, (t, w)) -> live m ->
  wp (rw_reserve H qa b) (fun _ => reserving x m) (m, (t, w)).
Proof.
  intros Ex Hx Hl. unfold rw_reserve. apply wp_bind. eapply wp_mono; [by apply (wp_rw_guard x)|]. intros ok [m1 [t1 w1]] (Hx1 & Hf1 & Hu1). cbn [fst] in *.
  destruct ok; cbn [negb]; [|by apply wp_ret]. specialize (Hu1 eq_refl). apply wp_own, wp_bind.
  apply (wp_timely x (fun _ => x) (reserve H b) (fun d _ => EvHook d)); [|intros; by apply (supervise_hook x)|done|by eapply worker_live_framed|done|].
  { intros d t' w'. cbn. destruct (reserve h b d w'); eauto. }
  intros rc m2 w2 H2 Hx2. apply wp_bind. eapply wp_mono; [by apply (wp_clock x)|]. intros ok [m3 [t3 w3]] (Hx3 & Hf3 & _). apply wp_ret.
  split; [done|]. eapply framed_trans; [exact Hf1|]. eapply framed_trans; [by apply touched_framed|done].
Qed.
Lemma wp_commit b p n m t w : inv true (m, (t, w)) -> live m -> wp (rw_commit H qa b p n) (fun _ => in_session m) (m, (t, w)).
Proof.
  intros Hi Hl. set (x := (mic_of m, true)). unfold rw_commit. apply wp_bind. eapply wp_mono; [by apply (wp_new_job x)|].
  intros ok [m1 [t1 w1]] (Hx1 & Hk1%kept_calm & Hl1 & Hu1). cbn [fst] in *. destruct ok; cbn [negb]; [|by apply wp_ret, (in_session_calm x)].
  specialize (Hu1 eq_refl). apply wp_own, wp_bind.
  apply (wp_timely x (fun _ => x) (seal_commit H b p n) (fun d _ => EvHook d)); [|intros; by apply (supervise_hook x)|done|done|done|].
  { intros d t' w'. cbn. destruct (seal_commit h b p n d w'); eauto. }
  intros r m2 w2 H2 Hx2. assert (Hk2 := calm_trans _ _ _ Hk1 (touched_calm _ _ H2)). assert (Hl2 := worker_live_framed _ _ (touched_framed _ _ H2) Hl1).
  apply wp_bind, wp_change, wp_bind. unfold report. apply wp_change. name_context m3 E3.
  assert (H3 : calm m2 m3 /\ (live m2 -> live m3) /\ obeys x (m3, (t1 ++ [EvHook (wk_deadline m1)], w2))).
  { rewrite E3. destruct (fst r =? RP_IO_PENDING), (_ && _); (split_and!; [split_and!; [done..|by intros ?]|exact id|destruct Hx2 as (a & Ea & []); exists a; by split]). }
  clear E3. destruct H3 as (H3 & Hl3 & Hx3). eapply (wp_after_hook x); [by eapply calm_trans|auto|done|done].
Qed.
Lemma wp_poll b m t w : inv true (m, (t, w)) -> live m -> wp (rw_poll H qa b) (fun _ => in_session m) (m, (t, w)).
Proof.
  intros Hi Hl. set (x := (mic_of m, true)). unfold rw_poll. apply wp_own. wp_step; [by apply wp_ret, in_session_refl|].
  apply wp_bind. eapply wp_mono; [by apply (wp_rw_guard x)|]. intros ok [m1 [t1 w1]] (Hx1 & Hf1 & Hu1). cbn [fst] in *. apply wp_own.
  wp_step; [by apply wp_ret, (in_session_framed x)|]. apply orb_false_iff in C0 as [->%negb_false_iff _]. specialize (Hu1 eq_refl).
  assert (Hl1 := worker_live_framed _ _ Hf1 Hl). apply wp_bind.
  apply (wp_timely x (fun _ => x) (poll_hook H b) (fun d _ => EvHook d)); [|intros; by apply (supervise_hook x)|done|done|done|].
  { intros d t' w'. cbn. destruct (poll_hook h b d w'); eauto. }
  intros r m2 w2 H2 Hx2. apply wp_bind. eapply wp_mono; [by apply (wp_clock x)|]. intros ok [m3 [t3 w3]] (Hx3 & Hf3 & _). cbn [fst] in *.
  assert (Hf : framed m m3) by (eapply framed_trans; [exact Hf1|]; eapply framed_trans; [by apply touched_framed|done]).
  apply wp_bind, wp_change, wp_ret. eapply (in_session_calm x); [|eapply worker_live_framed; [|exact Hl]|done|].
  - eapply calm_trans; [apply kept_calm, Hf|]. destruct (_ =? _); (split_and!; [done..|by intros ?]).
  - eapply framed_trans; [exact Hf|]. destruct (_ =? _); repeat split; by intros ?.
  - destruct (_ =? _); [|done]. destruct Hx3 as (a & Ea & []). exists a. by split.
Qed.
Definition stopped_session m (ok : bool) (s : IW) : Prop := in_session m s /\ (ok = true -> wk_capture_possible (fst s) = false).
Lemma guarded_live m m' : guarded m' = guarded m -> confirmed m -> live m'.
Proof. intros G Hc. left. unfold confirmed, guarded in *. by injection G as _ -> _. Qed.
Lemma wp_full_fence m t w : inv true (m, (t, w)) -> confirmed m ->
  wp (run rw_latch H qa RW_FULL; both (rw_fence H qa) (both (rw_close_queue H qa summary_at) (rw_guard H qa))) (stopped_session m) (m, (t, w)).
Proof.
  intros Hi Hc. apply wp_bind, (wp_quietly (mic_of m, true)); [apply quiet_latch|done|]. intros _ m1 w1 H1 _ Hx1.
  assert (Hc1 : confirmed m1) by by eapply framed_confirmed. assert (Hs1 := framed_steady _ _ H1).
  unfold both. apply wp_bind. eapply wp_mono; [apply wp_fence; [by eapply inv_keeps; [apply framed_keeps|]|done]|].
  intros ok [m2 [t2 w2]] (Hi2 & G2 & Hs2 & Hok). cbn [fst] in *. assert (H02 := steady_trans _ _ _ Hs1 Hs2).
  destruct ok; [|apply wp_ret; split; [split_and!; [done|by eapply guarded_live|done]|done]].
  apply wp_bind. eapply wp_mono; [by apply wp_close_queue|]. intros ok [m3 [t3 w3]] (Hi3 & G3 & Hs3 & _). cbn [fst] in *.
  assert (H03 := steady_trans _ _ _ H02 Hs3). assert (Hl3 : live m3) by (eapply guarded_live; [by rewrite G3|done]).
  assert (Hcap := sd_capture _ _ Hs3 Hok). destruct ok; [|apply wp_ret; by split_and!].
  eapply wp_mono; [by apply (wp_rw_guard (mic_of m3, true))|]. intros ok [m4 [t4 w4]] (Hx4 & Hf4 & _). cbn [fst] in *.
  split; [|intros _; by apply (sd_capture _ _ (framed_steady _ _ Hf4))].
  eapply in_session_from; [exact H03|]. by apply (in_session_framed (mic_of m3, true)).
Qed.
Lemma wp_rw_finalize c m t w : inv true (m, (t, w)) -> live m -> wp (rw_finalize H qa summary_at c) (fun _ => in_session m) (m, (t, w)).
Proof.
  intros Hi Hl. unfold rw_finalize. cbv zeta. apply wp_bind. eapply wp_mono; [by apply (wp_rw_guard (mic_of m, true))|].
  intros ok [m1 [t1 w1]] (Hx1 & Hf1 & Hu1). cbn [fst] in *. destruct ok; cbn [negb]; [|by apply wp_ret, (in_session_framed (mic_of m, true))].
  specialize (Hu1 eq_refl). assert (H1 : in_session m (m1, (t1, w1))) by by apply (in_session_framed (mic_of m, true)). clear Hx1.
  destruct H1 as (Hi1 & Hl1 & Hs1). cbn [fst] in *. apply wp_own, wp_bind. eapply (wp_mono _ (stopped_session m1)).
  { wp_step.
    - apply wp_ret. split; [by apply in_session_refl|]. intros _. destruct Hi1 as (a & _ & []). cbn [fst] in *. apply andb_prop in C as [C%negb_true_iff%Z.eqb_neq _]. auto.
    - wp_step; [|apply wp_full_fence; [done|by apply live_confirmed]]. apply wp_bind, (wp_quietly (mic_of m1, true)); [apply quiet_latch|done|].
      intros _ m2 w2 H2 _ Hx2. apply wp_ret. split; [by apply (in_session_framed (mic_of m1, true))|done]. }
  intros fenced [m2 [t2 w2]] [H2 Hcap]. apply (in_session_from m) in H2; [|done]. destruct fenced; cbn [negb]; [|by apply wp_ret]. specialize (Hcap eq_refl).
  destruct H2 as (Hi2 & Hl2 & Hs2). cbn [fst] in *. clear Hi1 Hl1 Hs1. set (x := (mic_of m2, true)).
  apply wp_bind. eapply (wp_mono _ (job_post x m2)).
  { unfold both. apply wp_bind. eapply wp_mono; [by apply (wp_begin_drain x)|]. intros ok [m3 [t3 w3]] Hj. destruct ok; [|by apply wp_ret].
    destruct Hj as (Hx3 & Hk3 & Hl3 & _). cbn [fst] in *. eapply wp_mono; [by apply (wp_new_job x)|]. intros ok s Hj. by eapply job_kept. }
  intros ok [m3 [t3 w3]] (Hx3 & Hk3%kept_calm & Hl3 & Hu3). cbn [fst] in *.
  destruct ok; cbn [negb]; [|apply wp_ret; eapply in_session_from; [exact Hs2|]; by apply (in_session_calm x)]. specialize (Hu3 eq_refl).
  apply wp_own, wp_bind. apply (wp_timely x (fun _ => x) (finalize_hook H c) (fun d _ => EvFinalize d)); [| |done|done|done|].
  { intros d t' w'. cbn. destruct (finalize_hook h c d w'); eauto. }
  { intros d a _ Ht El Em. cbn [supervise]. unfold x, mic_of in *. rewrite Hcap in *. cbn [fst snd] in *. rewrite Ht, El, Em. destruct a. cbn in *. by subst. }
  intros r m4 w4 H4 Hx4. eapply wp_mono; [apply (wp_after_hook x); [eapply calm_trans; [exact Hk3|by apply touched_calm]|by eapply worker_live_framed; [apply touched_framed|]|done|done]|].
  intros r' s Hs. by eapply in_session_from.
Qed.
End Inner.
