(* ===== verification/WorkerSession.v ===== *)
(** The worker's whole calls over logged hooks: what each of them leaves at rest,
    that the log of hook calls is one the automaton of [WorkerSafety] takes
    however the calls are composed and interrupted, and what a complete stop
    means. *)
From S2P Require Import Prelude FrameQueue SegmentHeader RecordTypes PlainSegment Wp RecordingPipeline PipelineWorld RecordingWorker WorkerSafety.

(** What the invariants speak of. *)
Definition watched (m : rw_mem) :=
  let s := wk_report m in
  (ws_state s, ws_lease_held s, ws_producer_fenced s, ws_queue_closed s, ws_supervisor_armed s, ws_supervisor_confirmed s,
   (wk_deadline m, wk_clock_seen m, wk_last_now m, wk_capture_possible m, wk_stop_attempted m, wk_unsafe m)).

Section Session.
Context {W : Type} (h : rw_hooks W) (opus : opus_codec) (qa frame_at summary_at : Z).
Abbreviation H := (logged h).
Abbreviation IW := (rw_mem * (list hook_event * W))%type.
Abbreviation TW := (pipeline * IW)%type.
Implicit Types (m : rw_mem) (t : list hook_event) (w : W) (c : pipeline) (s : IW).

Lemma touched_watched m m' : touched m m' -> watched m' = watched m.
Proof. unfold touched, owned, watched. intros [=]. congruence. Qed.
Ltac watching E :=
  unfold watched in E; injection E as ? ? ? ? ? ? ? ? ? ? ? ?;
  repeat match goal with E : _ (wk_report ?n) = _ (wk_report ?m) |- _ => rewrite E; clear E | E : _ ?n = _ ?m |- _ => rewrite E; clear E end.
Lemma obeys_watched x m m' t w w' : watched m' = watched m -> obeys (W := W) x (m, (t, w)) -> obeys (W := W) x (m', (t, w')).
Proof.
  intros E (a & Ea & []). exists a. split; [done|]. unfold confirmed in *. cbn [fst snd] in *. clear Ea. split; unfold confirmed; by watching E.
Qed.
Lemma inv_watched y m m' t w w' : watched m' = watched m -> inv (W := W) y (m, (t, w)) -> inv (W := W) y (m', (t, w')).
Proof.
  intros E Hi. unfold inv. cbn [fst]. replace (mic_of m') with (mic_of m); [by apply (obeys_watched _ m m' t w)|]. unfold mic_of. by watching E.
Qed.
Lemma live_watched m m' : watched m' = watched m -> live m -> live m'.
Proof. intros E. unfold live, confirmed. by watching E. Qed.
Lemma steady_watched m0 m m' : watched m' = watched m -> steady m0 m -> steady m0 m'.
Proof. intros E []. unfold onward, state_of, spoils in *. split; unfold onward, state_of, spoils; by watching E. Qed.
Lemma in_session_watched m0 m m' t w w' : watched m' = watched m -> in_session (W := W) m0 (m, (t, w)) -> in_session (W := W) m0 (m', (t, w')).
Proof. intros E (H1 & H2 & H3). split_and!; [by apply (inv_watched _ m m' t w)|by eapply live_watched|by eapply steady_watched]. Qed.

(** ** What a session's steps keep *)
Section Steps.
Context (m0 : rw_mem).
Definition keeping {A} (o : M IW A) : Prop := forall s, in_session m0 s -> wp o (fun _ => in_session m0) s.
Lemma keeping_ret {A} (a : A) : keeping (ret a).
Proof. by intros s H. Qed.
Lemma keeping_bind {A B} (o : M IW A) (k : A -> M IW B) : keeping o -> (forall a, keeping (k a)) -> keeping (bind o k).
Proof. intros Ho Hk s Hs. apply wp_bind. eapply wp_mono; [by apply Ho|]. intros a s' Hs'. by apply Hk. Qed.
Lemma keeping_own {A} (k : rw_mem -> M IW A) : (forall m, keeping (k m)) -> keeping (own k).
Proof. intros Hk [m w]. apply Hk. Qed.
Lemma keeping_quiet {A} (o : M IW A) : quiet o -> keeping o.
Proof. intros Ho [m [t w]] Hs. apply wp_quiet; [done|]. intros a m' w' Hm. apply (in_session_watched _ m m' t w); [by apply touched_watched|done]. Qed.
Lemma keeping_change f : (forall m, watched (f m) = watched m) -> keeping (change f).
Proof. intros Hf [m [t w]] Hs. apply wp_change. by apply (in_session_watched _ m (f m) t w). Qed.
(** A step that keeps the session it starts in. *)
Lemma keeping_within {A} (o : M IW A) : (forall m t w, inv true (m, (t, w)) -> live m -> wp o (fun _ => in_session m) (m, (t, w))) -> keeping o.
Proof.
  intros Ho [m [t w]] (Hi & Hl & Hs). eapply wp_mono; [by apply Ho|]. intros a s' H. by eapply in_session_from.
Qed.
Lemma keeping_clock : keeping (rw_clock H qa).
Proof.
  apply keeping_within. intros m t w Hi Hl. eapply wp_mono; [by apply (wp_clock h qa (mic_of m, true))|]. intros ok [m' [t' w']] (Hx & Hf & _).
  by apply (in_session_framed (mic_of m, true)).
Qed.
Lemma keeping_guard : keeping (rw_guard H qa).
Proof.
  apply keeping_within. intros m t w Hi Hl. eapply wp_mono; [by apply (wp_rw_guard h qa (mic_of m, true))|]. intros ok [m' [t' w']] (Hx & Hf & _).
  by apply (in_session_framed (mic_of m, true)).
Qed.
Lemma keeping_begin_drain : keeping (rw_begin_drain H qa).
Proof.
  apply keeping_within. intros m t w Hi Hl. eapply wp_mono; [by apply (wp_begin_drain h qa (mic_of m, true))|]. intros ok [m' [t' w']] (Hx & Hk & Hl' & _).
  apply (in_session_calm (mic_of m, true)); [by apply kept_calm|done..].
Qed.
Lemma keeping_close_queue : keeping (rw_close_queue H qa summary_at).
Proof.
  apply keeping_within. intros m t w Hi Hl. eapply wp_mono; [by apply wp_close_queue|]. intros ok [m' [t' w']] (Hi' & G & Hs & _). cbn [fst] in *.
  split_and!; [done| |done]. destruct Hl as [Hc|Hu]; [by eapply guarded_live|right; by apply (sd_spoils _ _ Hs)].
Qed.
Lemma keeping_commit b p n : keeping (rw_commit H qa b p n).
Proof. apply keeping_within. intros. by apply wp_commit. Qed.
Lemma keeping_poll b : keeping (rw_poll H qa b).
Proof. apply keeping_within. intros. by apply wp_poll. Qed.
Lemma keeping_finalize r : keeping (rw_finalize H qa summary_at r).
Proof. apply keeping_within. intros. by apply wp_rw_finalize. Qed.
Abbreviation keeps o := (worldly (W := IW) (in_session m0) o).
Lemma keeps_inner {A} (o : M IW A) : keeping o -> keeps (inner o).
Proof. intros Ho. by apply worldly_call. Qed.
Lemma keeps_memory : keeps memory.
Proof. apply keeps_inner, keeping_own. intros m. apply keeping_ret. Qed.
Abbreviation sink := (bridge H qa summary_at).
Lemma keeps_push first pcm : keeps (rp_push_frame opus sink first pcm).
Proof. apply worldly_rp_push_frame; intros; first [by apply keeping_commit|by apply keeping_finalize|by apply keeping_poll]. Qed.
Lemma keeps_rp_poll : keeps (rp_poll opus sink).
Proof. apply worldly_rp_poll; intros; first [by apply keeping_commit|by apply keeping_finalize|by apply keeping_poll]. Qed.
Lemma keeps_end reason : keeps (rp_end opus sink reason).
Proof. apply worldly_rp_end; intros; first [by apply keeping_commit|by apply keeping_finalize|by apply keeping_poll]. Qed.
Ltac keep :=
  repeat first
    [ apply keeping_ret | apply worldly_ret | apply keeps_memory | apply keeps_push | apply keeps_rp_poll | apply keeps_end
    | apply worldly_rp_get_status | apply worldly_rp_external_fault
    | apply keeping_guard | apply keeping_clock | apply keeping_begin_drain | apply keeping_close_queue
    | apply keeping_quiet; first [apply quiet_latch|apply quiet_load|apply quiet_queue|apply quiet_collect]
    | apply keeping_change; intros; cbn [report_upd]; unfold watched; cbn; by repeat case_match
    | match goal with
      | |- worldly _ (inner _) => apply keeps_inner
      | |- worldly _ (bind _ _) => apply worldly_bind; [|intros ?]
      | |- keeping (bind _ _) => apply keeping_bind; [|intros ?]
      | |- keeping (own _) => apply keeping_own; intros ?
      | |- keeping (both _ _) => unfold both
      | |- keeping (report _) => unfold report
      | |- keeping is_external => unfold is_external
      | |- keeping (stop_reason _ _) => unfold stop_reason
      | |- keeping (is_external _ _) => unfold is_external
      | |- keeping (match ?x with _ => _ end) => destruct x
      | |- worldly _ (match ?x with _ => _ end) => destruct x
      end
    | progress (cbv beta zeta) ].
Lemma keeps_pipeline : keeps (rw_pipeline H qa).
Proof. unfold rw_pipeline. keep. Qed.
Lemma keeps_feed : keeps (rw_feed H opus qa frame_at summary_at).
Proof. unfold rw_feed, discarded, rw_wipe, set_error. pose proof keeps_pipeline. keep; done. Qed.
Lemma keeps_may_drain : keeps (may_drain H qa).
Proof. unfold may_drain. pose proof keeps_pipeline. keep; done. Qed.
Lemma keeps_drain_frames n : keeps (drain_frames H opus qa frame_at summary_at n).
Proof. pose proof keeps_feed. induction n as [|n IH]; cbn [drain_frames]; keep; done. Qed.
Lemma keeps_finalizable reason : keeps (is_finalizable H qa reason).
Proof. unfold is_finalizable. keep. Qed.
Lemma keeps_end_session reason finalizable : keeps (end_session H opus qa summary_at reason finalizable).
Proof. unfold end_session, set_error. keep. Qed.
Lemma keeps_report_reason : keeps (report_reason H qa).
Proof. unfold report_reason. keep. Qed.
End Steps.

(** ** What a call leaves *)
Lemma wp_inner {A} (o : M IW A) (Q : A -> TW -> Prop) c s : wp o (fun a s' => Q a (c, s')) s -> wp (inner o) Q (c, s).
Proof. intros Ho. unfold inner. apply wp_call. intros a s' E. exact (wp_elim _ _ _ _ _ Ho E). Qed.
Lemma wp_memory (Q : rw_mem -> TW -> Prop) c s : Q (fst s) (c, s) -> wp memory Q (c, s).
Proof. by destruct s. Qed.
Lemma wp_keeps m0 {A} (o : M TW A) (Q : A -> TW -> Prop) c s : worldly (W := IW) (in_session m0) o -> in_session m0 s ->
  (forall a c' s', in_session m0 s' -> Q a (c', s')) -> wp o Q (c, s).
Proof. intros Ho Hs HQ. apply wp_intro. intros a [c' s'] E. apply HQ. specialize (Ho (c, s) Hs). by rewrite E in Ho. Qed.

(** The automaton takes the log, whatever became of the lease. *)
Definition logs_ok s : Prop := exists y, inv y s.
(** At rest with nothing held, capturing, or ended. *)
Record released s : Prop := {
  re_inv : inv false s; re_capture : wk_capture_possible (fst s) = false; re_lease : ws_lease_held (wk_report (fst s)) = 0;
  re_confirmed : ws_supervisor_confirmed (wk_report (fst s)) = 0; re_safe : wk_unsafe (fst s) = false
}.
(** A session with its lease. *)
Definition held s : Prop := inv true s /\ ws_lease_held (wk_report (fst s)) <> 0.
Record rests s : Prop := {
  rs_idle : In (state_of (fst s)) [RW_UNINITIALIZED; RW_IDLE; RW_STOPPED] -> released s;
  rs_running : state_of (fst s) = RW_RUNNING ->
    held s /\ ws_supervisor_confirmed (wk_report (fst s)) = 0 /\ wk_unsafe (fst s) = false;
  rs_draining : state_of (fst s) = RW_DRAINING -> held s /\ live (fst s);
  rs_any : logs_ok s
}.
(** A session that ended as it should. *)
Record completed (r : rp_status) m : Prop := {
  co_state : state_of m = RW_STOPPED; co_lease : ws_lease_held (wk_report m) = 0;
  co_confirmed : ws_supervisor_confirmed (wk_report m) = 0; co_armed : ws_supervisor_armed (wk_report m) = 0;
  co_capture : wk_capture_possible m = false; co_safe : wk_unsafe m = false; co_fault : ws_fault (wk_report m) = 0;
  co_pipeline : ws_pipeline (wk_report m) = r; co_manifest : ps_manifest_finalized r = 1; co_certain : ps_commit_uncertain r = 0;
  co_pending : ps_pending_segments r = 0; co_wiped : ps_buffers_wiped r = 1
}.
Definition done_post (rc : Z) (s : TW) : Prop :=
  rests (snd s) /\ (rc = RW_COMPLETE -> completed (status (fst s)) (fst (snd s))).
Lemma rests_over s : In (state_of (fst s)) [RW_STOPPING; RW_FAULT; RW_STARTING] -> logs_ok s -> rests s.
Proof.
  intros Hst Hl. split; [| | |done]; intros E; exfalso; destruct Hst as [Hst|[Hst|[Hst|[]]]]; rewrite <- Hst in E; vm_compute in E; intuition congruence.
Qed.
Lemma rests_fault s : logs_ok s -> state_of (fst s) = RW_FAULT -> rests s.
Proof. intros Hl E. apply rests_over; [|done]. rewrite E. right. by left. Qed.
Lemma wp_fault_error c s : logs_ok s -> wp (fault_error H qa) done_post (c, s).
Proof.
  intros [y Hi]. destruct s as [m [t w]]. unfold fault_error. apply wp_bind, wp_inner. eapply wp_mono; [by apply (wp_gave_up h qa y)|].
  intros [] s (H1 & _ & H3). apply wp_ret. split; [|done]. by apply rests_fault; [exists y|].
Qed.
Lemma held_logs s : held s -> logs_ok s.
Proof. intros [Hi _]. by exists true. Qed.
Lemma session_logs m0 s : in_session m0 s -> logs_ok s.
Proof. intros [Hi _]. by exists true. Qed.

(** ** Shutting down *)
Lemma wp_changed m0 f (Q : unit -> IW -> Prop) m t w : watched (f m) = watched m -> in_session m0 (m, (t, w)) ->
  (in_session m0 (f m, (t, w)) -> Q tt (f m, (t, w))) -> wp (change f) Q (m, (t, w)).
Proof. intros E Hs HQ. apply wp_change, HQ. by apply (in_session_watched m0 m (f m) t w w). Qed.
Lemma wp_pipeline m0 (Q : bool -> TW -> Prop) c s : in_session m0 s ->
  (forall ok s', in_session m0 s' -> (ok = true -> ws_pipeline (wk_report (fst s')) = status c) -> Q ok (c, s')) -> wp (rw_pipeline H qa) Q (c, s).
Proof.
  intros Hs HQ. unfold rw_pipeline. apply wp_bind. unfold rp_get_status. cbn [negb]. apply wp_own. destruct s as [m [t w]].
  wp_step; apply wp_ret.
  - change RP_BUSY with (-2). apply wp_bind, wp_inner. unfold report. apply (wp_changed m0); [done|done|]. intros Hs1.
    apply wp_bind, wp_inner, wp_quiet; [apply quiet_latch|]. intros _ m' w' Hm. apply wp_ret, HQ; [|done].
    exact (in_session_watched m0 _ _ t w _ (touched_watched _ _ Hm) Hs1).
  - change RP_OK with 0. apply wp_bind, wp_inner. unfold report. apply (wp_changed m0); [done|done|]. intros Hs1. by apply wp_ret, HQ.
Qed.
(** Only reported reasons change. *)
Definition ends m t s : Prop :=
  watched (fst s) = watched m /\ ws_pipeline (wk_report (fst s)) = ws_pipeline (wk_report m) /\
  ws_fault (wk_report (fst s)) = ws_fault (wk_report m) /\ fst (snd s) = t.
(** A computation that changes nothing else. *)
Definition ending c m t {A} (o : M TW A) : Prop :=
  forall r, fst r = c /\ ends m t (snd r) -> wp o (fun _ r' => fst r' = c /\ ends m t (snd r')) r.
Lemma ending_ret c m t {A} (a : A) : ending c m t (ret a).
Proof. by intros r Hr. Qed.
Lemma ending_bind c m t {A B} (o : M TW A) (k : A -> M TW B) : ending c m t o -> (forall a, ending c m t (k a)) -> ending c m t (bind o k).
Proof. intros Ho Hk r Hr. apply wp_bind. eapply wp_mono; [by apply Ho|]. intros a r' Hr'. by apply Hk. Qed.
Lemma ending_quiet c m t {A} (o : M IW A) : quiet o -> ending c m t (inner o).
Proof.
  intros Ho [c1 [m1 [t1 w1]]] (Ec & E1 & E2 & E3 & E4). cbn [fst snd] in *. apply wp_inner, wp_quiet; [done|].
  intros _ m2 w2 Hm. unfold ends. cbn [fst snd]. rewrite (touched_watched _ _ Hm). by injection Hm as _ _ -> _.
Qed.
Lemma ending_report c m t f : (forall m1, watched (report_upd f m1) = watched m1) ->
  (forall r, ws_pipeline (f r) = ws_pipeline r /\ ws_fault (f r) = ws_fault r) -> ending c m t (inner (report f)).
Proof.
  intros Hf Hr [c1 [m1 [t1 w1]]] (Ec & E1 & E2 & E3 & E4). cbn [fst snd] in *. destruct (Hr (wk_report m1)) as [Hp He].
  unfold report. apply wp_inner, wp_change. unfold ends. cbn [fst snd]. rewrite Hf. cbn. by rewrite Hp, He.
Qed.
Lemma ending_report_reason c m t : ending c m t (report_reason H qa).
Proof.
  unfold report_reason, stop_reason, is_external, memory.
  repeat first
    [ apply ending_ret | apply ending_quiet; first [apply quiet_latch|apply quiet_load|apply quiet_ret|apply quiet_own; intros; apply quiet_ret]
    | apply ending_report; intros; [unfold watched; cbn; by repeat case_match|by repeat case_match]
    | apply ending_bind; [|intros ?]
    | match goal with
      | |- ending _ _ _ (match ?x with _ => _ end) => destruct x
      | |- ending _ _ _ (inner (match ?x with _ => _ end)) => destruct x
      end
    | progress (cbv beta zeta) ].
Qed.
(** The session is over, and its lease may have been given back. *)
Record settled m0 (ok : bool) s : Prop := {
  se_inv : exists y, inv y s /\ (ok = true -> y = false); se_live : live (fst s); se_capture : wk_capture_possible (fst s) = false;
  se_fault : ws_fault (wk_report (fst s)) = ws_fault (wk_report m0); se_pipeline : ws_pipeline (wk_report (fst s)) = ws_pipeline (wk_report m0);
  se_lease : ok = true -> ws_lease_held (wk_report (fst s)) = 0
}.
Lemma released_settled m ok s : released_post m ok s -> live m -> wk_capture_possible m = false -> settled m ok s.
Proof.
  intros (Hy & G & Sp & Hc & _ & Hf & Hp & _ & Hl) Hlive Hcap. split; [done| |congruence|done..].
  destruct Hlive as [Hc0|Hu]; [by eapply guarded_live|right; by apply Sp].
Qed.
(** The worker comes to rest in a state where it holds nothing. *)
Lemma wp_come_to_rest st m t w : inv false (m, (t, w)) -> wk_unsafe m = false -> ws_supervisor_confirmed (wk_report m) = 0 ->
  wk_capture_possible m = false -> ws_lease_held (wk_report m) = 0 -> In st [RW_IDLE; RW_STOPPED] ->
  wp (rw_state_set H qa st) (fun _ s => rests s /\ state_of (fst s) = st /\ kept (report_upd (fun r => r <| ws_state := st |>) m) (fst s) /\
    guarded (fst s) = guarded m /\ wk_unsafe (fst s) = false) (m, (t, w)).
Proof.
  intros Hi Hu Hc Hcap Hl Hst. eapply wp_mono; [by apply (wp_state_set h qa (mic_of m, false))|].
  intros _ [m1 [t1 w1]] (Hx & [[E Sp] G] & Hu1). cbn [fst] in *. rewrite Hu in Hu1.
  assert (Hst1 : state_of m1 = st) by (unfold core in E; by injection E).
  assert (Hr : released (m1, (t1, w1))).
  { unfold core in E. unfold guarded in G. injection E as _ El _ _ _ _ Ec Ea _ _ _. cbn in El, Ec. injection G as _ G _.
    split; cbn [fst]; [|congruence..]. unfold inv, mic_of in *. cbn [fst] in *. by rewrite Hcap in Hx; rewrite Ec, Hcap. }
  split_and!; [|done..]. split; cbn [fst]; [done| | |exists false; apply Hr]; rewrite Hst1; destruct Hst as [<-|[<-|[]]]; done.
Qed.
Lemma wp_conclude reason c m t w : inv true (m, (t, w)) -> live m -> wk_capture_possible m = false ->
  ws_lease_held (wk_report m) <> 0 -> ws_pipeline (wk_report m) = status c -> wp (conclude H qa reason) done_post (c, (m, (t, w))).
Proof.
  intros Hi Hl Hcap Hh Hp. unfold conclude. apply wp_bind, wp_inner, wp_quiet; [apply quiet_load|]. intros external m1 w1 Ht.
  apply (inv_watched true m m1 t w w1 (touched_watched _ _ Ht)) in Hi. apply (live_watched _ _ (touched_watched _ _ Ht)) in Hl.
  assert (Er : wk_report m1 = wk_report m /\ wk_capture_possible m1 = wk_capture_possible m) by by injection Ht as _ _ -> _ _ _ _ _ _ _ _ -> _.
  destruct Er as [Er Ec]. rewrite <- Er in *. rewrite <- Ec in Hcap. clear Ht Er Ec m w. apply wp_bind, wp_memory. cbv zeta. cbn [fst].
  apply wp_bind, (wp_mono _ (fun ok r => fst r = c /\ settled m1 ok (snd r))).
  { wp_step; [|apply wp_ret; split; [done|]; split; try done; by exists true].
    apply wp_inner. eapply wp_mono; [by apply wp_release_lease|]. intros ok s Hs. split; [done|by apply released_settled]. }
  intros released [c' [m2 [t2 w2]]] [Ecc [(y & Hy & Hr) Hl2 Hc2 Hf2 Hp2 Hh2]]. cbn [fst snd] in *. subst c'.
  apply wp_bind, wp_inner. eapply wp_mono; [by apply (wp_disarm h qa (mic_of m2, y))|].
  intros disarmed [m3 [t3 w3]] (Hx3 & [E3 Sp3] & Hd). cbn [fst snd] in *.
  assert (Hi3 : inv y (m3, (t3, w3))).
  { unfold inv, mic_of in *. cbn [fst]. unfold core in E3. by injection E3 as _ _ _ _ _ _ -> -> _ _ _. }
  wp_step; [|apply wp_fault_error; by exists y].
  apply andb_prop in C as [[C ->]%andb_prop ->]. specialize (Hh2 eq_refl). destruct Hd as (Hu & Hcf & Ha). rewrite (Hr eq_refl) in Hi3.
  unfold core in E3. injection E3 as _ Ell _ _ Epp Eff Ecc _ _ _ _. rewrite Hc2 in Ecc. rewrite Hh2 in Ell. rewrite Hf2 in Eff. rewrite Hp2, Hp in Epp.
  apply wp_bind, wp_inner. eapply wp_mono; [apply wp_come_to_rest; try done; right; by left|].
  intros [] [m4 w4] (Hrest & Hst & [E4 _] & G4 & Hu4). cbn [fst snd] in *. apply wp_ret. split; [done|]. intros _. cbn [fst snd].
  unfold core in E4. injection E4 as _ El4 _ _ Ep4 Ef4 Ec4 _ _ _ _. unfold guarded in G4. injection G4 as Ga Gc _. cbn in El4, Ep4, Ef4, Ec4.
  unfold ended_clean, one in C. cbv zeta in C. rewrite Hp in C. repeat match goal with H : _ && _ = true |- _ => apply andb_prop in H as [? ?] end.
  repeat match goal with H : (_ =? _) = true |- _ => apply Z.eqb_eq in H end.
  split; cbn [fst]; congruence.
Qed.
(** A session whose capture has stopped. *)
Definition stopped m0 s : Prop := in_session m0 s /\ wk_capture_possible m0 = false /\ ws_lease_held (wk_report m0) <> 0.
Lemma stopped_facts m0 s : stopped m0 s ->
  inv true s /\ live (fst s) /\ wk_capture_possible (fst s) = false /\ ws_lease_held (wk_report (fst s)) <> 0.
Proof. intros ((Hi & Hl & Hs) & Hc & Hh). split_and!; [done|done|by apply (sd_capture _ _ Hs)|by rewrite (sd_lease _ _ Hs)]. Qed.
Lemma wp_report_reason m0 c s : stopped m0 s -> ws_pipeline (wk_report (fst s)) = status c ->
  wp (do reason <- report_reason H qa; conclude H qa reason) done_post (c, s).
Proof.
  destruct s as [m [t w]]. intros (Hi & Hl & Hc & Hh)%stopped_facts Hp. cbn [fst] in *. apply wp_bind.
  eapply wp_mono; [by apply (ending_report_reason c m t)|]. intros reason [c1 [m1 [t1 w1]]] (Ec & Ew & Ep & _ & Et). cbn [fst snd] in *. subst c1 t1.
  assert (Hc1 : wk_capture_possible m1 = wk_capture_possible m /\ ws_lease_held (wk_report m1) = ws_lease_held (wk_report m))
    by (unfold watched in Ew; by injection Ew).
  destruct Hc1 as [Ec Eh]. apply wp_conclude; [by apply (inv_watched true m m1 t w w1)|by apply (live_watched m)|congruence..].
Qed.
Lemma stopped_steps m0 {A} (o : M TW A) (Q : A -> TW -> Prop) c s : worldly (W := IW) (in_session m0) o -> stopped m0 s ->
  (forall a c' s', stopped m0 s' -> Q a (c', s')) -> wp o Q (c, s).
Proof. intros Ho [Hs Hf] HQ. apply (wp_keeps m0); [done|done|]. intros a c' s' Hs'. by apply HQ. Qed.
Lemma stopped_logs m0 s : stopped m0 s -> logs_ok s.
Proof. intros [Hs _]. by eapply session_logs. Qed.
(** The pipeline may still have to drain. *)
Lemma wp_wait m0 reason c s : stopped m0 s ->
  wp (run inner (report (fun r => r <| ws_reason := reason |> <| ws_stop_reason := reason |>)); run inner (rw_state_set H qa RW_DRAINING); ret RW_WAIT)
    done_post (c, s).
Proof.
  destruct s as [m [t w]]. intros (Hi & Hl & Hc & Hh)%stopped_facts. cbn [fst] in *. apply wp_bind, wp_inner, (wp_report (mic_of m, true)); [done|done|].
  intros Hx _. apply wp_bind, wp_inner. name_context m1 E1. eapply wp_mono; [by apply (wp_state_set h qa (mic_of m, true))|].
  intros _ [m2 [t2 w2]] (Hx2 & [[E2 Sp2] G2] & _). cbn [fst] in *. apply wp_ret. split; [|done]. cbn [snd].
  assert (E : ws_state (wk_report m2) = RW_DRAINING /\ mic_of m2 = mic_of m /\ ws_lease_held (wk_report m2) = ws_lease_held (wk_report m)).
  { unfold core in E2. unfold mic_of. injection E2 as ? ? ? ? ? ? Ecap Eatt ? ? ?. rewrite Ecap, Eatt, E1 in *. done. }
  destruct E as (Est & Em & El). assert (Hheld : held (m2, (t2, w2))).
  { split; [unfold inv; cbn [fst]; by rewrite Em|cbn [fst]; congruence]. }
  split; cbn [fst]; unfold state_of; rewrite ?Est; try done; [by intros [?|[?|[?|[]]]]| |by apply held_logs].
  intros _. split; [done|]. destruct Hl as [Hcf|Hu]; [left|right; apply Sp2; by rewrite E1]. unfold confirmed, guarded in *. rewrite E1 in G2. by injection G2 as _ -> _.
Qed.
Lemma wp_settle m0 reason finalizable c s : stopped m0 s -> ws_pipeline (wk_report (fst s)) = status c ->
  wp (settle H qa reason finalizable) done_post (c, s).
Proof.
  intros Hs Hp. unfold settle. apply wp_bind, wp_memory, wp_bind.
  apply (wp_mono _ (fun waiting r => stopped m0 (snd r) /\ (waiting = Some false -> ws_pipeline (wk_report (fst (snd r))) = status (fst r)))).
  { wp_step; [by apply wp_ret|]. apply wp_bind, (stopped_steps m0); [|done|].
    { destruct (_ && _); [apply keeps_inner, keeping_guard|apply worldly_ret]. }
    intros wait c1 s1 Hs1. wp_step; [by apply wp_ret|]. apply wp_bind, (stopped_steps m0); [apply worldly_rp_external_fault|done|].
    intros _ c2 s2 [Hs2 Hf]. apply wp_bind, (wp_pipeline m0); [done|]. intros ok s3 Hs3 Hok. apply wp_ret. split; [done|]. destruct ok; auto. done. }
  intros [[|]|] [c1 s1] [Hs1 Hp1]; cbn [fst snd] in *; [by apply (wp_wait m0)| |by eapply wp_fault_error, stopped_logs].
  apply wp_bind, wp_memory. cbv zeta. wp_step; [by eapply wp_fault_error, stopped_logs|]. apply (wp_report_reason m0); auto.
Qed.
Lemma wp_shutdown c s : held s -> wp (rw_shutdown H opus qa frame_at summary_at) done_post (c, s).
Proof.
  intros Hs. unfold rw_shutdown. apply wp_bind, wp_memory. wp_step; [by apply wp_fault_error, held_logs|]. apply Z.eqb_neq in C.
  destruct s as [m [t w]], Hs as [Hi Hh]. cbn [fst] in *. apply wp_bind, wp_inner. eapply wp_mono; [by apply wp_fence|].
  intros fenced [m1 [t1 w1]] (Hi1 & G1 & Hs1 & Hok). cbn [fst] in *. destruct fenced; cbn [negb].
  2: { apply wp_ret. split; [|done]. by apply rests_fault; [exists true|]. }
  assert (H1 : stopped m1 (m1, (t1, w1))).
  { split_and!; [apply in_session_refl; [done|by eapply guarded_live]|done|by rewrite (sd_lease _ _ Hs1)]. }
  apply wp_bind, (stopped_steps m1); [apply keeps_may_drain|done|]. intros can c2 s2 H2.
  apply wp_bind, (stopped_steps m1); [destruct can; [apply keeps_drain_frames|apply worldly_ret]|done|]. intros _ c3 s3 H3.
  apply wp_bind, wp_inner. destruct s3 as [m3 [t3 w3]]. eapply wp_mono; [apply wp_close_queue, (stopped_facts _ _ H3)|].
  intros closed s4 (Hi4 & G4 & Hs4 & Hok4). destruct closed; cbn [negb].
  2: { apply wp_ret. split; [|done]. by apply rests_fault; [exists true|apply Hok4]. }
  assert (H4 : stopped m1 s4).
  { destruct H3 as ((_ & Hl3 & Hs3) & Hf). split; [|done]. cbn [fst] in *. split_and!; [done| |by eapply steady_trans].
    destruct Hl3 as [Hc3|Hu3]; [by eapply guarded_live|right; by apply (sd_spoils _ _ Hs4)]. }
  clear Hi4 G4 Hs4 Hok4 H3 Hi G1 Hi1 Hok Hs1 C Hh. apply wp_bind, (wp_pipeline m1); [apply H4|]. intros read s5 Hs5 _.
  assert (H5 : stopped m1 s5) by (split; [done|apply H4]). destruct read; cbn [negb]; [|by eapply wp_fault_error, stopped_logs].
  apply wp_bind, (stopped_steps m1); [apply keeps_inner, keeping_quiet, quiet_load|done|]. intros reason c6 s6 H6.
  apply wp_bind, (stopped_steps m1); [apply keeps_finalizable|done|]. intros finalizable c7 s7 H7.
  apply wp_bind, (stopped_steps m1); [apply keeps_end_session|done|]. intros _ c8 s8 H8.
  apply wp_bind, (stopped_steps m1); [by apply keeps_inner, keeping_change|done|]. intros _ c9 s9 H9.
  apply wp_bind, (wp_pipeline m1); [apply H9|]. intros read sa Hsa Hp. assert (Ha : stopped m1 sa) by (split; [done|apply H9]).
  destruct read; cbn [negb]; [|by eapply wp_fault_error, stopped_logs]. apply (wp_settle m1); auto.
Qed.

Abbreviation shutdown := (rw_shutdown H opus qa frame_at summary_at).

(** ** Stepping *)
(** A session that runs or drains. *)
Definition going st m0 s : Prop := in_session m0 s /\ ws_lease_held (wk_report m0) <> 0 /\ state_of m0 = st.
Lemma going_held st m0 s : going st m0 s -> held s.
Proof. intros ((Hi & _ & Hs) & Hh & _). split; [done|by rewrite (sd_lease _ _ Hs)]. Qed.
Lemma going_onward st m0 s : going st m0 s -> onward st (fst s).
Proof. intros ((_ & _ & Hs) & _ & <-). apply (sd_state _ _ Hs). Qed.
Lemma going_steps st m0 {A} (o : M TW A) (Q : A -> TW -> Prop) c s : worldly (W := IW) (in_session m0) o -> going st m0 s ->
  (forall a c' s', going st m0 s' -> Q a (c', s')) -> wp o Q (c, s).
Proof. intros Ho [Hs Hf] HQ. apply (wp_keeps m0); [done|done|]. intros a c' s' Hs'. by apply HQ. Qed.
Lemma going_logs st m0 s : going st m0 s -> logs_ok s.
Proof. intros H%going_held. by apply held_logs. Qed.
Lemma going_shutdown st m0 c s : going st m0 s -> wp (rw_shutdown H opus qa frame_at summary_at) done_post (c, s).
Proof. intros H%going_held. by apply wp_shutdown. Qed.
Lemma wp_disarm_or_stop m0 rc c s : rc <> RW_COMPLETE -> going RW_RUNNING m0 s ->
  wp (disarm_or_stop H opus qa frame_at summary_at rc) done_post (c, s).
Proof.
  intros Hrc Hg. assert (Hh := going_held _ _ _ Hg). assert (Ho := going_onward _ _ _ Hg). destruct Hg as [(Hi & Hl & _) _].
  destruct s as [m [t w]], Hh as [_ Hh]. cbn [fst] in *. unfold disarm_or_stop. apply wp_bind, wp_inner.
  eapply wp_mono; [by apply (wp_disarm h qa (mic_of m, true))|]. intros ok [m1 [t1 w1]] (Hx & [E Sp] & Hok). cbn [fst] in *.
  assert (Hs1 : held (m1, (t1, w1)) /\ state_of m1 = state_of m).
  { unfold held, inv, mic_of, state_of in *. cbn [fst] in *. unfold core in E. by injection E as -> -> _ _ _ _ -> -> _ _ _. }
  destruct Hs1 as [Hs1 Est]. destruct ok; [|by apply wp_shutdown]. apply wp_ret. split; [|done]. cbn [snd]. destruct Hok as (Hu & Hc & _).
  split; cbn [fst]; [|done| |by apply held_logs]; rewrite Est; intros Hst; exfalso; destruct Ho as [E1|[E1|[E1|[]]]]; rewrite <- E1 in Hst; vm_compute in Hst; intuition congruence.
Qed.
Lemma wp_drain_step c s : rests s -> state_of (fst s) = RW_DRAINING -> wp (drain_step H opus qa frame_at summary_at) done_post (c, s).
Proof.
  intros [_ _ Hd _] Hst. destruct (Hd Hst) as [[Hi Hh] Hl]. clear Hd. destruct s as [m [t w]]. cbn [fst] in *. unfold drain_step.
  apply wp_bind, wp_memory. cbv zeta. wp_step.
  { apply wp_bind, wp_inner, (wp_report (mic_of m, true)); [done|done|]. intros Hx Hk. apply wp_bind, wp_inner, (wp_quietly (mic_of m, true)); [apply quiet_latch|done|].
    intros _ m1 w1 H1%framed_keeps _ Hx1. apply wp_fault_error. exists true. apply (inv_keeps true m (m1, (t, w1))); [exact (worker_keeps_trans _ _ _ Hk H1)|exact Hx1]. }
  assert (Hg : going RW_DRAINING m (m, (t, w))) by (split_and!; [by apply in_session_refl|done..]). clear C Hst Hi Hh Hl.
  apply wp_bind, (going_steps RW_DRAINING m); [apply keeps_inner, keeping_guard|done|]. intros ok c1 s1 H1. wp_step; [by eapply going_shutdown|].
  apply wp_bind, (going_steps RW_DRAINING m); [apply keeps_rp_poll|done|]. intros polled c2 s2 H2.
  apply wp_bind, (going_steps RW_DRAINING m); [by apply keeps_inner, keeping_change|done|]. intros _ c3 s3 H3.
  apply wp_bind, (going_steps RW_DRAINING m); [apply keeps_inner, keeping_clock|done|]. intros _ c4 s4 H4.
  apply wp_bind, (going_steps RW_DRAINING m); [apply keeps_inner, keeping_quiet, quiet_collect|done|]. intros _ c5 s5 H5.
  apply wp_bind, (going_steps RW_DRAINING m); [apply keeps_pipeline|done|]. intros read c6 s6 H6. wp_step; [by eapply wp_fault_error, going_logs|].
  apply wp_bind, (going_steps RW_DRAINING m); [|done|].
  { destruct (_ && _); [|apply worldly_ret]. apply worldly_bind; [by apply keeps_inner, keeping_change|intros _; apply keeps_inner, keeping_quiet, quiet_latch]. }
  intros _ c7 s7 H7. apply wp_bind, (going_steps RW_DRAINING m); [apply keeps_inner, keeping_guard|done|]. intros ok' c8 s8 H8.
  apply wp_bind, wp_memory. wp_step; [by eapply going_shutdown|]. apply wp_ret. split; [|done]. cbn [snd].
  assert (Ho := going_onward _ _ _ H8). assert (Hh := going_held _ _ _ H8). destruct Ho as [E|Ho]; [|apply rests_over; [cbn in *; tauto|by apply held_logs]].
  split; rewrite <- ?E; try done; [by intros [?|[?|[?|[]]]]|intros _; split; [done|apply H8]|by apply held_logs].
Qed.
(** A step of the worker's own that keeps the session. *)
Ltac goes m := first
  [ apply (going_steps RW_RUNNING m);
    [first [apply keeps_rp_poll|apply keeps_pipeline|apply keeps_feed|apply keeps_inner;
      first [apply keeping_guard|apply keeping_clock|by apply keeping_change
            |apply keeping_quiet; first [apply quiet_collect|apply quiet_latch|apply quiet_load|apply quiet_queue]]]|done|] ].
Lemma wp_idle_step m0 c s : going RW_RUNNING m0 s -> wp (idle_step H opus qa frame_at summary_at) done_post (c, s).
Proof.
  intros Hg. unfold idle_step. apply wp_bind, wp_memory. wp_step; [by eapply wp_disarm_or_stop|].
  apply wp_bind. goes m0. intros polled c1 s1 H1. apply wp_bind. unfold set_error, report. goes m0. intros _ c2 s2 H2.
  apply wp_bind. goes m0. intros _ c3 s3 H3. apply wp_bind. goes m0. intros _ c4 s4 H4.
  apply wp_bind, (going_steps RW_RUNNING m0); [apply keeps_inner; destruct (polled <? 0); [apply keeping_ret|apply keeping_guard]|done|].
  intros ok c5 s5 H5. wp_step; [by eapply wp_disarm_or_stop|]. apply wp_bind. goes m0. intros _ c6 s6 H6. by eapply going_shutdown.
Qed.
Lemma wp_frame_step m0 c s : going RW_RUNNING m0 s -> wp (frame_step H opus qa frame_at summary_at) done_post (c, s).
Proof.
  intros Hg. unfold frame_step. apply wp_bind. goes m0. intros rc c1 s1 H1. apply wp_bind. goes m0. intros _ c2 s2 H2.
  apply wp_bind, wp_memory, wp_bind, (going_steps RW_RUNNING m0); [|done|].
  { apply keeps_inner. destruct (_ || _); [apply keeping_quiet, quiet_latch|apply keeping_ret]. }
  intros _ c3 s3 H3. apply wp_bind. unfold stop_reason. goes m0. intros reason c4 s4 H4.
  wp_step; [by eapply going_shutdown|by eapply wp_disarm_or_stop].
Qed.
Lemma wp_running_step c s : rests s -> state_of (fst s) = RW_RUNNING -> wp (running_step H opus qa frame_at summary_at) done_post (c, s).
Proof.
  intros [_ Hr _ _] Hst. destruct (Hr Hst) as ([Hi Hh] & Hc & Hu). clear Hr. destruct s as [m [t w]]. cbn [fst] in *. unfold running_step.
  apply wp_bind, wp_inner. eapply wp_mono; [by apply (wp_arm h qa (mic_of m, true))|]. intros ok [m1 [t1 w1]] (Hx & Hk & Hok). cbn [fst] in *.
  assert (Hg : going RW_RUNNING m (m1, (t1, w1))).
  { split_and!; [|done|done]. apply (in_session_calm (mic_of m, true)); [by apply kept_calm| |done|done]. destruct ok; [left; apply Hok|by right]. }
  destruct ok; cbn [negb]; [|by eapply going_shutdown]. clear Hx Hk Hok. apply wp_bind. goes m. intros _ c2 s2 H2.
  apply wp_bind. unfold stop_reason. goes m. intros reason c3 s3 H3. wp_step; [by eapply going_shutdown|].
  apply wp_bind. goes m. intros r c4 s4 H4. wp_step; [by eapply wp_idle_step|].
  assert (Hbad : wp (run inner (rw_latch H qa RW_CORE); shutdown) done_post (c4, s4)).
  { apply wp_bind. goes m. intros _ c5 s5 H5. by eapply going_shutdown. }
  destruct (snd r) as [[f|sm]|]; [|exact Hbad..]. apply wp_bind. goes m. intros _ c5 s5 H5. by eapply wp_frame_step.
Qed.
(** [rw_entered] *)
Lemma rests_watched m m' t w w' : watched m' = watched m -> rests (m, (t, w)) -> rests (m', (t, w')).
Proof.
  intros E [H1 H2 H3 [y Hy]]. pose proof E as E'. unfold watched in E'. injection E' as Es El _ _ _ Ec _ _ _ Ecap _ Eu.
  assert (Hv : forall y, inv y (m, (t, w)) -> inv y (m', (t, w'))) by (intros ? ?; by apply (inv_watched _ m m' t w)).
  unfold held in *. cbn [fst] in *. split; unfold held; cbn [fst]; unfold state_of in *; rewrite ?Es, ?El, ?Ec, ?Eu; [|..|by exists y; auto].
  - intros Hst. destruct (H1 Hst). split; cbn [fst] in *; auto; congruence.
  - intros Hst. destruct (H2 Hst) as ([??] & ? & ?). auto.
  - intros Hst. destruct (H3 Hst) as ([??] & ?). split; [auto|by apply (live_watched m)].
Qed.
Lemma completed_watched r m f : completed r m -> completed r (m <| wk_entry := f |>).
Proof. by intros []; split. Qed.
Lemma wp_entered body c s : (forall s', rests s' -> wk_entry (fst s') = 1 -> snd s' = snd s -> state_of (fst s') = state_of (fst s) -> wp body done_post (c, s')) ->
  rests s -> wp (rw_entered body) done_post (c, s).
Proof.
  intros Hb Hs. destruct s as [m [t w]]. unfold rw_entered. apply wp_bind, wp_inner, wp_own.
  wp_step; [|apply wp_ret; by split]. apply wp_bind, wp_change, wp_ret, wp_bind. eapply wp_mono; [apply Hb; [by apply (rests_watched m _ t w w)|done..]|].
  intros rc [c1 [m1 [t1 w1]]] [Hr Hc]. cbn [fst snd] in *. apply wp_bind, wp_inner, wp_change, wp_ret. split; cbn [fst snd].
  - by apply (rests_watched m1 _ t1 w1 w1).
  - intros E. apply completed_watched; auto.
Qed.
Lemma wp_step_call c s : rests s -> wp (rw_step H opus qa frame_at summary_at) done_post (c, s).
Proof.
  intros Hs. unfold rw_step. apply wp_entered; [|done]. intros s' Hs' _ _ _. apply wp_bind, wp_memory. cbv zeta.
  wp_step; [apply wp_drain_step; [done|by apply Z.eqb_eq]|]. wp_step; [apply wp_running_step; [done|by apply Z.eqb_eq]|]. by apply wp_ret; split.
Qed.

(** ** Starting *)
(** A start under way: nothing captures yet; [y]: the lease is held. *)
Record opening (y : bool) s : Prop := {
  op_obeys : obeys (MicOff, y) s; op_live : live (fst s); op_lease : (ws_lease_held (wk_report (fst s)) =? 0) = negb y;
  op_capture : wk_capture_possible (fst s) = false; op_attempted : wk_stop_attempted (fst s) = false;
  op_fenced : ws_producer_fenced (wk_report (fst s)) = 0
}.
Definition ready s : Prop := opening true s /\ wk_unsafe (fst s) = false.
Lemma opening_inv y s : opening y s -> inv y s.
Proof. intros []. unfold inv, mic_of. by rewrite op_capture0. Qed.
Lemma opening_logs y s : opening y s -> logs_ok s.
Proof. intros H%opening_inv. by exists y. Qed.
Lemma opening_held s : opening true s -> held s.
Proof. intros H. split; [by apply opening_inv|]. destruct H. by apply Z.eqb_neq. Qed.
Lemma opening_kept y m m' t t' w w' : opening y (m, (t, w)) -> kept m m' -> live m' -> obeys (MicOff, y) (m', (t', w')) -> opening y (m', (t', w')).
Proof.
  intros [] [E _] Hl Hx. unfold core in E. injection E as _ El Ef _ _ _ Ec Ea _ _ _. cbn [fst] in *. split; cbn [fst]; try done; congruence.
Qed.
Lemma opening_framed y m m' t t' w w' : opening y (m, (t, w)) -> framed m m' -> obeys (MicOff, y) (m', (t', w')) -> opening y (m', (t', w')).
Proof. intros Ho Hf Hx. eapply opening_kept; [exact Ho|apply Hf|by eapply worker_live_framed; [|apply Ho]|done]. Qed.
Lemma opening_watched y m m' t w w' : watched m' = watched m -> opening y (m, (t, w)) -> opening y (m', (t, w')).
Proof.
  intros E []. pose proof E as E'. unfold watched in E'. injection E' as _ El Ef _ _ _ _ _ _ Ec Ea _. cbn [fst] in *.
  split; cbn [fst]; [by apply (obeys_watched _ m m' t w)|by apply (live_watched m)|congruence..].
Qed.
Lemma ready_watched m m' t w w' : watched m' = watched m -> ready (m, (t, w)) -> ready (m', (t, w')).
Proof.
  intros E [Ho Hu]. split; [by apply (opening_watched true m m' t w)|]. unfold watched in E. injection E as _ _ _ _ _ _ _ _ _ _ _ E. cbn [fst] in *. congruence.
Qed.
(** A step of the worker's that only lets the producer run, or writes what nothing here speaks of. *)
Lemma opening_quiet y {A} (o : M IW A) (Q : A -> TW -> Prop) c s : quiet o -> opening y s -> (forall a s', opening y s' -> Q a (c, s')) -> wp (inner o) Q (c, s).
Proof.
  intros Ho Hs HQ. destruct s as [m [t w]]. apply wp_inner, wp_quiet; [done|]. intros a m' w' Hm. apply HQ.
  by apply (opening_watched y m m' t w w'), Hs; apply touched_watched.
Qed.
Lemma ready_quiet {A} (o : M IW A) (Q : A -> TW -> Prop) c s : quiet o -> ready s -> (forall a s', ready s' -> Q a (c, s')) -> wp (inner o) Q (c, s).
Proof.
  intros Ho Hs HQ. destruct s as [m [t w]]. apply wp_inner, wp_quiet; [done|]. intros a m' w' Hm. apply HQ.
  by apply (ready_watched m m' t w w'), Hs; apply touched_watched.
Qed.
Lemma opening_change y f (Q : unit -> TW -> Prop) c s : (forall m, watched (f m) = watched m) -> opening y s -> (forall s', opening y s' -> Q tt (c, s')) ->
  wp (inner (change f)) Q (c, s).
Proof. intros Hf Hs HQ. destruct s as [m [t w]]. apply wp_inner, wp_change, HQ. by apply (opening_watched y m (f m) t w w). Qed.
Lemma ready_change f (Q : unit -> TW -> Prop) c s : (forall m, watched (f m) = watched m) -> ready s -> (forall s', ready s' -> Q tt (c, s')) ->
  wp (inner (change f)) Q (c, s).
Proof. intros Hf Hs HQ. destruct s as [m [t w]]. apply wp_inner, wp_change, HQ. by apply (ready_watched m (f m) t w w). Qed.
Lemma opening_guard y (Q : bool -> TW -> Prop) c s : opening y s ->
  (forall (ok : bool) s', opening y s' -> (ok = true -> wk_unsafe (fst s') = false) -> Q ok (c, s')) -> wp (inner (rw_guard H qa)) Q (c, s).
Proof.
  intros Hs HQ. destruct s as [m [t w]]. apply wp_inner. eapply wp_mono; [apply (wp_rw_guard h qa (MicOff, y)), Hs|].
  intros ok [m' [t' w']] (Hx & Hf & Hu). apply HQ; [by eapply opening_framed|done].
Qed.
Lemma opening_clock y (Q : bool -> TW -> Prop) c s : opening y s ->
  (forall (ok : bool) s', opening y s' -> wk_unsafe (fst s') = (if ok then wk_unsafe (fst s) else true) -> Q ok (c, s')) -> wp (inner (rw_clock H qa)) Q (c, s).
Proof.
  intros Hs HQ. destruct s as [m [t w]]. apply wp_inner. eapply wp_mono; [apply (wp_clock h qa (MicOff, y)), Hs|].
  intros ok [m' [t' w']] (Hx & Hf & Hu). apply HQ; [by eapply opening_framed|done].
Qed.
Lemma ready_hook {A} (f : Z -> list hook_event * W -> A * (list hook_event * W)) (Q : A -> TW -> Prop) c s :
  (forall d t w, exists a w', f d (t, w) = (a, (t ++ [EvHook d], w'))) -> ready s -> (forall a s', ready s' -> Q a (c, s')) ->
  wp (inner (hook H qa (f (wk_deadline (fst s))))) Q (c, s).
Proof.
  intros Hf [Hs Hu] HQ. destruct s as [m [t w]]. apply wp_inner, (wp_timely h qa (MicOff, true) (fun _ => (MicOff, true)) f (fun d _ => EvHook d));
    [done|intros; by apply (supervise_hook (MicOff, true))|apply Hs|apply Hs|done|].
  intros a m' w' Hm Hx. apply HQ. split; [by eapply opening_framed; [|apply touched_framed|]|]. cbn [fst] in *. assert (E : wk_unsafe m' = wk_unsafe m) by by injection Hm. congruence.
Qed.
(** The lease is given back, if it was taken. *)
Lemma opening_release y s : opening y s -> wp (rw_release_lease H qa) (settled (fst s)) s.
Proof.
  intros Hs. destruct s as [m [t w]]. assert (Hi := opening_inv _ _ Hs). destruct Hs as [_ Hl Hh Hc _ _]. cbn [fst] in *. destruct y.
  - apply Z.eqb_neq in Hh. eapply wp_mono; [by apply wp_release_lease|]. intros ok s Hs. by apply released_settled.
  - unfold rw_release_lease. apply wp_own. rewrite Hh. apply wp_ret. apply Z.eqb_eq in Hh. split; try done. by exists false.
Qed.
Definition disarmed (ok ok' : bool) s : Prop :=
  (exists y, inv y s /\ (ok = true -> y = false)) /\ wk_capture_possible (fst s) = false /\ (ok = true -> ws_lease_held (wk_report (fst s)) = 0) /\
  (ok' = true -> wk_unsafe (fst s) = false /\ ws_supervisor_confirmed (wk_report (fst s)) = 0).
Lemma disarmed_logs ok ok' s : disarmed ok ok' s -> logs_ok s.
Proof. intros [(y & Hy & _) _]. by exists y. Qed.
Lemma settled_disarm m0 ok s : settled m0 ok s -> wp (rw_disarm H qa) (disarmed ok) s.
Proof.
  intros [(y & Hy & Hr) Hl Hc _ _ Hh]. destruct s as [m [t w]]. cbn [fst] in *. eapply wp_mono; [by apply (wp_disarm h qa (mic_of m, y))|].
  intros ok' [m' [t' w']] (Hx & [E _] & Hok). cbn [fst] in *. unfold core in E. injection E as _ El _ _ _ _ Ec Ea _ _ _.
  unfold disarmed. cbn [fst snd]. split_and!; [exists y; split; [unfold inv, mic_of in *; cbn [fst]; by rewrite Ec, Ea|done]|congruence|intros; rewrite El; auto|].
  intros ->. split; apply Hok.
Qed.
Lemma wp_not_admitted y c s : opening y s -> wp (not_admitted H qa) done_post (c, s).
Proof.
  intros Hs. unfold not_admitted. apply wp_bind, (opening_quiet y); [apply quiet_latch|done|]. intros _ s1 H1.
  apply wp_bind, wp_inner. eapply wp_mono; [by apply (opening_release y)|]. intros ok s2 H2.
  apply wp_bind, wp_inner. eapply wp_mono; [by eapply settled_disarm|]. intros ok' s3 H3. by eapply wp_fault_error, disarmed_logs.
Qed.
Lemma wp_withdrawn reason rc c s : rc <> RW_COMPLETE -> opening true s -> wp (withdrawn H qa reason rc) done_post (c, s).
Proof.
  intros Hrc Hs. unfold withdrawn. apply wp_bind, (opening_quiet true); [apply quiet_latch|done|]. intros _ s1 H1.
  apply wp_bind. unfold report. apply (opening_change true); [done|done|]. intros s2 H2. apply wp_bind, wp_inner.
  apply (wp_mono _ (fun (ok : bool) s => if ok then disarmed true true s else logs_ok s)).
  - unfold both. apply wp_bind. eapply wp_mono; [by apply (opening_release true)|]. intros [|] s3 H3; [|apply wp_ret; by destruct H3 as [(y & Hy & _) _ _ _ _ _]; exists y].
    eapply wp_mono; [by eapply settled_disarm|]. intros [|] s4 H4; [done|by eapply disarmed_logs].
  - intros ok [m3 [t3 w3]] Hd. destruct ok; [|by apply wp_fault_error]. destruct Hd as ((y & Hy & Hyf) & Hc & Hh & Hu).
    cbn [fst] in *. rewrite (Hyf eq_refl) in Hy. apply wp_bind, wp_inner. eapply wp_mono; [apply wp_come_to_rest; try done; [by apply Hu|by apply Hu|by apply Hh|by left]|].
    intros _ s4 (Hr & _). apply wp_ret. by split.
Qed.
(** What goes on with a ready start, and with a session that may run. *)
Definition continues (k : M TW Z) : Prop := forall c s, ready s -> wp k done_post (c, s).
Lemma wp_early_consent consent k c s : continues k -> ready s -> wp (early_consent H qa consent k) done_post (c, s).
Proof.
  intros Hk Hs. unfold early_consent. wp_step; [by apply Hk|]. apply wp_bind, wp_memory, wp_bind, (ready_hook (consent_hook H 0 0)); [|done|].
  { intros d t w. cbn. destruct (consent_hook h 0 0 d w); eauto. }
  intros admitted s1 [H1 _]. apply wp_bind, (opening_guard true); [done|]. intros ok s2 H2 Hu2. wp_step; [by apply (wp_not_admitted true)|].
  wp_step; [|by apply wp_withdrawn]. apply Hk. split; [done|]. apply Hu2. by destruct ok.
Qed.
Lemma wp_query_capacity b k c s : continues k -> ready s -> wp (query_capacity H qa b k) done_post (c, s).
Proof.
  intros Hk Hs. unfold query_capacity. apply wp_bind, wp_memory. wp_step; [by apply Hk|]. apply wp_bind, (ready_hook (capacity_hook H b)); [|done|].
  { intros d t w. cbn. destruct (capacity_hook h b d w); eauto. }
  intros r s1 H1. apply wp_bind. unfold report at 1. apply ready_change; [done|done|]. intros s2 [H2 _].
  apply wp_bind, (opening_guard true); [done|]. intros ok s3 H3 Hu3. cbv zeta. wp_step; [by apply (wp_not_admitted true)|].
  apply orb_false_iff in C0 as [[->%negb_false_iff _]%orb_false_iff _]. assert (H3' : ready s3) by (split; auto).
  apply wp_bind. unfold report at 1. apply ready_change; [done|done|]. intros s4 H4. wp_step; [by apply wp_withdrawn, H4|].
  apply wp_bind, ready_change; [done|done|]. intros s5 H5. by apply Hk.
Qed.
Ltac name_inner m E := match goal with |- wp _ _ (_, (?x, _)) => remember x as m eqn:E end.
Lemma wp_acquire_lease k c s : continues k -> opening false s -> wk_unsafe (fst s) = false -> wp (acquire_lease H qa k) done_post (c, s).
Proof.
  intros Hk Hs Hu. unfold acquire_lease. apply wp_bind, wp_memory, wp_bind. destruct s as [m [t w]]. cbn [fst] in *. apply wp_inner.
  apply (wp_timely h qa (MicOff, false) (fun r => (MicOff, fst r =? 0)) (acquire H) (fun d r => EvAcquire d (fst r))); [| |apply Hs|apply Hs|done|].
  { intros d t' w'. cbn. destruct (acquire h d w'); eauto. }
  { intros d a r Ht El Em. cbn [supervise fst snd] in *. rewrite Ht, El, Em. destruct a. cbn in *. by subst. }
  intros r m1 w1 Ht Hx. apply wp_bind, wp_inner. unfold report. apply wp_change. name_inner m2 E2.
  assert (H2 : opening (fst r =? 0) (m2, (t ++ [EvAcquire (wk_deadline m) (fst r)], w1))).
  { destruct Hs as [_ Hl Hh Hc Ha Hf]. cbn [fst] in *. apply Z.eqb_eq in Hh. injection Ht as _ _ Er _ _ _ _ _ _ _ _ Ec Ea Eu _ _ _. rewrite E2.
    split; cbn; [|unfold live, confirmed in *; cbn; by rewrite Er, Eu| |congruence..].
    - destruct Hx as (a & Ea' & []). exists a. by split.
    - rewrite Er, Hh. by destruct (fst r =? 0). }
  assert (Hu2 : wk_unsafe m2 = false) by (rewrite E2; cbn; by injection Ht as _ _ _ _ _ _ _ _ _ _ _ _ _ -> _ _ _).
  clear E2 Hx Ht Hs. apply wp_bind, (opening_clock (fst r =? 0)); [done|]. intros ok s3 H3 Hu3. wp_step; [by eapply wp_not_admitted|].
  apply orb_false_iff in C as [[->%negb_false_iff E%negb_false_iff]%orb_false_iff _]. rewrite E in H3. apply Hk. split; [done|]. by rewrite Hu3.
Qed.
Definition continues_in (k : Z -> M TW Z) : Prop := forall epoch, continues (k epoch).
Lemma opening_shutdown c s : opening true s -> wp shutdown done_post (c, s).
Proof. intros Hs. by apply wp_shutdown, opening_held. Qed.
Lemma ready_shutdown c s : ready s -> wp shutdown done_post (c, s).
Proof. intros [Hs _]. by apply opening_shutdown. Qed.
Lemma ready_error c s : ready s -> wp (fault_error H qa) done_post (c, s).
Proof. intros [Hs _]. by eapply wp_fault_error, opening_logs. Qed.
Lemma wp_open_queue lock_free first k c s : continues_in k -> ready s ->
  wp (open_queue H opus qa frame_at summary_at lock_free first k) done_post (c, s).
Proof.
  intros Hk Hs. unfold open_queue. apply wp_bind, ready_quiet; [apply quiet_take|done|]. intros taken s1 H1. wp_step.
  { apply wp_bind, ready_quiet; [apply quiet_latch|done|]. intros _ s2 H2. by apply ready_error. }
  apply wp_bind, wp_memory, wp_bind, ready_quiet; [apply quiet_queue|done|]. intros q s2 H2. wp_step.
  { apply wp_bind, ready_quiet; [apply quiet_drop|done|]. intros _ s3 H3. apply wp_bind, ready_quiet; [apply quiet_latch|done|]. intros _ s4 H4. by apply ready_error. }
  apply wp_bind, ready_change; [done|done|]. intros s3 H3. apply wp_bind, ready_quiet; [apply quiet_load|done|]. intros previous s4 H4.
  apply wp_bind, ready_quiet; [|done|].
  { apply quiet_bind; [apply quiet_preempted|]. intros _. apply quiet_own. intros m. destruct (wk_epoch m =? previous); [|apply quiet_ret].
    apply quiet_bind; [by apply quiet_change|intros _; apply quiet_ret]. }
  intros moved s5 H5. wp_step.
  - apply wp_bind, ready_quiet; [apply quiet_load|done|]. intros token s6 H6. apply wp_bind. unfold report. apply ready_change; [done|done|]. intros s7 H7.
    apply wp_bind, ready_quiet; [apply quiet_drop|done|]. intros _ s8 H8. apply wp_bind, ready_quiet; [apply quiet_collect|done|]. intros _ s9 H9. by apply ready_shutdown.
  - apply wp_bind. unfold report. apply ready_change; [done|done|]. intros s6 H6. apply wp_bind, ready_quiet; [apply quiet_drop|done|]. intros _ s7 H7. by apply Hk.
Qed.
Lemma wp_late_consent consent epoch k c s : continues k -> ready s -> wp (late_consent H opus qa frame_at summary_at consent epoch k) done_post (c, s).
Proof.
  intros Hk Hs. unfold late_consent. wp_step; [by apply Hk|]. apply wp_bind, wp_memory, wp_bind, (ready_hook (consent_hook H epoch 1)); [|done|].
  { intros d t w. cbn. destruct (consent_hook h epoch 1 d w); eauto. }
  intros admitted s1 [H1 _]. apply wp_bind, (opening_guard true); [done|]. intros ok s2 H2 Hu2.
  wp_step; [apply wp_bind, (opening_quiet true); [apply quiet_latch|done|]; intros _ s3 H3; by apply opening_shutdown|].
  wp_step; [|apply wp_bind, (opening_quiet true); [apply quiet_latch|done|]; intros _ s3 H3; by apply opening_shutdown].
  apply Hk. split; [done|]. apply Hu2. by destruct ok.
Qed.
(** Capture starts. *)
Lemma ready_capture epoch first (k : Z -> M TW Z) c m t w : ready (m, (t, w)) ->
  (forall rc s, going RW_RUNNING (fst s) s -> wp (k rc) done_post (c, s)) ->
  wp (run inner (change (fun m => m <| wk_capture_possible := true |>)); run inner (rw_state_set H qa RW_RUNNING);
      do m <- memory; do rc <- inner (hook H qa (capture_start H epoch first (wk_deadline m))); k rc) done_post (c, (m, (t, w))).
Proof.
  intros [[Hx Hl Hh Hc Ha Hf] Hu] HQ. cbn [fst] in *. apply wp_bind, wp_inner, wp_change. name_inner m1 E1.
  assert (Hx1 : obeys (MicOff, true) (m1, (t, w))).
  { destruct Hx as (a & Ea & []). exists a. split; [done|]. rewrite E1. split; try done. }
  apply wp_bind, wp_inner. eapply wp_mono; [by apply (wp_state_set h qa (MicOff, true))|]. intros _ [m2 [t2 w2]] (Hx2 & [[E2 _] G2] & Hu2). cbn [fst] in *.
  assert (H2 : state_of m2 = RW_RUNNING /\ ws_lease_held (wk_report m2) <> 0 /\ mic_of m2 = MicOn /\ live m2 /\ wk_unsafe m2 = false).
  { unfold core in E2. unfold guarded in G2. injection E2 as Es El _ _ _ _ Ec Ea _ _ _. injection G2 as _ G2 _. unfold mic_of, live, confirmed in *.
    rewrite E1 in *. cbn in *. rewrite Ec, Ea, Ha, G2, El, Hu2, Hu. apply Z.eqb_neq in Hh. by split_and!; rewrite <- ?Hu. }
  destruct H2 as (Hst & Hh2 & Em & Hl2 & Hu2'). apply wp_bind, wp_memory, wp_bind, wp_inner.
  apply (wp_timely h qa (MicOff, true) (fun _ => (MicOn, true)) (capture_start H epoch first) (fun d rc => EvCapture epoch first d rc)); [| |done|done|done|].
  { intros d t' w'. cbn. destruct (capture_start h epoch first d w'); eauto. }
  { intros d a r Ht El Em'. cbn [supervise fst snd] in *. rewrite Ht, El, Em'. destruct a. cbn in *. by subst. }
  intros rc m3 w3 Ht Hx3. apply HQ. assert (Hf3 := touched_framed _ _ Ht). cbn [fst].
  assert (Em3 : mic_of m3 = MicOn) by (rewrite <- Em; by apply keeps_mic, framed_keeps).
  split_and!; [apply in_session_refl; [unfold inv; cbn [fst]; by rewrite Em3|by eapply worker_live_framed]| |by rewrite (framed_state _ _ Hf3)].
  rewrite (sd_lease _ _ (framed_steady _ _ Hf3)). done.
Qed.
Lemma wp_start_capture epoch first : continues (start_capture H opus qa frame_at summary_at epoch first).
Proof.
  intros c [m [t w]] Hs. unfold start_capture. apply ready_capture; [done|]. intros rc s0 H0. set (m0 := fst s0) in *. apply wp_bind.
  unfold report. goes m0. intros _ c1 s1 H1. apply wp_bind. goes m0. intros _ c2 s2 H2.
  apply wp_bind, (going_steps RW_RUNNING m0); [apply keeps_inner; destruct (rc =? 0); [apply keeping_guard|apply keeping_ret]|done|]. intros ok c3 s3 H3.
  apply wp_bind, (going_steps RW_RUNNING m0); [apply keeps_inner; destruct ok; [apply keeping_ret|apply keeping_quiet, quiet_latch]|done|]. intros _ c4 s4 H4.
  apply wp_bind. unfold stop_reason. goes m0. intros reason c5 s5 H5. wp_step; [by eapply going_shutdown|by eapply wp_disarm_or_stop].
Qed.
Lemma opening_rp_start b first c s : opening true s ->
  wp (rp_start opus (bridge H qa summary_at) b first) (fun _ (r : TW) => opening true (snd r)) (c, s).
Proof.
  intros Hs. apply (worldly_rp_start (W := IW) opus (bridge H qa summary_at) (opening true)); [|done].
  clear. intros b [m [t w]] Hs. change (wp (rw_reserve H qa b) (fun _ => opening true) (m, (t, w))). apply (wp_mono _ (fun _ => reserving (MicOff, true) m)); [apply wp_reserve; [done|apply Hs..]|].
  intros rc [m' [t' w']] [Hx Hf]. by eapply opening_framed.
Qed.
Lemma wp_begin_session b first epoch consent : continues (begin_session H opus qa frame_at summary_at b first epoch consent).
Proof.
  intros c s [Hs _]. unfold begin_session. apply wp_bind, (opening_guard true); [done|]. intros ok s1 H1 _. wp_step.
  { apply wp_bind, (opening_quiet true); [apply quiet_latch|done|]. intros _ s2 H2. by apply opening_shutdown. }
  apply wp_bind. eapply wp_mono; [by apply opening_rp_start|]. intros rc [c2 s2] H2. cbn [snd] in H2.
  apply wp_bind. unfold set_error, report. apply (opening_change true); [done|done|]. intros s3 H3.
  apply wp_bind, (opening_clock true); [done|]. intros _ s4 H4 _. apply wp_bind.
  apply (wp_mono _ (fun (ok : bool) (r : TW) => opening true (snd r) /\ (ok = true -> wk_unsafe (fst (snd r)) = false))).
  { destruct (rc =? 0); [apply (opening_guard true); [done|]; intros ok' s5 H5 Hu5; by split|by apply wp_inner, wp_ret]. }
  intros ok' [c5 s5] [H5 Hu5]. cbn [snd] in *. wp_step.
  { apply wp_bind, (opening_quiet true); [apply quiet_latch|done|]. intros _ s6 H6. by apply opening_shutdown. }
  apply wp_late_consent; [apply wp_start_capture|]. split; [done|]. apply Hu5. by destruct ok'.
Qed.
(** A worker at rest starts anew. *)
Lemma wp_new_session s : released s -> wp (new_session H qa)
  (fun _ s' => obeys (MicOff, false) s' /\ wk_capture_possible (fst s') = false /\ wk_stop_attempted (fst s') = false /\
     ws_producer_fenced (wk_report (fst s')) = 0 /\ ws_lease_held (wk_report (fst s')) = 0 /\
     ws_supervisor_confirmed (wk_report (fst s')) = 0 /\ wk_unsafe (fst s') = false) s.
Proof.
  intros [Hi Hc Hh Hcf Hu]. destruct s as [m [t w]]. cbn [fst] in *. unfold inv, mic_of in Hi. cbn [fst] in Hi. rewrite Hc in Hi.
  unfold new_session. apply wp_bind. unfold report. apply wp_change. name_context m1 E1.
  assert (H1 : obeys (MicOff, false) (m1, (t, w)) /\ wk_capture_possible m1 = false /\ ws_producer_fenced (wk_report m1) = 0 /\
    ws_lease_held (wk_report m1) = 0 /\ ws_supervisor_confirmed (wk_report m1) = 0 /\ wk_unsafe m1 = false).
  { rewrite E1. split_and!; try done. destruct Hi as (a & Ea & [Ga Gf Gl Ge Gle Gm Gfe]). exists a. split; [done|]. cbn [fst] in *. rewrite Hcf in Ga.
    by split; try done; intros []. }
  clear E1 Hi Hc Hh Hcf Hu m. destruct H1 as (Hx & Hc & Hf & Hh & Hcf & Hu).
  apply wp_bind, (wp_quietly (MicOff, false)); [by apply quiet_store|done|]. intros _ m2 w2 H2 Hu2 Hx2.
  apply wp_bind, (wp_quietly (MicOff, false)); [by apply quiet_store|done|]. intros _ m3 w3 H3 Hu3 Hx3.
  assert (H13 := framed_trans _ _ _ H2 H3). destruct H13 as [[E _] G].
  unfold core in E. unfold guarded in G. injection E as _ El Ef _ _ _ Ec _ _ _ _. injection G as _ Gc _.
  apply wp_bind, wp_change. name_context m4 E4.
  assert (Hx4 : obeys (MicOff, false) (m4, (t, w3))).
  { destruct Hx3 as (a & Ea & [Ga Gf Gl Ge Gle Gm Gfe]). exists a. split; [done|]. rewrite E4. split; try done. intros Ex. apply Ge in Ex. cbn [fst] in *. congruence. }
  eapply wp_mono; [by apply (wp_state_set h qa (MicOff, false))|]. intros _ [m5 [t5 w5]] (Hx5 & [[E5 _] G5] & Hu5). cbn [fst] in *.
  unfold core in E5. unfold guarded in G5. injection E5 as _ El5 Ef5 _ _ _ Ec5 Ea5 _ _ _. injection G5 as _ Gc5 _. rewrite E4 in *. cbn in *.
  split_and!; congruence || done.
Qed.
(** A start, whatever becomes of it. *)
Lemma wp_started lock_free b first consent c s : released s ->
  wp (run inner (new_session H qa);
      do armed <- inner (rw_arm H qa);
      if negb armed then fault_error H qa else
      acquire_lease H qa (early_consent H qa consent (query_capacity H qa b (early_consent H qa consent (
        open_queue H opus qa frame_at summary_at lock_free first (fun epoch => begin_session H opus qa frame_at summary_at b first epoch consent))))))
    done_post (c, s).
Proof.
  intros Hr. apply wp_bind, wp_inner. eapply wp_mono; [by apply wp_new_session|]. intros _ [m [t w]] (Hx & Hc & Ha & Hf & Hh & Hcf & Hu). cbn [fst] in *.
  apply wp_bind, wp_inner. eapply wp_mono; [by apply (wp_arm h qa (MicOff, false))|]. intros ok [m1 [t1 w1]] (Hx1 & [E _] & Hok). cbn [fst] in *.
  unfold core in E. injection E as _ El Ef _ _ _ Ec Ea _ _ _. destruct ok; cbn [negb].
  2: { apply wp_fault_error. exists false. unfold inv, mic_of. cbn [fst]. by rewrite Ec, Hc. }
  destruct Hok as [Hu1 Hcf1]. apply wp_acquire_lease; [|split; cbn [fst]; try done; [by left|by rewrite El, Hh|congruence..]|done].
  intros c2 s2 H2. apply wp_early_consent; [|done]. intros c3 s3 H3. apply wp_query_capacity; [|done].
  intros c4 s4 H4. apply wp_early_consent; [|done]. intros c5 s5 H5. apply wp_open_queue; [|done]. intros epoch. apply wp_begin_session.
Qed.
Lemma wp_start_call lock_free identity first consent c s : rests s ->
  wp (rw_start_inner H opus qa frame_at summary_at lock_free identity first consent) done_post (c, s).
Proof.
  intros Hs. unfold rw_start_inner. destruct identity as [b|]; [|by apply wp_ret; split]. wp_step; [by apply wp_ret; split|].
  apply wp_entered; [|done]. intros s1 H1 _ _ _. apply wp_bind, wp_memory, wp_bind, wp_inner. destruct s1 as [m [t w]].
  apply wp_quiet; [apply quiet_load|]. intros token m1 w1 Ht. assert (Er : wk_report m1 = wk_report m) by by injection Ht.
  apply touched_watched in Ht. apply (rests_watched m m1 t w w1 Ht) in H1. wp_step; [by apply wp_ret; split|]. apply wp_started.
  apply (rs_idle _ H1). cbn [fst] in *. repeat (apply orb_false_iff in C0 as [C0 _]). apply negb_false_iff, orb_prop in C0.
  unfold at_rest, state_of in *. rewrite Er. destruct C0 as [C0%Z.eqb_eq|C0%Z.eqb_eq]; rewrite C0; [right; by left|right; right; by left].
Qed.
End Session.

(** ** The calls, one after another *)
(** The phase of a session: its state, whether the worker was initialized, and the
    reason it was asked to stop for, which only the first request sets. *)
Definition moves (m m' : rw_mem) : Prop :=
  ws_state (wk_report m') = ws_state (wk_report m) /\ wk_initialized m' = wk_initialized m /\ (wk_stop m' = wk_stop m \/ wk_stop m = RW_NONE).
Lemma moves_trans m1 m2 m3 : moves m1 m2 -> moves m2 m3 -> moves m1 m3.
Proof. intros (A1 & B1 & C1) (A2 & B2 & C2). split_and!; [congruence..|]. destruct C1 as [C1|C1]; [destruct C2; [left|right]; congruence|by right]. Qed.
Lemma moves_latched reason m : moves m (latched reason m).
Proof.
  unfold latched. destruct (Z.eqb_spec (wk_stop m) RW_NONE); destruct (reason =? RW_EXTERNAL); split_and!; try done; first [by left|by right].
Qed.
Lemma moves_interrupt qa i m : moves m (interrupt qa i m).
Proof.
  pose proof (touched_interrupt qa i m) as Ht. split_and!; [by injection Ht as _ _ -> _|by injection Ht|]. clear Ht.
  assert (Hl : forall r m', wk_stop m' = wk_stop m -> wk_stop (latched r m') = wk_stop m \/ wk_stop m = RW_NONE).
  { intros r m' E. destruct (moves_latched r m') as (_ & _ & Hm). by rewrite E in Hm. }
  destruct i as [c|]; cbn [interrupt]; [left; destruct c; cbn [enter_call]; unfold producer_fault, admit_call; by repeat case_match|].
  unfold proceed_call. destruct (wk_in_flight m) as [[[epoch first pcm|epoch reason]|first pcm]|]; [| |unfold push_section|by left].
  - repeat case_match; try by left. all: by apply Hl.
  - repeat case_match; try by left. all: by apply Hl.
  - destruct (run_alone _ _) as [[[rc out] q] evs]. cbv zeta. destruct (negb _).
    + destruct (run_alone _ _) as [[[rc' out'] q'] evs']. by apply Hl.
    + destruct (wk_capacity _); [|by left]. destruct (_ =? 0); [by apply Hl|by left].
Qed.
Lemma moves_interrupts qa l : forall m, moves m (fold_left (fun m i => interrupt qa i m) l m).
Proof.
  induction l as [|i l IH]; intros m; cbn [fold_left]; [by split_and!; [| |left]|]. eapply moves_trans; [apply (moves_interrupt qa i)|apply IH].
Qed.
(** What is true of the phase, and survives the states a session ends in and a
    first request, survives every step. *)
Section Phases.
Context {W : Type} (h : rw_hooks W) (opus : opus_codec) (qa frame_at summary_at : Z).
Abbreviation IW := (rw_mem * W)%type.
Context (P : Z -> Z -> Z -> Prop).
Definition phased (s : IW) : Prop := P (ws_state (wk_report (fst s))) (wk_initialized (fst s)) (wk_stop (fst s)).
Context (Hover : forall st st' i r, P st i r -> In st' [RW_STOPPING; RW_FAULT; RW_STOPPED; RW_DRAINING] -> P st' i r).
Context (Hfirst : forall st i r, P st i RW_NONE -> P st i r).
Definition stays {A} (o : M IW A) : Prop := forall s, phased s -> phased (snd (o s)).
Lemma stays_ret {A} (a : A) : stays (ret a).
Proof. by intros s H. Qed.
Lemma stays_bind {A B} (o : M IW A) (k : A -> M IW B) : stays o -> (forall a, stays (k a)) -> stays (bind o k).
Proof. intros Ho Hk s H%Ho. unfold bind. destruct (o s) as [a s']. by apply Hk. Qed.
Lemma stays_own {A} (k : rw_mem -> M IW A) : (forall m, stays (k m)) -> stays (own k).
Proof. intros Hk s. apply Hk. Qed.
Lemma stays_moves f : (forall m, moves m (f m)) -> stays (change f).
Proof.
  intros Hf [m w] Hm. destruct (Hf m) as (E1 & E2 & E3). unfold phased, change in *. cbn [fst snd] in *. rewrite E1, E2.
  destruct E3 as [->|E3]; [done|]. rewrite E3 in Hm. by apply Hfirst.
Qed.
Lemma stays_change f : (forall m, (ws_state (wk_report (f m)), wk_initialized (f m), wk_stop (f m)) = (ws_state (wk_report m), wk_initialized m, wk_stop m)) ->
  stays (change f).
Proof. intros Hf. apply stays_moves. intros m. specialize (Hf m). injection Hf as E1 E2 E3. split_and!; [done..|by left]. Qed.
Lemma stays_call {A} (f : W -> A * W) : stays (call f).
Proof. intros [m w] H. unfold call. cbn. by destruct (f w). Qed.
Lemma stays_preempted : stays (preempted h qa).
Proof. apply stays_bind; [apply stays_call|]. intros l. apply stays_moves, moves_interrupts. Qed.
Lemma stays_latched reason : stays (change (latched reason)).
Proof. apply stays_moves, moves_latched. Qed.
Lemma stays_state_to st : (forall st' i r, P st' i r -> P st i r) -> stays (rw_state_set h qa st).
Proof.
  intros Hst. unfold rw_state_set, store, report. apply stays_bind; [|intros _; apply stays_bind; [apply stays_preempted|intros _; by apply stays_change]].
  intros [m w] Hm. unfold phased, change in *. cbn in *. by eapply Hst.
Qed.
Lemma stays_state_set st : In st [RW_STOPPING; RW_FAULT; RW_STOPPED; RW_DRAINING] -> stays (rw_state_set h qa st).
Proof. intros Hst. apply stays_state_to. intros st' i r Hp. by eapply Hover. Qed.
Ltac stay :=
  repeat first
    [ solve [auto 2]
    | apply stays_ret | apply stays_call | apply stays_preempted
    | match goal with
      | |- stays (bind _ _) => apply stays_bind; [|intros ?]
      | |- stays (own _) => apply stays_own; intros ?
      | |- stays (change (latched _)) => apply stays_latched
      | |- stays (change _) => apply stays_change; intros ?; cbn; by repeat case_match
      | |- stays (hook _ _ _) => unfold hook
      | |- stays (load _ _ _) => unfold load
      | |- stays (store _ _ _) => unfold store
      | |- stays (report _) => unfold report
      | |- stays (both _ _) => unfold both
      | |- stays (rw_latch _ _ _) => unfold rw_latch
      | |- stays (rw_state_set _ _ _) => apply stays_state_set; cbn; tauto
      | |- stays (is_external _ _) => unfold is_external
      | |- stays (stop_reason _ _) => unfold stop_reason
      | |- stays (unsafe_unless _ _ _) => unfold unsafe_unless
      | |- stays (rw_drop_producer _ _) => unfold rw_drop_producer
      | |- stays is_safe => unfold is_safe
      | |- stays (match ?x with _ => _ end) => destruct x
      end
    | progress (cbv beta zeta) ].
Lemma stays_latch reason : stays (rw_latch h qa reason).
Proof. stay. Qed.
Lemma stays_queue p : stays (queue h qa p).
Proof. unfold queue. stay. Qed.
Lemma stays_clock : stays (rw_clock h qa).
Proof. unfold rw_clock. stay. Qed.
Hint Resolve stays_queue stays_clock : core.
Lemma stays_collect : stays (rw_collect_fault h qa).
Proof. unfold rw_collect_fault. stay. Qed.
Lemma stays_guard : stays (rw_guard h qa).
Proof. unfold rw_guard, rw_collect_fault. stay. Qed.
Hint Resolve stays_guard : core.
Lemma stays_arm : stays (rw_arm h qa).
Proof. unfold rw_arm. stay. Qed.
Lemma stays_disarm : stays (rw_disarm h qa).
Proof. unfold rw_disarm. stay. Qed.
Hint Resolve stays_arm stays_disarm : core.
Lemma stays_begin_drain : stays (rw_begin_drain h qa).
Proof. unfold rw_begin_drain. stay. Qed.
Lemma stays_new_job : stays (rw_new_job h qa).
Proof. unfold rw_new_job. stay. Qed.
Lemma stays_fault : stays (rw_fault h qa).
Proof. unfold rw_fault. stay. Qed.
Hint Resolve stays_begin_drain stays_new_job stays_fault : core.
Lemma stays_take : stays (rw_take_producer h qa).
Proof. unfold rw_take_producer. stay. Qed.
Hint Resolve stays_take : core.
Lemma stays_fence : stays (rw_fence h qa).
Proof. unfold rw_fence, stop_capture, stop_failed. stay. Qed.
Lemma stays_close_queue : stays (rw_close_queue h qa summary_at).
Proof. unfold rw_close_queue. stay. Qed.
Lemma stays_release : stays (rw_release_lease h qa).
Proof. unfold rw_release_lease. stay. Qed.
Hint Resolve stays_fence stays_close_queue stays_release : core.
Lemma stays_reserve b : stays (rw_reserve h qa b).
Proof. unfold rw_reserve. stay. Qed.
Lemma stays_commit b p n : stays (rw_commit h qa b p n).
Proof. unfold rw_commit. stay. Qed.
Lemma stays_poll b : stays (rw_poll h qa b).
Proof. unfold rw_poll. stay. Qed.
Lemma stays_finalize r : stays (rw_finalize h qa summary_at r).
Proof. unfold rw_finalize. stay. Qed.
Abbreviation sink := (bridge h qa summary_at).
Abbreviation lasts o := (worldly (W := IW) phased o).
Lemma lasts_inner {A} (o : M IW A) : stays o -> lasts (inner o).
Proof. intros Ho. by apply worldly_call. Qed.
Lemma lasts_push first pcm : lasts (rp_push_frame opus sink first pcm).
Proof. apply worldly_rp_push_frame; intros; first [by apply stays_commit|by apply stays_finalize|by apply stays_poll]. Qed.
Lemma lasts_rp_poll : lasts (rp_poll opus sink).
Proof. apply worldly_rp_poll; intros; first [by apply stays_commit|by apply stays_finalize|by apply stays_poll]. Qed.
Lemma lasts_end reason : lasts (rp_end opus sink reason).
Proof. apply worldly_rp_end; intros; first [by apply stays_commit|by apply stays_finalize|by apply stays_poll]. Qed.
Lemma lasts_rp_start b first : lasts (rp_start opus sink b first).
Proof. apply worldly_rp_start. intros. by apply stays_reserve. Qed.
Hint Resolve lasts_push lasts_rp_poll lasts_end lasts_rp_start worldly_rp_get_status worldly_rp_external_fault worldly_rp_select_mode : core.
Ltac lasting :=
  repeat first
    [ solve [auto 2]
    | apply worldly_ret
    | match goal with
      | |- worldly _ (inner (match ?x with _ => _ end)) => destruct x
      | |- worldly _ (inner _) => apply lasts_inner; unfold rw_collect_fault; stay
      | |- worldly _ memory => apply lasts_inner; stay
      | |- worldly _ (bind _ _) => apply worldly_bind; [|intros ?]
      | |- worldly _ (set_error _) => unfold set_error
      | |- worldly _ rw_wipe => unfold rw_wipe
      | |- worldly _ discarded => unfold discarded
      | |- worldly _ (fault_error _ _) => unfold fault_error
      | |- worldly _ (match ?x with _ => _ end) => destruct x
      end
    | progress (cbv beta zeta) ].
Lemma lasts_pipeline : lasts (rw_pipeline h qa).
Proof. unfold rw_pipeline. lasting. Qed.
Hint Resolve lasts_pipeline : core.
Lemma lasts_feed : lasts (rw_feed h opus qa frame_at summary_at).
Proof. unfold rw_feed. lasting. Qed.
Hint Resolve lasts_feed : core.
Lemma lasts_drain_frames n : lasts (drain_frames h opus qa frame_at summary_at n).
Proof. induction n as [|n IH]; cbn [drain_frames]; lasting. Qed.
Lemma lasts_may_drain : lasts (may_drain h qa).
Proof. unfold may_drain. lasting. Qed.
Lemma lasts_finalizable reason : lasts (is_finalizable h qa reason).
Proof. unfold is_finalizable. lasting. Qed.
Lemma lasts_end_session reason finalizable : lasts (end_session h opus qa summary_at reason finalizable).
Proof. unfold end_session. lasting. Qed.
Hint Resolve lasts_drain_frames lasts_may_drain lasts_finalizable lasts_end_session : core.
Lemma lasts_settle reason finalizable : lasts (settle h qa reason finalizable).
Proof. unfold settle, report_reason, conclude. lasting. Qed.
Hint Resolve lasts_settle : core.
Lemma lasts_shutdown : lasts (rw_shutdown h opus qa frame_at summary_at).
Proof. unfold rw_shutdown. lasting. Qed.
Hint Resolve lasts_shutdown : core.
Lemma lasts_entered body : lasts body -> lasts (rw_entered body).
Proof. intros Hb. unfold rw_entered. lasting. Qed.
Lemma lasts_step : lasts (rw_step h opus qa frame_at summary_at).
Proof. apply lasts_entered. unfold drain_step, running_step, idle_step, frame_step, disarm_or_stop. lasting. Qed.
(** ** The shutdown gets there *)
Section Arrival.
Context (Hend : forall st i r, In st [RW_STOPPING; RW_FAULT; RW_STOPPED; RW_DRAINING] -> P st i r).
Definition arrives {A} (o : M IW A) : Prop := forall s, phased (snd (o s)).
Lemma arrives_after {A B} (o : M IW A) (k : A -> M IW B) : (forall a, arrives (k a)) -> arrives (bind o k).
Proof. intros Hk s. unfold bind. destruct (o s) as [a s']. apply Hk. Qed.
Lemma arrives_before {A B} (o : M IW A) (k : A -> M IW B) : arrives o -> (forall a, stays (k a)) -> arrives (bind o k).
Proof. intros Ho Hk s. specialize (Ho s). unfold bind. destruct (o s) as [a s']. by apply Hk. Qed.
Lemma arrives_own {A} (k : rw_mem -> M IW A) : (forall m, arrives (k m)) -> arrives (own k).
Proof. intros Hk s. apply Hk. Qed.
Lemma arrives_state_set st : In st [RW_STOPPING; RW_FAULT; RW_STOPPED; RW_DRAINING] -> arrives (rw_state_set h qa st).
Proof.
  intros Hst. unfold rw_state_set, store, report. apply arrives_before; [|intros _; apply stays_bind; [apply stays_preempted|intros _; by apply stays_change]].
  intros [m w]. unfold phased, change. cbn. by apply Hend.
Qed.
Lemma arrives_fault : arrives (rw_fault h qa).
Proof.
  unfold rw_fault. apply arrives_after. intros stopped. apply arrives_after. intros _. apply arrives_own. intros m. apply arrives_after. intros _.
  apply arrives_after. intros _. apply arrives_state_set. cbn. tauto.
Qed.
Lemma arrives_fence : arrives (rw_fence h qa).
Proof. unfold rw_fence. apply arrives_before; [apply arrives_state_set; cbn; tauto|]. intros _. unfold stop_capture, stop_failed. stay. Qed.
Definition reaches {A} (o : M (pipeline * IW) A) : Prop := forall r, phased (snd (snd (o r))).
Lemma reaches_after {A B} (o : M (pipeline * IW) A) (k : A -> M (pipeline * IW) B) : (forall a, reaches (k a)) -> reaches (bind o k).
Proof. intros Hk r. unfold bind. destruct (o r) as [a r']. apply Hk. Qed.
Lemma reaches_before {A B} (o : M (pipeline * IW) A) (k : A -> M (pipeline * IW) B) : reaches o -> (forall a, lasts (k a)) -> reaches (bind o k).
Proof. intros Ho Hk r. specialize (Ho r). unfold bind. destruct (o r) as [a r']. by apply Hk. Qed.
Lemma reaches_inner {A} (o : M IW A) : arrives o -> reaches (inner o).
Proof. intros Ho [c s]. specialize (Ho s). unfold inner, call. cbn. by destruct (o s). Qed.
Lemma reaches_shutdown : reaches (rw_shutdown h opus qa frame_at summary_at).
Proof.
  unfold rw_shutdown. apply reaches_after. intros m. destruct (_ =? 0).
  - unfold fault_error. apply reaches_before; [apply reaches_inner, arrives_fault|intros _; apply worldly_ret].
  - apply reaches_before; [apply reaches_inner, arrives_fence|]. intros fenced. lasting.
Qed.
End Arrival.
Context (Hany : forall st st' i r r', P st i r -> P st' i r').
Lemma stays_any st : stays (rw_state_set h qa st).
Proof. apply stays_state_to. intros st' i r Hp. by eapply Hany. Qed.
Lemma stays_whatever f : (forall m, wk_initialized (f m) = wk_initialized m) -> stays (change f).
Proof. intros Hf [m w] Hm. unfold phased, change in *. cbn in *. rewrite Hf. by eapply Hany. Qed.
Lemma stays_new_session : stays (new_session h qa).
Proof.
  unfold new_session, report, store. apply stays_bind; [by apply stays_whatever|]. intros _.
  apply stays_bind; [apply stays_bind; [apply stays_preempted|intros _; by apply stays_whatever]|]. intros _. stay. apply stays_any.
Qed.
Hint Resolve stays_any stays_new_session : core.
Lemma lasts_start lock_free identity first consent : lasts (rw_start_inner h opus qa frame_at summary_at lock_free identity first consent).
Proof.
  unfold rw_start_inner. destruct identity as [b|]; [|apply worldly_ret]. destruct (negb _); [apply worldly_ret|]. apply lasts_entered.
  unfold acquire_lease, early_consent, query_capacity, open_queue, begin_session, late_consent, start_capture, not_admitted, withdrawn, disarm_or_stop. lasting.
Qed.
End Phases.
(** A worker that was initialized stays so. *)
Definition inited {W} (s : rw_mem * W) : Prop := wk_initialized (fst s) <> 0.
(** A session that has left its running phase does not come back to it. *)
Definition ending_state (st : Z) : Prop := In st [RW_STOPPING; RW_FAULT; RW_STOPPED; RW_DRAINING].
