(* ===== verification/WorkerRuns.v ===== *)
(** Runs of the recording worker: any sequence of its calls, of the producer's
    and of the hooks, from the boot on.  What every such run keeps, what a
    complete stop means, and a concrete session. *)
From Stdlib Require Import String.
From S2P Require Import Prelude FrameQueue SegmentHeader RecordTypes PlainSegment Wp RecordingPipeline PipelineWorld RecordingWorker WorkerSafety WorkerSession.

(** A call of the worker's, or a section of one of the producer's between two of them. *)
Inductive worker_call :=
  | CallInit (given lock_free : bool) (mode stack budget : Z)
  | CallInitAsync (given lock_free poll : bool) (mode stack budget : Z)
  | CallInitCapacityAsync (given lock_free poll capacity : bool) (mode stack budget : Z)
  | CallSelectMode (mode : Z)
  | CallStart (lock_free : bool) (identity : option es_binding) (first : Z)
  | CallStartControlled (lock_free : bool) (identity : option es_binding) (first : Z) (check : bool)
  | CallStep
  | CallGetStatus (out : bool)
  | CallProducer (i : interruption).

Section Runs.
Context {W : Type} (h : rw_hooks W) (opus : opus_codec) (qa frame_at summary_at : Z).
Definition worker (x : worker_call) : M (pipeline * (rw_mem * W)) Z :=
  match x with
  | CallInit given lock_free mode stack budget => rw_init h qa given lock_free mode stack budget
  | CallInitAsync given lock_free poll mode stack budget => rw_init_async h qa given lock_free poll mode stack budget
  | CallInitCapacityAsync given lock_free poll capacity mode stack budget =>
      rw_init_capacity_async h qa given lock_free poll capacity mode stack budget
  | CallSelectMode mode => rw_select_mode mode
  | CallStart lock_free identity first => rw_start h opus qa frame_at summary_at lock_free identity first
  | CallStartControlled lock_free identity first check =>
      rw_start_controlled h opus qa frame_at summary_at lock_free identity first check
  | CallStep => rw_step h opus qa frame_at summary_at
  | CallGetStatus out => do r <- rw_get_status out; ret (fst r)
  | CallProducer i => run inner (change (interrupt qa i)); ret RW_OK
  end.
Fixpoint worker_calls (l : list worker_call) : M (pipeline * (rw_mem * W)) unit :=
  match l with [] => ret tt | x :: l => run worker x; worker_calls l end.
End Runs.
(** What a run over logged hooks has come to. *)
Definition worker_reached {W} (h : rw_hooks W) opus qa frame_at summary_at l (c : pipeline) (m : rw_mem) (t : list hook_event) (w : W) : Prop :=
  exists w0, snd (worker_calls (logged h) opus qa frame_at summary_at l (boot_pipeline, (boot_worker, ([], w0)))) = (c, (m, (t, w))).

Definition once (_ i _ : Z) : Prop := i <> 0.
Lemma wp_inited {W A} (o : M (rw_mem * W) A) (P : A -> rw_mem * W -> Prop) s : stays once o -> inited s -> wp o P s ->
  wp o (fun a s' => P a s' /\ inited s') s.
Proof. intros Ho Hi Hp. split; [exact Hp|by apply Ho]. Qed.

Section Invariant.
Context {W : Type} (h : rw_hooks W) (opus : opus_codec) (qa frame_at summary_at : Z).
Abbreviation H := (logged h).
Abbreviation IW := (rw_mem * (list hook_event * W))%type.
Abbreviation TW := (pipeline * IW)%type.
Implicit Types (m : rw_mem) (t : list hook_event) (w : W) (c : pipeline) (s : IW).

(** At rest; before the initialization, in the state that says so. *)
Definition between s : Prop := rests s /\ (inited s \/ state_of (fst s) = RW_UNINITIALIZED).
(** Nothing that matters here has changed. *)
Definition still m t s : Prop := watched (fst s) = watched m /\ wk_initialized (fst s) = wk_initialized m /\ fst (snd s) = t.
Lemma still_between m t w s : still m t s -> between (m, (t, w)) -> between s.
Proof.
  destruct s as [m' [t' w']]. intros (Ew & Ei & Et) [Hr Hi]. cbn [fst snd] in *. subst t'. split; [by apply (rests_watched m m' t w)|].
  unfold inited, state_of in *. cbn [fst] in *. rewrite Ei. destruct Hi as [Hi|Hi]; [by left|right]. unfold watched in Ew. injection Ew as Ew. congruence.
Qed.
Abbreviation stills m t o := (worldly (W := IW) (still m t) o).
Lemma still_quiet m t {A} (o : M IW A) : quiet o -> stills m t (inner o).
Proof.
  intros Ho. apply worldly_call. intros [m1 [t1 w1]] (E1 & E2 & E3). cbn [fst snd] in *.
  apply (wp_quiet o (fun _ => still m t) m1 t1 w1); [done|]. intros _ m2 w2 Hm. unfold still. cbn [fst snd].
  rewrite (touched_watched _ _ Hm). assert (E : wk_initialized m2 = wk_initialized m1) by by injection Hm. split_and!; congruence.
Qed.
Lemma still_change m t f : (forall m1, watched (f m1) = watched m1 /\ wk_initialized (f m1) = wk_initialized m1) -> stills m t (inner (change f)).
Proof.
  intros Hf. apply worldly_call. intros [m1 [t1 w1]] (E1 & E2 & E3). destruct (Hf m1) as [F1 F2]. unfold still, change in *. cbn [fst snd] in *.
  by rewrite F1, F2.
Qed.
Lemma still_entered m t body : stills m t body -> stills m t (rw_entered body).
Proof.
  intros Hb. unfold rw_entered. apply worldly_bind.
  - apply worldly_call. intros [m1 [t1 w1]] Hs. unfold own, bind, change, ret. cbn. by destruct (wk_entry m1 =? 0).
  - intros taken. destruct (negb taken); [apply worldly_ret|]. apply worldly_bind; [done|]. intros rc. apply worldly_bind; [by apply still_change|].
    intros _. apply worldly_ret.
Qed.
Lemma still_memory m t : stills m t memory.
Proof. apply still_quiet, quiet_own. intros. apply quiet_ret. Qed.
Lemma still_select m t mode : stills m t (rw_select_mode mode).
Proof.
  unfold rw_select_mode. destruct (_ && _); [apply worldly_ret|]. apply still_entered, worldly_bind; [apply still_memory|]. intros m1.
  destruct (_ && _); [|apply worldly_ret]. apply worldly_bind; [apply worldly_rp_select_mode|]. intros rc. apply worldly_bind; [|intros _; apply worldly_ret].
  apply still_change. intros m2. unfold watched. cbn. by destruct (rc =? 0).
Qed.
Lemma still_status m t out : stills m t (rw_get_status out).
Proof.
  unfold rw_get_status. destruct (negb out); [apply worldly_ret|]. apply worldly_bind; [apply still_memory|]. intros m1.
  destruct (negb _); [apply worldly_ret|]. apply worldly_bind; [apply worldly_rp_get_status|]. intros [rc [r|]]; destruct rc; try apply worldly_ret.
  apply worldly_bind; [by apply still_change|]. intros _. apply worldly_bind; [apply still_memory|]. intros m2. apply worldly_ret.
Qed.
Lemma still_interrupt m t i : stills m t (inner (change (interrupt qa i))).
Proof. apply still_change. intros m1. pose proof (touched_interrupt qa i m1) as Ht. split; [by apply touched_watched|by injection Ht]. Qed.
Lemma wp_still {A} (o : M TW A) (Q : A -> TW -> Prop) c m t w : stills m t o -> (forall a c' s', still m t s' -> Q a (c', s')) -> wp o Q (c, (m, (t, w))).
Proof. intros Ho HQ. apply wp_intro. intros a [c' s'] E. apply HQ. specialize (Ho (c, (m, (t, w)))). rewrite E in Ho. by apply Ho. Qed.

(** ** Initialization *)
(** The pipeline is initialized, and the worker idle. *)
Lemma wp_initialize (poll : bool) mode stack c s : released s -> inited s ->
  wp (do rc <- (if poll then rp_init_async_profile true true mode stack RP_PROFILE_CELT_LOW_DELAY
                else rp_init_profile true mode stack RP_PROFILE_CELT_LOW_DELAY);
      if rc =? 0 then run inner (rw_state_set H qa RW_IDLE); ret RW_OK else
      run inner (rw_latch H qa RW_CORE); run inner (rw_fault H qa); ret RW_ERROR) (fun _ r => between (snd r)) (c, s).
Proof.
  intros Hr Hi. apply wp_bind, (wp_mono _ (fun _ (r : TW) => snd r = s)).
  { assert (Hw : worldly (W := IW) (fun s' => s' = s) (if poll then rp_init_async_profile true true mode stack RP_PROFILE_CELT_LOW_DELAY
                else rp_init_profile true mode stack RP_PROFILE_CELT_LOW_DELAY)) by (destruct poll; apply worldly_init_core).
    by apply Hw. }
  intros rc [c1 s1] E. cbn [snd] in E. subst s1. destruct s as [m [t w]], Hr as [Hv Hc Hh Hcf Hu]. cbn [fst] in *. wp_step.
  - apply wp_bind, wp_inner. eapply wp_mono; [apply wp_inited; [by apply stays_state_to|exact Hi|apply wp_come_to_rest; try done; by left]|].
    intros _ s [(Hr & _) Hs]. apply wp_ret. split; [done|by left].
  - apply wp_bind, wp_inner, wp_quiet; [apply quiet_latch|]. intros _ m1 w1 Ht. apply (inv_watched _ m m1 t w w1 (touched_watched _ _ Ht)) in Hv.
    apply wp_bind, wp_inner. eapply wp_mono; [apply wp_inited; [by apply stays_fault| |by apply (wp_gave_up h qa false)]|].
    { unfold inited in *. cbn [fst] in *. assert (E : wk_initialized m1 = wk_initialized m) by by injection Ht. by rewrite E. }
    intros [] s [(H1 & _ & H3) Hs]. apply wp_ret. split; [by apply rests_fault; [exists false|]|by left].
Qed.
Lemma between_entry m t w w' f : between (m, (t, w)) -> between (m <| wk_entry := f |>, (t, w')).
Proof. by apply still_between. Qed.
Lemma wp_rw_init_core given lock_free poll capacity mode stack budget c s : between s ->
  wp (rw_init_core H qa given lock_free poll capacity mode stack budget) (fun _ r => between (snd r)) (c, s).
Proof.
  intros Hb. unfold rw_init_core. wp_step; [done|]. wp_step; [done|]. destruct s as [m [t w]]. unfold rw_entered.
  apply wp_bind, wp_inner, wp_own. wp_step; [|by apply wp_ret, wp_ret].
  apply wp_bind, wp_change, wp_ret, wp_bind. cbn [negb]. apply (wp_mono _ (fun _ r => between (snd r))).
  - apply wp_bind, wp_memory. cbn [fst]. wp_step; [apply wp_ret; by apply (between_entry m t w w)|].
    apply negb_false_iff, Z.eqb_eq in C2. cbn in C2. apply wp_bind, wp_inner, wp_change, wp_bind, wp_inner. unfold report. apply wp_change.
    apply wp_initialize; [|done]. assert (Hr : released (m, (t, w))).
    { destruct Hb as [Hr [Hi|Hst]]; [by destruct Hi|]. apply (rs_idle _ Hr). rewrite Hst. by left. }
    destruct Hr. split; cbn in *; try done. by apply (inv_watched false m _ t w w).
  - intros rc [c1 [m1 [t1 w1]]] H1. apply wp_bind, wp_inner, wp_change, wp_ret. by apply (between_entry m1 t1 w1 w1).
Qed.

(** ** Every call *)
Definition call_post (rc : Z) (r : TW) : Prop := between (snd r) /\ (rc = RW_COMPLETE -> completed (status (fst r)) (fst (snd r))).
(** Before the initialization nothing starts and nothing steps. *)
Lemma wp_rw_refused body c m t w : state_of m = RW_UNINITIALIZED -> between (m, (t, w)) ->
  (forall m1, state_of m1 = RW_UNINITIALIZED -> still m t (m1, (t, w)) -> wp body (fun rc r => rc = RW_STATE /\ still m t (snd r)) (c, (m1, (t, w)))) ->
  wp (rw_entered body) call_post (c, (m, (t, w))).
Proof.
  intros Hst Hb Hbody. unfold rw_entered. apply wp_bind, wp_inner, wp_own. wp_step; [|by apply wp_ret, wp_ret].
  apply wp_bind, wp_change, wp_ret, wp_bind. cbn [negb]. eapply wp_mono; [by apply Hbody|]. intros rc [c1 [m1 [t1 w1]]] [-> H1]. cbn [snd] in H1.
  apply wp_bind, wp_inner, wp_change, wp_ret. split; [|done]. by apply (between_entry m1 t1 w1 w1), (still_between m t w).
Qed.
Lemma wp_step_refused c m t w : state_of m = RW_UNINITIALIZED -> between (m, (t, w)) ->
  wp (rw_step H opus qa frame_at summary_at) call_post (c, (m, (t, w))).
Proof.
  intros Hst Hb. apply wp_rw_refused; [done|done|]. intros m1 H1 Hs. apply wp_bind, wp_memory. cbv zeta. cbn [fst]. unfold state_of in H1. rewrite H1.
  by apply wp_ret.
Qed.
Lemma wp_start_refused lock_free identity first consent c m t w : state_of m = RW_UNINITIALIZED -> between (m, (t, w)) ->
  wp (rw_start_inner H opus qa frame_at summary_at lock_free identity first consent) call_post (c, (m, (t, w))).
Proof.
  intros Hst Hb. unfold rw_start_inner. destruct identity as [b|]; [|by apply wp_ret]. wp_step; [by apply wp_ret|].
  apply wp_rw_refused; [done|done|]. intros m1 H1 Hs. apply wp_bind, wp_memory, wp_bind, (wp_still _ _ c m1 t w); [apply still_quiet, quiet_load|].
  intros token c2 s2 H2. unfold at_rest, state_of in *. cbn [fst]. rewrite H1. cbn. apply wp_ret. split; [done|].
  destruct Hs as (E1 & E2 & _), H2 as (F1 & F2 & F3). cbn [fst snd] in *. split_and!; cbn [fst snd]; congruence.
Qed.
Lemma wp_after_init {A} (o : M TW A) (P : A -> TW -> Prop) c s : worldly (W := IW) inited o -> inited s -> wp o P (c, s) ->
  wp o (fun a r => P a r /\ inited (snd r)) (c, s).
Proof. intros Ho Hi Hp. split; [exact Hp|by apply Ho]. Qed.
Lemma done_call (rc : Z) (r : TW) : done_post rc r -> inited (snd r) -> call_post rc r.
Proof. intros [Hr Hc] Hi. split; [|done]. split; [done|by left]. Qed.
Lemma wp_step_between c s : between s -> wp (rw_step H opus qa frame_at summary_at) call_post (c, s).
Proof.
  intros Hb. destruct (decide (wk_initialized (fst s) = 0)) as [Ez|Hi].
  - destruct Hb as [Hr [Hi|Hst]]; [done|]. destruct s as [m [t w]]. apply wp_step_refused; [done|]. split; [done|by right].
  - eapply wp_mono; [apply wp_after_init; [by apply (lasts_step H opus qa frame_at summary_at once)|exact Hi|apply wp_step_call, Hb]|]. intros rc r [H1 H2]. by apply done_call.
Qed.
Lemma wp_start_between lock_free identity first consent c s : between s ->
  wp (rw_start_inner H opus qa frame_at summary_at lock_free identity first consent) call_post (c, s).
Proof.
  intros Hb. destruct (decide (wk_initialized (fst s) = 0)) as [Ez|Hi].
  - destruct Hb as [Hr [Hi|Hst]]; [done|]. destruct s as [m [t w]]. apply wp_start_refused; [done|]. split; [done|by right].
  - eapply wp_mono; [apply wp_after_init; [by apply (lasts_start H opus qa frame_at summary_at once)|exact Hi|apply wp_start_call, Hb]|]. intros rc r [H1 H2]. by apply done_call.
Qed.
(** The calls that may end a session. *)
Definition may_end (x : worker_call) : Prop :=
  match x with CallStep | CallStart _ _ _ | CallStartControlled _ _ _ _ => True | _ => False end.
Lemma wp_worker x c s : between s ->
  wp (worker H opus qa frame_at summary_at x) (fun rc r => between (snd r) /\ (may_end x -> rc = RW_COMPLETE -> completed (status (fst r)) (fst (snd r)))) (c, s).
Proof.
  intros Hb. assert (Hstill : forall o : M TW Z, worldly (W := IW) (still (fst s) (fst (snd s))) o ->
    wp o (fun rc r => between (snd r) /\ (False -> rc = RW_COMPLETE -> completed (status (fst r)) (fst (snd r)))) (c, s)).
  { intros o Ho. destruct s as [m [t w]]. apply (wp_still _ _ c m t w); [done|]. intros rc c1 s1 H1. split; [by apply (still_between m t w)|done]. }
  assert (Hinit : forall o : M TW Z, wp o (fun _ r => between (snd r)) (c, s) ->
    wp o (fun rc r => between (snd r) /\ (False -> rc = RW_COMPLETE -> completed (status (fst r)) (fst (snd r)))) (c, s)).
  { intros o Ho. eapply wp_mono; [exact Ho|]. by intros rc r. }
  assert (Hend : forall o : M TW Z, wp o call_post (c, s) ->
    wp o (fun rc r => between (snd r) /\ (True -> rc = RW_COMPLETE -> completed (status (fst r)) (fst (snd r)))) (c, s)).
  { intros o Ho. eapply wp_mono; [exact Ho|]. intros rc r [H1 H2]. by split; [|intros _]. }
  destruct x as [given lf mode stack budget|given lf poll mode stack budget|given lf poll cap mode stack budget|mode|lf i f|lf i f k| |out|i]; cbn [worker may_end].
  - by apply Hinit, wp_rw_init_core.
  - apply Hinit. unfold rw_init_async. wp_step; [done|by apply wp_rw_init_core].
  - apply Hinit. unfold rw_init_capacity_async. wp_step; [done|by apply wp_rw_init_core].
  - apply Hstill, still_select.
  - by apply Hend, wp_start_between.
  - apply Hend. unfold rw_start_controlled. apply wp_bind, wp_memory. wp_step; [by apply wp_ret|by apply wp_start_between].
  - by apply Hend, wp_step_between.
  - apply Hstill, worldly_bind; [apply still_status|]. intros r. apply worldly_ret.
  - apply Hstill, worldly_bind; [apply still_interrupt|]. intros _. apply worldly_ret.
Qed.
Lemma between_boot w : between (boot_worker, ([], w)).
Proof.
  assert (Hi : inv false (boot_worker, (@nil hook_event, w))).
  { exists unsupervised. split; [done|]. by split. }
  split; [|by right]. split; try done. by exists false.
Qed.
Lemma worker_between l : forall c s, between s -> wp (worker_calls H opus qa frame_at summary_at l) (fun _ r => between (snd r)) (c, s).
Proof.
  induction l as [|x l IH]; intros c s Hb; cbn [worker_calls]; [done|]. apply wp_bind. eapply wp_mono; [by apply wp_worker|].
  intros rc [c1 s1] [H1 _]. by apply IH.
Qed.
Lemma worker_reached_between l c m t w : worker_reached h opus qa frame_at summary_at l c m t w -> between (m, (t, w)).
Proof.
  intros [w0 E]. pose proof (worker_between l boot_pipeline _ (between_boot w0)) as Hb. unfold wp in Hb. by rewrite E in Hb.
Qed.
End Invariant.

(** C3. The supervisor contract: whatever the hooks answer, whatever Opus does, and
    wherever the producer's calls interrupt the worker, the hook calls of every
    run keep the order the automaton [supervise] prescribes: the supervisor is
    armed only when it is not; every hook gets the deadline it stands armed with,
    before that deadline has passed; the microphone starts only under the lease,
    is stopped at most once, and is off when the lease is given back and when a
    recording is finalized; after a missed deadline, a clock that went back or a
    refusal of the supervisor nothing is called but the clock and that stop.  At
    rest nothing is armed, leased or capturing; while a session runs the lease is
    held and the supervisor is disarmed between the calls. *)
Theorem rw_hooks_supervised {W} (h : rw_hooks W) opus qa frame_at summary_at l c m t w :
  worker_reached h opus qa frame_at summary_at l c m t w ->
  exists a, supervision unsupervised t = Some a /\
    (In (state_of m) [RW_UNINITIALIZED; RW_IDLE; RW_STOPPED] ->
       su_armed a = None /\ su_expired a = false /\ su_lease a = false /\ su_mic a = MicOff) /\
    (state_of m = RW_RUNNING -> su_armed a = None /\ su_expired a = false /\ su_lease a = true).
Proof.
  intros [[Hi Hr _ [y (a & Ea & Ha)]] _]%worker_reached_between. exists a. split; [exact Ea|]. cbn [fst snd] in *.
  assert (Hsafe : wk_unsafe m = false -> su_expired a = false) by (destruct Ha; destruct (su_expired a); intuition congruence).
  assert (Hsame : forall x a', supervision unsupervised t = Some a' -> agrees x m a' -> su_lease a = snd x /\ su_mic a = fst x).
  { intros x a' Ea' []. assert (a' = a) as -> by congruence. by split. }
  split.
  - intros Hst. destruct (Hi Hst) as [(a' & Ea' & Ha') Hc _ Hcf Hu]. cbn [fst snd] in *. unfold mic_of in Ha'. rewrite Hc in Ha'.
    destruct (Hsame _ _ Ea' Ha') as [-> ->]. split_and!; [|auto..|done|done]. destruct Ha. cbn [fst] in *. by rewrite ag_armed, Hcf.
  - intros Hst. destruct (Hr Hst) as ([(a' & Ea' & Ha') _] & Hcf & Hu). destruct (Hsame _ _ Ea' Ha') as [-> _].
    split_and!; [|auto..|done]. destruct Ha. cbn [fst] in *. by rewrite ag_armed, Hcf.
Qed.
(** C7. A stop the worker calls complete is complete: the call leaves it stopped
    with the supervisor disarmed, the lease given back, the microphone off and no
    fault, and the pipeline's own status says that the manifest is finalized, that
    nothing is pending or of uncertain fate, and that the buffers are wiped; the
    log of hooks says the same of the supervisor, the lease and the microphone. *)
Theorem rw_complete_clean {W} (h : rw_hooks W) opus qa frame_at summary_at l c m t w x c' m' t' w' :
  worker_reached h opus qa frame_at summary_at l c m t w -> may_end x ->
  worker (logged h) opus qa frame_at summary_at x (c, (m, (t, w))) = (RW_COMPLETE, (c', (m', (t', w')))) ->
  completed (status c') m' /\
  exists a, supervision unsupervised t' = Some a /\ su_armed a = None /\ su_expired a = false /\ su_lease a = false /\ su_mic a = MicOff.
Proof.
  intros Hb%worker_reached_between Hx E. pose proof (wp_worker h opus qa frame_at summary_at x c _ Hb) as Hw. unfold wp in Hw. rewrite E in Hw.
  destruct Hw as [[Hr _] Hc]. specialize (Hc Hx eq_refl). cbn [fst snd] in *. split; [exact Hc|].
  destruct (rs_idle _ Hr) as [(a & Ea & Ha) Hcap _ Hcf Hu]; [cbn [fst]; rewrite (co_state _ _ Hc); right; right; by left|]. cbn [fst snd] in *.
  exists a. split; [exact Ea|]. unfold mic_of in Ha. rewrite Hcap in Ha. destruct Ha. cbn [fst snd] in *. split_and!; [by rewrite ag_armed, Hcf| |done..].
  destruct (su_expired a); intuition congruence.
Qed.

(** * An accepted stop request is answered *)
Section Answer.
Context {W : Type} (hooks : rw_hooks W) (opus : opus_codec) (qa frame_at summary_at : Z).
Abbreviation IW := (rw_mem * W)%type.
Definition left_running (st _ _ : Z) : Prop := ending_state st.
Definition asked (_ _ stop : Z) : Prop := stop <> RW_NONE.
Lemma wp_lasting P {A} (o : M (pipeline * IW) A) (Q : A -> pipeline * IW -> Prop) r : worldly (W := IW) (phased P) o -> phased P (snd r) ->
  (forall a r', phased P (snd r') -> Q a r') -> wp o Q r.
Proof. intros Ho Hr HQ. apply wp_intro. intros a r' E. apply HQ. specialize (Ho r Hr). by rewrite E in Ho. Qed.
Lemma asked_for (m : rw_mem) (w : W) : wk_stop m <> RW_NONE -> wp (stop_reason hooks qa) (fun reason _ => reason <> RW_NONE) (m, w).
Proof.
  intros Hm. unfold stop_reason, load, preempted. apply wp_bind, wp_bind, wp_call. intros l w' _. apply wp_change, wp_own, wp_ret.
  destruct (moves_interrupts qa l m) as (_ & _ & [E|E]); [by rewrite E|done].
Qed.
Lemma running_answers r : wk_stop (fst (snd r)) <> RW_NONE ->
  wp (running_step hooks opus qa frame_at summary_at) (fun _ r' => phased left_running (snd r')) r.
Proof.
  intros Ha. assert (Hshut : forall r', wp (rw_shutdown hooks opus qa frame_at summary_at) (fun _ r' => phased left_running (snd r')) r').
  { intros r'. apply reaches_shutdown; unfold left_running; auto. }
  unfold running_step. apply wp_bind, (wp_lasting asked); [by apply lasts_inner, stays_arm|done|]. intros armed r1 H1. wp_step; [apply Hshut|].
  apply wp_bind, (wp_lasting asked); [by apply lasts_inner, stays_collect|done|]. intros _ [c [m w]] H2. apply wp_bind.
  assert (Hr := asked_for m w H2). unfold wp, inner, call in *. cbn [fst snd]. destruct (stop_reason hooks qa (m, w)) as [reason s]. cbn [fst snd] in *.
  apply Z.eqb_neq in Hr. rewrite Hr. apply Hshut.
Qed.
Lemma step_answers r : state_of (fst (snd r)) = RW_RUNNING -> wk_entry (fst (snd r)) = 0 -> wk_stop (fst (snd r)) <> RW_NONE ->
  phased left_running (snd (snd (rw_step hooks opus qa frame_at summary_at r))).
Proof.
  destruct r as [c [m w]]. cbn [fst snd]. intros Hst He Hs. change (wp (rw_step hooks opus qa frame_at summary_at) (fun _ r' => phased left_running (snd r')) (c, (m, w))).
  unfold rw_step, rw_entered. apply wp_bind. unfold inner at 1. apply wp_call. intros taken s' E. unfold own, bind, change, ret in E. cbn in E. rewrite He in E. cbn in E.
  injection E as <- <-. cbn [negb]. apply wp_bind, wp_bind. unfold memory at 1, inner at 1. apply wp_call. intros m1 s1 E1. injection E1 as <- <-. cbv zeta.
  unfold state_of in Hst. cbn. rewrite Hst. cbn [Z.eqb]. change (RW_RUNNING =? RW_DRAINING) with false. change (RW_RUNNING =? RW_RUNNING) with true.
  eapply wp_mono; [by apply running_answers|]. intros rc [c2 s2] H2. apply wp_bind. unfold inner. apply wp_call. intros [] s3 E3. injection E3 as <-. by apply wp_ret.
Qed.
Lemma steps_answer n : forall r, phased left_running (snd r) ->
  phased left_running (snd (snd (worker_calls hooks opus qa frame_at summary_at (repeat CallStep n) r))).
Proof.
  induction n as [|n IH]; intros r Hr; [done|]. cbn [repeat worker_calls worker]. unfold bind.
  assert (H1 : worldly (W := IW) (phased left_running) (rw_step hooks opus qa frame_at summary_at)).
  { apply lasts_step; unfold left_running; auto. }
  specialize (H1 r Hr). destruct (rw_step hooks opus qa frame_at summary_at r) as [rc r1]. by apply IH.
Qed.
End Answer.
Lemma request_accepted qa epoch reason m m1 : rw_request_stop qa epoch reason m = (m1, RW_OK) ->
  state_of m1 = state_of m /\ wk_entry m1 = wk_entry m /\ wk_stop m1 <> RW_NONE.
Proof.
  unfold rw_request_stop, call_alone. cbn [enter_call]. destruct (stop_requestable reason) eqn:Er; cbn [negb]; [|by intros [=]].
  destruct (_ || _ || _); [by intros [=]|]. destruct (negb _); [by intros [=]|].
  assert (Hr : reason <> RW_NONE) by (intros ->; discriminate Er). set (m0 := admit_call _ m).
  assert (E0 : wk_in_flight m0 = Some (Entered (RequestStop epoch reason)) /\ state_of m0 = state_of m /\ wk_entry m0 = wk_entry m) by done.
  clearbody m0. destruct E0 as (E0 & Es & Ee). unfold proceed_call at 1. rewrite E0.
  destruct (negb _); [by intros [=]|]. destruct (_ && _); [by intros [=]|]. intros [= <-]. rewrite <- Es, <- Ee.
  unfold latched. destruct (Z.eqb_spec (wk_stop m0) RW_NONE) as [En|En]; destruct (reason =? RW_EXTERNAL); by split_and!.
Qed.
(** C8. An accepted stop request is answered: whatever the hooks, Opus and the
    producer do, the worker's next step leaves the running state, for draining,
    stopped, stopping or the fault, and no later step goes back to it. *)
Theorem rw_stop_answered {W} (hooks : rw_hooks W) opus qa frame_at summary_at c m w epoch reason m1 n :
  state_of m = RW_RUNNING -> wk_entry m = 0 -> rw_request_stop qa epoch reason m = (m1, RW_OK) ->
  ending_state (state_of (fst (snd (snd (worker_calls hooks opus qa frame_at summary_at (repeat CallStep (S n)) (c, (m1, w))))))).
Proof.
  intros Hst He (Es & Ee & Ha)%request_accepted. cbn [repeat worker_calls worker]. unfold bind.
  pose proof (step_answers hooks opus qa frame_at summary_at (c, (m1, w))) as H1. rewrite <- Es in Hst. rewrite <- Ee in He. specialize (H1 Hst He Ha).
  destruct (rw_step hooks opus qa frame_at summary_at (c, (m1, w))) as [rc r1].
  exact (steps_answer hooks opus qa frame_at summary_at n r1 H1).
Qed.

(** * A concrete session *)
Definition studio_codec : opus_codec := {|
  oc_parser := OpusParser (fun _ _ => 320) (fun _ => 1) (fun _ => 1);
  oc_version := Some "libopus 1.6.1-fixed"%string; oc_size := 1000;
  oc_init := fun _ e => (0, e); oc_ctl := fun _ e => (0, e); oc_lookahead := fun e => (0, Some 40, e);
  oc_encode := fun e _ => (60, fill 60 0x80, e)
|}.
(** A world that is a clock; every hook agrees. *)
Definition studio_hooks : rw_hooks Z := {|
  now_ms := fun w => (w, w + 1); supervisor_arm := fun _ w => (0, w); supervisor_disarm := fun w => (0, w);
  acquire := fun _ w => (0, Readiness 1 1 1 1 1 1, w); release := fun _ w => (0, w); capture_start := fun _ _ _ w => (0, w);
  stop_and_join := fun _ _ w => (0, w); reserve := fun _ _ w => (RP_IO_OK, w);
  seal_commit := fun b _ _ _ w =>
    match es_build_local b (no_bytes ES_HEADER_BYTES) with
    | Some e => (RP_IO_OK, SegmentReceipt 1 e, w)
    | None => (RP_IO_FAILED, zero_segment_receipt, w)
    end;
  finalize_hook := fun f _ w => (RP_IO_OK, FinalReceipt f 1, w);
  poll_hook := fun _ _ w => (RP_IO_FAILED, zero_segment_receipt, w); capacity_hook := fun _ _ w => (0, 10, w);
  consent_hook := fun _ _ _ w => (0, w); preempt := fun w => ([], w)
|}.
Definition studio_session : es_binding := EsBinding (fill 32 7) (fill 16 1) (fill 16 2) (fill 16 3) 5 0 0.
Definition studio_calls : list worker_call :=
  [CallInit true true RP_MANUAL RP_WORKER_STACK_MIN 1000; CallStart true (Some studio_session) 0;
   CallProducer (Enter (Submit 1 0 (Some (Obj 0x20040000 (fill 320 0))))); CallProducer Proceed; CallProducer Proceed; CallStep;
   CallProducer (Enter (Submit 1 320 (Some (Obj 0x20040000 (fill 320 0))))); CallProducer Proceed; CallProducer Proceed;
   CallProducer (Enter (RequestStop 1 RW_USER)); CallProducer Proceed].
Definition studio_started := snd (worker_calls studio_hooks studio_codec 0x20000000 0x20020000 0x20030000 (firstn 2 studio_calls) (boot_pipeline, (boot_worker, 0))).
Definition studio_run := snd (worker_calls (logged studio_hooks) studio_codec 0x20000000 0x20020000 0x20030000 studio_calls (boot_pipeline, (boot_worker, ([], 0)))).
Definition studio_end := worker (logged studio_hooks) studio_codec 0x20000000 0x20020000 0x20030000 CallStep studio_run.
Lemma studio_reached : worker_reached studio_hooks studio_codec 0x20000000 0x20020000 0x20030000 studio_calls
  (fst studio_run) (fst (snd studio_run)) (fst (snd (snd studio_run))) (snd (snd (snd studio_run))).
Proof. exists 0. unfold studio_run. by destruct (snd _) as [c [m [t w]]]. Qed.
Lemma rw_hooks_supervised_witness :
  state_of (fst (snd studio_run)) = RW_RUNNING /\ length (fst (snd (snd studio_run))) = 25%nat /\
  exists a, supervision unsupervised (fst (snd (snd studio_run))) = Some a /\ su_armed a = None /\ su_lease a = true /\ su_mic a = MicOn.
Proof.
  assert (Hc : state_of (fst (snd studio_run)) = RW_RUNNING /\ length (fst (snd (snd studio_run))) = 25%nat /\
    option_map su_mic (supervision unsupervised (fst (snd (snd studio_run)))) = Some MicOn) by (by vm_compute).
  destruct Hc as (Hst & Hn & Hm). split; [exact Hst|]. split; [exact Hn|].
  destruct (rw_hooks_supervised _ _ _ _ _ _ _ _ _ _ studio_reached) as (a & Ea & _ & Hrun). exists a.
  rewrite Ea in Hm. injection Hm as Hm. destruct (Hrun Hst) as (H1 & _ & H2). split; [exact Ea|]. split; [exact H1|]. by split.
Defined.
Lemma rw_complete_clean_witness :
  fst studio_end = RW_COMPLETE /\ completed (status (fst (snd studio_end))) (fst (snd (snd studio_end))) /\
  ps_committed_samples (status (fst (snd studio_end))) = 640.
Proof.
  assert (Hc : fst studio_end = RW_COMPLETE /\ ps_committed_samples (status (fst (snd studio_end))) = 640) by (by vm_compute).
  destruct Hc as [Hc Hn]. split; [exact Hc|]. split; [|exact Hn].
  destruct (rw_complete_clean _ _ _ _ _ _ _ _ _ _ CallStep (fst (snd studio_end)) (fst (snd (snd studio_end))) (fst (snd (snd (snd studio_end))))
    (snd (snd (snd (snd studio_end)))) studio_reached Logic.I) as [H _]; [|exact H].
  rewrite <- Hc. unfold studio_end. replace (fst studio_run, (fst (snd studio_run), (fst (snd (snd studio_run)), snd (snd (snd studio_run))))) with studio_run
    by (by destruct studio_run as [c [m [t w]]]).
  by destruct (worker _ _ _ _ _ _ studio_run) as [rc [c [m [t w]]]].
Defined.
Lemma rw_stop_answered_witness : exists m1, rw_request_stop 0x20000000 1 RW_USER (fst (snd studio_started)) = (m1, RW_OK) /\
  ending_state (state_of (fst (snd (snd (worker_calls studio_hooks studio_codec 0x20000000 0x20020000 0x20030000 (repeat CallStep 3)
    (fst studio_started, (m1, snd (snd studio_started)))))))).
Proof.
  assert (Hc : snd (rw_request_stop 0x20000000 1 RW_USER (fst (snd studio_started))) = RW_OK /\
    state_of (fst (snd studio_started)) = RW_RUNNING /\ wk_entry (fst (snd studio_started)) = 0) by (by vm_compute).
  destruct Hc as (Hc & Hst & He). exists (fst (rw_request_stop 0x20000000 1 RW_USER (fst (snd studio_started)))).
  assert (E : rw_request_stop 0x20000000 1 RW_USER (fst (snd studio_started)) =
    (fst (rw_request_stop 0x20000000 1 RW_USER (fst (snd studio_started))), RW_OK)) by (rewrite <- Hc; by destruct (rw_request_stop _ _ _ _)).
  split; [exact E|]. exact (rw_stop_answered studio_hooks studio_codec _ _ _ _ _ _ _ _ _ 2 Hst He E).
Defined.
