(* ===== verification/StoreBridge.v ===== *)
(** The store bridge ([recording_store_bridge.c/.h]): the storage callbacks of the
    recording worker, made of calls to the object store it owns.  Reserving and
    finalizing run the store's three steps at once; a segment is submitted, then
    advanced one step at a time by a storage worker, and polled. *)
From S2P Require Import Prelude OwnedPage SegmentHeader RecordTypes PlainSegment Wp ObjectStore.

Definition RSB_MAGIC : Z := 0x52534231.
Definition RSB_MAX_MS : Z := 8000.
Definition RSB_OK : Z := 0.
Definition RSB_PENDING : Z := 1.
Definition RSB_READY : Z := 2.
Definition RSB_ARGUMENT : Z := -1.
Definition RSB_BUSY : Z := -2.
Definition RSB_STATE : Z := -3.
Definition RSB_FAILED : Z := -4.
Definition RSB_IDLE : Z := 0.
Definition RSB_SELECTED : Z := 1.
Definition RSB_ACTIVE : Z := 2.
Definition RSB_STORING : Z := 3.
Definition RSB_COMPLETE : Z := 4.
Definition RSB_FAULT : Z := 5.
(** [enum rp_io] *)
Definition IO_OK : Z := 0.
Definition IO_FULL : Z := 1.
Definition IO_UNCERTAIN : Z := 3.
Definition IO_PENDING : Z := 4.

(** [struct rsb_context], but the pointer to the store and the clock. *)
Record rsb_context := RsbContext {
  br_gate : Z; br_cancelled : Z; br_initialized : Z; br_state : Z; br_mode : Z; br_pending_valid : Z;
  br_deferred_seal : Z; br_error : Z; br_first_sample : Z; br_last_now : Z; br_job_deadline : Z;
  br_session : es_binding; br_pending : es_binding
}.
#[export] Instance eta_rsb_context : Eta rsb_context := fun c =>
  RsbContext (br_gate c) (br_cancelled c) (br_initialized c) (br_state c) (br_mode c) (br_pending_valid c)
    (br_deferred_seal c) (br_error c) (br_first_sample c) (br_last_now c) (br_job_deadline c) (br_session c) (br_pending c).
Definition sizeof_rsb_context : Z := 264.
Definition sizeof_rsb_status : Z := 24.
Record rsb_status := RsbStatus { bs_state : Z; bs_cancelled : Z; bs_pending : Z; bs_error : Z; bs_job_deadline : Z }.
Definition zero_rsb : rsb_context := RsbContext 0 0 0 0 0 0 0 0 0 0 0 zero_binding zero_binding.

Definition same_binding (a b : es_binding) : bool :=
  (eb_generation a =? eb_generation b) && (eb_segment_sequence a =? eb_segment_sequence b) &&
  (eb_plaintext_bytes a =? eb_plaintext_bytes b) && same_bytes (eb_key_fingerprint a) (eb_key_fingerprint b) &&
  same_bytes (eb_device_id a) (eb_device_id b) && same_bytes (eb_volume_id a) (eb_volume_id b) &&
  same_bytes (eb_recording_id a) (eb_recording_id b).

Section Bridge.
(** [clock]: the time, and whether [rsb_cancel] has been called by then, which
    may happen at any moment.  [self], [ca], [local]: the addresses of the
    bridge, of its store and of the locals. *)
Context {W : Type} (port : ros_port W) (opus : opus_parser) (clock : W -> (Z * bool) * W) (self ca local : Z).
Definition B : Type := rsb_context * (ros_context * W).
Definition store {A} (m : M (ros_context * W) A) : M B A := call m.

Definition br_external {A} (p : ptr A) (n : Z) : bool :=
  match p with
  | Some p => negb (n =? 0) && negb (overlap self sizeof_rsb_context (addr p) n) && negb (overlap ca sizeof_ros_context (addr p) n)
  | None => false
  end.
(** [a || b], the second condition tried only when the first is false. *)
Definition either (a b : M B bool) : M B bool := do x <- a; if x then ret true else b.
Definition nonzero (m : M B Z) : M B bool := do rc <- m; ret (negb (rc =? 0)).
Definition cond (f : rsb_context -> bool) : M B bool := own (fun c => ret (f c)).

Definition take_gate : M B Z :=
  own (fun c =>
    if negb (br_initialized c =? RSB_MAGIC) then ret RSB_ARGUMENT else
    if br_gate c =? 0 then run change (fun c => c <| br_gate := 1 |>); ret RSB_OK else ret RSB_BUSY).
Definition leave (rc : Z) : M B Z := run change (fun c => c <| br_gate := 0 |>); ret rc.
Definition failed (rc : Z) : M B Z :=
  run change (fun c => c <| br_state := RSB_FAULT |> <| br_error := if rc =? 0 then RSB_FAILED else rc |>); ret RSB_FAILED.
Definition now_ms : M B Z :=
  do r <- call (fun s : ros_context * W => let '(r, w) := clock (snd s) in (r, (fst s, w)));
  run change (fun c => if snd r then c <| br_cancelled := 1 |> else c); ret (fst r).
Definition guard (deadline : Z) : M B Z :=
  do now <- now_ms;
  own (fun c =>
    if (br_state c =? RSB_FAULT) || negb (br_cancelled c =? 0) || (now <? br_last_now c) || (deadline <=? now)
    then failed RSB_FAILED else run change (fun c => c <| br_last_now := now |>); ret RSB_OK).
Definition admission (deadline : Z) : M B Z :=
  do now <- now_ms;
  own (fun c =>
    if (now <? br_last_now c) || (deadline <=? now) || (RSB_MAX_MS <? deadline - now) then failed RSB_ARGUMENT else
    run change (fun c => c <| br_last_now := now |>); guard deadline).

Definition status_of : M B (Z * option ros_status) := store (ros_get_status ca (Some (Obj local zero_status))).
(** Mounted, without a fault and idle. *)
Definition store_idle (s : ros_status) : bool :=
  negb (st_mounted s =? 0) && (st_fault s =? 0) && (st_job s =? ROS_NONE).
Definition clean_store : M B Z :=
  do r <- status_of;
  match r with
  | (0, Some s) => if store_idle s then ret RSB_OK else failed RSB_STATE
  | (rc, _) => failed (if rc =? 0 then RSB_STATE else rc)
  end.
(** One of the three steps of a root job; [last]: it is the third. *)
Definition root_step_one (deadline : Z) (last : bool) : M B Z :=
  do g <- guard deadline;
  if negb (g =? 0) then ret RSB_FAILED else
  do rc <- store (ros_step port);
  do g <- guard deadline;
  if negb (g =? 0) then ret RSB_FAILED else
  if negb (rc =? (if last then ROS_READY else ROS_PENDING)) then failed rc else ret RSB_OK.
Definition root_steps (deadline : Z) : M B Z :=
  try root_step_one deadline false; try root_step_one deadline false; root_step_one deadline true.

Definition rsb_init (clock_given : bool) : M B Z :=
  own (fun c =>
    if negb clock_given || negb (br_initialized c =? 0) || overlap self sizeof_rsb_context ca sizeof_ros_context then ret RSB_ARGUMENT else
    do r <- status_of;
    match r with
    | (0, Some s) =>
        if negb (store_idle s) then ret RSB_STATE else
        run change (fun _ => zero_rsb);
        do t <- call (fun s : ros_context * W => let '(r, w) := clock (snd s) in (r, (fst s, w)));
        run change (fun c => c <| br_last_now := fst t |> <| br_initialized := RSB_MAGIC |>);
        ret RSB_OK
    | _ => ret RSB_STATE
    end).
Definition rsb_init_deferred_seal (clock_given : bool) : M B Z :=
  do rc <- rsb_init clock_given;
  if rc =? 0 then run change (fun c => c <| br_deferred_seal := 1 |>); ret rc else ret rc.
Definition rsb_cancel : M B Z :=
  own (fun c => if negb (br_initialized c =? RSB_MAGIC) then ret RSB_ARGUMENT else
    run change (fun c => c <| br_cancelled := 1 |>); ret RSB_OK).
Definition rsb_select (b : ptr es_binding) (mode first : Z) : M B Z :=
  try take_gate;
  match b with
  | Some bo =>
      if negb (br_external b sizeof_es_binding) || negb (eb_segment_sequence (deref bo) =? 0) ||
         negb (eb_plaintext_bytes (deref bo) =? 0) || (negb (mode =? RP_MANUAL) && negb (mode =? RP_CONTINUOUS))
      then leave RSB_ARGUMENT else
      own (fun c =>
        if (negb (br_state c =? RSB_IDLE) && negb (br_state c =? RSB_COMPLETE)) || negb (br_cancelled c =? 0) then leave RSB_STATE else
        do bad <- nonzero clean_store;
        if bad then leave RSB_FAILED else
        run change (fun c => c <| br_session := deref bo |> <| br_mode := mode |> <| br_first_sample := first |>
                               <| br_job_deadline := 0 |> <| br_state := RSB_SELECTED |>);
        leave RSB_OK)
  | None => leave RSB_ARGUMENT
  end.

(** Whether a root is free; [None]: a record cannot be read, or it is [b]. *)
Fixpoint scan_roots (b : es_binding) (roots : list Z) (free : bool) : M B (option bool) :=
  match roots with
  | [] => ret (Some free)
  | i :: roots =>
      do r <- store (ros_get_record ca i (Some (Obj local zero_record)));
      match r with
      | (0, Some r) => if same_bytes (eb_recording_id b) (eb_recording_id (rr_identity r)) then ret None else scan_roots b roots free
      | (rc, _) => if rc =? ROS_NOT_FOUND then scan_roots b roots true else ret None
      end
  end.
(** The code, and [*segments] if it was written. *)
Definition rsb_capacity (b : ptr es_binding) (segments : ptr Z) (deadline : Z) : M B (Z * option Z) :=
  let out v m := do rc <- m; ret (rc, v) in
  do rc <- take_gate;
  if negb (rc =? 0) then ret (rc, None) else
  match b with
  | Some bo =>
      if negb (br_external b sizeof_es_binding) || negb (br_external segments 4) || poverlap b sizeof_es_binding segments 4
      then out None (leave RSB_ARGUMENT) else
      let bad := out (Some 0) (do rc <- failed RSB_STATE; leave rc) in
      do refused <- either (cond (fun c => negb (br_state c =? RSB_SELECTED) || negb (same_binding (deref bo) (br_session c))))
                           (nonzero (admission deadline));
      if refused then bad else
      do g <- store (ros_get_geometry ca (Some (Obj local (0, 0, 0))));
      match g with
      | (0, Some (roots, slots, _)) =>
          do r <- status_of;
          match r with
          | (0, Some s) =>
              if negb (store_idle s) || negb (st_slot_count s =? slots) || (st_slot_count s <? st_consumed_slots s) then bad else
              do free <- scan_roots (deref bo) (zseq roots) false;
              match free with
              | None => bad
              | Some free =>
                  do g <- guard deadline;
                  if negb (g =? 0) then out (Some 0) (leave RSB_FAILED) else
                  out (Some (if free then st_slot_count s - st_consumed_slots s else 0)) (leave RSB_OK)
              end
          | _ => bad
          end
      | _ => bad
      end
  | None => out None (leave RSB_ARGUMENT)
  end.
Definition uncertain (rc : Z) : M B Z := run failed rc; leave IO_UNCERTAIN.
Definition rsb_reserve (b : ptr es_binding) (deadline : Z) : M B Z :=
  do rc <- take_gate;
  if negb (rc =? 0) then ret IO_UNCERTAIN else
  match b with
  | Some bo =>
      do refused <- either (cond (fun c => negb (br_external b sizeof_es_binding) || negb (br_state c =? RSB_SELECTED) ||
                                           negb (same_binding (deref bo) (br_session c))))
                           (nonzero (admission deadline));
      if refused then uncertain RSB_STATE else
      own (fun c =>
      do rc <- store (ros_reserve port ca b (br_mode c) (br_first_sample c) deadline);
      do late <- nonzero (guard deadline);
      if late then leave IO_UNCERTAIN else
      if rc =? ROS_FULL then run change (fun c => c <| br_state := RSB_IDLE |>); leave IO_FULL else
      do bad <- either (ret (negb (rc =? ROS_PENDING))) (either (nonzero (root_steps deadline))
        (either (nonzero (do r <- store ros_finish; ret (fst r))) (nonzero (guard deadline))));
      if bad then uncertain rc else
      run change (fun c => c <| br_state := RSB_ACTIVE |>); leave IO_OK)
  | None => uncertain RSB_STATE
  end.
Definition no_pending (c : rsb_context) : rsb_context :=
  c <| br_pending := zero_binding |> <| br_pending_valid := 0 |> <| br_job_deadline := 0 |> <| br_state := RSB_ACTIVE |>.
(** The code, and the receipt if it was written. *)
Definition rsb_submit (b : ptr es_binding) (plain : ptr bytes) (n : Z) (out : ptr rp_segment_receipt) (deadline : Z)
  : M B (Z * option rp_segment_receipt) :=
  do rc <- take_gate;
  if negb (rc =? 0) then ret (IO_UNCERTAIN, None) else
  match b with
  | Some bo =>
      if negb (br_external out sizeof_rp_segment_receipt) || negb (br_external b sizeof_es_binding) || negb (br_external plain n) ||
         poverlap out sizeof_rp_segment_receipt b sizeof_es_binding || poverlap out sizeof_rp_segment_receipt plain n
      then do rc <- leave IO_UNCERTAIN; ret (rc, None) else
      do rc <- (
        do refused <- either (cond (fun c => negb (br_state c =? RSB_ACTIVE))) (nonzero (admission deadline));
        if refused then uncertain RSB_STATE else
        run change (fun c => c <| br_pending := deref bo |> <| br_pending_valid := 1 |> <| br_job_deadline := deadline |>
                               <| br_state := RSB_STORING |>);
        own (fun c =>
        do rc <- store (prepare port opus ca b plain n deadline (negb (br_deferred_seal c =? 0)));
        do late <- nonzero (guard deadline);
        if late then leave IO_UNCERTAIN else
        if rc =? ROS_FULL then run change no_pending; leave IO_FULL else
        if negb (rc =? ROS_PENDING) then uncertain rc else leave IO_PENDING));
      ret (rc, Some zero_segment_receipt)
  | None => do rc <- leave IO_UNCERTAIN; ret (rc, None)
  end.
Definition rsb_advance : M B Z :=
  try take_gate;
  own (fun c =>
    if negb (br_state c =? RSB_STORING) then leave RSB_STATE else
    do late <- nonzero (guard (br_job_deadline c));
    if late then leave RSB_FAILED else
    do rc <- store (ros_step port);
    do late <- nonzero (guard (br_job_deadline c));
    if late then leave RSB_FAILED else
    if negb (rc =? ROS_PENDING) && negb (rc =? ROS_READY) then do rc <- failed rc; leave rc else
    leave (if rc =? ROS_READY then RSB_READY else RSB_PENDING)).
Definition rsb_poll (b : ptr es_binding) (out : ptr rp_segment_receipt) (deadline : Z) : M B (Z * option rp_segment_receipt) :=
  own (fun c =>
  match b with
  | Some bo =>
    if negb (br_initialized c =? RSB_MAGIC) || negb (br_external out sizeof_rp_segment_receipt) ||
       negb (br_external b sizeof_es_binding) || poverlap out sizeof_rp_segment_receipt b sizeof_es_binding
    then ret (IO_UNCERTAIN, None) else
    let nothing m := do rc <- m; ret (rc, Some zero_segment_receipt) in
    do rc <- take_gate;
    if negb (rc =? 0) then ret (if rc =? RSB_BUSY then IO_PENDING else IO_UNCERTAIN, Some zero_segment_receipt) else
    do refused <- either (cond (fun c => negb (br_state c =? RSB_STORING) || negb (same_binding (deref bo) (br_pending c))))
      (either (nonzero (admission deadline)) (own (fun c => nonzero (guard (br_job_deadline c)))));
    if refused then nothing (uncertain RSB_STATE) else
    do r <- status_of;
    do late <- either (nonzero (guard deadline)) (own (fun c => nonzero (guard (br_job_deadline c))));
    if late then nothing (leave IO_UNCERTAIN) else
    match r with
    | (0, Some s) =>
        if negb (st_fault s =? 0) || negb (st_job s =? ROS_SEGMENT) then nothing (uncertain 0) else
        if st_ready s =? 0 then nothing (leave IO_PENDING) else
        do r <- store (ros_take_segment_receipt ca (Some (Obj local zero_segment_receipt)));
        do bad <- either (ret (negb (fst r =? 0))) (either (nonzero (guard deadline)) (own (fun c => nonzero (guard (br_job_deadline c)))));
        if bad then nothing (uncertain (fst r)) else
        run change no_pending;
        do rc <- leave IO_OK; ret (rc, match snd r with Some receipt => Some receipt | None => Some zero_segment_receipt end)
    | (rc, _) => nothing (uncertain rc)
    end
  | None => ret (IO_UNCERTAIN, None)
  end).
Definition rsb_finalize (f : ptr rp_completion) (out : ptr rp_final_receipt) (deadline : Z) : M B (Z * option rp_final_receipt) :=
  do rc <- take_gate;
  if negb (rc =? 0) then ret (IO_UNCERTAIN, None) else
  match f with
  | Some fo =>
      if negb (br_external f sizeof_rp_completion) || negb (br_external out sizeof_rp_final_receipt) ||
         poverlap f sizeof_rp_completion out sizeof_rp_final_receipt then do rc <- leave IO_UNCERTAIN; ret (rc, None) else
      let nothing m := do rc <- m; ret (rc, Some zero_final_receipt) in
      do refused <- either (cond (fun c => negb (br_state c =? RSB_ACTIVE) || negb (same_binding (pc_session (deref fo)) (br_session c)) ||
                                           negb (pc_mode (deref fo) =? br_mode c)))
                           (nonzero (admission deadline));
      if refused then nothing (uncertain RSB_STATE) else
      do rc <- store (ros_finalize port ca f deadline);
      do bad <- either (nonzero (guard deadline)) (either (ret (negb (rc =? ROS_PENDING))) (nonzero (root_steps deadline)));
      if bad then nothing (uncertain rc) else
      do r <- store (ros_take_final_receipt ca (Some (Obj local zero_final_receipt)));
      do bad <- either (ret (negb (fst r =? 0))) (nonzero (guard deadline));
      if bad then nothing (uncertain (fst r)) else
      run change (fun c => c <| br_state := RSB_COMPLETE |>);
      do rc <- leave IO_OK; ret (rc, match snd r with Some receipt => Some receipt | None => Some zero_final_receipt end)
  | None => do rc <- leave IO_UNCERTAIN; ret (rc, None)
  end.
Definition rsb_get_status (out : ptr rsb_status) : M B (Z * option rsb_status) :=
  do rc <- take_gate;
  if negb (rc =? 0) then ret (rc, None) else
  if negb (br_external out sizeof_rsb_status) then do rc <- leave RSB_ARGUMENT; ret (rc, None) else
  own (fun c =>
    do rc <- leave RSB_OK;
    ret (rc, Some (RsbStatus (br_state c) (br_cancelled c) (br_pending_valid c) (br_error c) (br_job_deadline c)))).
End Bridge.
