(* ===== verification/StoreBridgeSafety.v ===== *)
(** The store bridge over the logged store: whatever calls the codec worker, the
    storage worker and a canceller make, the segment the store is committing is
    the one the bridge holds pending; what [rsb_poll] returns is durable; a job
    is not advanced for ever; and a fault is final. *)
From S2P Require Import Prelude OwnedPage SegmentHeader RecordTypes PlainSegment Wp RecordingPipeline ObjectStore StoreRules StoreJobs StoreSafety StoreOwner StoreBridge.

(** A clock that knows nothing of the log. *)
Definition tclock {W} (clock : W -> (Z * bool) * W) : list event * W -> (Z * bool) * (list event * W) :=
  fun '(t, w) => let '(r, w) := clock w in (r, (t, w)).

(** Every call, by whichever actor; [RsbContended]: while another call holds the gate. *)
Inductive rsb_op :=
  | RsbInit (clock_given : bool) | RsbInitDeferredSeal (clock_given : bool)
  | RsbSelect (b : ptr es_binding) (mode first : Z) | RsbCancel
  | RsbCapacity (b : ptr es_binding) (segments : ptr Z) (deadline : Z)
  | RsbReserve (b : ptr es_binding) (deadline : Z)
  | RsbSubmit (b : ptr es_binding) (plain : ptr bytes) (n : Z) (out : ptr rp_segment_receipt) (deadline : Z)
  | RsbAdvance
  | RsbPoll (b : ptr es_binding) (out : ptr rp_segment_receipt) (deadline : Z)
  | RsbFinalize (f : ptr rp_completion) (out : ptr rp_final_receipt) (deadline : Z)
  | RsbGetStatus (out : ptr rsb_status)
  | RsbContended (o : rsb_op).

Section Calls.
Context {W : Type} (port : ros_port W) (opus : opus_parser) (clock : W -> (Z * bool) * W) (self ca local : Z).
Abbreviation P := (logged port).
Abbreviation S := (ros_context * (list event * W))%type.
Abbreviation BS := (rsb_context * S)%type.
Fixpoint run_rsb (o : rsb_op) : M BS Z :=
  let code {A} (m : M BS (Z * option A)) : M BS Z := do r <- m; ret (fst r) in
  match o with
  | RsbInit k => rsb_init (tclock clock) self ca local k
  | RsbInitDeferredSeal k => rsb_init_deferred_seal (tclock clock) self ca local k
  | RsbSelect b mode first => rsb_select self ca local b mode first
  | RsbCancel => rsb_cancel
  | RsbCapacity b segments deadline => code (rsb_capacity (tclock clock) self ca local b segments deadline)
  | RsbReserve b deadline => rsb_reserve P (tclock clock) self ca b deadline
  | RsbSubmit b plain n out deadline => code (rsb_submit P opus (tclock clock) self ca b plain n out deadline)
  | RsbAdvance => rsb_advance P (tclock clock)
  | RsbPoll b out deadline => code (rsb_poll (tclock clock) self ca local b out deadline)
  | RsbFinalize f out deadline => code (rsb_finalize P (tclock clock) self ca local f out deadline)
  | RsbGetStatus out => code (rsb_get_status self ca out)
  | RsbContended o =>
      run change (fun c => c <| br_gate := 1 |>);
      do rc <- run_rsb o;
      run change (fun c => c <| br_gate := 0 |>); ret rc
  end.
Fixpoint run_rsbs (os : list rsb_op) : M BS unit :=
  match os with
  | [] => ret tt
  | o :: os => run run_rsb o; run_rsbs os
  end.

(** * The segment in the store is the pending one *)
Definition linked (s : BS) : Prop :=
  store_inv (snd s) /\ (br_state (fst s) = RSB_STORING -> holds (br_pending (fst s)) (fst (snd s))).
Definition tied {X} (m : M BS X) : Prop := forall s, linked s -> linked (snd (m s)).

Lemma tied_ret {X} (x : X) : tied (ret x : M BS X).
Proof. by intros s H. Qed.
Lemma tied_bind {X Y} (m : M BS X) (k : X -> M BS Y) : tied m -> (forall x, tied (k x)) -> tied (bind m k).
Proof. intros Hm Hk s H%Hm. unfold bind. destruct (m s) as [x s']. by apply Hk. Qed.
Lemma tied_on_ok (m k : M BS Z) : tied m -> tied k -> tied (on_ok m k).
Proof. intros Hm Hk. apply tied_bind; [done|]. intros rc. destruct (rc =? 0); [done|by intros s H]. Qed.
Lemma tied_own {X} (k : rsb_context -> M BS X) : (forall c, tied (k c)) -> tied (own k).
Proof. intros Hk s. apply Hk. Qed.
Lemma tied_change f : (forall c, br_state (f c) = RSB_STORING -> br_state c = RSB_STORING /\ br_pending (f c) = br_pending c) ->
  tied (change f : M BS unit).
Proof. intros Hf [c s] [H1 H2]. split; [done|]. cbn in *. intros [E ->]%Hf. auto. Qed.
Lemma tied_store {X} (m : M S X) : (forall s, store_inv s -> store_inv (snd (m s))) -> holding m -> tied (store m).
Proof.
  intros Hi Hh [c s] [H1 H2]. unfold store, call. cbn in *. specialize (Hi s H1).
  assert (Hl : br_state c = RSB_STORING -> holds (br_pending c) (fst (snd (m s)))) by (intros E; by apply Hh, H2).
  destruct (m s) as [x s']. by split.
Qed.
Lemma store_inv_world d t (w w' : W) : store_inv (d, (t, w)) -> store_inv (d, (t, w')).
Proof. apply store_inv_aside. exists (co_gate d), (co_last_now d). by destruct d. Qed.
Lemma keeps_code {X} (m : M S (Z * X)) s : wp (do r <- m; ret (fst r)) keeps s -> store_inv (snd (m s)).
Proof. unfold wp, keeps, bind. by destruct (m s) as [[rc x] s']. Qed.
Lemma tied_query {X} (body : ros_context -> Z * option X) : tied (store (query body (fun d => d))).
Proof.
  apply tied_store; [|by apply holding_query].
  intros [d [t w]] Hi. apply (keeps_code _ (d, (t, w))). by apply wp_query.
Qed.
Lemma tied_status : tied (status_of ca local).
Proof. apply tied_query. Qed.
Lemma tied_now_ms : tied (now_ms (tclock clock)).
Proof.
  unfold now_ms. apply tied_bind; [|intros r; apply tied_bind; [|intros ?; apply tied_ret]].
  - intros [c [d [t w]]] [H1 H2]. unfold call, tclock. cbn in *. destruct (clock w) as [r w']. split; [by eapply store_inv_world|done].
  - apply tied_change. intros c. by destruct (snd r).
Qed.

Ltac tie :=
  repeat first
    [ solve [auto 2]
    | match goal with
      | |- tied (ret _) => apply tied_ret
      | |- tied (change _) => apply tied_change; intros ?c; first [done|by intros ?E]
      | |- tied (on_ok _ _) => apply tied_on_ok
      | |- tied (bind _ _) => apply tied_bind; [|intros ?]
      | |- tied (own _) => apply tied_own; intros ?
      | |- tied (either _ _) => unfold either
      | |- tied (nonzero _) => unfold nonzero
      | |- tied (cond _) => unfold cond
      | |- tied (match ?x with _ => _ end) => destruct x
      end
    | progress (cbv beta zeta) ].
Lemma tied_take_gate : tied take_gate.
Proof. unfold take_gate. tie. Qed.
Lemma tied_leave rc : tied (leave rc).
Proof. unfold leave. tie. Qed.
Lemma tied_failed rc : tied (failed rc).
Proof. unfold failed. tie. Qed.
Hint Resolve tied_now_ms tied_status tied_take_gate tied_leave tied_failed : core.
Lemma tied_guard deadline : tied (guard (tclock clock) deadline).
Proof. unfold guard. tie. Qed.
Hint Resolve tied_guard : core.
Lemma tied_admission deadline : tied (admission (tclock clock) deadline).
Proof. unfold admission. tie. Qed.
Lemma tied_ros_step : tied (store (ros_step P)).
Proof.
  apply tied_store; [|apply holding_ros_step]. intros [d [t w]] H. by apply (wp_ros_step port d t w H).
Qed.
Lemma tied_clean_store : tied (clean_store ca local).
Proof. unfold clean_store. tie. Qed.
Lemma tied_uncertain rc : tied (uncertain rc).
Proof. unfold uncertain. tie. Qed.
Hint Resolve tied_admission tied_ros_step tied_clean_store tied_uncertain : core.
Lemma tied_root_steps deadline : tied (root_steps P (tclock clock) deadline).
Proof. unfold root_steps, root_step_one. tie. Qed.
Hint Resolve tied_root_steps : core.
Lemma tied_rsb_init k : tied (rsb_init (tclock clock) self ca local k).
Proof.
  unfold rsb_init. tie. intros [c0 [d [t w]]] [H1 H2]. unfold call, tclock. cbn in *. destruct (clock w) as [r0 w0].
  split; [by eapply store_inv_world|done].
Qed.
Lemma tied_scan_roots b roots : forall free, tied (scan_roots ca local b roots free).
Proof. induction roots as [|i roots IH]; intros free; cbn [scan_roots]; tie. apply tied_query. Qed.
Lemma tied_rsb_reserve b deadline : tied (rsb_reserve P (tclock clock) self ca b deadline).
Proof.
  assert (forall c bo, tied (store (ros_reserve P ca (Some bo) (br_mode c) (br_first_sample c) deadline))).
  { intros c bo. apply tied_store; [|apply holding_ros_reserve]. intros [d [t w]] H. by apply (wp_ros_reserve port). }
  assert (tied (store ros_finish)).
  { apply tied_store; [|apply holding_ros_finish]. intros [d [t w]] Hi. apply (keeps_code _ (d, (t, w))).
    apply wp_query; [done|]. intros d' H' _. by apply finish_keeps. }
  unfold rsb_reserve. destruct b; tie.
Qed.
Lemma tied_rsb_finalize f out deadline : tied (rsb_finalize P (tclock clock) self ca local f out deadline).
Proof.
  assert (forall fo, tied (store (ros_finalize P ca (Some fo) deadline))).
  { intros fo. apply tied_store; [|apply holding_ros_finalize]. intros [d [t w]] H. by apply (wp_ros_finalize port). }
  assert (forall o, tied (store (ros_take_final_receipt ca o))).
  { intros o. apply tied_store; [|apply holding_take_final]. intros [d [t w]] Hi. apply (keeps_code _ (d, (t, w))).
    apply wp_query; [done|]. intros d' H' _. by apply finish_keeps. }
  unfold rsb_finalize. destruct f; tie.
Qed.
Lemma tied_rsb_capacity b segments deadline : tied (rsb_capacity (tclock clock) self ca local b segments deadline).
Proof.
  unfold rsb_capacity. pose proof tied_scan_roots. assert (tied (store (ros_get_geometry ca (Some (Obj local (0, 0, 0)))))) by apply tied_query.
  destruct b; tie.
Qed.
Lemma tied_rsb_select b mode first : tied (rsb_select self ca local b mode first).
Proof. unfold rsb_select. destruct b; tie. Qed.
Lemma tied_rsb_advance : tied (rsb_advance P (tclock clock)).
Proof. unfold rsb_advance. tie. Qed.

(** ** Submitting and polling *)
(** The clock moves on, and may bring a cancellation. *)
Definition ticked (c c' : rsb_context) : Prop := exists n k, c' = c <| br_last_now := n |> <| br_cancelled := k |>.
Lemma wp_now (Q : Z -> BS -> Prop) c d t w :
  (forall n c' w', ticked c c' -> Q n (c', (d, (t, w')))) -> wp (now_ms (tclock clock)) Q (c, (d, (t, w))).
Proof.
  intros HQ. unfold now_ms. apply wp_bind, wp_call. intros r s' E. cbn in E. destruct (clock w) as [r' w']. injection E as <- <-.
  apply wp_bind, wp_change, wp_ret, HQ. destruct (snd r').
  - exists (br_last_now c), 1. by destruct c.
  - exists (br_last_now c), (br_cancelled c). by destruct c.
Qed.
Lemma ticked_trans c c' n : ticked c c' -> ticked c (c' <| br_last_now := n |>).
Proof. intros (m & k & ->). by exists n, k. Qed.
Lemma wp_failed rc (Q : Z -> BS -> Prop) c s :
  (forall c', br_state c' = RSB_FAULT -> Q RSB_FAILED (c', s)) -> wp (failed rc) Q (c, s).
Proof. intros HQ. unfold failed. apply wp_bind, wp_change, wp_ret. by apply HQ. Qed.
Lemma wp_bguard deadline (Q : Z -> BS -> Prop) c d t w :
  (forall c' w', br_state c' = RSB_FAULT -> Q RSB_FAILED (c', (d, (t, w')))) ->
  (forall c' w', ticked c c' -> br_state c <> RSB_FAULT -> Q 0 (c', (d, (t, w')))) ->
  wp (guard (tclock clock) deadline) Q (c, (d, (t, w))).
Proof.
  intros Hf HQ. unfold guard. apply wp_bind, wp_now. intros n c' w' Ht. apply wp_own.
  wp_step; [apply wp_failed; auto|]. apply wp_bind, wp_change, wp_ret, HQ; [by apply ticked_trans|].
  rewrite !orb_false_iff in C. destruct C as [[[C%Z.eqb_neq _] _] _]. by destruct Ht as (? & ? & ->).
Qed.
Lemma wp_leave rc (Q : Z -> BS -> Prop) c s : Q rc (c <| br_gate := 0 |>, s) -> wp (leave rc) Q (c, s).
Proof. intros HQ. by apply wp_bind, wp_change, wp_ret. Qed.
Lemma linked_off c s : store_inv s -> br_state c <> RSB_STORING -> linked (c, s).
Proof. by split. Qed.
Lemma linked_fault c s : store_inv s -> br_state c = RSB_FAULT -> linked (c, s).
Proof. intros H E. apply linked_off; [done|by rewrite E]. Qed.
Lemma wp_uncertain rc (Q : Z -> BS -> Prop) c s :
  (forall c', br_state c' = RSB_FAULT -> Q IO_UNCERTAIN (c', s)) -> wp (uncertain rc) Q (c, s).
Proof. intros HQ. unfold uncertain. apply wp_bind, wp_failed. intros c' E. by apply wp_leave, HQ. Qed.
Lemma wp_tied {X} (m : M BS X) s : tied m -> linked s -> wp m (fun _ => linked) s.
Proof. intros Hm H. by apply Hm. Qed.
Lemma tied_wp {X} (m : M BS X) : (forall s, linked s -> wp m (fun _ => linked) s) -> tied m.
Proof. auto. Qed.

Lemma tied_rsb_submit b plain n out deadline : tied (rsb_submit P opus (tclock clock) self ca b plain n out deadline).
Proof.
  unfold rsb_submit. apply tied_bind; [done|]. intros rc. destruct (negb _); [tie|]. destruct b as [bo|]; [|tie].
  destruct (_ || _); [tie|]. apply tied_bind; [|intros ?; tie]. apply tied_bind; [tie|]. intros refused. destruct refused; [done|].
  apply tied_wp. intros [c [d [t w]]] [Hi _]. apply wp_bind, wp_change, wp_own. cbn [snd] in Hi. name_context c1 E1.
  assert (H1 : br_state c1 = RSB_STORING /\ br_pending c1 = deref bo) by by rewrite E1. clear E1.
  apply wp_bind. unfold store at 1. apply wp_call. intros rc' [d' [t' w']] Ep.
  assert (Hi' : store_inv (d', (t', w'))) by exact (wp_elim _ _ _ _ _ (wp_prepare port opus ca _ _ _ _ _ _ _ _ Hi) Ep).
  assert (Ho : owns (deref bo) rc' (d', (t', w'))) by exact (wp_elim _ _ _ _ _ (wp_prepare_owns port opus ca _ _ _ _ _ _ _ _) Ep).
  clear Ep Hi. apply wp_bind, wp_bind, wp_bguard; intros c2 w2.
  - intros E2. apply wp_ret. cbn [negb Z.eqb]. apply wp_leave, linked_fault; [by eapply store_inv_world|done].
  - intros Ht _. apply wp_ret. cbn [negb Z.eqb]. assert (H2 : br_state c2 = RSB_STORING /\ br_pending c2 = deref bo) by by destruct Ht as (? & ? & ->).
    apply (store_inv_world _ _ _ w2) in Hi'. wp_step; [by apply wp_bind, wp_change, wp_leave, linked_off|].
    wp_step; [by apply wp_uncertain; intros c' E; apply linked_fault|]. apply negb_false_iff, Z.eqb_eq in C0.
    apply wp_leave. split; [done|]. intros _. cbn. destruct H2 as [_ ->]. by apply Ho.
Qed.
Lemma tied_rsb_poll b out deadline : tied (rsb_poll (tclock clock) self ca local b out deadline).
Proof.
  unfold rsb_poll. apply tied_own. intros c0. destruct b as [bo|]; [|tie]. destruct (_ || _); [tie|]. cbv zeta.
  apply tied_bind; [done|]. intros rc. destruct (negb _); [tie|]. apply tied_bind; [tie|]. intros refused. destruct refused; [tie|].
  apply tied_bind; [done|]. intros r. apply tied_bind; [tie|]. intros late. destruct late; [tie|].
  destruct r as [[|rc'|rc'] [s|]]; try solve [tie]. destruct (_ || _); [tie|]. destruct (st_ready s =? 0); [tie|].
  apply tied_wp. intros [c [d [t w]]] [Hi _]. cbn [snd] in Hi. apply wp_bind. unfold store at 1. apply wp_call. intros r [d' [t' w']] Er.
  assert (Hi' : store_inv (d', (t', w'))).
  { change (d', (t', w')) with (snd (r, (d', (t', w')))). rewrite <- Er. apply (keeps_code _ (d, (t, w))).
    apply wp_query; [done|]. intros d1 H1 _. by apply finish_keeps. }
  clear Er Hi.
  assert (Hbad : forall c1 w1, wp (do rc0 <- uncertain (fst r); ret (rc0, Some zero_segment_receipt)) (fun _ => linked) (c1, (d', (t', w1)))).
  { intros c1 w1. apply wp_bind, wp_uncertain. intros c2 E. apply wp_ret, linked_fault; [by eapply store_inv_world|done]. }
  unfold either, nonzero. apply wp_bind, wp_bind, wp_ret. wp_step; [by apply wp_ret|].
  apply wp_bind, wp_bind, wp_bguard; intros c1 w1.
  - intros _. apply wp_ret. cbn [negb Z.eqb]. by apply wp_ret.
  - intros _ _. apply wp_ret. cbn [negb Z.eqb]. apply wp_own, wp_bind, wp_bguard; intros c2 w2.
    + intros _. apply wp_ret. by cbn [negb Z.eqb].
    + intros _ _. apply wp_ret. cbn [negb Z.eqb]. apply wp_bind, wp_change, wp_bind, wp_leave, wp_ret, linked_off; [by eapply store_inv_world|done].
Qed.
Lemma tied_run_rsb o : tied (run_rsb o).
Proof.
  induction o; cbn [run_rsb]; try (apply tied_bind; [|intros ?; apply tied_ret]);
    auto using tied_rsb_init, tied_rsb_select, tied_rsb_capacity, tied_rsb_reserve, tied_rsb_submit, tied_rsb_advance,
      tied_rsb_poll, tied_rsb_finalize.
  - unfold rsb_init_deferred_seal. pose proof (tied_rsb_init clock_given). tie.
  - unfold rsb_cancel. tie.
  - unfold rsb_get_status. tie.
  - tie.
Qed.
Lemma tied_run_rsbs os : tied (run_rsbs os).
Proof. induction os as [|o os IH]; cbn [run_rsbs]; [apply tied_ret|]. apply tied_bind; [apply tied_run_rsb|done]. Qed.

(** A bridge at boot on a store that any run of calls has left, and then any run
    of calls of the bridge. *)
Definition bridged (os : list ros_op) (bs : list rsb_op) (c : rsb_context) (d : ros_context) (t : list event) : Prop :=
  exists d0 t0 w0 w, reached port opus os d0 t0 /\ run_rsbs bs (zero_rsb, (d0, (t0, w0))) = (tt, (c, (d, (t, w)))).
Lemma bridged_linked os bs c d t w : bridged os bs c d t -> linked (c, (d, (t, w))).
Proof.
  intros (d0 & t0 & w0 & w1 & Hr & E).
  assert (H0 : linked (zero_rsb, (d0, (t0, w0)))) by (apply linked_off; [exact (reached_inv port opus os d0 t0 Hr w0)|done]). pose proof (tied_run_rsbs bs (zero_rsb, (d0, (t0, w0)))) as H. rewrite E in H.
  destruct (H H0) as [H1 H2]. split; [exact (store_inv_world _ _ _ _ H1)|done].
Qed.
End Calls.

(** * What a poll returns *)
Lemma query_same {W X} (body : ros_context -> Z * option X) (d : ros_context) (w : W) :
  snd (query body (fun d => d) (d, w)) = (d, w).
Proof.
  unfold query, lock, own, change, unlock, bind, ret. cbn [fst snd]. destruct (negb _); [done|]. destruct (Z.eqb_spec (co_gate d) 0) as [E|]; [|done].
  cbn [negb Z.eqb ROS_OK fst snd]. destruct (body _) as [rc out]. cbn. destruct (rc =? 0), d; cbn in *; by rewrite E.
Qed.
Lemma query_result {W X} (body : ros_context -> Z * option X) after d (w : W) x s :
  query body after (d, w) = ((0, x), s) -> exists d', aside d d' /\ body d' = (0, x).
Proof.
  unfold query, lock, own, change, unlock, bind, ret. cbn [fst snd]. destruct (negb _); [done|]. destruct (co_gate d =? 0); [|done].
  cbn [negb Z.eqb ROS_OK fst snd]. destruct (body _) as [rc out] eqn:E. intros [= -> <- _]. cbn in *.
  eexists. split; [apply aside_gate|exact E].
Qed.
Lemma wp_ask {W X} (body : ros_context -> Z * option X) (Q : Z * option X -> rsb_context * (ros_context * W) -> Prop) c s :
  (forall rc x, (rc = 0 -> exists d', aside (fst s) d' /\ body d' = (0, x)) -> Q (rc, x) (c, s)) ->
  wp (store (query body (fun d => d))) Q (c, s).
Proof.
  intros HQ. destruct s as [d w]. unfold store. apply wp_call. intros [rc x] s' E.
  pose proof (query_same body d w) as Hs. rewrite E in Hs. cbn in Hs. subst s'. apply HQ. intros ->. by eapply query_result.
Qed.

(** The receipt of a container that is well formed for a segment is one the
    pipeline accepts for that segment. *)
Lemma receipt_accepted d b : container_shape_ok d = true -> rs_identity (co_segment d) = b ->
  receipt_durable (SegmentReceipt 1 (slice 0 128 (co_container d))) b = true.
Proof.
  unfold container_shape_ok, es_container_validate. destruct (_ || _); [done|]. destruct (negb _); [done|].
  destruct (es_header_validate _ _ _) eqn:E; [|done|done]. intros _ Eb. apply es_header_validate_inv in E as (? & ? & [= <-] & [= <-] & _ & Hv & _ & Hm).
  cbn [deref] in *. rewrite Eb in *. unfold receipt_durable, es_header_validate. cbn [sr_durable sr_es_header deref].
  change (es_valid (Some (Obj 256 b))) with (es_valid (Some (Obj 0x100000 b))). rewrite Hv. cbn [negb orb Z.eqb Pos.eqb andb ES_HEADER_BYTES poverlap addr].
  assert (Hpre : es_matches (co_container d) b = es_matches (slice 0 128 (co_container d)) b)
    by (unfold es_matches, get_be; rewrite !slice_slice by lia; reflexivity).
  by rewrite <- Hpre, Hm.
Qed.

Lemma same_binding_eq a b : same_binding a b = true -> a = b.
Proof.
  unfold same_binding, same_bytes. rewrite !andb_true_iff, !Z.eqb_eq, !bool_decide_eq_true. destruct a, b. cbn. intuition congruence.
Qed.

Section Polling.
Context {W : Type} (port : ros_port W) (clock : W -> (Z * bool) * W) (self ca local : Z).
Abbreviation S := (ros_context * (list event * W))%type.
Abbreviation BS := (rsb_context * S)%type.
Abbreviation clk := (tclock clock).
Implicit Types (c : rsb_context) (d : ros_context) (t : list event) (w : W).

Lemma wp_take_gate (Q : Z -> BS -> Prop) c s :
  Q RSB_ARGUMENT (c, s) -> Q RSB_BUSY (c, s) -> (br_gate c = 0 -> Q 0 (c <| br_gate := 1 |>, s)) -> wp take_gate Q (c, s).
Proof.
  intros H1 H2 HQ. unfold take_gate. apply wp_own. wp_step; [by apply wp_ret|]. wp_step; [|by apply wp_ret].
  apply wp_bind, wp_change, wp_ret, HQ. by apply Z.eqb_eq.
Qed.
Lemma wp_admission deadline (Q : Z -> BS -> Prop) c d t w :
  (forall rc c' w', rc <> 0 -> Q rc (c', (d, (t, w')))) -> (forall c' w', ticked c c' -> Q 0 (c', (d, (t, w')))) ->
  wp (admission clk deadline) Q (c, (d, (t, w))).
Proof.
  intros Hf HQ. unfold admission. apply wp_bind, (wp_now clock). intros n c' w' Ht. apply wp_own.
  wp_step; [apply wp_failed; intros; by apply Hf|]. apply wp_bind, wp_change. apply (wp_bguard clock); [intros; by apply Hf|].
  intros c2 w2 Ht2 _. apply HQ. destruct Ht as (? & ? & ->), Ht2 as (n2 & k2 & ->). by exists n2, k2.
Qed.

(** What a poll that ends well has found. *)
Definition proved_durable (b : ptr es_binding) d t (r : rp_segment_receipt) : Prop :=
  exists bo pre intent commit, b = Some bo /\ receipt_durable r (deref bo) = true /\
    rs_identity (co_segment d) = deref bo /\ t = pre ++ committed d intent commit /\
    catalog_of d SLOT_INTENT intent /\ catalog_of d SLOT_COMMIT commit /\ slot_state d (rs_slot (co_segment d)) = SLOT_COMMIT.
Definition answered (b : ptr es_binding) d t (x : Z * option rp_segment_receipt) (_ : BS) : Prop :=
  fst x = IO_OK -> exists r, snd x = Some r /\ proved_durable b d t r.
Lemma answered_uncertain b d t r rc c s :
  wp (do rc <- uncertain rc; ret (rc, r)) (answered b d t) (c, s).
Proof. apply wp_bind, wp_uncertain. intros c' _. by apply wp_ret. Qed.
(** The last part of a poll: the receipt is taken, in time. *)
Lemma wp_collect bo deadline c d t w : store_inv (d, (t, w)) -> holds (deref bo) d -> st_fault (co_status d) = 0 ->
  wp (do r <- store (ros_take_segment_receipt ca (Some (Obj local zero_segment_receipt)));
      do bad <- either (ret (negb (fst r =? 0)))
        (either (nonzero (guard clk deadline)) (own (fun c => nonzero (guard clk (br_job_deadline c)))));
      if bad then do rc <- uncertain (fst r); ret (rc, Some zero_segment_receipt) else
      run change no_pending;
      do rc <- leave IO_OK; ret (rc, match snd r with Some receipt => Some receipt | None => Some zero_segment_receipt end))
    (answered (Some bo) d t) (c, (d, (t, w))).
Proof.
  intros Hinv Hd Ef. unfold either, nonzero. apply wp_bind. unfold store at 1. apply wp_call. intros [rc x] s' Et. cbn [fst snd].
  apply wp_bind, wp_bind, wp_ret.
  destruct (Z.eqb_spec rc 0) as [->|]. 2: { cbn [negb]. apply wp_ret. destruct s' as [d' [t' w']]. apply answered_uncertain. }
  assert (Hr : exists r, x = Some r).
  { apply query_result in Et as (d1 & _ & Eb). destruct (negb _) in Eb; [done|]. destruct (negb _) in Eb; [done|]. injection Eb as <-. eauto. }
  destruct Hr as [r ->].
  assert (Hp : proved_durable (Some bo) d t r).
  { destruct (take_receipt_inv _ _ _ _ _ _ _ Hinv Et) as (pre & intent & commit & E3 & E4 & E5 & E6 & _ & -> & E7).
    destruct Hd as [?|[_ Hd]]; [done|]. exists bo, pre, intent, commit. split_and!; try done. by apply receipt_accepted. }
  clear Et. cbn [negb Z.eqb]. destruct s' as [d' [t' w']]. apply wp_bind, wp_bind, (wp_bguard clock); intros c5 w5.
  { intros _. apply wp_ret. cbn [negb Z.eqb Pos.eqb RSB_FAILED]. apply wp_ret, wp_bind, wp_uncertain. intros ? _. by apply wp_ret. }
  intros _ _. apply wp_ret. cbn [negb Z.eqb]. apply wp_own, wp_bind, (wp_bguard clock); intros c6 w6.
  { intros _. apply wp_ret. cbn [negb Z.eqb Pos.eqb RSB_FAILED]. apply answered_uncertain. }
  intros _ _. apply wp_ret. cbn [negb Z.eqb]. apply wp_bind, wp_change, wp_bind, wp_leave, wp_ret. intros _. by exists r.
Qed.

Lemma wp_rsb_poll b out deadline c d t w : linked (c, (d, (t, w))) ->
  wp (rsb_poll clk self ca local b out deadline)
    (answered b d t) (c, (d, (t, w))).
Proof.
  intros [Hinv Hl]. cbn [fst snd] in Hinv, Hl. unfold rsb_poll. apply wp_own. destruct b as [bo|]; [|by apply wp_ret].
  wp_step; [by apply wp_ret|]. clear C. cbv zeta. apply wp_bind, wp_take_gate; [by apply wp_ret..|].
  intros _. cbn [negb Z.eqb]. unfold either, nonzero, cond. apply wp_bind, wp_bind, wp_own, wp_ret.
  match goal with |- context [if ?x then _ else _] => destruct x eqn:E end.
  { apply wp_ret. apply answered_uncertain. }
  apply orb_false_iff in E as [E1%negb_false_iff%Z.eqb_eq E2%negb_false_iff%same_binding_eq]. cbn in E1, E2.
  assert (Hd : holds (deref bo) d) by (rewrite E2; auto). clear Hl.
  assert (Hno : forall (m : M BS Z) c1 w1, wp m (fun rc _ => rc <> IO_OK) (c1, (d, (t, w1))) ->
    wp (do rc <- m; ret (rc, Some zero_segment_receipt))
      (answered (Some bo) d t) (c1, (d, (t, w1)))).
  { intros m c1 w1 H. apply wp_bind. eapply wp_mono; [exact H|]. intros rc s Hrc. apply wp_ret. by intros ?. }
  assert (Hun : forall rc c1 w1, wp (uncertain rc) (fun rc _ => rc <> IO_OK) (c1, (d, (t, w1)))) by (intros; by apply wp_uncertain).
  assert (Hle : forall rc c1 w1, rc <> IO_OK -> wp (leave rc) (fun rc _ => rc <> IO_OK) (c1, (d, (t, w1)))) by (intros; by apply wp_leave).
  apply wp_bind, wp_bind, wp_admission.
  { intros rc c1 w1 Hrc. apply Z.eqb_neq in Hrc. apply wp_ret. rewrite Hrc. cbn [negb]. apply wp_ret. cbn. by apply Hno. }
  intros c1 w1 _. apply wp_ret. cbn [negb Z.eqb]. apply wp_own, wp_bind, (wp_bguard clock); intros c2 w2.
  { intros _. apply wp_ret. cbn [negb Z.eqb Pos.eqb RSB_FAILED]. by apply Hno. }
  intros _ _. apply wp_ret. cbn [negb Z.eqb]. unfold status_of. apply wp_bind, wp_ask. intros rc x Hx. cbn [fst] in Hx.
  apply wp_bind, wp_bind, wp_bind, (wp_bguard clock); intros c3 w3.
  { intros _. apply wp_ret. cbn [negb Z.eqb Pos.eqb RSB_FAILED]. apply wp_ret. by apply Hno, Hle. }
  intros _ _. apply wp_ret. cbn [negb Z.eqb]. apply wp_own, wp_bind, (wp_bguard clock); intros c4 w4.
  { intros _. apply wp_ret. cbn [negb Z.eqb Pos.eqb RSB_FAILED]. by apply Hno, Hle. }
  intros _ _. apply wp_ret. cbn [negb Z.eqb]. destruct rc as [|rc|rc]; [|by apply Hno..]. destruct x as [s|]; [|by apply Hno].
  destruct (Hx eq_refl) as (d1 & Ha & Eb). clear Hx. assert (Es : s = co_status d).
  { destruct (negb _) in Eb; [done|]. injection Eb as <-. by destruct Ha as (? & ? & ->). }
  clear Eb Ha d1. subst s. wp_step; [by apply Hno|]. apply orb_false_iff in C as [Ef%negb_false_iff%Z.eqb_eq _].
  wp_step; [by apply Hno, Hle|]. apply wp_collect; [by eapply store_inv_world|done|done].
Qed.
End Polling.

(** C5. A poll that answers OK has a durable segment in hand: in whatever state
    the callers of the bridge (the codec worker, the storage worker, a canceller,
    and the calls the gate turned away) have brought it, the receipt it returns
    is one the pipeline accepts for exactly the binding that was polled, and the
    last thing the store did to the backend was to write, sync, and read back
    every page of that segment and of its two catalog pages. *)
Theorem rsb_poll_durable {W} (port : ros_port W) opus clock self ca local os bs c d t w b out deadline r s' :
  bridged port opus clock self ca local os bs c d t ->
  rsb_poll (tclock clock) self ca local b out deadline (c, (d, (t, w))) = ((IO_OK, Some r), s') -> proved_durable b d t r.
Proof.
  intros H E. apply bridged_linked with (w := w) in H.
  destruct (wp_elim _ _ _ _ _ (wp_rsb_poll clock self ca local b out deadline c d t w H) E eq_refl) as (r' & [= <-] & Hp). exact Hp.
Qed.

(** * A job ends *)
Section Advancing.
Context {W : Type} (port : ros_port W) (clock : W -> (Z * bool) * W).
Abbreviation BS := (rsb_context * (ros_context * (list event * W)))%type.
(** The storage worker advances until the job is no longer under way. *)
Fixpoint advance_job (n : nat) : M BS Z :=
  match n with
  | O => ret RSB_PENDING
  | Datatypes.S n => do rc <- rsb_advance (logged port) (tclock clock); if rc =? RSB_PENDING then advance_job n else ret rc
  end.
Lemma ros_step_faulted d (x : list event * W) : st_fault (co_status d) <> 0 -> fst (ros_step (logged port) (d, x)) <> ROS_PENDING.
Proof.
  intros Hf. destruct x as [t w]. assert (H : wp (ros_step (logged port)) (fun rc _ => rc <> ROS_PENDING) (d, (t, w))); [|exact H].
  apply wp_locked; [done|done|]. apply wp_own. change (co_status (gated d)) with (co_status d).
  rewrite (proj2 (Z.eqb_neq _ _) Hf). by apply wp_ret.
Qed.
Definition nearer c d (rc : Z) (s : BS) : Prop :=
  rc = RSB_PENDING -> br_state c = RSB_STORING /\ st_fault (co_status d) = 0 /\ 0 <= measure (fst (snd s)) < measure d.
Lemma wp_advance c d t w : store_inv (d, (t, w)) ->
  wp (rsb_advance (logged port) (tclock clock)) (nearer c d) (c, (d, (t, w))).
Proof.
  intros Hi. unfold rsb_advance. apply wp_on_ok, wp_take_gate; [done..|]. intros _. cbn [Z.eqb]. apply wp_own.
  wp_step; [by apply wp_leave|]. apply negb_false_iff, Z.eqb_eq in C. change (br_state (_ <| br_gate := 1 |>)) with (br_state c) in C.
  unfold nonzero. apply wp_bind, wp_bind, (wp_bguard clock); intros c1 w1; [intros _; apply wp_ret; by apply wp_leave|].
  intros _ _. apply wp_ret. cbn [negb Z.eqb]. apply (store_inv_world d t w w1) in Hi.
  apply wp_bind. unfold store at 1. apply wp_call. intros rc [d' [t' w']] E.
  assert (Hs : step_post d rc (d', (t', w'))) by exact (wp_elim _ _ _ _ _ (wp_ros_step port d t w1 Hi) E).
  assert (Hf : rc = ROS_PENDING -> st_fault (co_status d) = 0).
  { intros ->. destruct (decide (st_fault (co_status d) = 0)) as [|Hf]; [done|]. apply (ros_step_faulted d (t, w1)) in Hf. by rewrite E in Hf. }
  clear E Hi. apply wp_bind, wp_bind, (wp_bguard clock); intros c2 w2; [intros _; apply wp_ret; by apply wp_leave|].
  intros _ _. apply wp_ret. cbn [negb Z.eqb]. wp_step; [apply wp_bind, wp_failed; intros c3 _; by apply wp_leave|].
  apply wp_leave. destruct (Z.eqb_spec rc ROS_READY); [done|]. intros _. apply andb_false_iff in C0 as [C0|C0]; [|done].
  apply negb_false_iff, Z.eqb_eq in C0. destruct Hs as [_ Hs]. split_and!; [done|by apply Hf|by apply Hs..].
Qed.
Definition RSB_ADVANCES : Z := 61.
Lemma wp_advance_job n c d t w : linked (c, (d, (t, w))) -> (Z.to_nat (measure d) < n)%nat ->
  wp (advance_job n) (fun rc _ => rc <> RSB_PENDING) (c, (d, (t, w))).
Proof.
  revert c d t w. induction n as [|n IH]; intros c d t w Hl Hn; [lia|]. cbn [advance_job]. apply wp_bind.
  assert (Hl' := tied_rsb_advance port clock _ Hl). apply wp_intro. intros rc [c' [d' [t' w']]] E. rewrite E in Hl'.
  assert (Hm := wp_elim _ _ _ _ _ (wp_advance c d t w (proj1 Hl)) E). destruct (Z.eqb_spec rc RSB_PENDING) as [->|]; [|by apply wp_ret].
  destruct (Hm eq_refl) as (_ & _ & H). cbn [fst snd] in H. apply IH; [done|lia].
Qed.
End Advancing.

(** C17. A submitted segment's job is over within 61 calls of [rsb_advance],
    whatever the backend answers and however the clock runs: the storage worker,
    calling it until it answers other than "pending", always comes to an answer
    (ready, or refused, or failed). *)
Theorem rsb_advance_ends {W} (port : ros_port W) opus clock self ca local os bs c d t w :
  bridged port opus clock self ca local os bs c d t ->
  fst (advance_job port clock (Z.to_nat RSB_ADVANCES) (c, (d, (t, w)))) <> RSB_PENDING.
Proof.
  intros H. apply bridged_linked with (w := w) in H. change (Z.to_nat RSB_ADVANCES) with (Datatypes.S 60). cbn [advance_job]. unfold bind at 1.
  assert (Hl' := tied_rsb_advance port clock _ H). destruct (rsb_advance _ _ _) as [rc [c' [d' [t' w']]]] eqn:E.
  assert (Hm := wp_elim _ _ _ _ _ (wp_advance port clock c d t w (proj1 H)) E). destruct (Z.eqb_spec rc RSB_PENDING) as [->|]; [|done].
  destruct (Hm eq_refl) as (Es & Ef & Hlt). apply (wp_advance_job port clock 60); [done|]. cbn [fst snd] in *.
  destruct H as [Hi Hh]. destruct (store_inv_cases _ _ _ Hi Ef) as [[] _]. destruct (Hh Es) as [?|[Hj _]]; [done|]. cbn [fst snd] in Hj.
  assert (Hb : measure d <= 60); [|lia]. unfold measure. rewrite Hj. cbn [Z.eqb Pos.eqb ROS_SEGMENT]. unfold segment_left.
  repeat destruct (Z.eqb _ _); lia.
Qed.

(** * A fault is final *)
(** The calls that may answer OK after a fault. *)
Fixpoint reports (o : rsb_op) : Prop :=
  match o with RsbCancel | RsbGetStatus _ => True | RsbContended o => reports o | _ => False end.
Section Faulted.
Context {W : Type} (port : ros_port W) (opus : opus_parser) (clock : W -> (Z * bool) * W) (self ca local : Z).
Abbreviation BS := (rsb_context * (ros_context * (list event * W)))%type.
Definition dead (c : rsb_context) : Prop := br_initialized c = RSB_MAGIC /\ br_state c = RSB_FAULT.
(** Nothing has changed but the bridge's gate, error and cancellation. *)
Definition still (o : rsb_op) (s0 : ros_context * (list event * W)) (rc : Z) (s : BS) : Prop :=
  snd s = s0 /\ dead (fst s) /\ (rc = RSB_OK -> reports o).
Lemma wp_refused {X} f (m : M BS bool) (k : bool -> M BS X) Q c s : f c = true -> wp (k true) Q (c, s) ->
  wp (bind (either (cond f) m) k) Q (c, s).
Proof. intros E H. unfold either, cond. apply wp_bind, wp_bind, wp_own, wp_ret. rewrite E. by apply wp_ret. Qed.
Lemma gate_state c g : br_state (c <| br_gate := g |>) = br_state c.
Proof. done. Qed.
Ltac dead_run Hs :=
  repeat match goal with
    | |- wp (bind (either (cond _) _) _) _ _ => apply wp_refused; [by cbn; rewrite Hs, ?orb_true_r|]
    | |- wp take_gate _ _ => apply wp_take_gate; [| |intros _]
    | |- wp (bind _ _) _ _ => apply wp_bind
    | |- wp (on_ok _ _) _ _ => apply wp_on_ok
    | |- wp (ret _) _ _ => apply wp_ret
    | |- wp (change _) _ _ => apply wp_change
    | |- wp (own _) _ _ => apply wp_own
    | |- wp (leave _) _ _ => unfold leave
    | |- wp (uncertain _) _ _ => unfold uncertain
    | |- wp (failed _) _ _ => unfold failed
    | |- wp (if negb (_ =? 0) then _ else _) _ _ => progress cbn [negb Z.eqb Pos.eqb RSB_BUSY RSB_ARGUMENT]
    | |- wp (if ?x =? 0 then _ else _) _ _ => progress cbn [negb Z.eqb Pos.eqb RSB_BUSY RSB_ARGUMENT]
    | |- if _ =? 0 then _ else _ => progress cbn [Z.eqb Pos.eqb RSB_BUSY RSB_ARGUMENT]
    | |- wp (if _ then _ else _) _ _ =>
        first [rewrite gate_state, Hs; cbn [orb andb negb Z.eqb Pos.eqb RSB_FAULT RSB_IDLE RSB_COMPLETE RSB_STORING]|wp_step]
    | |- wp (match ?x with _ => _ end) _ _ => destruct x
    | |- still _ _ _ _ => by split_and!
    | |- wp _ _ _ => progress cbv beta zeta
    end.
Lemma run_rsb_dead o c s : dead c -> wp (run_rsb port opus clock self ca local o) (still o s) (c, s).
Proof.
  revert c. induction o; intros c Hd; cbn [run_rsb]; assert (Hm := proj1 Hd); assert (Hs := proj2 Hd).
  - unfold rsb_init. apply wp_own. rewrite Hm, orb_true_r. by apply wp_ret.
  - unfold rsb_init_deferred_seal, rsb_init. apply wp_bind, wp_own. rewrite Hm, orb_true_r. by apply wp_ret.
  - unfold rsb_select. dead_run Hs.
  - unfold rsb_cancel. dead_run Hs.
  - unfold rsb_capacity. dead_run Hs.
  - unfold rsb_reserve. dead_run Hs.
  - unfold rsb_submit. dead_run Hs.
  - unfold rsb_advance. dead_run Hs.
  - unfold rsb_poll. dead_run Hs.
  - unfold rsb_finalize. dead_run Hs.
  - unfold rsb_get_status. dead_run Hs.
  - apply wp_bind, wp_change, wp_bind. eapply wp_mono; [by apply IHo|]. intros rc [c' s'] (E & [H1 H2] & H3).
    apply wp_bind, wp_change, wp_ret. by split_and!.
Qed.
End Faulted.

(** C18. A fault of the bridge is final: from then on no call of any actor
    touches the store or its backend, the fault stays, and every call but
    cancelling and reading the status is refused. *)
Theorem rsb_fault_final {W} (port : ros_port W) opus clock self ca local o c d t w rc c' d' t' w' :
  br_initialized c = RSB_MAGIC -> br_state c = RSB_FAULT ->
  run_rsb port opus clock self ca local o (c, (d, (t, w))) = (rc, (c', (d', (t', w')))) ->
  d' = d /\ t' = t /\ br_state c' = RSB_FAULT /\ (rc = RSB_OK -> reports o).
Proof.
  intros Hm Hs E.
  destruct (wp_elim _ _ _ _ _ (run_rsb_dead port opus clock self ca local o c (d, (t, w)) (conj Hm Hs)) E) as ([= <- <- _] & [_ H2] & H3).
  by split_and!.
Qed.

(** * A concrete run: a reservation, a segment submitted, stored and polled *)
Definition bridge_recovered : list ros_op := [OpRecover 2000] ++ demo_steps 12 ++ [OpFinish].
Definition bridge_clock : list (Z * bytes) -> (Z * bool) * list (Z * bytes) := fun w => ((1000, false), w).
Definition bridge_segment : ptr es_binding := Some (Obj 400000 (demo_binding 0)).
Definition bridge_out : ptr rp_segment_receipt := Some (Obj 500000 zero_segment_receipt).
Definition bridge_submitted : list rsb_op :=
  [RsbInitDeferredSeal true; RsbSelect (Some (Obj 400000 demo_session)) RP_MANUAL 0;
   RsbReserve (Some (Obj 400000 demo_session)) 2000; RsbContended RsbAdvance;
   RsbSubmit bridge_segment (Some (Obj 600000 (demo_plain 0))) 216 bridge_out 2000].
Definition bridge_stored : list rsb_op := bridge_submitted ++ [RsbPoll bridge_segment bridge_out 2000] ++ repeat RsbAdvance 12.
Definition bridge_state (bs : list rsb_op) : rsb_context * (ros_context * (list event * list (Z * bytes))) :=
  snd (run_rsbs demo_port demo_opus bridge_clock 200000 0 300000 bs (zero_rsb, demo_state bridge_recovered)).
Definition bridge_poll := rsb_poll (tclock bridge_clock) 200000 0 300000 bridge_segment bridge_out 2000 (bridge_state bridge_stored).
Lemma bridge_reached bs : bridged demo_port demo_opus bridge_clock 200000 0 300000 bridge_recovered bs
  (fst (bridge_state bs)) (fst (snd (bridge_state bs))) (fst (snd (snd (bridge_state bs)))).
Proof.
  pose proof (demo_reached bridge_recovered) as Hr. unfold bridge_state. destruct (demo_state bridge_recovered) as [d [t w]] eqn:E.
  exists d, t, w, (snd (snd (snd (snd (run_rsbs demo_port demo_opus bridge_clock 200000 0 300000 bs (zero_rsb, (d, (t, w)))))))).
  split; [exact Hr|]. by destruct (run_rsbs _ _ _ _ _ _ _ _) as [[] [c' [d' [t' w']]]].
Qed.
Lemma rsb_poll_durable_witness : exists r c d t, snd (fst bridge_poll) = Some r /\
  bridge_state bridge_stored = (c, (d, t)) /\ proved_durable bridge_segment d (fst t) r.
Proof.
  assert (H : fst (fst bridge_poll) = IO_OK /\ match snd (fst bridge_poll) with Some _ => True | None => False end) by (by vm_compute).
  pose proof (bridge_reached bridge_stored) as Hr. unfold bridge_poll in *. destruct (bridge_state bridge_stored) as [c [d [t w]]].
  destruct (rsb_poll _ _ _ _ _ _ _ _) as [[rc [r|]] s'] eqn:E; destruct H as [H1 H2]; [|done]. cbn [fst snd] in *. subst rc.
  exists r, c, d, (t, w). split_and!; [done|done|].
  exact (rsb_poll_durable demo_port demo_opus _ _ _ _ _ _ _ _ _ _ _ _ _ _ _ Hr E).
Defined.
Lemma rsb_advance_ends_witness :
  fst (advance_job demo_port bridge_clock (Z.to_nat RSB_ADVANCES) (bridge_state bridge_submitted)) <> RSB_PENDING.
Proof.
  pose proof (bridge_reached bridge_submitted) as Hr. destruct (bridge_state bridge_submitted) as [c [d [t w]]].
  exact (rsb_advance_ends demo_port demo_opus _ _ _ _ _ _ _ _ _ w Hr).
Defined.
(** A submission past its deadline; then nothing more is stored. *)
Definition bridge_late : list rsb_op := bridge_submitted ++ [RsbPoll bridge_segment bridge_out 1000].
Definition bridge_after := run_rsb demo_port demo_opus bridge_clock 200000 0 300000 RsbAdvance (bridge_state bridge_late).
Lemma rsb_fault_final_witness : exists c d t w c' d' t' w',
  bridge_state bridge_late = (c, (d, (t, w))) /\ bridge_after = (RSB_STATE, (c', (d', (t', w')))) /\ d' = d /\ t' = t.
Proof.
  assert (H : br_initialized (fst (bridge_state bridge_late)) = RSB_MAGIC /\ br_state (fst (bridge_state bridge_late)) = RSB_FAULT /\
    fst bridge_after = RSB_STATE) by (by vm_compute).
  unfold bridge_after in *. destruct (bridge_state bridge_late) as [c [d [t w]]].
  destruct (run_rsb _ _ _ _ _ _ _ _) as [rc [c' [d' [t' w']]]] eqn:E. destruct H as (H1 & H2 & H3). cbn [fst snd] in *. subst rc.
  destruct (rsb_fault_final _ _ _ _ _ _ _ _ _ _ _ _ _ _ _ _ H1 H2 E) as (E1 & E2 & _ & _).
  exists c, d, t, w, c', d', t', w'. by split_and!.
Defined.
