(* ===== verification/HostPermit.v ===== *)
(** The trusted-host permit ([host_permit.c/.h]): one frozen offer per boot, and
    one consumption of it.  The snapshot callback is a parameter over a world
    [W]; a call made while the gate is held (recursively, from the callback, or
    concurrently) fails in [lock] without changing the permit, so calls are
    atomic steps. *)
From S2P Require Import Prelude Wp.

Definition HP_OFFER_MS : Z := 30000.
Definition HP_MAGIC : Z := 0x48504d31.

Record hp_binding := HpBinding { hb_device : bytes; hb_transaction : bytes; hb_record_digest : bytes }.
Record hp_view := HpView {
  hv_now : Z; hv_epoch : Z; hv_allowed : Z; hv_command_busy : Z; hv_task : Z; hv_running : Z; hv_used : Z
}.
Record hp_offer := HpOffer { ho_binding : hp_binding; ho_issued : Z; ho_expires : Z; ho_epoch : Z }.
#[export] Instance hp_binding_eq : EqDecision hp_binding.
Proof. solve_decision. Defined.

Definition sizeof_hp_binding : Z := 64.
Definition sizeof_hp_port : Z := 8.
Definition sizeof_hp_offer : Z := 88.
Definition sizeof_host_permit : Z := 192.

Section Permit.
Context {W : Type}.

(** The snapshot callback: its return code and the view it wrote. *)
Record hp_port := HpPort { hp_snapshot : option (W -> (Z * hp_view) * W) }.

Record host_permit := HostPermit {
  hp_gate : Z; hp_magic : Z; hp_offered : Z; hp_consumed : Z; hp_fault : Z; hp_last : Z;
  hp_bound : hp_binding; hp_port_of : hp_port; hp_offer_of : hp_offer
}.
#[export] Instance eta_host_permit : Eta host_permit := fun p =>
  HostPermit (hp_gate p) (hp_magic p) (hp_offered p) (hp_consumed p) (hp_fault p) (hp_last p)
    (hp_bound p) (hp_port_of p) (hp_offer_of p).

Definition empty_binding : hp_binding := HpBinding (fill 16 0) (fill 16 0) (fill 32 0).
Definition empty_offer : hp_offer := HpOffer empty_binding 0 0 0.
(** The externally zeroed owner. *)
Definition zero_permit : host_permit := HostPermit 0 0 0 0 0 0 empty_binding (HpPort None) empty_offer.

Definition separate {A B} (a : ptr A) (n : Z) (b : ptr B) (m : Z) : bool :=
  match a, b with
  | Some a, Some b =>
      (n <=? UINTPTR_MAX - addr a) && (m <=? UINTPTR_MAX - addr b) &&
      ((addr a + n <=? addr b) || (addr b + m <=? addr a))
  | _, _ => false
  end.
Definition non_sentinel (p : bytes) : bool := identity p.

Definition S : Type := host_permit * W.
Definition permit_upd (f : host_permit -> host_permit) : M S unit := upd (fun '(p, w) => (f p, w)).
Definition permit {A} (k : host_permit -> M S A) : M S A := bind get (fun s => k (fst s)).

(** [lock]: false when the gate is held. *)
Definition lock : M S bool :=
  permit (fun p =>
    if hp_gate p =? 0 then run permit_upd (fun p => p <| hp_gate := 1 |>); ret true else ret false).
Definition finish (rc : Z) : M S Z :=
  run permit_upd (fun p => (if rc =? 0 then p else p <| hp_fault := 1 |>) <| hp_gate := 0 |>); ret rc.

(** [view]: [None] when it returns -1. *)
Definition view : M S (option hp_view) :=
  permit (fun p =>
    match hp_snapshot (hp_port_of p) with
    | None => ret None
    | Some snapshot =>
        do r <- (fun '(p, w) => let '(r, w) := snapshot w in (r, (p, w)));
        let '(rc, v) := r in
        if negb (rc =? 0) || negb (hv_allowed v =? 1) || negb (hv_command_busy v =? 1) ||
           (hv_epoch v =? 0) || (0x7fffffff <? hv_epoch v) || (hv_now v <? hp_last p)
        then ret None
        else run permit_upd (fun p => p <| hp_last := hv_now v |>); ret (Some v)
    end).

Definition hp_init (p : obj host_permit) (b : ptr hp_binding) (port : ptr hp_port) (lock_free : bool)
  : Z * host_permit :=
  match b, port with
  | Some bo, Some po =>
      if negb (separate (Some p) sizeof_host_permit b sizeof_hp_binding) ||
         negb (separate (Some p) sizeof_host_permit port sizeof_hp_port) ||
         negb (hp_magic (deref p) =? 0) || negb (hp_fault (deref p) =? 0) ||
         match hp_snapshot (deref po) with None => true | Some _ => false end ||
         negb (non_sentinel (hb_device (deref bo))) || negb (non_sentinel (hb_transaction (deref bo))) ||
         negb (non_sentinel (hb_record_digest (deref bo)))
      then (-1, deref p)
      else if negb lock_free then (-1, zero_permit <| hp_fault := 1 |>)
      else (0, zero_permit <| hp_bound := deref bo |> <| hp_port_of := deref po |> <| hp_magic := HP_MAGIC |>)
  | _, _ => (-1, deref p)
  end.

(** Not yet in use: no task, not running, nothing consumed. *)
Definition view_unused (v : hp_view) : bool := (hv_task v =? 0) && (hv_running v =? 0) && (hv_used v =? 0).
(** Active Task11, once. *)
Definition view_active (v : hp_view) : bool := (hv_task v =? 11) && (hv_running v =? 1) && (hv_used v =? 1).

(** [pa]: the address of the permit.  The offer is returned with a zero code. *)
Definition hp_get_offer (pa : Z) (out : ptr hp_offer) : M S (Z * option hp_offer) :=
  permit (fun p0 =>
    if negb (separate (Some (Obj pa tt)) sizeof_host_permit out sizeof_hp_offer) || negb (hp_magic p0 =? HP_MAGIC)
    then ret (-1, None) else
    do locked <- lock;
    if negb locked then ret (-1, None) else
    let refused := run finish (-1); ret (-1, None) in
    permit (fun p =>
      if negb (hp_fault p =? 0) || negb (hp_consumed p =? 0) then refused else
      do v <- view;
      match v with
      | None => refused
      | Some v =>
          if negb (view_unused v) || (UINT64_MAX - HP_OFFER_MS <? hv_now v) then refused else
          let offer := if negb (hp_offered p =? 0) then hp_offer_of p
                       else HpOffer (hp_bound p) (hv_now v) (hv_now v + HP_OFFER_MS) (hv_epoch v) in
          if negb (hv_epoch v =? ho_epoch offer) || (ho_expires offer <=? hv_now v) then refused else
          do w <- view;
          match w with
          | None => refused
          | Some w =>
              if negb (view_unused w) || negb (hv_epoch w =? ho_epoch offer) || (ho_expires offer <=? hv_now w)
              then refused
              else run permit_upd (fun p => p <| hp_offer_of := offer |> <| hp_offered := 1 |>);
                   run finish 0; ret (0, Some offer)
          end
      end)).

Definition hp_consume (pa : Z) (transaction digest : ptr bytes) (epoch d : Z) : M S Z :=
  permit (fun p0 =>
    if negb (separate (Some (Obj pa tt)) sizeof_host_permit transaction 16) ||
       negb (separate (Some (Obj pa tt)) sizeof_host_permit digest 32) || negb (hp_magic p0 =? HP_MAGIC)
    then ret (-1) else
    do locked <- lock;
    if negb locked then ret (-1) else
    permit (fun p =>
      if negb (hp_consumed p =? 0) then finish (-1) else
      run permit_upd (fun p => p <| hp_consumed := 1 |>);
      match transaction, digest with
      | Some tr, Some dg =>
          if negb (hp_fault p =? 0) || (hp_offered p =? 0) ||
             negb (bool_decide (slice 0 16 (deref tr) = hb_transaction (hp_bound p))) ||
             negb (bool_decide (slice 0 32 (deref dg) = hb_record_digest (hp_bound p))) ||
             negb (epoch =? ho_epoch (hp_offer_of p)) || (d =? 0)
          then finish (-1) else
          let acceptable v :=
            (hv_epoch v =? epoch) && view_active v && (hv_now v <? d) && (hv_now v <? ho_expires (hp_offer_of p)) in
          do v <- view;
          match v with
          | None => finish (-1)
          | Some v =>
              if negb (acceptable v) then finish (-1) else
              do w <- view;
              match w with
              | None => finish (-1)
              | Some w => if negb (acceptable w) then finish (-1) else finish 0
              end
          end
      | _, _ => finish (-1)
      end)).

(** * Sequences of calls *)
Inductive hp_call :=
| CallOffer (out : ptr hp_offer)
| CallConsume (transaction digest : ptr bytes) (epoch d : Z).
Inductive hp_outcome :=
| Offered (o : hp_offer)
| Consumed (transaction digest : bytes) (epoch d now : Z)
| Refused.

Definition hp_step (pa : Z) (c : hp_call) : M S hp_outcome :=
  match c with
  | CallOffer out =>
      do r <- hp_get_offer pa out;
      ret (match r with (_, Some o) => Offered o | _ => Refused end)
  | CallConsume tr dg epoch d =>
      do rc <- hp_consume pa tr dg epoch d;
      match tr, dg with
      | Some tr, Some dg =>
          permit (fun p => ret (if rc =? 0
            then Consumed (slice 0 16 (deref tr)) (slice 0 32 (deref dg)) epoch d (hp_last p) else Refused))
      | _, _ => ret Refused
      end
  end.
Fixpoint hp_run (pa : Z) (cs : list hp_call) : M S (list hp_outcome) :=
  match cs with
  | [] => ret []
  | c :: cs => do o <- hp_step pa c; do os <- hp_run pa cs; ret (o :: os)
  end.

(** What a permit bound to [b] may report: every offer is the first one, lasting
    [HP_OFFER_MS]; a consumption comes after an offer, matches it, happens before
    both deadlines, and is the last success of all. *)
Fixpoint history_ok (b : hp_binding) (offer : option hp_offer) (used : bool) (os : list hp_outcome) : Prop :=
  match os with
  | [] => True
  | Refused :: os => history_ok b offer used os
  | Offered o :: os =>
      used = false /\ ho_binding o = b /\ ho_expires o = ho_issued o + HP_OFFER_MS /\
      (forall o', offer = Some o' -> o = o') /\ history_ok b (Some o) used os
  | Consumed tr dg epoch d now :: os =>
      used = false /\
      (exists o, offer = Some o /\ tr = hb_transaction b /\ dg = hb_record_digest b /\ epoch = ho_epoch o /\
         now < ho_expires o /\ now < d) /\
      history_ok b offer true os
  end.

Record permit_inv (b : hp_binding) (offer : option hp_offer) (used : bool) (p : host_permit) : Prop := {
  pi_bound : hp_bound p = b;
  pi_gate : hp_gate p = 0;
  pi_offered : hp_offered p <> 0 ->
    offer = Some (hp_offer_of p) /\ ho_binding (hp_offer_of p) = b /\
    ho_expires (hp_offer_of p) = ho_issued (hp_offer_of p) + HP_OFFER_MS;
  pi_unoffered : hp_offered p = 0 -> offer = None;
  pi_used : used = true -> hp_consumed p <> 0
}.

Lemma wp_permit {A} (k : host_permit -> M S A) Q p w : wp (k p) Q (p, w) -> wp (permit k) Q (p, w).
Proof. done. Qed.

Lemma wp_permit_upd f Q p w : Q tt (f p, w) -> wp (permit_upd f) Q (p, w).
Proof. done. Qed.

Lemma wp_finish rc Q p w :
  Q rc ((if rc =? 0 then p else p <| hp_fault := 1 |>) <| hp_gate := 0 |>, w) -> wp (finish rc) Q (p, w).
Proof. done. Qed.

(** A snapshot moves the clock only, to the time it saw. *)
Lemma wp_view (Q : option hp_view -> S -> Prop) p w :
  (forall w', Q None (p, w')) -> (forall v w', Q (Some v) (p <| hp_last := hv_now v |>, w')) ->
  wp view Q (p, w).
Proof.
  intros Hn Hs. apply wp_permit. destruct (hp_snapshot (hp_port_of p)) as [snapshot|]; [|apply Hn].
  apply wp_bind, wp_fun. destruct (snapshot w) as [[rc v] w1]. cbn [fst snd]. wp_step; [apply Hn|].
  apply wp_bind, wp_permit_upd. apply Hs.
Qed.

(** The whole effect of a call that starts with the gate free. *)
Lemma wp_lock (Q : bool -> S -> Prop) p w :
  hp_gate p = 0 -> Q true (p <| hp_gate := 1 |>, w) -> wp lock Q (p, w).
Proof. intros Hg HQ. apply wp_permit. by rewrite Hg. Qed.

Definition next_offer (offer : option hp_offer) (o : hp_outcome) : option hp_offer :=
  match o with Offered o => Some o | _ => offer end.
Definition next_used (used : bool) (o : hp_outcome) : bool :=
  match o with Consumed _ _ _ _ _ => true | _ => used end.
Definition outcome_ok (b : hp_binding) (offer : option hp_offer) (used : bool) (o : hp_outcome) : Prop :=
  match o with
  | Refused => True
  | Offered o => used = false /\ ho_binding o = b /\ ho_expires o = ho_issued o + HP_OFFER_MS /\
      (forall o', offer = Some o' -> o = o')
  | Consumed tr dg epoch d now => used = false /\
      exists o, offer = Some o /\ tr = hb_transaction b /\ dg = hb_record_digest b /\ epoch = ho_epoch o /\
         now < ho_expires o /\ now < d
  end.
(** A step that reports [o] is justified and leaves the invariant of the next. *)
Definition step_ok (b : hp_binding) (offer : option hp_offer) (used : bool) (o : hp_outcome) (s : S) : Prop :=
  permit_inv b (next_offer offer o) (next_used used o) (fst s) /\ outcome_ok b offer used o.

Ltac refused Hi := split; [|done]; destruct Hi; split; cbn in *; auto.

Lemma offer_step pa out b offer used p w :
  permit_inv b offer used p -> wp (hp_step pa (CallOffer out)) (step_ok b offer used) (p, w).
Proof.
  intros Hi. unfold hp_step. apply wp_bind. unfold hp_get_offer. apply wp_permit. cbn [fst].
  wp_step; [by split; [|]|]. apply wp_bind, wp_lock; [apply Hi|]. cbn [negb]. apply wp_permit. cbn [fst hp_fault hp_consumed field_upd].
  wp_step; [apply wp_bind, wp_finish; refused Hi|]. apply orb_false_iff in C0 as [_ Hc]. apply negb_false_iff, Z.eqb_eq in Hc.
  apply wp_bind, wp_view; [intros w1; apply wp_bind, wp_finish; refused Hi|]. intros v w1.
  wp_step; [apply wp_bind, wp_finish; refused Hi|]. cbv zeta.
  set (o := if negb (hp_offered _ =? 0) then _ else _).
  assert (Ho : ho_binding o = b /\ ho_expires o = ho_issued o + HP_OFFER_MS /\ (forall o', offer = Some o' -> o = o')).
  { destruct Hi as [Hb _ Hof Hun _]. unfold o. cbn. destruct (Z.eqb_spec (hp_offered p) 0) as [E|E]; cbn.
    - rewrite (Hun E). split_and!; [done|done|by intros].
    - destruct (Hof E) as (-> & ? & ?). split_and!; [done|done|by intros ? [= <-]]. }
  clearbody o. wp_step; [apply wp_bind, wp_finish; refused Hi|].
  apply wp_bind, wp_view; [intros w2; apply wp_bind, wp_finish; refused Hi|]. intros v2 w2.
  wp_step; [apply wp_bind, wp_finish; refused Hi|].
  apply wp_bind, wp_permit_upd, wp_bind, wp_finish. destruct Ho as (Hob & Hoe & Hoo).
  assert (Hu : used = false) by (destruct used; [by destruct (pi_used _ _ _ _ Hi eq_refl)|done]).
  split; [|by split_and!]. destruct Hi. split; cbn in *; auto; try done.
Qed.

Lemma consume_step pa tr dg epoch d b offer used p w :
  permit_inv b offer used p -> wp (hp_step pa (CallConsume tr dg epoch d)) (step_ok b offer used) (p, w).
Proof.
  intros Hi. unfold hp_step. apply wp_bind. unfold hp_consume. apply wp_permit. cbn [fst].
  wp_step; [destruct tr, dg; by split|]. destruct tr as [tr|]; [|by rewrite orb_true_l in C].
  destruct dg as [dg|]; [|by rewrite orb_true_r in C].
  apply wp_bind, wp_lock; [apply Hi|]. cbn [negb]. apply wp_permit. cbn [fst hp_consumed field_upd].
  wp_step; [apply wp_finish, wp_permit; refused Hi|]. apply negb_false_iff, Z.eqb_eq in C0.
  apply wp_bind, wp_permit_upd. cbn [hp_fault hp_offered hp_bound hp_offer_of field_upd].
  assert (Hu : used = false) by (destruct used; [by destruct (pi_used _ _ _ _ Hi eq_refl)|done]).
  wp_step; [apply wp_finish, wp_permit; refused Hi|].
  rewrite !orb_false_iff, !negb_false_iff, !bool_decide_eq_true, !Z.eqb_neq, !Z.eqb_eq in C1.
  destruct C1 as (((((_ & Hof) & Htr) & Hdg) & Hep) & _). cbv zeta.
  apply wp_bind, wp_view; [intros w1; apply wp_finish, wp_permit; refused Hi|]. intros v w1.
  wp_step; [apply wp_finish, wp_permit; refused Hi|].
  apply wp_bind, wp_view; [intros w2; apply wp_finish, wp_permit; refused Hi|]. intros v2 w2.
  wp_step; [apply wp_finish, wp_permit; refused Hi|].
  apply negb_false_iff in C2. rewrite !andb_true_iff, !Z.ltb_lt in C2. destruct C2 as ((_ & Hd) & Hex).
  apply wp_finish, wp_permit. destruct (pi_offered _ _ _ _ Hi Hof) as (Hoff & _ & _).
  pose proof (pi_bound _ _ _ _ Hi) as Hb. cbn [Z.eqb]. split.
  - destruct Hi. split; cbn in *; auto.
  - cbn. split; [done|]. exists (hp_offer_of p). rewrite <- Hb. by split_and!.
Qed.

Lemma run_ok pa cs b offer used p w :
  permit_inv b offer used p -> wp (hp_run pa cs) (fun os s => history_ok b offer used os) (p, w).
Proof.
  revert offer used p w. induction cs as [|c cs IH]; intros offer used p w Hi; [done|].
  cbn [hp_run]. apply wp_bind. eapply wp_mono; [destruct c; [by apply offer_step|by apply consume_step]|].
  intros o [p1 w1] [Hi1 Ho]. apply wp_bind. eapply wp_mono; [by apply IH|].
  intros os s Hos. apply wp_ret. destruct o; cbn in *; [|by destruct Ho|done].
  destruct Ho as (? & ? & ? & ?). by split_and!.
Qed.

(** C29. Whatever the snapshot callback answers and whatever calls are made on an
    initialised permit: all offers are one and the same, valid for 30 s and never
    renewed; at most one consumption succeeds, only after the offer, only for its
    transaction, record digest and epoch and before both deadlines; and nothing
    succeeds after it. *)
Theorem hp_single_use (p0 : obj host_permit) (b : ptr hp_binding) (port : ptr hp_port) (pa : Z)
    (p : host_permit) (cs : list hp_call) (w : W) :
  hp_init p0 b port true = (0, p) ->
  exists bo, b = Some bo /\ history_ok (deref bo) None false (fst (hp_run pa cs (p, w))).
Proof.
  unfold hp_init. destruct b as [bo|], port as [po|]; try done. destruct (_ || _); [done|]. intros [= <-].
  exists bo. split; [done|]. apply (run_ok pa cs (deref bo) None false). by split.
Qed.
End Permit.

(** * A concrete permit *)
Definition sample_hp_binding : hp_binding := HpBinding (fill 16 1) (fill 16 2) (fill 32 3).
(** A world that is the list of views still to be reported. *)
Definition next_view (w : list hp_view) : (Z * hp_view) * list hp_view :=
  match w with v :: w => ((0, v), w) | [] => ((-1, HpView 0 0 0 0 0 0 0), []) end.
Definition sample_views : list hp_view :=
  [HpView 100 7 1 1 0 0 0; HpView 101 7 1 1 0 0 0; HpView 200 7 1 1 11 1 1; HpView 201 7 1 1 11 1 1].
Definition sample_calls : list hp_call :=
  [CallOffer (Some (Obj 0x40000 empty_offer));
   CallConsume (Some (Obj 0x50000 (fill 16 2))) (Some (Obj 0x50100 (fill 32 3))) 7 1000;
   CallConsume (Some (Obj 0x50000 (fill 16 2))) (Some (Obj 0x50100 (fill 32 3))) 7 1000].
Definition sample_p0 : obj (@host_permit (list hp_view)) := Obj 0x20000 zero_permit.
Definition sample_hp_port : ptr (@hp_port (list hp_view)) := Some (Obj 0x30000 (HpPort (Some next_view))).

Lemma hp_single_use_witness :
  fst (hp_run 0x20000 sample_calls (snd (hp_init sample_p0 (Some (Obj 0x30100 sample_hp_binding)) sample_hp_port true), sample_views)) =
    [Offered (HpOffer sample_hp_binding 100 30100 7); Consumed (fill 16 2) (fill 32 3) 7 1000 201; Refused] /\
  exists bo, Some (Obj 0x30100 sample_hp_binding) = Some bo /\ history_ok (deref bo) None false
    (fst (hp_run 0x20000 sample_calls (snd (hp_init sample_p0 (Some (Obj 0x30100 sample_hp_binding)) sample_hp_port true), sample_views))).
Proof.
  split; [vm_compute; reflexivity|].
  apply (hp_single_use sample_p0 (Some (Obj 0x30100 sample_hp_binding)) sample_hp_port). vm_compute. reflexivity.
Defined.
