(* ===== verification/BatteryPower.v ===== *)
(** Battery admission ([battery_power.c/.h]): sample freshness, the start and
    continue thresholds, and the lease whose drain window is fixed once. *)
From S2P Require Import Prelude.

Definition BP_FRESH_MS : Z := 20000.
Definition BP_SAVE_MS : Z := 32000.

Record bp_sample := BpSample {
  bs_at : Z; bs_mv : Z; bs_temp : Z; bs_soc : Z; bs_flags : Z; bs_valid : Z; bs_sequence : Z; bs_current_ma : Z
}.
Record bp_lease := BpLease { bl_last : Z; bl_drain_until : Z; bl_held : Z; bl_draining : Z }.
#[export] Instance eta_bp_lease : Eta bp_lease := fun l =>
  BpLease (bl_last l) (bl_drain_until l) (bl_held l) (bl_draining l).

Definition bp_fresh (s : option bp_sample) (t : Z) : bool :=
  match s with
  | None => false
  | Some s =>
      (bs_valid s =? 1) && negb (bs_sequence s =? 0) && (bs_at s <=? t) && (t - bs_at s <=? BP_FRESH_MS) &&
      (0 <? bs_mv s) && (bs_mv s <=? 6000) && (bs_soc s <=? 100) && any_of (bs_flags s) 8 &&
      negb (any_of (bs_flags s) 0xfc30)
  end.
Definition bp_charging (s : option bp_sample) (now : Z) : bool :=
  match s with
  | None => false
  | Some s' => bp_fresh s now && negb (any_of (bs_flags s') 0x0201) && (5 <=? bs_current_ma s') && (bs_current_ma s' <=? 1000)
  end.
Definition bp_start (s : option bp_sample) (t : Z) : bool :=
  match s with
  | None => false
  | Some s' => bp_fresh s t && (3800 <=? bs_mv s') && (bs_mv s' <=? 4450) && (25 <=? bs_soc s') &&
      (2781 <=? bs_temp s') && (bs_temp s' <=? 3131)
  end.
Definition bp_continue (s : option bp_sample) (t : Z) : bool :=
  match s with
  | None => false
  | Some s' => bp_fresh s t && (3700 <=? bs_mv s') && (bs_mv s' <=? 4450) && (20 <=? bs_soc s') &&
      (2731 <=? bs_temp s') && (bs_temp s' <=? 3181)
  end.

(** A NULL lease is refused before anything else. *)
Definition bp_begin (l : option bp_lease) (s : option bp_sample) (t : Z) : Z * option bp_lease :=
  match l with
  | None => (0, None)
  | Some l' =>
      if negb (bl_held l' =? 0) || negb (bp_start s t) then (0, l) else (1, Some (BpLease t 0 1 0))
  end.

(** A real measurement that ends even the save window. *)
Definition bp_critical (s : option bp_sample) : bool :=
  match s with
  | None => false
  | Some s =>
      any_of (bs_flags s) 0xc000 ||
      (negb (bs_valid s =? 0) &&
       ((bs_mv s <? 3300) || (4500 <? bs_mv s) || (bs_temp s <? 2631) || (3231 <? bs_temp s)))
  end.

Definition bp_check (l : option bp_lease) (s : option bp_sample) (t : Z) : Z * option bp_lease :=
  match l with
  | None => (0, None)
  | Some l' =>
      if (bl_held l' =? 0) || (t <? bl_last l') then (0, l) else
      let l' := l' <| bl_last := t |> in
      if bp_critical s then (0, Some l') else
      if (bl_draining l' =? 0) && negb (bp_continue s t) then
        if UINT64_MAX - BP_SAVE_MS <? t then (0, Some l') else
        let l' := l' <| bl_draining := 1 |> <| bl_drain_until := t + BP_SAVE_MS |> in
        ((if t <? bl_drain_until l' then 1 else 0), Some l')
      else ((if (bl_draining l' =? 0) || (t <? bl_drain_until l') then 1 else 0), Some l')
  end.

Fixpoint bp_run (l : option bp_lease) (cs : list (option bp_sample * Z)) : list Z * option bp_lease :=
  match cs with
  | [] => ([], l)
  | (s, t) :: cs =>
      let '(r, l) := bp_check l s t in
      let '(rs, l) := bp_run l cs in (r :: rs, l)
  end.

(** A lease that is draining until [u]. *)
Definition draining_until (u : Z) (l : option bp_lease) : Prop :=
  exists l', l = Some l' /\ bl_draining l' = 1 /\ bl_drain_until l' = u.

Lemma bp_check_draining u l s t :
  draining_until u l -> draining_until u (snd (bp_check l s t)) /\ (fst (bp_check l s t) = 1 -> t < u /\ bp_critical s = false).
Proof.
  intros (l' & -> & Hd & Hu). unfold bp_check. destruct (_ || _); [by split; [exists l'|]|].
  destruct (bp_critical s); [by split; [exists (l' <| bl_last := t |>)|]|]. cbn. rewrite Hd. cbn.
  split; [by eexists|]. rewrite Hu. by destruct (Z.ltb_spec t u).
Qed.

Lemma bp_run_draining u cs l : draining_until u l -> draining_until u (snd (bp_run l cs)).
Proof.
  revert l. induction cs as [|[s t] cs IH]; intros l Hl; [done|]. cbn.
  destruct (bp_check_draining u l s t Hl) as [H _]. destruct (bp_check l s t) as [r l1]. cbn in H.
  specialize (IH l1 H). by destruct (bp_run l1 cs).
Qed.

Lemma bp_run_app l cs cs' :
  bp_run l (cs ++ cs') = (fst (bp_run l cs) ++ fst (bp_run (snd (bp_run l cs)) cs'), snd (bp_run (snd (bp_run l cs)) cs')).
Proof.
  revert l. induction cs as [|[s t] cs IH]; intros l; [by cbn; destruct (bp_run l cs')|]. cbn.
  destruct (bp_check l s t) as [r l1]. rewrite IH. by destruct (bp_run l1 cs).
Qed.

(** C39. The save window is fixed once: after a check at [t0] that was allowed to
    go on although the battery no longer qualified, no later check is allowed at
    or after [t0 + 32 s] or on a critical measurement, whatever was measured and
    however often it was checked in between. *)
Theorem bp_drain_bounded (l : bp_lease) (s : option bp_sample) (t0 : Z)
    (cs : list (option bp_sample * Z)) (s' : option bp_sample) (t : Z) :
  bl_draining l = 0 -> fst (bp_check (Some l) s t0) = 1 -> bp_continue s t0 = false ->
  last (fst (bp_run (snd (bp_check (Some l) s t0)) (cs ++ [(s', t)]))) = Some 1 ->
  t < t0 + BP_SAVE_MS /\ bp_critical s' = false.
Proof.
  intros Hd H1 Hc.
  assert (Hdr : draining_until (t0 + BP_SAVE_MS) (snd (bp_check (Some l) s t0))).
  { revert H1. unfold bp_check. destruct (_ || _); [done|]. destruct (bp_critical s); [done|].
    cbn [bl_draining field_upd]. rewrite Hd, Hc. cbn. destruct (_ <? t0); [done|]. intros _. eexists. by split. }
  rewrite bp_run_app. cbn [fst]. set (l1 := snd (bp_run _ cs)).
  assert (Hl1 : draining_until (t0 + BP_SAVE_MS) l1) by by apply bp_run_draining.
  cbn [bp_run fst]. destruct (bp_check_draining _ l1 s' t Hl1) as [_ H].
  destruct (bp_check l1 s' t) as [r l2]. cbn [fst] in *. rewrite last_snoc. intros [= ->]. by apply H.
Qed.

Definition good_sample : bp_sample := BpSample 1000 3900 2981 80 8 1 5 (-100).
Definition weak_sample : bp_sample := BpSample 2000 3600 2981 80 8 1 6 (-100).
Lemma bp_drain_bounded_witness :
  let l := BpLease 1000 0 1 0 in
  fst (bp_run (snd (bp_check (Some l) (Some weak_sample) 2000)) [(None, 9000); (Some good_sample, 33999)]) = [1; 1] /\
  33999 < 2000 + BP_SAVE_MS.
Proof.
  cbv zeta. split; [vm_compute; reflexivity|].
  apply (bp_drain_bounded (BpLease 1000 0 1 0) (Some weak_sample) 2000 [(None, 9000)] (Some good_sample) 33999);
    vm_compute; reflexivity.
Defined.
