(* ===== verification/DevicePreferences.v ===== *)
(** Device preferences ([device_preferences.c/.h]): the 16-byte record, its
    validity, the revision step and what the LED and radio derive from it. *)
From S2P Require Import Prelude.

Definition DP_BYTES : Z := 16.

Definition dp_revision (p : bytes) : Z :=
  Z.lor (Z.lor (Z.lor (znth 12 p) (Z.shiftl (znth 13 p) 8)) (Z.shiftl (znth 14 p) 16)) (Z.shiftl (znth 15 p) 24).
Definition dp_defaults : bytes := [2; 0; 32; 1; 4; 0; 0; 1; 25; 1; 0; 0; 0; 0; 0; 0].

Definition dp_valid (p : option bytes) (n : Z) : bool :=
  match p with
  | None => false
  | Some p =>
      (n =? DP_BYTES) && ((znth 0 p =? 1) || (znth 0 p =? 2)) && (znth 1 p <=? 2) && (8 <=? znth 2 p) &&
      (znth 2 p <=? 64) && (1 <=? znth 3 p) && (znth 3 p <=? 7) && (1 <=? znth 4 p) && (znth 4 p <=? 7) &&
      (znth 5 p <=? 7) && (znth 6 p <=? 7) && (1 <=? znth 7 p) && (znth 7 p <=? 7) && (20 <=? znth 8 p) &&
      (znth 8 p <=? 50) && (znth 9 p <=? 3) && (znth 10 p <=? 1) && (znth 11 p <=? 7) &&
      ((znth 0 p =? 2) || ((znth 10 p =? 0) && (znth 11 p =? 0)))
  end.
Definition dp_upgrade (p : bytes) : bytes :=
  if dp_valid (Some p) DP_BYTES && (znth 0 p =? 1) then blit 0 [2] p else p.

(** The next record, [None] on refusal (output untouched). *)
Definition dp_next (c r : option bytes) (o : option bytes) : Z * option bytes :=
  match c, r, o with
  | Some cb, Some rb, Some ob =>
      if negb (dp_valid c DP_BYTES) || negb (dp_valid r DP_BYTES) || negb (znth 0 cb =? znth 0 rb) ||
         negb (dp_revision cb =? dp_revision rb) || (dp_revision cb =? UINT32_MAX)
      then (-1, None)
      else (0, Some (blits [(0, slice 0 DP_BYTES rb); (12, le 4 (dp_revision cb + 1))] ob))
  | _, _, _ => (-1, None)
  end.

Definition dp_idle_ms (p : option bytes) : Z :=
  match p with
  | Some b => if dp_valid p DP_BYTES then nth (Z.to_nat (znth 9 b)) [0; 60000; 300000; 900000] 0 else 0
  | None => 0
  end.
Definition dp_advertising_units (p : option bytes) (idle : Z) : Z :=
  match p with
  | Some b =>
      if negb (dp_valid p DP_BYTES) || (idle =? 0) || (dp_idle_ms p =? 0) then 48
      else if znth 1 b =? 2 then 1600 else if znth 1 b =? 1 then 400 else 48
  | None => 48
  end.

Definition DP_RECORDING : Z := 1.
Definition DP_LOW : Z := 2.
Definition DP_CHARGING : Z := 6.
Definition dp_colors : list (list Z) :=
  [[0; 0; 0]; [1; 0; 0]; [0; 1; 0]; [0; 0; 1]; [1; 1; 0]; [0; 1; 1]; [1; 0; 1]; [1; 1; 1]].
(** The entry of the color table the event selects; [None] is a dark LED. *)
Definition dp_color_index (p : option bytes) (event now : Z) : option Z :=
  match p with
  | Some b =>
      if negb (dp_valid p DP_BYTES) || (event <? DP_RECORDING) || (DP_CHARGING <? event) then None else
      let color := if event =? DP_CHARGING then znth 11 b else znth (2 + event) b in
      if (event =? DP_LOW) && (250 <=? now mod 2000) then None else Some color
  | None => None
  end.
Definition dp_color (p : option bytes) (event now : Z) : list Z :=
  match p, dp_color_index p event now with
  | Some b, Some color => map (fun x => u8 (x * znth 2 b)) (nth (Z.to_nat color) dp_colors [])
  | _, _ => [0; 0; 0]
  end.
Definition dp_blink (count began now : Z) : Z :=
  if (negb (count =? 2) && negb (count =? 3)) || (now <? began) || (u32 (count * 300) <=? now - began) then -1
  else if (now - began) mod 300 <? 150 then 1 else 0.

(** * Correctness *)
Lemma dp_revision_get p : zlen p = 16 -> is_bytes p -> dp_revision p = get32 12 p.
Proof.
  intros Hl Hp. unfold dp_revision, get32.
  assert (Hs : slice 12 4 p = [znth 12 p; znth 13 p; znth 14 p; znth 15 p]).
  { unfold zlen in Hl. do 16 (destruct p as [|? p]; [done|]). destruct p; [reflexivity|simpl in Hl; lia]. }
  rewrite Hs. cbn [unle]. rewrite Z.shiftl_0_l, Z.lor_0_r, !Z.shiftl_lor, !Z.shiftl_shiftl, !Z.lor_assoc by lia. reflexivity.
Qed.

(** A byte outside a write is the byte that was there. *)
Lemma znth_blit_at off bs p k : 0 <= off -> off + zlen bs <= zlen p -> 0 <= k < off -> znth k (blit off bs p) = znth k p.
Proof. intros. apply znth_blit_disj; lia. Qed.

(** An accepted change is a valid record that carries the request's settings
    and exactly the next revision, computed without wrapping; so accepted records
    form a chain, and the same request is never accepted twice. *)
Theorem dp_next_chain (c r o p : bytes)
    (Hc : zlen c = 16) (Hr : zlen r = 16) (Ho : zlen o = 16) (Bc : is_bytes c) (Br : is_bytes r)
    (Hn : dp_next (Some c) (Some r) (Some o) = (0, Some p)) :
  dp_valid (Some p) DP_BYTES = true /\ slice 0 12 p = slice 0 12 r /\
  dp_revision p = dp_revision c + 1 /\ dp_revision p <= UINT32_MAX /\
  fst (dp_next (Some p) (Some r) (Some o)) = -1.
Proof.
  unfold dp_next in Hn. destruct (_ || _) eqn:E; [done|]. injection Hn as <-.
  rewrite !orb_false_iff, !negb_false_iff, Z.eqb_neq, !Z.eqb_eq in E. destruct E as ((((_ & Hv) & _) & Hrev) & Hmax).
  unfold DP_BYTES in *. rewrite (slice_all' 16 r) by done.
  assert (Hb0 : blits [(0, r); (12, le 4 (dp_revision c + 1))] o = blit 12 (le 4 (dp_revision c + 1)) r).
  { rewrite !blits_cons, blits_nil. f_equal. with_strategy transparent [blit] (unfold blit). cbn [take].
    rewrite drop_ge by (unfold zlen in *; lia). apply app_nil_r. }
  rewrite Hb0. set (p := blit 12 _ r).
  assert (Hl4 : zlen (le 4 (dp_revision c + 1)) = 4) by apply zlen_le.
  assert (Hp : zlen p = 16) by (unfold p; rewrite zlen_blit; lia).
  assert (Bp : is_bytes p) by (apply is_bytes_blit; [apply le_is_bytes|done]).
  assert (Hrange : 0 <= dp_revision c < 2 ^ 32).
  { rewrite dp_revision_get by done. apply (get_le_range 4); done || lia. }
  assert (Hrp : dp_revision p = dp_revision c + 1).
  { rewrite dp_revision_get by done. unfold get32, p. rewrite <- Hl4 at 1. rewrite slice_blit_same by lia.
    rewrite unle_le. apply Z.mod_small. unfold UINT32_MAX in *. lia. }
  assert (Hz : forall k, 0 <= k < 12 -> znth k p = znth k r) by (intros; apply znth_blit_at; lia).
  split_and!.
  - revert Hv. unfold dp_valid. by rewrite !Hz by lia.
  - unfold p. by rewrite slice_blit_disj by lia.
  - done.
  - unfold UINT32_MAX in *. lia.
  - unfold dp_next. rewrite Hrp, <- Hrev. rewrite (proj2 (Z.eqb_neq (dp_revision c + 1) (dp_revision c))) by lia.
    cbn [negb]. by rewrite !orb_true_r.
Qed.

Definition sample_request : bytes := [2; 1; 40; 1; 4; 2; 3; 1; 25; 2; 1; 6; 0; 0; 0; 0].
Lemma dp_next_chain_witness :
  let p := default [] (snd (dp_next (Some dp_defaults) (Some sample_request) (Some (fill 16 0)))) in
  p = [2; 1; 40; 1; 4; 2; 3; 1; 25; 2; 1; 6; 1; 0; 0; 0] /\ dp_revision p = 1.
Proof.
  cbv zeta. split; [vm_compute; reflexivity|].
  apply (dp_next_chain dp_defaults sample_request (fill 16 0)); try (vm_compute; reflexivity);
    apply is_bytesb_sound; vm_compute; reflexivity.
Defined.

(** For a valid record the LED computation is in bounds: the color it
    selects is one of the eight table entries and every channel is the exact
    product with the brightness, at most 64, never truncated. *)
Theorem dp_color_in_bounds (p : bytes) (event now color : Z) :
  zlen p = 16 -> is_bytes p -> dp_color_index (Some p) event now = Some color ->
  0 <= color < 8 /\ length (dp_color (Some p) event now) = 3%nat /\
  Forall (fun v => v = 0 \/ v = znth 2 p) (dp_color (Some p) event now) /\ znth 2 p <= 64.
Proof.
  intros Hl Hb Hi. assert (Hd : dp_color (Some p) event now = map (fun x => u8 (x * znth 2 p)) (nth (Z.to_nat color) dp_colors []))
    by (unfold dp_color; by rewrite Hi).
  assert (Hc : 0 <= color < 8 /\ 8 <= znth 2 p <= 64).
  { pose proof (fun i H => znth_range i p H Hb) as Hz. unfold is_byte in Hz.
    unfold dp_color_index, DP_CHARGING, DP_LOW, DP_RECORDING in Hi. destruct (_ || _) eqn:E; [done|].
    rewrite !orb_false_iff, !Z.ltb_ge, negb_false_iff in E. destruct E as ((Hv & He1) & He2).
    unfold dp_valid in Hv. rewrite !andb_true_iff, !Z.leb_le in Hv. destruct_and! Hv.
    destruct (_ && _) in Hi; [done|]. injection Hi as <-.
    destruct (Z.eqb_spec event 6) as [->|]; [pose proof (Hz 11 ltac:(lia)); lia|].
    pose proof (Hz (2 + event) ltac:(lia)).
    assert (event = 1 \/ event = 2 \/ event = 3 \/ event = 4 \/ event = 5) as [->|[->|[->|[->| ->]]]] by lia;
      change (2 + 1) with 3 in *; change (2 + 2) with 4 in *; change (2 + 3) with 5 in *;
      change (2 + 4) with 6 in *; change (2 + 5) with 7 in *; lia. }
  destruct Hc as [Hc [Hp1 Hp2]]. split; [done|]. rewrite Hd.
  assert (Hu : u8 (0 * znth 2 p) = 0 /\ u8 (1 * znth 2 p) = znth 2 p)
    by (unfold u8; rewrite Z.mul_0_l, Z.mul_1_l; split; apply Z.mod_small; lia).
  destruct Hu as [Hu0 Hu1].
  assert (color = 0 \/ color = 1 \/ color = 2 \/ color = 3 \/ color = 4 \/ color = 5 \/ color = 6 \/ color = 7)
    as [->|[->|[->|[->|[->|[->|[->| ->]]]]]]] by lia;
    cbv [Z.to_nat nth dp_colors map Pos.to_nat Pos.iter_op Init.Nat.add]; rewrite ?Hu0, ?Hu1;
    (split; [done|split; [repeat (apply Forall_cons; split); try apply Forall_nil; auto|done]]).
Qed.

Lemma dp_color_in_bounds_witness : 0 <= 6 < 8 /\ dp_color (Some sample_request) DP_CHARGING 0 = [40; 0; 40].
Proof.
  destruct (dp_color_in_bounds sample_request DP_CHARGING 0 6) as [H _];
    [vm_compute; reflexivity|apply is_bytesb_sound; vm_compute; reflexivity|vm_compute; reflexivity|].
  split; [exact H|vm_compute; reflexivity].
Defined.
