(* ===== verification/MicFrameMath.v ===== *)
(** The frame variance numerator of [mic_frame_math.h]. *)
From S2P Require Import Prelude.

Definition MIC_FRAME_MATH_SAMPLES : Z := 320.

(** The call returned false with the output unchanged, reached undefined behaviour
    (an [int64_t] product that does not fit), or wrote [*output]. *)
Inductive mic_frame_result := Refused | Undefined | Numerator (output : Z).

(** [MIC_FRAME_MATH_SAMPLES * sum_square], a [uint64_t] product that wraps. *)
Definition weighted_square (sum_square : Z) : Z := u64 (MIC_FRAME_MATH_SAMPLES * sum_square).
(** [(uint64_t)(signed_sum * signed_sum)]: the product is an [int64_t] one, so it is
    [None] when it does not fit, before the cast. *)
Definition squared_sum (signed_sum : Z) : option Z :=
  let product := signed_sum * signed_sum in
  if (- 2 ^ 63 <=? product) && (product <=? INT64_MAX) then Some (u64 product) else None.

Definition mic_frame_ac_numerator (signed_sum sum_square : Z) (output : bool) : mic_frame_result :=
  if negb output || (signed_sum <? -10485760) || (10485440 <? signed_sum) || (343597383680 <? sum_square) then Refused else
  let weighted := weighted_square sum_square in
  match squared_sum signed_sum with
  | None => Undefined
  | Some squared => if weighted <? squared then Refused else Numerator (u64 (weighted - squared))
  end.

Definition sum (l : list Z) : Z := foldr Z.add 0 l.
Definition sum_squares (l : list Z) : Z := foldr (fun x s => x * x + s) 0 l.
Definition is_int16 (x : Z) : Prop := -32768 <= x <= 32767.

Lemma sum_bounds l : Forall is_int16 l -> -32768 * zlen l <= sum l <= 32767 * zlen l.
Proof.
  induction 1 as [|x l Hx Hl IH]; [done|]. rewrite zlen_cons. unfold is_int16 in Hx.
  change (sum (x :: l)) with (x + sum l). lia.
Qed.

Lemma sum_squares_bounds l : Forall is_int16 l -> 0 <= sum_squares l <= 32768 * 32768 * zlen l.
Proof.
  induction 1 as [|x l Hx Hl IH]; [done|]. rewrite zlen_cons. unfold is_int16 in Hx.
  change (sum_squares (x :: l)) with (x * x + sum_squares l). nia.
Qed.

(** Cauchy-Schwarz for one frame. *)
Lemma square_of_sum l : sum l * sum l <= zlen l * sum_squares l.
Proof.
  induction l as [|x l IH]; [done|]. rewrite zlen_cons.
  change (sum (x :: l)) with (x + sum l). change (sum_squares (x :: l)) with (x * x + sum_squares l).
  destruct l as [|y l]; [rewrite (@zlen_nil Z); cbn; lia|].
  assert (Hn : 1 <= zlen (y :: l)) by (rewrite zlen_cons; pose proof (zlen_nonneg l); lia).
  revert IH Hn. generalize (sum (y :: l)) (sum_squares (y :: l)) (zlen (y :: l)). intros s q n IH Hn.
  assert (0 <= n * (n * (x * x) + q - 2 * (s * x))); [|nia].
  assert (0 <= (n * x - s) * (n * x - s)) by apply Z.square_nonneg. nia.
Qed.

(** Inside the bounds of the call neither product leaves its type. *)
Lemma squared_sum_exact s : -10485760 <= s <= 10485440 -> squared_sum s = Some (s * s) /\ 0 <= s * s <= 2 ^ 63 - 1.
Proof.
  intros Hs. assert (H : 0 <= s * s <= 10485760 * 10485760) by nia. split; [|lia]. unfold squared_sum, INT64_MAX.
  rewrite (proj2 (Z.leb_le _ _)), (proj2 (Z.leb_le _ _)) by lia. cbn [andb]. by rewrite u64_small by lia.
Qed.

Lemma weighted_square_exact q : 0 <= q <= 343597383680 -> weighted_square q = 320 * q.
Proof. intros. unfold weighted_square, MIC_FRAME_MATH_SAMPLES. by rewrite u64_small by lia. Qed.

(** The call, branch by branch, in exact arithmetic. *)
Lemma mic_frame_ac_numerator_eq s q output : 0 <= q ->
  mic_frame_ac_numerator s q output =
  if output && (-10485760 <=? s) && (s <=? 10485440) && (q <=? 343597383680) && (s * s <=? 320 * q)
  then Numerator (320 * q - s * s) else Refused.
Proof.
  intros Hq. unfold mic_frame_ac_numerator. destruct output; [|done]. cbn [negb orb andb].
  rewrite !Z.ltb_antisym, <- !negb_andb. destruct (_ && _ && _) eqn:E; [|done].
  rewrite !andb_true_iff, !Z.leb_le in E. destruct E as [[? ?] ?].
  destruct (squared_sum_exact s) as [-> ?]; [lia|]. cbn [negb andb]. rewrite weighted_square_exact, Z.ltb_antisym by lia.
  destruct (Z.leb_spec (s * s) (320 * q)); [|done]. cbn [negb]. by rewrite u64_small by lia.
Qed.

(** C40. For every frame of 320 16-bit samples the helper succeeds and returns
    exactly 320 times the sum of squares minus the squared sum, which is not
    negative and fits 63 bits.  For any arguments at all, frame or not, it never
    reaches a signed product that does not fit [int64_t], and when it writes an
    output its two 64-bit products and their difference are the exact ones: none
    of the three wrapped. *)
Theorem mic_frame_exact (pcm : list Z) :
  Forall is_int16 pcm -> zlen pcm = MIC_FRAME_MATH_SAMPLES ->
  (mic_frame_ac_numerator (sum pcm) (sum_squares pcm) true = Numerator (320 * sum_squares pcm - sum pcm * sum pcm) /\
   0 <= 320 * sum_squares pcm - sum pcm * sum pcm < 2 ^ 63) /\
  (forall s q output, 0 <= q ->
    mic_frame_ac_numerator s q output <> Undefined /\
    forall v, mic_frame_ac_numerator s q output = Numerator v ->
      weighted_square q = 320 * q /\ squared_sum s = Some (s * s) /\ v = 320 * q - s * s /\ 0 <= v < 2 ^ 63).
Proof.
  intros Hp Hl. pose proof (sum_bounds _ Hp) as Hs. pose proof (sum_squares_bounds _ Hp) as Hq.
  pose proof (square_of_sum pcm) as Hc. rewrite Hl in *. unfold MIC_FRAME_MATH_SAMPLES in *. split.
  - rewrite mic_frame_ac_numerator_eq by lia. split; [|pose proof (Z.square_nonneg (sum pcm)); lia].
    by rewrite !(proj2 (Z.leb_le _ _)) by lia.
  - intros s q output H0. rewrite mic_frame_ac_numerator_eq by done. destruct (_ && _) eqn:E; [|done].
    rewrite !andb_true_iff, !Z.leb_le in E. destruct E as [[[[_ ?] ?] ?] ?]. split; [done|]. intros v [= <-].
    pose proof (squared_sum_exact s). rewrite weighted_square_exact by lia. split_and!; try done; [apply squared_sum_exact|..]; lia.
Qed.

Lemma mic_frame_exact_witness :
  mic_frame_ac_numerator (sum (fill 160 (-32768) ++ fill 160 32767)) (sum_squares (fill 160 (-32768) ++ fill 160 32767)) true =
    Numerator (320 * sum_squares (fill 160 (-32768) ++ fill 160 32767) -
               sum (fill 160 (-32768) ++ fill 160 32767) * sum (fill 160 (-32768) ++ fill 160 32767)) /\
  squared_sum (-10485760) = Some 109951162777600.
Proof.
  destruct (mic_frame_exact (fill 160 (-32768) ++ fill 160 32767)) as [[H _] Hany]; [|vm_compute; reflexivity|].
  - apply Forall_app; split; with_strategy transparent [fill] (unfold fill); apply Forall_replicate; unfold is_int16; lia.
  - split; [exact H|]. apply (Hany (-10485760) 343597383680 true ltac:(lia)) with (v := 0). vm_compute. reflexivity.
Defined.
