(* ===== verification/LongControl.v ===== *)
(** The long-recording control codec ([long_recording_control_codec.c/.h]): the
    request and response frames, what a reportable state is, and when one state
    may follow another of the same operation. *)
From S2P Require Import Prelude.

Definition LC_STATUS : Z := 0x40.
Definition LC_START : Z := 0x41.
Definition LC_STOP : Z := 0x42.
Definition LC_REQUEST_BYTES : Z := 80.
Definition LC_RESPONSE_BYTES : Z := 81.
Definition LC_MAX_FRAMES : Z := 2560000.
Definition LC_OK : Z := 0.
Definition LC_ARGUMENT : Z := -1.
Definition LC_INVALID : Z := -2.

Definition LC_IDLE : Z := 0.
Definition LC_STARTING : Z := 1.
Definition LC_RUNNING : Z := 2.
Definition LC_STOPPING : Z := 3.
Definition LC_DRAINING : Z := 4.
Definition LC_STOPPED : Z := 5.
Definition LC_NO_CAPACITY : Z := 6.
Definition LC_CANCELLED_BEFORE_START : Z := 7.
Definition LC_FAULT : Z := 8.

Definition LC_USB_PRESENT : Z := 1.
Definition LC_MIC_ON : Z := 2.
Definition LC_PRODUCER_JOINED : Z := 4.
Definition LC_STORAGE_JOINED : Z := 8.
Definition LC_FINALIZED : Z := 16.
Definition LC_RELEASED : Z := 32.
Definition LC_SESSION_CREATED : Z := 64.
Definition LC_FAULT_LATCH : Z := 128.
Definition LC_CAPACITY_KNOWN : Z := 256.
Definition LC_STOP_REQUESTED : Z := 512.
Definition LC_BUTTON_ARMED : Z := 1024.
Definition LC_PORTABLE : Z := 2048.

Record lc_request := LcRequest {
  lr_boot : bytes; lr_operation : bytes; lr_binding : bytes; lr_sequence : Z; lr_command : Z; lr_mode : Z
}.
Record lc_state := LcState {
  ls_boot : bytes; ls_operation : bytes; ls_recording : bytes; ls_phase : Z; ls_reason : Z; ls_flags : Z;
  ls_epoch : Z; ls_accepted_frames : Z; ls_committed_frames : Z; ls_admitted_frames : Z
}.
Definition sizeof_lc_request : Z := 68.
Definition sizeof_lc_state : Z := 68.

Definition lc_span {A} (p : ptr A) (n : Z) : bool :=
  match p with Some p => negb (n =? 0) && (addr p <=? UINTPTR_MAX - n) | None => false end.
Definition lc_separate {A B} (a : ptr A) (an : Z) (b : ptr B) (bn : Z) : bool :=
  lc_span a an && lc_span b bn &&
  match a, b with
  | Some a, Some b => (addr a + an <=? addr b) || (addr b + bn <=? addr a)
  | _, _ => false
  end.
(** [memcmp] of two equally long arrays: equal or not. *)
Definition same (a b : bytes) : bool := bool_decide (a = b).

Definition request_valid (r : lc_request) : bool :=
  if (lr_sequence r =? 0) || negb (identity (lr_binding r)) then false else
  if lr_command r =? LC_STATUS then
    if negb (lr_mode r =? 0) then false else
    (identity (lr_boot r) || zero (lr_boot r)) && (identity (lr_operation r) || zero (lr_operation r)) &&
    (negb (zero (lr_boot r)) || zero (lr_operation r))
  else
    ((lr_command r =? LC_START) || (lr_command r =? LC_STOP)) && identity (lr_boot r) && identity (lr_operation r) &&
    (if lr_command r =? LC_START then (lr_mode r =? 1) || (lr_mode r =? 2) else lr_mode r =? 0).

Section Profile.
(** Whether the build defines OPENPENDANT_PORTABLE_RECORDING. *)
Context (portable : bool).
Definition LC_FLAGS_MASK : Z := if portable then 4095 else 2047.

Definition decode_request (p : bytes) : lc_request :=
  LcRequest (slice 8 16 p) (slice 24 16 p) (slice 40 32 p) (get16 4 p) (znth 3 p) (znth 72 p).
Definition lc_parse_request (p : ptr bytes) (n : Z) (binding boot : ptr bytes) (out : ptr lc_request)
  : Z * option lc_request :=
  match p, binding, boot with
  | Some po, Some bi, Some bo =>
      if negb (n =? LC_REQUEST_BYTES) || negb (lc_separate p n out sizeof_lc_request) ||
         negb (lc_separate binding 32 out sizeof_lc_request) || negb (lc_separate boot 16 out sizeof_lc_request)
      then (LC_ARGUMENT, None) else
      let p := deref po in
      if negb (identity (slice 0 32 (deref bi))) || negb (identity (slice 0 16 (deref bo))) ||
         negb (znth 0 p =? 0x4f) || negb (znth 1 p =? 0x50) || negb (znth 2 p =? 1) || negb (get16 6 p =? 72) ||
         negb (zero (slice 73 7 p))
      then (LC_INVALID, None) else
      let r := decode_request p in
      if negb (request_valid r) || negb (same (lr_binding r) (slice 0 32 (deref bi))) ||
         (negb (zero (lr_boot r)) && negb (same (lr_boot r) (slice 0 16 (deref bo))))
      then (LC_INVALID, None) else (LC_OK, Some r)
  | _, _, _ => (LC_ARGUMENT, None)
  end.

(** The checks every phase shares. *)
Definition state_common (s : lc_state) : bool :=
  let f := ls_flags s in
  identity (ls_boot s) && (ls_phase s <=? LC_FAULT) && (ls_reason s <=? 12) &&
  negb (any_of f (Z.lnot LC_FLAGS_MASK)) && (ls_epoch s <=? 0x7fffffff) && (ls_accepted_frames s <=? LC_MAX_FRAMES) &&
  (ls_committed_frames s <=? ls_accepted_frames s) && (ls_admitted_frames s <=? LC_MAX_FRAMES) &&
  (ls_admitted_frames s mod 500 =? 0) &&
  (any_of f LC_CAPACITY_KNOWN || (ls_admitted_frames s =? 0)) &&
  (negb (any_of f LC_CAPACITY_KNOWN) || (ls_accepted_frames s <=? ls_admitted_frames s)) &&
  negb (any_of f LC_MIC_ON && any_of f LC_PRODUCER_JOINED) &&
  negb (any_of f LC_RELEASED &&
        (negb (any_of f LC_PRODUCER_JOINED) || negb (any_of f LC_STORAGE_JOINED) || any_of f LC_MIC_ON)).

Definition state_armed (s : lc_state) : bool :=
  let f := ls_flags s in
  negb (any_of f LC_BUTTON_ARMED) ||
  negb (negb (ls_phase s =? LC_STARTING) || any_of f (Z.lor LC_SESSION_CREATED (Z.lor LC_MIC_ON LC_STOP_REQUESTED)) ||
        negb (ls_epoch s =? 0) || negb (ls_accepted_frames s =? 0) || negb (ls_committed_frames s =? 0)).

(** Nothing recorded and nothing named: no epoch and no frames. *)
Definition no_recording (s : lc_state) : bool :=
  zero (ls_recording s) && (ls_epoch s =? 0) && (ls_accepted_frames s =? 0) && (ls_committed_frames s =? 0).
Definition JOINED_RELEASED : Z := Z.lor LC_PRODUCER_JOINED (Z.lor LC_STORAGE_JOINED LC_RELEASED).
Definition clean_reason (s : lc_state) : bool :=
  (ls_reason s =? 1) || (ls_reason s =? 11) || ((ls_reason s =? 2) && any_of (ls_flags s) LC_PORTABLE).

(** The phases after STARTING, with a session: RUNNING, STOPPING, DRAINING, STOPPED. *)
Definition session_phase (s : lc_state) : bool :=
  let f := ls_flags s in
  if negb (identity (ls_recording s)) || (ls_epoch s =? 0) || negb (any_of f LC_SESSION_CREATED) ||
     negb (any_of f LC_CAPACITY_KNOWN) || (ls_admitted_frames s =? 0) then false else
  if ls_phase s =? LC_RUNNING then
    (ls_reason s =? 0) && any_of f LC_MIC_ON && any_of f (Z.lor LC_USB_PRESENT LC_PORTABLE) &&
    negb (any_of f (Z.lor LC_PRODUCER_JOINED (Z.lor LC_FINALIZED LC_RELEASED)))
  else if ls_phase s =? LC_STOPPED then
    clean_reason s && (ls_accepted_frames s =? ls_committed_frames s) &&
    (Z.land f (Z.lor LC_FINALIZED JOINED_RELEASED) =? 60) && negb (any_of f LC_MIC_ON) &&
    (negb (ls_reason s =? 11) || (ls_accepted_frames s =? ls_admitted_frames s))
  else
    clean_reason s && negb (any_of f (Z.lor LC_FINALIZED LC_RELEASED)) &&
    negb ((ls_phase s =? LC_DRAINING) && (negb (any_of f LC_PRODUCER_JOINED) || any_of f LC_MIC_ON)).

Definition state_phase (s : lc_state) : bool :=
  let f := ls_flags s in
  let nothing_live := Z.lor LC_MIC_ON (Z.lor LC_FINALIZED LC_SESSION_CREATED) in
  if ls_phase s =? LC_IDLE then
    zero (ls_operation s) && no_recording s && (ls_reason s =? 0) && (Z.land f JOINED_RELEASED =? 44) &&
    negb (any_of f (Z.lor nothing_live (Z.lor LC_FAULT_LATCH LC_STOP_REQUESTED)))
  else if negb (identity (ls_operation s)) then false
  else if ls_phase s =? LC_FAULT then any_of f LC_FAULT_LATCH && negb (ls_reason s =? 0) && negb (any_of f LC_FINALIZED)
  else if any_of f LC_FAULT_LATCH then false
  else if ls_phase s =? LC_NO_CAPACITY then
    (ls_reason s =? 11) && no_recording s && (ls_admitted_frames s =? 0) &&
    (Z.land f (Z.lor JOINED_RELEASED LC_CAPACITY_KNOWN) =? 300) && negb (any_of f nothing_live)
  else if ls_phase s =? LC_CANCELLED_BEFORE_START then
    (ls_reason s =? 1) && no_recording s && (Z.land f JOINED_RELEASED =? 44) && negb (any_of f nothing_live)
  else if ls_phase s =? LC_STARTING then
    (ls_reason s =? 0) && (ls_accepted_frames s =? 0) && (ls_committed_frames s =? 0) &&
    negb (any_of f (Z.lor LC_MIC_ON LC_FINALIZED)) &&
    (if any_of f LC_SESSION_CREATED
     then negb (ls_epoch s =? 0) && identity (ls_recording s) && any_of f LC_CAPACITY_KNOWN &&
          negb (ls_admitted_frames s =? 0) && negb (any_of f LC_RELEASED)
     else (ls_epoch s =? 0) && zero (ls_recording s))
  else if (ls_phase s =? LC_STOPPING) && negb (any_of f LC_SESSION_CREATED) then
    (ls_reason s =? 1) && no_recording s && negb (any_of f (Z.lor LC_MIC_ON (Z.lor LC_FINALIZED LC_RELEASED)))
  else session_phase s.

(** [lc_validate_state(s) == LC_OK] for an addressable state. *)
Definition state_valid (s : lc_state) : bool :=
  state_common s && state_armed s &&
  (identity (ls_recording s) || zero (ls_recording s)) && (identity (ls_operation s) || zero (ls_operation s)) &&
  state_phase s.
Definition lc_validate_state (s : ptr lc_state) : Z :=
  match s with
  | Some so => if negb (lc_span s sizeof_lc_state) then LC_ARGUMENT else if state_valid (deref so) then LC_OK else LC_INVALID
  | None => LC_ARGUMENT
  end.

(** [valid]: the state validates. *)
Definition selected (r : lc_request) (s : lc_state) (valid : bool) : bool :=
  request_valid r && valid &&
  (zero (lr_boot r) || same (lr_boot r) (ls_boot s)) &&
  (zero (lr_operation r) || same (lr_operation r) (ls_operation s)) &&
  (negb (lr_command r =? LC_START) || negb (ls_phase s =? LC_IDLE)) &&
  (negb (lr_command r =? LC_STOP) ||
   (negb (ls_phase s =? LC_IDLE) &&
    (any_of (ls_flags s) LC_STOP_REQUESTED || (negb (ls_phase s =? LC_STARTING) && negb (ls_phase s =? LC_RUNNING))))).

Definition response_fields (r : lc_request) (s : lc_state) : list field :=
  [(0, [0x4f]); (1, [0x50]); (2, [1]); (3, [u8 (Z.lor (lr_command r) 128)]); put16 4 (lr_sequence r); put16 6 73;
   (9, ls_boot s); (25, ls_operation s); (41, ls_recording s); (57, [ls_phase s]); (58, [ls_reason s]);
   put16 59 (ls_flags s); put32 61 (ls_epoch s); put32 65 (ls_accepted_frames s);
   put32 69 (ls_committed_frames s); put32 73 (ls_admitted_frames s)].
Definition lc_encode_response (out : ptr bytes) (n : Z) (r : ptr lc_request) (s : ptr lc_state) : Z * option bytes :=
  match r, s with
  | Some ro, Some so =>
      if negb (n =? LC_RESPONSE_BYTES) || negb (lc_separate out n r sizeof_lc_request) ||
         negb (lc_separate out n s sizeof_lc_state) then (LC_ARGUMENT, None) else
      if negb (selected (deref ro) (deref so) (lc_validate_state s =? LC_OK)) then (LC_INVALID, None)
      else (LC_OK, Some (blits (response_fields (deref ro) (deref so)) (fill LC_RESPONSE_BYTES 0)))
  | _, _ => (LC_ARGUMENT, None)
  end.

Definition decode_state (p : bytes) : lc_state :=
  LcState (slice 9 16 p) (slice 25 16 p) (slice 41 16 p) (znth 57 p) (znth 58 p) (get16 59 p) (get32 61 p)
    (get32 65 p) (get32 69 p) (get32 73 p).
(** The decoded state is a local, so its span is always addressable. *)
Definition lc_parse_response (p : ptr bytes) (n : Z) (r : ptr lc_request) (out : ptr lc_state) : Z * option lc_state :=
  match p, r with
  | Some po, Some ro =>
      if negb (n =? LC_RESPONSE_BYTES) || negb (lc_separate p n out sizeof_lc_state) ||
         negb (lc_separate r sizeof_lc_request out sizeof_lc_state) then (LC_ARGUMENT, None) else
      let p := deref po in
      if negb (znth 0 p =? 0x4f) || negb (znth 1 p =? 0x50) || negb (znth 2 p =? 1) ||
         negb (znth 3 p =? u8 (Z.lor (lr_command (deref ro)) 128)) || negb (get16 4 p =? lr_sequence (deref ro)) ||
         negb (get16 6 p =? 73) || negb (znth 8 p =? 0) || negb (zero (slice 77 4 p)) then (LC_INVALID, None) else
      let s := decode_state p in
      if negb (selected (deref ro) s (state_valid s)) then (LC_INVALID, None) else (LC_OK, Some s)
  | _, _ => (LC_ARGUMENT, None)
  end.

(** [b] can be a later observation of the operation observed in [a]. *)
Definition progress (a b : lc_state) : bool :=
  negb (negb (identity (ls_operation a)) || negb (same (ls_boot a) (ls_boot b)) ||
    negb (same (ls_operation a) (ls_operation b)) ||
    (negb (zero (ls_recording a)) && negb (same (ls_recording a) (ls_recording b))) ||
    any_of (Z.lxor (ls_flags a) (ls_flags b)) LC_PORTABLE ||
    (negb (ls_epoch a =? 0) && negb (ls_epoch a =? ls_epoch b)) ||
    (ls_accepted_frames b <? ls_accepted_frames a) || (ls_committed_frames b <? ls_committed_frames a) ||
    (ls_phase b <? ls_phase a) ||
    (negb (ls_reason a =? 0) && negb (ls_phase b =? LC_FAULT) && negb (ls_reason a =? ls_reason b)) ||
    (any_of (ls_flags a) LC_SESSION_CREATED && negb (any_of (ls_flags b) LC_SESSION_CREATED)) ||
    (any_of (ls_flags a) LC_CAPACITY_KNOWN &&
     (negb (any_of (ls_flags b) LC_CAPACITY_KNOWN) || negb (ls_admitted_frames a =? ls_admitted_frames b))) ||
    ((ls_phase b =? LC_NO_CAPACITY) && negb (ls_phase a =? LC_STARTING) && negb (ls_phase a =? LC_NO_CAPACITY)) ||
    ((ls_phase b =? LC_CANCELLED_BEFORE_START) && any_of (ls_flags a) LC_SESSION_CREATED)) &&
  negb ((LC_STOPPED <=? ls_phase a) &&
    (negb (ls_phase a =? ls_phase b) || negb (ls_reason a =? ls_reason b) || negb (ls_epoch a =? ls_epoch b) ||
     negb (ls_accepted_frames a =? ls_accepted_frames b) || negb (ls_committed_frames a =? ls_committed_frames b) ||
     negb (ls_admitted_frames a =? ls_admitted_frames b) ||
     any_of (Z.lxor (ls_flags a) (ls_flags b)) (Z.lnot LC_USB_PRESENT))).
Definition lc_same_operation_progress (a b : ptr lc_state) : Z :=
  match a, b with
  | Some ao, Some bo =>
      if negb (lc_validate_state a =? LC_OK) || negb (lc_validate_state b =? LC_OK) then LC_INVALID
      else if progress (deref ao) (deref bo) then LC_OK else LC_INVALID
  | _, _ => LC_INVALID
  end.
End Profile.

(** * Responses *)
Record state_wf (s : lc_state) : Prop := {
  sw_boot : zlen (ls_boot s) = 16; sw_operation : zlen (ls_operation s) = 16;
  sw_recording : zlen (ls_recording s) = 16; sw_phase : 0 <= ls_phase s < 2 ^ 8; sw_reason : 0 <= ls_reason s < 2 ^ 8;
  sw_flags : 0 <= ls_flags s < 2 ^ 16; sw_epoch : 0 <= ls_epoch s < 2 ^ 32;
  sw_accepted : 0 <= ls_accepted_frames s < 2 ^ 32; sw_committed : 0 <= ls_committed_frames s < 2 ^ 32;
  sw_admitted : 0 <= ls_admitted_frames s < 2 ^ 32
}.

Definition response_shape : list (Z * Z) :=
  [(0, 1); (1, 1); (2, 1); (3, 1); (4, 2); (6, 2); (9, 16); (25, 16); (41, 16); (57, 1); (58, 1); (59, 2);
   (61, 4); (65, 4); (69, 4); (73, 4)].
Definition response_regions (r : lc_request) (s : lc_state) : list (Z * Z * bytes) :=
  [(0, 1, [0x4f]); (1, 1, [0x50]); (2, 1, [1]); (3, 1, [u8 (Z.lor (lr_command r) 128)]);
   (4, 2, le 2 (lr_sequence r)); (6, 2, le 2 73); (8, 1, fill 1 0); (9, 16, ls_boot s); (25, 16, ls_operation s);
   (41, 16, ls_recording s); (57, 1, [ls_phase s]); (58, 1, [ls_reason s]); (59, 2, le 2 (ls_flags s));
   (61, 4, le 4 (ls_epoch s)); (65, 4, le 4 (ls_accepted_frames s)); (69, 4, le 4 (ls_committed_frames s));
   (73, 4, le 4 (ls_admitted_frames s)); (77, 4, fill 4 0)].

Lemma response_reads r s base : state_wf s -> base = fill 81 0 ->
  zlen (blits (response_fields r s) base) = 81 /\ reads_as (blits (response_fields r s) base) (response_regions r s).
Proof.
  intros [] ->. assert (Hsh : shape_of (response_fields r s) = response_shape).
  { unfold shape_of, response_fields, put16, put32. cbn [map]. rewrite !zlen_le. by repeat f_equal. }
  assert (Hl : zlen (fill 81 0) = 81) by done. assert (Hf : fits 81 response_shape = true) by done.
  split; [by rewrite zlen_blits by (by rewrite Hl, Hsh)|]. unfold response_regions. reads_blits.
Qed.

(** The checks of [lc_parse_response] and the decoder read the regions back. *)
Definition response_frame (r : lc_request) (p : bytes) : bool :=
  negb (negb (znth 0 p =? 0x4f) || negb (znth 1 p =? 0x50) || negb (znth 2 p =? 1) ||
        negb (znth 3 p =? u8 (Z.lor (lr_command r) 128)) || negb (get16 4 p =? lr_sequence r) ||
        negb (get16 6 p =? 73) || negb (znth 8 p =? 0) || negb (zero (slice 77 4 p))).

Lemma response_decodes r s p :
  state_wf s -> 0 <= lr_sequence r < 2 ^ 16 -> zlen p = 81 -> is_bytes p ->
  reads_as p (response_regions r s) <-> response_frame r p = true /\ decode_state p = s.
Proof.
  intros [] Hq Hl Hp. unfold response_frame, reads_as, response_regions.
  rewrite negb_true_iff, !orb_false_iff, !negb_false_iff, !Z.eqb_eq, zero_spec, zlen_slice by lia.
  rewrite !Forall_cons, Forall_nil, fill_1, !slice1_znth by lia.
  rewrite !get16_slice, !get32_slice by (lia || done).
  destruct s; unfold decode_state; cbn in *. split; [intuition congruence|].
  intros [? [= <- <- <- <- <- <- <- <- <- <-]]. tauto.
Qed.

Lemma lc_span_addr {A B} a (x : A) (y : B) n : lc_span (Some (Obj a x)) n = lc_span (Some (Obj a y)) n.
Proof. done. Qed.

Section Correct.
Context (portable : bool).

Lemma lc_validate_ok s : lc_span s sizeof_lc_state = true ->
  (lc_validate_state portable s =? LC_OK) = match s with Some so => state_valid portable (deref so) | None => false end.
Proof. unfold lc_validate_state. destruct s as [so|]; [|done]. intros ->. by destruct (state_valid _ _). Qed.

(** C33. The response codec is exact: for a request, 81 bytes parse to a state if
    and only if they are the response [lc_encode_response] writes for that
    request and state.  Nothing but a valid state selected by the request is
    ever written or accepted, and no byte of a frame is free. *)
Theorem lc_response_roundtrip (r : obj lc_request) (s : obj lc_state) (out : ptr bytes) (p : obj bytes)
    (parsed : ptr lc_state)
    (Hwf : state_wf (deref s)) (Hq : 0 <= lr_sequence (deref r) < 2 ^ 16)
    (Hl : zlen (deref p) = LC_RESPONSE_BYTES) (Hp : is_bytes (deref p))
    (Hout : lc_separate out LC_RESPONSE_BYTES (Some r) sizeof_lc_request = true)
    (Hos : lc_separate out LC_RESPONSE_BYTES (Some s) sizeof_lc_state = true)
    (Hparsed : lc_separate (Some p) LC_RESPONSE_BYTES parsed sizeof_lc_state = true)
    (Hrp : lc_separate (Some r) sizeof_lc_request parsed sizeof_lc_state = true) :
  lc_parse_response portable (Some p) LC_RESPONSE_BYTES (Some r) parsed = (LC_OK, Some (deref s)) <->
  lc_encode_response portable out LC_RESPONSE_BYTES (Some r) (Some s) = (LC_OK, Some (deref p)).
Proof.
  unfold lc_parse_response, lc_encode_response.
  rewrite Hout, Hos, Hparsed, Hrp, Z.eqb_refl. cbn [negb orb].
  unfold lc_separate in Hos. apply andb_true_iff in Hos as [[_ Hsp]%andb_true_iff _]. rewrite lc_validate_ok by done.
  destruct (response_reads (deref r) (deref s) _ Hwf eq_refl) as [Hbl Hbr].
  pose proof (response_decodes (deref r) (deref s) (deref p) Hwf Hq Hl Hp) as Hd. unfold response_frame in Hd.
  destruct (_ || _); cbn [negb] in Hd.
  - split; [done|]. destruct (selected _ _ _); [|done]. cbn [negb]. intros [= E]. destruct (proj1 Hd) as [? _]; [|done].
    by rewrite <- E.
  - split.
    + destruct (selected _ _ _) eqn:Es; [|done]. intros [= E]. rewrite E in Es. rewrite Es. cbn [negb]. do 2 f_equal.
      apply (reads_as_eq (response_regions (deref r) (deref s)) 81); [done|done|done|done|by apply Hd].
    + destruct (selected _ _ _) eqn:Es; [|done]. cbn [negb]. intros [= E]. destruct (proj1 Hd) as [_ ->]; [by rewrite <- E|].
      by rewrite Es.
Qed.

(** * Progress *)
Record Progress (a b : lc_state) : Prop := {
  pg_named : identity (ls_operation a) = true;
  pg_boot : ls_boot a = ls_boot b; pg_operation : ls_operation a = ls_operation b;
  pg_recording : zero (ls_recording a) = false -> ls_recording a = ls_recording b;
  pg_portable : Z.land (ls_flags a) LC_PORTABLE = Z.land (ls_flags b) LC_PORTABLE;
  pg_epoch : ls_epoch a <> 0 -> ls_epoch a = ls_epoch b;
  pg_accepted : ls_accepted_frames a <= ls_accepted_frames b;
  pg_committed : ls_committed_frames a <= ls_committed_frames b;
  pg_phase : ls_phase a <= ls_phase b;
  pg_reason : ls_reason a <> 0 /\ ls_phase b <> LC_FAULT -> ls_reason a = ls_reason b;
  pg_session : any_of (ls_flags a) LC_SESSION_CREATED = true -> any_of (ls_flags b) LC_SESSION_CREATED = true;
  pg_capacity : any_of (ls_flags a) LC_CAPACITY_KNOWN = true ->
    any_of (ls_flags b) LC_CAPACITY_KNOWN = true /\ ls_admitted_frames a = ls_admitted_frames b;
  pg_no_capacity : ls_phase b = LC_NO_CAPACITY /\ ls_phase a <> LC_STARTING -> ls_phase a = LC_NO_CAPACITY;
  pg_cancelled : ls_phase b = LC_CANCELLED_BEFORE_START -> any_of (ls_flags a) LC_SESSION_CREATED = false;
  pg_terminal : LC_STOPPED <= ls_phase a ->
    ls_phase a = ls_phase b /\ ls_reason a = ls_reason b /\ ls_epoch a = ls_epoch b /\
    ls_accepted_frames a = ls_accepted_frames b /\ ls_committed_frames a = ls_committed_frames b /\
    ls_admitted_frames a = ls_admitted_frames b /\
    Z.land (ls_flags a) (Z.lnot LC_USB_PRESENT) = Z.land (ls_flags b) (Z.lnot LC_USB_PRESENT)
}.

Lemma any_of_lxor a b m : any_of (Z.lxor a b) m = false <-> Z.land a m = Z.land b m.
Proof. unfold any_of. rewrite negb_false_iff, Z.eqb_eq. apply land_lxor. Qed.

Lemma andb_guard (c d : bool) : c && d = false <-> (c = true -> d = false).
Proof. destruct c, d; cbn; intuition congruence. Qed.

Lemma progress_spec a b : progress a b = true <-> Progress a b.
Proof.
  unfold progress, same. rewrite andb_true_iff, !negb_true_iff, !orb_false_iff, !andb_guard, !any_of_lxor.
  rewrite !andb_true_iff, !orb_false_iff, !negb_true_iff, !negb_false_iff, !bool_decide_eq_true.
  rewrite !any_of_lxor, !Z.ltb_ge, !Z.eqb_neq, !Z.eqb_eq, Z.leb_le, !Logic.and_assoc.
  split; [intros H; destruct_and! H; by constructor|intros []; by split_and!].
Qed.

Lemma progress_trans a b c :
  0 <= ls_phase a -> (ls_phase a = LC_IDLE -> zero (ls_operation a) = true) -> Progress a b -> Progress b c -> Progress a c.
Proof.
  intros Hu Hidle AB BC. pose proof (identity_not_zero _ (pg_named _ _ AB)) as Hn.
  assert (Hpos : ls_phase a <> LC_IDLE) by (intros E; by rewrite Hidle in Hn). clear Hidle.
  pose proof (pg_phase _ _ AB) as PA. pose proof (pg_phase _ _ BC) as PB. split.
  - apply AB.
  - rewrite (pg_boot _ _ AB). apply BC.
  - rewrite (pg_operation _ _ AB). apply BC.
  - intros H. pose proof (pg_recording _ _ AB H) as E. rewrite E in *. by apply BC.
  - rewrite (pg_portable _ _ AB). apply BC.
  - intros H. pose proof (pg_epoch _ _ AB H) as E. rewrite E in *. by apply BC.
  - pose proof (pg_accepted _ _ AB). pose proof (pg_accepted _ _ BC). clear -H H0. lia.
  - pose proof (pg_committed _ _ AB). pose proof (pg_committed _ _ BC). clear -H H0. lia.
  - clear -PA PB. lia.
  - intros [H HF]. destruct (decide (ls_phase b = LC_FAULT)) as [E|E].
    + destruct (pg_terminal _ _ BC) as [E' _]; [rewrite E; unfold LC_STOPPED, LC_FAULT; lia|]. by rewrite E' in E.
    + pose proof (pg_reason _ _ AB (conj H E)) as E'. rewrite E' in *. by apply BC.
  - intros H. by apply (pg_session _ _ BC), AB.
  - intros H. destruct (pg_capacity _ _ AB H) as [H' ->]. by apply BC.
  - intros [HC Ha]. destruct (decide (ls_phase b = LC_STARTING)) as [E|E].
    + exfalso. clear -E PA Hpos Ha Hu. unfold LC_STARTING, LC_IDLE in *. lia.
    + apply (pg_no_capacity _ _ AB). split; [|done]. by apply (pg_no_capacity _ _ BC).
  - intros H. apply not_true_is_false. intros HS. pose proof (pg_session _ _ AB HS) as HS'.
    by rewrite (pg_cancelled _ _ BC H) in HS'.
  - intros H. destruct (pg_terminal _ _ AB H) as (-> & -> & -> & -> & -> & -> & ->). apply BC. by eapply Z.le_trans.
Qed.

Lemma state_valid_idle s : state_valid portable s = true -> ls_phase s = LC_IDLE -> zero (ls_operation s) = true.
Proof.
  unfold state_valid, state_phase. rewrite !andb_true_iff. intros [_ H] E. rewrite E in H. cbn [Z.eqb LC_IDLE] in H.
  rewrite !andb_true_iff in H. apply H.
Qed.

Lemma state_valid_cancelled s :
  state_valid portable s = true -> ls_phase s = LC_CANCELLED_BEFORE_START -> any_of (ls_flags s) LC_SESSION_CREATED = false.
Proof.
  unfold state_valid, state_phase. rewrite !andb_true_iff. intros [_ H] E. rewrite E in H.
  destruct (identity _); [|done]. cbn [negb Z.eqb Pos.eqb LC_IDLE LC_FAULT LC_NO_CAPACITY LC_CANCELLED_BEFORE_START] in H.
  destruct (any_of _ LC_FAULT_LATCH); [done|]. rewrite !andb_true_iff, negb_true_iff in H. destruct H as [_ H].
  unfold any_of in *. apply negb_false_iff, Z.eqb_eq. apply negb_false_iff, Z.eqb_eq in H.
  rewrite !Z.land_lor_distr_r, !Z.lor_eq_0_iff in H. apply H.
Qed.

Lemma lc_progress_inv a b : lc_same_operation_progress portable a b = LC_OK ->
  exists ao bo, a = Some ao /\ b = Some bo /\ lc_validate_state portable a = LC_OK /\ lc_validate_state portable b = LC_OK /\
    state_valid portable (deref ao) = true /\ Progress (deref ao) (deref bo).
Proof.
  unfold lc_same_operation_progress. destruct a as [ao|], b as [bo|]; try done.
  destruct (_ || _) eqn:E; [done|]. apply orb_false_iff in E as [E1%negb_false_iff%Z.eqb_eq E2%negb_false_iff%Z.eqb_eq].
  destruct (progress _ _) eqn:P; [|done]. intros _. exists ao, bo. split_and!; try done; [|by apply progress_spec].
  unfold lc_validate_state in E1. destruct (negb _); [done|]. by destruct (state_valid portable (deref ao)).
Qed.

Lemma lc_progress_intro ao bo :
  lc_validate_state portable (Some ao) = LC_OK -> lc_validate_state portable (Some bo) = LC_OK ->
  Progress (deref ao) (deref bo) -> lc_same_operation_progress portable (Some ao) (Some bo) = LC_OK.
Proof. unfold lc_same_operation_progress. intros -> -> ->%progress_spec. done. Qed.

(** The progress check is a preorder on valid states of a named operation,
    so accepting each consecutive pair of observations accepts every pair of
    them: an accepted state is an observation of itself, and two accepted steps
    compose.  In a terminal phase nothing but USB presence may still change. *)
Theorem lc_progress_preorder (a b c : ptr lc_state) (Hu : forall ao, a = Some ao -> 0 <= ls_phase (deref ao))
    (AB : lc_same_operation_progress portable a b = LC_OK) (BC : lc_same_operation_progress portable b c = LC_OK) :
  lc_same_operation_progress portable a c = LC_OK /\ lc_same_operation_progress portable a a = LC_OK /\
  forall ao co, a = Some ao -> c = Some co -> LC_STOPPED <= ls_phase (deref ao) ->
    ls_phase (deref co) = ls_phase (deref ao) /\ ls_committed_frames (deref co) = ls_committed_frames (deref ao) /\
    Z.land (ls_flags (deref co)) (Z.lnot LC_USB_PRESENT) = Z.land (ls_flags (deref ao)) (Z.lnot LC_USB_PRESENT).
Proof.
  apply lc_progress_inv in AB as (ao & bo & -> & -> & Va & Vb & Sa & AB).
  apply lc_progress_inv in BC as (? & co & [= <-] & -> & _ & Vc & _ & BC).
  assert (AC : Progress (deref ao) (deref co)) by (eapply progress_trans; [by apply Hu|by apply state_valid_idle|done|done]).
  split_and!; [by apply lc_progress_intro| |].
  - apply lc_progress_intro; [done|done|]. pose proof (pg_named _ _ AC). clear AB BC AC.
    constructor; try done; [tauto|by intros ?%state_valid_cancelled].
  - intros ? ? [= <-] [= <-] T. destruct (pg_terminal _ _ AC T) as (-> & _ & _ & _ & -> & _ & ->). done.
Qed.
End Correct.

(** * A concrete operation *)
Definition sample_lc_state (phase reason flags accepted committed : Z) : lc_state :=
  LcState (fill 16 1) (fill 16 2) (fill 16 3) phase reason flags 7 accepted committed 2000.
Definition lc_running : obj lc_state := Obj 0x20000 (sample_lc_state LC_RUNNING 0 (1 + 2 + 64 + 256) 900 500).
Definition lc_draining : obj lc_state := Obj 0x20100 (sample_lc_state LC_DRAINING 1 (1 + 4 + 64 + 256 + 512) 1000 600).
Definition lc_stopped : obj lc_state := Obj 0x20200 (sample_lc_state LC_STOPPED 1 (60 + 64 + 256 + 512) 1000 1000).
Definition sample_lc_request : obj lc_request :=
  Obj 0x20300 (LcRequest (fill 16 1) (fill 16 2) (fill 32 9) 5 LC_STATUS 0).
Definition sample_lc_response : bytes :=
  default [] (snd (lc_encode_response false (Some (Obj 0x20400 (fill 81 0))) 81 (Some sample_lc_request) (Some lc_running))).

Lemma lc_response_roundtrip_witness :
  lc_parse_response false (Some (Obj 0x20500 sample_lc_response)) LC_RESPONSE_BYTES (Some sample_lc_request)
    (Some lc_stopped) = (LC_OK, Some (deref lc_running)).
Proof.
  apply (lc_response_roundtrip false sample_lc_request lc_running (Some (Obj 0x20400 (fill 81 0)))
           (Obj 0x20500 sample_lc_response)); [|by vm_compute| |by apply is_bytesb_sound; vm_compute|..].
  - by split; vm_compute.
  - by vm_compute.
  - by vm_compute.
  - by vm_compute.
  - by vm_compute.
  - by vm_compute.
  - by vm_compute.
Defined.

Lemma lc_progress_preorder_witness :
  lc_same_operation_progress false (Some lc_running) (Some lc_draining) = LC_OK /\
  lc_same_operation_progress false (Some lc_running) (Some lc_stopped) = LC_OK.
Proof.
  split; [by vm_compute|].
  apply (lc_progress_preorder false (Some lc_running) (Some lc_draining) (Some lc_stopped)); [by intros ? [= <-]|by vm_compute..].
Defined.
