(* ===== verification/RecordingControl.v ===== *)
(** The recording coordinator ([recording_control.c/.h]): commands from the
    phone and taps of the button become tickets, each handed once to the worker;
    STOP latches; the worker publishes progress.  A call is a sequence of
    sections, each run under the gate, with callbacks between them made without
    it; a section that finds the gate taken goes another way, and other calls run
    between two sections of one call. *)
From S2P Require Import Prelude ButtonGesture LongControl.

Definition LRC_OPERATIONS : Z := 32.
Definition LRC_PREPARE_MS : Z := 120000.
Definition LRC_LOCAL_TICKET : Z := 0x80000000.
Definition LRC_OK : Z := 0.
Definition LRC_PENDING : Z := 1.
Definition LRC_DEFERRED : Z := 2.
Definition LRC_PAIRING_REQUEST : Z := 3.
Definition LRC_ARGUMENT : Z := -1.
Definition LRC_BUSY : Z := -2.
Definition LRC_REFUSED : Z := -3.
Definition LRC_FAULT : Z := -4.
#[export] Instance eta_lc_state : Eta lc_state := fun s =>
  LcState (ls_boot s) (ls_operation s) (ls_recording s) (ls_phase s) (ls_reason s) (ls_flags s) (ls_epoch s)
    (ls_accepted_frames s) (ls_committed_frames s) (ls_admitted_frames s).
Definition zero_lc_state : lc_state := LcState (fill 16 0) (fill 16 0) (fill 16 0) 0 0 0 0 0 0 0.

(** [struct recording_control], but the port. *)
Record control := Control {
  rc_gate : Z; rc_stop : list Z; rc_issued : Z; rc_fault : Z; rc_submitting : Z;
  rc_states : list lc_state; rc_idle : lc_state; rc_binding : bytes;
  rc_last_now : Z; rc_connection : Z; rc_last_connection : Z; rc_sequence : Z;
  rc_initialized : Z; rc_used : Z; rc_current : Z; rc_armed : Z; rc_button_ticket : Z; rc_armed_deadline : Z;
  rc_button : button_gesture; rc_local : lc_state; rc_local_ticket : Z; rc_local_stop : Z;
  rc_local_count : Z; rc_standalone : Z; rc_button_local_ready : Z
}.
#[export] Instance eta_control : Eta control := fun c =>
  Control (rc_gate c) (rc_stop c) (rc_issued c) (rc_fault c) (rc_submitting c) (rc_states c) (rc_idle c) (rc_binding c)
    (rc_last_now c) (rc_connection c) (rc_last_connection c) (rc_sequence c) (rc_initialized c) (rc_used c)
    (rc_current c) (rc_armed c) (rc_button_ticket c) (rc_armed_deadline c) (rc_button c) (rc_local c)
    (rc_local_ticket c) (rc_local_stop c) (rc_local_count c) (rc_standalone c) (rc_button_local_ready c).
Definition sizeof_control : Z := 2640.

(** What the port and the gate answer during one move: [an_enter] is false when
    another call is inside its section. *)
Record answers := Answers {
  an_enter : bool; an_now : Z; an_authorized : Z; an_usb : Z; an_ready : Z; an_queued : Z
}.
(** The arguments of a command past its checks, with the answer about USB. *)
Record command := Command { cm_conn : Z; cm_request : lc_request; cm_usb : Z; cm_reply : ptr bytes }.
(** Where a call stands between two moves: about to hand a ticket to
    [queue_start], back from it, about to reply, or over.  [Undefined]: it has
    followed a null pointer or left an array. *)
Inductive point :=
| Returned (rc : Z) (reply : option bytes) (out : option lc_state)
| Undefined
| CommandQueue (k : command) (ticket deadline : Z)
| CommandQueued (k : command) (ticket queued : Z)
| CommandReply (k : command) (ticket : Z)
| ButtonQueue (usb ticket deadline : Z)
| ButtonQueued (usb ticket queued : Z).
Inductive event := EvQueue (ticket deadline queued : Z) | EvWake.
Definition result : Type := control * point * list event.
Definition returns (c : control) (rc : Z) : result := (c, Returned rc None None, []).

(** ** Helpers *)
Definition rc_separate {A B} (a : ptr A) (n : Z) (b : ptr B) (m : Z) : bool :=
  match a, b with
  | Some a, Some b =>
      (n <=? UINTPTR_MAX - addr a) && (m <=? UINTPTR_MAX - addr b) && ((addr a + n <=? addr b) || (addr b + m <=? addr a))
  | _, _ => false
  end.
Definition enter (e : answers) (c : control) : bool := an_enter e && (rc_gate c =? 0).
Definition leave (c : control) (rc : Z) : result := returns (c <| rc_gate := 0 |>) rc.
Definition active (s : lc_state) : bool := (LC_STARTING <=? ls_phase s) && (ls_phase s <=? LC_DRAINING).
Definition is_local (ticket : Z) : bool := any_of ticket LRC_LOCAL_TICKET.
Definition state_at (c : control) (ticket : Z) : option lc_state :=
  if is_local ticket then if ticket =? rc_local_ticket c then Some (rc_local c) else None
  else if negb (ticket =? 0) && (ticket <=? rc_used c) then rc_states c !! Z.to_nat (ticket - 1) else None.
(** [c->states[ticket-1U]] *)
Definition slot (c : control) (ticket : Z) : option lc_state :=
  if ticket =? 0 then None else rc_states c !! Z.to_nat (ticket - 1).
Definition set_slot (ticket : Z) (s : lc_state) (c : control) : control :=
  c <| rc_states ::= <[Z.to_nat (ticket - 1) := s]> |>.
Definition set_stop (ticket v : Z) (c : control) : control := c <| rc_stop ::= <[Z.to_nat (ticket - 1) := v]> |>.
(** [*state_at(c,ticket)=s] *)
Definition set_state (ticket : Z) (s : lc_state) (c : control) : control :=
  if is_local ticket then c <| rc_local := s |> else set_slot ticket s c.
Definition stop_ticket (ticket : Z) (c : control) : control :=
  if is_local ticket then if ticket =? rc_local_ticket c then c <| rc_local_stop := 1 |> else c
  else if negb (ticket =? 0) && (ticket <=? rc_used c) then set_stop ticket 1 c else c.
Fixpoint find_slot (operation : bytes) (l : list lc_state) (i : Z) : Z :=
  match l with
  | [] => 0
  | s :: l => if same operation (ls_operation s) then i + 1 else find_slot operation l (i + 1)
  end.
Definition find_operation (c : control) (operation : bytes) : Z :=
  if negb (rc_local_ticket c =? 0) && same operation (ls_operation (rc_local c)) then rc_local_ticket c
  else find_slot operation (take (Z.to_nat (rc_used c)) (rc_states c)) 0.
Definition local_operation (boot : bytes) (count : Z) : bytes :=
  blits [(0, [Z.lxor (znth 0 boot) 0xa5]); (1, [Z.lxor (znth 1 boot) 0x73]);
         (6, [Z.lor (Z.land (znth 6 boot) 15) 0x40]); (8, [Z.lor (Z.land (znth 8 boot) 63) 0x80]); (12, be 4 count)] boot.
Definition local_namespace (c : control) (operation : bytes) : bool :=
  same (slice 0 12 operation) (slice 0 12 (local_operation (ls_boot (rc_idle c)) 0)).
(** [c->fault||tick(c,&t)], and what is done otherwise. *)
Definition unless_late (e : answers) (c : control) (no k : control -> result) : result :=
  if negb (rc_fault c =? 0) then no c else
  if an_now e <? rc_last_now c then no (c <| rc_fault := 1 |>) else k (c <| rc_last_now := an_now e |>).
Definition follow {A} (c : control) (p : option A) (k : A -> result) : result :=
  match p with Some s => k s | None => (c, Undefined, []) end.
(** [c->current&&active(state_at(c,c->current))] *)
Definition current_active (c : control) : option bool :=
  if rc_current c =? 0 then Some false else
  match state_at c (rc_current c) with Some s => Some (active s) | None => None end.

Section Coordinator.
(** The build profile, and the addresses of the coordinator and of the locals
    [request] and [snapshot]. *)
Context (portable : bool) (self request_at snapshot_at : Z).
Definition LC_PROFILE_FLAGS : Z := if portable then LC_PORTABLE else 0.
(** [!LC_PROFILE_FLAGS&&usb!=1] *)
Definition no_power (usb : Z) : bool := (LC_PROFILE_FLAGS =? 0) && negb (usb =? 1).
Definition usb_flag (usb : Z) : Z := if negb (usb =? 0) then LC_USB_PRESENT else 0.
Definition state_addr (ticket : Z) : Z := if is_local ticket then self + 2552 else self + 172 + 68 * (ticket - 1).

Definition started_state (s : lc_state) (operation : bytes) (boot : bytes) (usb : Z) : lc_state :=
  s <| ls_boot := boot |> <| ls_operation := operation |> <| ls_phase := LC_STARTING |>
    <| ls_flags := Z.lor LC_PROFILE_FLAGS (Z.lor (usb_flag usb) (Z.lor LC_PRODUCER_JOINED LC_STORAGE_JOINED)) |>.
Definition cancelled_state (s : lc_state) (usb : Z) : lc_state :=
  s <| ls_phase := LC_CANCELLED_BEFORE_START |> <| ls_reason := 1 |>
    <| ls_flags := Z.lor LC_PROFILE_FLAGS (Z.lor LC_PRODUCER_JOINED (Z.lor LC_STORAGE_JOINED (Z.lor LC_RELEASED (usb_flag usb)))) |>.
Definition refused_state (s : lc_state) (usb : Z) : lc_state :=
  s <| ls_phase := LC_FAULT |> <| ls_reason := 10 |>
    <| ls_flags := Z.lor LC_PROFILE_FLAGS (Z.lor LC_FAULT_LATCH (usb_flag usb)) |>.
Definition cancel_arm (usb : Z) (c : control) (k : control -> result) : result :=
  follow c (slot c (rc_armed c)) (fun s =>
    k ((set_slot (rc_armed c) (cancelled_state s usb) (set_stop (rc_armed c) 1 c)) <| rc_armed := 0 |> <| rc_armed_deadline := 0 |>)).

(** [lock_free]: what [atomic_is_lock_free] answers; [port]: every callback is there. *)
Definition idle_state (boot : bytes) : lc_state :=
  zero_lc_state <| ls_boot := boot |>
    <| ls_flags := Z.lor LC_PROFILE_FLAGS (Z.lor LC_PRODUCER_JOINED (Z.lor LC_STORAGE_JOINED LC_RELEASED)) |>.
Definition fresh_control (boot binding : bytes) : control :=
  Control 0 (fill LRC_OPERATIONS 0) 0 0 0 (fill LRC_OPERATIONS zero_lc_state) (idle_state boot) binding
    0 0 0 0 1 0 0 0 0 0 zero_gesture zero_lc_state 0 0 0 0 0.
Definition lrc_init (c : control) (port : ptr bool) (boot binding : ptr bytes) (lock_free : bool) : Z * option control :=
  let cp := Some (Obj self c) in
  if negb (rc_separate cp sizeof_control port 28) || negb (rc_separate cp sizeof_control boot 16) ||
     negb (rc_separate cp sizeof_control binding 32) then (LRC_ARGUMENT, None) else
  match port, boot, binding with
  | Some p, Some bo, Some bi =>
      if negb (deref p) || negb (rc_initialized c =? 0) || negb (identity (slice 0 16 (deref bo))) ||
         negb (identity (slice 0 32 (deref bi))) then (LRC_ARGUMENT, None) else
      if negb lock_free then (LRC_REFUSED, Some ((fresh_control (fill 16 0) (fill 32 0)) <| rc_initialized := 0 |> <| rc_idle := zero_lc_state |>))
      else (LRC_OK, Some (fresh_control (slice 0 16 (deref bo)) (slice 0 32 (deref bi))))
  | _, _, _ => (LRC_ARGUMENT, None)
  end.

(** Safe while another call holds the gate. *)
Definition lrc_stop_requested (c : control) (ticket : Z) : Z :=
  if (rc_initialized c =? 0) || (ticket =? 0) || negb (rc_fault c =? 0) then -1 else
  if is_local ticket then if ticket =? rc_local_ticket c then rc_local_stop c else -1 else
  if rc_issued c <? ticket then -1 else
  if negb (znth (ticket - 1) (rc_stop c) =? 0) then 1 else 0.

(** ** [lrc_command], section by section *)
(** The claim of a connection and of a sequence number: whether it is granted. *)
Definition admit_sequence (conn sequence : Z) (c : control) : control * bool :=
  if negb (rc_connection c =? 0) && negb (rc_connection c =? conn) then (c, false) else
  if (rc_connection c =? 0) && (conn <=? rc_last_connection c) then (c, false) else
  let c := if rc_connection c =? 0
           then c <| rc_connection := conn |> <| rc_last_connection := conn |> <| rc_sequence := 0 |> else c in
  if sequence <=? rc_sequence c then (c, false) else (c <| rc_sequence := sequence |>, true).
Definition button_clear (g : button_gesture) : bool :=
  negb ((bg_seen g =? 0) || negb (bg_candidate g =? 0) || negb (bg_stable g =? 0) || negb (bg_count g =? 0)).
(** A START with an operation not seen before. *)
Definition command_start (k : command) (ready now : Z) (c : control) : result :=
  let r := cm_request k in
  let go busy :=
    if busy || (UINT64_MAX - LRC_PREPARE_MS <? now) || ((lr_mode r =? 2) && negb (button_clear (rc_button c)))
    then leave c LRC_REFUSED else
    let ticket := u32 (rc_used c + 1) in
    follow c (slot c ticket) (fun s =>
      let s := started_state s (lr_operation r) (ls_boot (rc_idle c)) (cm_usb k) in
      let c := (set_stop ticket 0 (set_slot ticket s c)) <| rc_used := ticket |> <| rc_current := ticket |> <| rc_issued := ticket |> in
      if lr_mode r =? 2 then
        ((set_slot ticket (s <| ls_flags ::= fun f => Z.lor f LC_BUTTON_ARMED |>) c)
           <| rc_armed := ticket |> <| rc_armed_deadline := u64 (now + LRC_PREPARE_MS) |> <| rc_gate := 0 |>,
         CommandReply k ticket, [])
      else
        (c <| rc_submitting := 1 |> <| rc_gate := 0 |>, CommandQueue k ticket (u64 (now + LRC_PREPARE_MS)), [])) in
  if negb (ready =? 1) || no_power (cm_usb k) || (rc_used c =? LRC_OPERATIONS) then leave c LRC_REFUSED
  else follow c (current_active c) go.
(** STATUS, STOP, and a START already known. *)
Definition command_known (k : command) (ticket : Z) (c : control) : result :=
  let r := cm_request k in
  let stop := (lr_command r =? LC_STOP) && negb (ticket =? 0) in
  let close c := (c <| rc_gate := 0 |>, CommandReply k ticket, if lr_command r =? LC_STOP then [EvWake] else []) in
  if negb stop then close c else
  follow c (state_at c ticket) (fun s =>
    let c := if active s then stop_ticket ticket c else c in
    if rc_armed c =? ticket then cancel_arm (cm_usb k) c close else close c).
Definition command_admit (e : answers) (k : command) (ready : Z) (c : control) : result :=
  let r := cm_request k in
  unless_late e c (fun c => leave c LRC_REFUSED) (fun c =>
    if negb (rc_submitting c =? 0) then leave c LRC_REFUSED else
    let '(c, granted) := admit_sequence (cm_conn k) (lr_sequence r) c in
    if negb granted then leave c LRC_REFUSED else
    let ticket := if zero (lr_operation r) then rc_current c else find_operation c (lr_operation r) in
    if (lr_command r =? LC_START) && local_namespace c (lr_operation r) then leave c LRC_REFUSED else
    if (lr_command r =? LC_START) && (ticket =? 0) then command_start k ready (an_now e) c else
    if (ticket =? 0) && negb (zero (lr_operation r)) then leave c LRC_REFUSED
    else command_known k ticket c).
Definition command_queued (e : answers) (k : command) (ticket queued : Z) (c : control) : result :=
  if negb (enter e c) then
    returns ((if negb (queued =? 0) then c <| rc_fault := 1 |> else c) <| rc_submitting := 0 |>)
      (if negb (queued =? 0) then LRC_FAULT else LRC_BUSY)
  else
    let c := c <| rc_gate := 1 |> <| rc_submitting := 0 |> in
    if queued =? 0 then (c <| rc_gate := 0 |>, CommandReply k ticket, []) else
    follow c (slot c ticket) (fun s =>
      if negb (ls_phase s =? LC_STARTING) || negb (ls_epoch s =? 0) then leave (c <| rc_fault := 1 |>) LRC_FAULT else
      ((set_slot ticket (refused_state s (cm_usb k)) c) <| rc_gate := 0 |>, CommandReply k ticket, [])).
(** The state a reply reports: STOP as it is requested now, USB as it was read. *)
Definition reported (c : control) (ticket usb : Z) (s : lc_state) : lc_state :=
  let s := if negb (ticket =? 0) && (lrc_stop_requested c ticket =? 1) then s <| ls_flags ::= fun f => Z.lor f LC_STOP_REQUESTED |> else s in
  s <| ls_flags ::= fun f => Z.lor (Z.land f (Z.lnot LC_USB_PRESENT)) (usb_flag usb) |>.
Definition reply_with (k : command) (s : lc_state) (c : control) : result :=
  let '(rc, frame) := lc_encode_response portable (cm_reply k) LC_RESPONSE_BYTES (Some (Obj request_at (cm_request k)))
                        (Some (Obj snapshot_at s)) in
  (c <| rc_gate := 0 |>, Returned (if negb (rc =? 0) then LRC_PENDING else LRC_OK) frame None, []).
Definition command_reply (e : answers) (k : command) (ticket : Z) (c : control) : result :=
  if negb (enter e c) then returns c LRC_BUSY else
  let c := c <| rc_gate := 1 |> in
  unless_late e c (fun c => leave c LRC_REFUSED) (fun c =>
    if negb (rc_connection c =? cm_conn k) || negb (rc_sequence c =? lr_sequence (cm_request k)) then leave c LRC_REFUSED else
    if ticket =? 0 then reply_with k (reported c ticket (cm_usb k) (rc_idle c)) c else
    match state_at c ticket with
    | None => leave c LRC_REFUSED
    | Some s => reply_with k (reported c ticket (cm_usb k) s) c
    end).

(** The parse of a frame against the coordinator's binding and boot. *)
Definition parse (c : control) (frame : ptr bytes) (n : Z) : Z * option lc_request :=
  lc_parse_request frame n (Some (Obj (self + 2416) (rc_binding c))) (Some (Obj (self + 2348) (ls_boot (rc_idle c))))
    (Some (Obj request_at (LcRequest [] [] [] 0 0 0))).
Definition lrc_command (e : answers) (conn : Z) (frame : ptr bytes) (n : Z) (reply : ptr bytes) (c : control) : result :=
  let cp := Some (Obj self c) in
  if negb (rc_separate cp sizeof_control frame n) || negb (rc_separate cp sizeof_control reply LC_RESPONSE_BYTES) ||
     (rc_initialized c =? 0) || (conn =? 0) then returns c LRC_ARGUMENT else
  match parse c frame n with
  | (0, Some r) =>
      if negb (an_authorized e =? 1) then returns c LRC_REFUSED else
      if negb (an_usb e =? 0) && negb (an_usb e =? 1) then returns c LRC_REFUSED else
      if negb (enter e c) then returns c LRC_DEFERRED else
      command_admit e (Command conn r (an_usb e) reply) (if lr_command r =? LC_START then an_ready e else 0) (c <| rc_gate := 1 |>)
  | _ => returns c LRC_ARGUMENT
  end.

(** ** The other calls *)
(** A call that reports a condition. *)
Definition flagged (ok : bool) : Z := if ok then 1 else 0.
Definition lrc_reply_allowed (e : answers) (conn seq : Z) (c : control) : result :=
  if (rc_initialized c =? 0) || (conn =? 0) || (seq =? 0) || negb (an_authorized e =? 1) || negb (enter e c) then returns c 0 else
  unless_late e (c <| rc_gate := 1 |>) (fun c => leave c 0) (fun c =>
    leave c (flagged ((rc_connection c =? conn) && (rc_sequence c =? seq)))).
Definition lrc_disconnected (e : answers) (conn : Z) (c : control) : result :=
  if (rc_initialized c =? 0) || (conn =? 0) then returns c LRC_ARGUMENT else
  if negb (enter e c) then returns c LRC_BUSY else
  if negb (rc_connection c =? conn) then
    if conn <=? rc_last_connection c then returns c LRC_REFUSED
    else returns (c <| rc_last_connection := conn |>) 0
  else (c <| rc_connection := 0 |> <| rc_sequence := 0 |>, Returned 0 None None, [EvWake]).
Definition lrc_pending_reply (e : answers) (conn : Z) (frame : ptr bytes) (n : Z) (out : ptr bytes) (c : control) : result :=
  let cp := Some (Obj self c) in
  if negb (rc_separate cp sizeof_control frame n) || negb (rc_separate cp sizeof_control out LC_RESPONSE_BYTES) ||
     (rc_initialized c =? 0) then returns c LRC_ARGUMENT else
  match parse c frame n with
  | (0, Some r) =>
      if negb (an_authorized e =? 1) then returns c LRC_REFUSED else
      if negb (an_usb e =? 0) && negb (an_usb e =? 1) then returns c LRC_REFUSED else
      if negb (enter e c) then returns c LRC_BUSY else
      unless_late e (c <| rc_gate := 1 |>) (fun c => leave c LRC_REFUSED) (fun c =>
        if negb (rc_connection c =? conn) || negb (rc_sequence c =? lr_sequence r) then leave c LRC_REFUSED else
        if negb (rc_submitting c =? 0) then leave c LRC_BUSY else
        let ticket := if zero (lr_operation r) then rc_current c else find_operation c (lr_operation r) in
        let k := Command conn r (an_usb e) out in
        if ticket =? 0 then
          if negb (zero (lr_operation r)) then leave c LRC_REFUSED
          else reply_with k (reported c ticket (an_usb e) (rc_idle c)) c
        else follow c (state_at c ticket) (fun s => reply_with k (reported c ticket (an_usb e) s) c))
  | _ => returns c LRC_ARGUMENT
  end.
Definition lrc_publish (e : answers) (ticket : Z) (s : ptr lc_state) (c : control) : result :=
  if negb (rc_separate (Some (Obj self c)) sizeof_control s sizeof_lc_state) || (rc_initialized c =? 0) then returns c LRC_ARGUMENT else
  if negb (enter e c) then returns c LRC_BUSY else
  match state_at c ticket, s with
  | Some target, Some so =>
      if negb (rc_fault c =? 0) || negb (ticket =? rc_current c) then returns c LRC_REFUSED else
      if negb (lc_same_operation_progress portable (Some (Obj (state_addr ticket) target)) s =? 0)
      then returns (c <| rc_fault := 1 |>) LRC_FAULT
      else returns (set_state ticket (deref so) c) 0
  | _, _ => returns c LRC_REFUSED
  end.
Definition lrc_snapshot (e : answers) (ticket : Z) (out : ptr lc_state) (c : control) : result :=
  if negb (rc_separate (Some (Obj self c)) sizeof_control out sizeof_lc_state) || (rc_initialized c =? 0) then returns c LRC_ARGUMENT else
  if negb (enter e c) then returns c LRC_BUSY else
  if negb (rc_fault c =? 0) then returns c LRC_REFUSED else
  if ticket =? 0 then (c, Returned 0 None (Some (rc_idle c)), []) else
  match state_at c ticket with
  | None => returns c LRC_REFUSED
  | Some s => (c, Returned 0 None (Some s), [])
  end.
(** A successful claim keeps the gate until it is released. *)
Definition lrc_maintenance_claim (e : answers) (c : control) : result :=
  if (rc_initialized c =? 0) || negb (enter e c) then returns c 0 else
  follow c (current_active c) (fun busy =>
    let idle := (rc_fault c =? 0) && (rc_submitting c =? 0) && (rc_armed c =? 0) && negb busy in
    returns (if idle then c <| rc_gate := 1 |> else c) (flagged idle)).
Definition lrc_maintenance_release (c : control) : result := leave c 0.
Definition lrc_set_standalone (e : answers) (enabled : Z) (c : control) : result :=
  if (rc_initialized c =? 0) || (negb (enabled =? 0) && negb (enabled =? 1)) || negb (enter e c) then returns c LRC_ARGUMENT else
  if negb (rc_fault c =? 0) || negb (rc_submitting c =? 0) || negb (rc_armed c =? 0) then returns c LRC_REFUSED else
  follow c (current_active c) (fun busy =>
    if busy then returns c LRC_REFUSED else
    returns (c <| rc_standalone := enabled |> <| rc_button := zero_gesture |> <| rc_button_local_ready := 0 |>) 0).

(** ** [lrc_button_sample], section by section *)
(** [BG_PRESS]: what a press at this moment can lead to. *)
Definition button_press (c : control) (k : control -> result) : result :=
  let c := c <| rc_button_ticket := rc_current c |> in
  if rc_standalone c =? 0 then k (c <| rc_button_local_ready := 0 |>) else
  follow c (current_active c) (fun busy => k (c <| rc_button_local_ready := flagged (negb busy) |>)).
Definition button_five (c : control) : result :=
  let finish (idle : bool) := leave (c <| rc_button_local_ready := 0 |>) (if idle then LRC_PAIRING_REQUEST else LRC_REFUSED) in
  if negb (rc_button_local_ready c =? 0) && (rc_button_ticket c =? rc_current c) && (rc_armed c =? 0)
  then follow c (current_active c) (fun busy => finish (negb busy)) else finish false.
(** A tap with nothing to stop: a recording of the device's own. *)
Definition local_start (usb t : Z) (c : control) : result :=
  let count := rc_local_count c + 1 in
  let ticket := Z.lor LRC_LOCAL_TICKET count in
  let boot := ls_boot (rc_idle c) in
  (c <| rc_local_count := count |>
     <| rc_local := started_state zero_lc_state (local_operation boot count) boot usb |>
     <| rc_local_stop := 0 |> <| rc_local_ticket := ticket |> <| rc_current := ticket |> <| rc_submitting := 1 |>
     <| rc_button_local_ready := 0 |> <| rc_gate := 0 |>,
   ButtonQueue usb ticket (u64 (t + LRC_PREPARE_MS)), []).
Definition button_single (usb ready t : Z) (c : control) : result :=
  let selected := rc_button_ticket c in
  let c := c <| rc_button_ticket := 0 |> in
  let close c := leave (c <| rc_button_local_ready := 0 |>) 0 in
  let tap (live : bool) :=
    if live then
      if rc_armed c =? selected then
        if negb (ready =? 1) || no_power usb || (UINT64_MAX - LRC_PREPARE_MS <? t) then cancel_arm (flagged (usb =? 1)) c close else
        follow c (slot c selected) (fun s =>
          ((set_slot selected (s <| ls_flags ::= fun f => Z.land f (Z.lnot LC_BUTTON_ARMED) |>) c)
             <| rc_armed := 0 |> <| rc_armed_deadline := 0 |> <| rc_submitting := 1 |> <| rc_button_local_ready := 0 |> <| rc_gate := 0 |>,
           ButtonQueue usb selected (u64 (t + LRC_PREPARE_MS)), []))
      else ((stop_ticket selected c) <| rc_button_local_ready := 0 |> <| rc_gate := 0 |>, Returned 0 None None, [EvWake])
    else if (selected =? rc_current c) && negb (rc_button_local_ready c =? 0) && negb (rc_standalone c =? 0) && (ready =? 1) &&
            negb (no_power usb) && (rc_local_count c <? LRC_LOCAL_TICKET - 1) && (t <=? UINT64_MAX - LRC_PREPARE_MS)
    then local_start usb t c
    else close c in
  if negb (selected =? 0) && (selected =? rc_current c)
  then follow c (state_at c selected) (fun s => tap (active s)) else tap false.
Definition button_event (pressed usb ready t : Z) (c : control) : result :=
  let '(event, button) := bg_sample (rc_button c) pressed t in
  let c := c <| rc_button := button |> in
  if negb (pressed =? 0) && negb (pressed =? 1) then leave (c <| rc_button_local_ready := 0 |>) LRC_REFUSED else
  match event with
  | BG_PRESS => button_press c (fun c => leave c 0)
  | BG_FIVE => button_five c
  | BG_SINGLE => button_single usb ready t c
  | BG_NONE => leave c 0
  end.
Definition lrc_button_sample (e : answers) (pressed : Z) (c : control) : result :=
  if rc_initialized c =? 0 then returns c LRC_ARGUMENT else
  let usb := an_usb e in let ready := an_ready e in
  if negb (enter e c) then returns c LRC_BUSY else
  unless_late e (c <| rc_gate := 1 |>) (fun c => leave c LRC_REFUSED) (fun c =>
    if negb (rc_submitting c =? 0) then leave c LRC_REFUSED else
    let t := rc_last_now c in
    if negb (rc_armed c =? 0) && (no_power usb || (pressed <? 0) || (rc_armed_deadline c <=? t))
    then cancel_arm (flagged (usb =? 1)) c (button_event pressed usb ready t)
    else button_event pressed usb ready t c).
Definition button_queued (e : answers) (usb ticket queued : Z) (c : control) : result :=
  if negb (enter e c) then
    returns ((if negb (queued =? 0) then c <| rc_fault := 1 |> else c) <| rc_submitting := 0 |>)
      (if negb (queued =? 0) then LRC_FAULT else LRC_BUSY)
  else
    let c := c <| rc_gate := 1 |> <| rc_submitting := 0 |> in
    if queued =? 0 then leave c 0 else
    follow c (state_at c ticket) (fun s => leave (set_state ticket (refused_state s (flagged (usb =? 1))) c) LRC_REFUSED).

(** ** Moves.  A call starts with its first section; [advance] takes a call from
    where it stands through its next section or callback. *)
Inductive call :=
| Lrc_command (conn : Z) (frame : ptr bytes) (n : Z) (reply : ptr bytes)
| Lrc_reply_allowed (conn seq : Z)
| Lrc_disconnected (conn : Z)
| Lrc_pending_reply (conn : Z) (frame : ptr bytes) (n : Z) (out : ptr bytes)
| Lrc_publish (ticket : Z) (s : ptr lc_state)
| Lrc_snapshot (ticket : Z) (out : ptr lc_state)
| Lrc_maintenance_claim | Lrc_maintenance_release
| Lrc_set_standalone (enabled : Z)
| Lrc_button_sample (pressed : Z).
Definition start (o : call) (e : answers) (c : control) : result :=
  match o with
  | Lrc_command conn frame n reply => lrc_command e conn frame n reply c
  | Lrc_reply_allowed conn seq => lrc_reply_allowed e conn seq c
  | Lrc_disconnected conn => lrc_disconnected e conn c
  | Lrc_pending_reply conn frame n out => lrc_pending_reply e conn frame n out c
  | Lrc_publish ticket s => lrc_publish e ticket s c
  | Lrc_snapshot ticket out => lrc_snapshot e ticket out c
  | Lrc_maintenance_claim => lrc_maintenance_claim e c
  | Lrc_maintenance_release => lrc_maintenance_release c
  | Lrc_set_standalone enabled => lrc_set_standalone e enabled c
  | Lrc_button_sample pressed => lrc_button_sample e pressed c
  end.
Definition advance (e : answers) (p : point) (c : control) : result :=
  match p with
  | Returned _ _ _ | Undefined => (c, p, [])
  | CommandQueue k ticket deadline => (c, CommandQueued k ticket (an_queued e), [EvQueue ticket deadline (an_queued e)])
  | CommandQueued k ticket queued => command_queued e k ticket queued c
  | CommandReply k ticket => command_reply e k ticket c
  | ButtonQueue usb ticket deadline => (c, ButtonQueued usb ticket (an_queued e), [EvQueue ticket deadline (an_queued e)])
  | ButtonQueued usb ticket queued => button_queued e usb ticket queued c
  end.
End Coordinator.
