(* ===== verification/ControlSafety.v ===== *)
(** The recording coordinator, proved: whatever calls run, however their
    sections interleave and whatever the port answers. *)
From S2P Require Import Prelude ButtonGesture LongControl RecordingControl.
From Stdlib Require Import ZifyBool.

(** * The system: one coordinator, the calls in progress, the callbacks made *)
Record system := System { sy_control : control; sy_calls : list point; sy_log : list event }.
Inductive move := Begin (o : call) (e : answers) | Continue (i : nat) (e : answers).
Definition make (portable : bool) (self request_at snapshot_at : Z) (m : move) (s : system) : system :=
  match m with
  | Begin o e =>
      let '(c, p, evs) := start portable self request_at snapshot_at o e (sy_control s) in
      System c (sy_calls s ++ [p]) (sy_log s ++ evs)
  | Continue i e =>
      match sy_calls s !! i with
      | None => s
      | Some p =>
          let '(c, p, evs) := advance portable request_at snapshot_at e p (sy_control s) in
          System c (<[i := p]> (sy_calls s)) (sy_log s ++ evs)
      end
  end.

(** What the worker owes: it publishes only tickets [queue_start] admitted. *)
Definition accepted_by (t : Z) (e : event) : bool :=
  match e with EvQueue u _ q => (u =? t) && (q =? 0) | EvWake => false end.
Definition contract_call (log : list event) (o : call) : Prop :=
  match o with
  | Lrc_publish t p => 0 <= t < 2 ^ 32 /\ existsb (accepted_by t) log = true /\
      match p with Some so => 0 <= ls_phase (deref so) | None => True end
  | _ => True
  end.
Definition contract (s : system) (m : move) : Prop :=
  match m with Begin o _ => contract_call (sy_log s) o | Continue _ _ => True end.
Definition queued_ticket (e : event) : option Z := match e with EvQueue t _ _ => Some t | EvWake => None end.
Definition queued (log : list event) : list Z := omap queued_ticket log.

(** * Tickets *)
Lemma is_local_small t : 0 <= t < 2 ^ 31 -> is_local t = false.
Proof.
  intros H. unfold is_local, any_of. change LRC_LOCAL_TICKET with (2 ^ 31). apply negb_false_iff, Z.eqb_eq.
  apply Z.bits_inj'. intros n Hn. rewrite Z.land_spec, Z.bits_0, Z.pow2_bits_eqb by lia. destruct (Z.eqb_spec 31 n); [|by rewrite andb_false_r].
  subst n. rewrite Z.bits_above_log2; [done|lia|]. destruct (decide (t = 0)) as [->|]; [done|]. apply Z.log2_lt_pow2; lia.
Qed.
Lemma local_ticket_add k : 0 <= k < 2 ^ 31 -> Z.lor LRC_LOCAL_TICKET k = 2 ^ 31 + k.
Proof.
  intros H. change LRC_LOCAL_TICKET with (2 ^ 31). symmetry. apply Z.add_nocarry_lor.
  pose proof (is_local_small k H) as E. unfold is_local, any_of in E. apply negb_false_iff, Z.eqb_eq in E. by rewrite Z.land_comm.
Qed.
Lemma is_local_big t : 2 ^ 31 <= t < 2 ^ 32 -> is_local t = true.
Proof.
  intros H. unfold is_local, any_of. apply negb_true_iff, Z.eqb_neq. intros E.
  assert (Hb : Z.testbit (Z.land t LRC_LOCAL_TICKET) 31 = false) by by rewrite E, Z.bits_0.
  rewrite Z.land_spec in Hb. change (Z.testbit LRC_LOCAL_TICKET 31) with true in Hb. rewrite andb_true_r in Hb.
  rewrite Z.testbit_false in Hb by lia. rewrite <- (Z.div_unique t (2 ^ 31) 1 (t - 2 ^ 31)) in Hb by lia. by cbv in Hb.
Qed.

Section Safety.
Context (portable : bool) (self request_at snapshot_at : Z).
Implicit Types (c : control) (log : list event) (t : Z).
Abbreviation flags := (LC_PROFILE_FLAGS portable).
Abbreviation valid := (state_valid portable).

(** * The invariant *)
Definition boot c : bytes := ls_boot (rc_idle c).
Definition remote c t : Prop := 1 <= t <= rc_used c.
(** A slot as a START has just written it. *)
Definition fresh_state (boot operation : bytes) (usb : Z) : lc_state := started_state portable zero_lc_state operation boot usb.
Definition armed_state (boot operation : bytes) (usb : Z) : lc_state :=
  (fresh_state boot operation usb) <| ls_flags ::= fun f => Z.lor f LC_BUTTON_ARMED |>.
Definition fresh c t : Prop := exists op usb, state_at c t = Some (fresh_state (boot c) op usb) /\ identity op = true.
Definition slot_ok c (s : lc_state) : Prop := valid s = true /\ ls_boot s = boot c /\ 0 <= ls_phase s /\ identity (ls_operation s) = true.

(** The submission in progress: a ticket, and what [queue_start] answered. *)
Definition point_submission (p : point) : option (Z * option Z) :=
  match p with
  | CommandQueue _ t _ | ButtonQueue _ t _ => Some (t, None)
  | CommandQueued _ t q | ButtonQueued _ t q => Some (t, Some q)
  | _ => None
  end.
Definition point_ok c (p : point) : Prop :=
  match p with
  | Undefined => False
  | CommandQueue _ t _ | CommandQueued _ t _ => remote c t
  | CommandReply _ t => t = 0 \/ remote c t \/ is_local t = true
  | _ => True
  end.

Definition issued_ticket c t : Prop := remote c t \/ 2 ^ 31 < t <= 2 ^ 31 + rc_local_count c.
Record base c log : Prop := {
  iv_init : rc_initialized c = 1;
  iv_boot : zlen (boot c) = 16 /\ identity (boot c) = true;
  iv_idle : rc_idle c = idle_state portable (boot c);
  iv_stop : zlen (rc_stop c) = 32;
  iv_states : zlen (rc_states c) = 32;
  iv_used : 0 <= rc_used c <= 32 /\ rc_issued c = rc_used c;
  iv_slots : forall t, remote c t -> exists s, state_at c t = Some s /\ slot_ok c s /\ local_namespace c (ls_operation s) = false;
  iv_unused : forall t, rc_used c < t <= 32 -> slot c t = Some zero_lc_state;
  iv_operations : forall t u s s', remote c t -> remote c u -> state_at c t = Some s -> state_at c u = Some s' ->
    ls_operation s = ls_operation s' -> t = u;
  iv_local : rc_local_ticket c = 0 /\ rc_local_count c = 0 \/
    rc_local_ticket c = 2 ^ 31 + rc_local_count c /\ 1 <= rc_local_count c < 2 ^ 31 /\ slot_ok c (rc_local c) /\
    ls_operation (rc_local c) = local_operation (boot c) (rc_local_count c);
  iv_current : rc_current c = 0 \/ remote c (rc_current c) \/ rc_current c = rc_local_ticket c;
  iv_queued : NoDup (queued log) /\ forall t, In t (queued log) -> issued_ticket c t
}.
(** The armed operation is the current one, as a START has written it, and was
    never handed to the worker. *)
Definition armed_ok c log : Prop :=
  rc_armed c = 0 \/ remote c (rc_armed c) /\ rc_armed c = rc_current c /\ ~ In (rc_armed c) (queued log) /\ rc_submitting c = 0 /\
    exists op usb, state_at c (rc_armed c) = Some (armed_state (boot c) op usb) /\ identity op = true.
Definition submission_ok c log (sub : option (Z * option Z)) : Prop :=
  match sub with
  | None => rc_submitting c = 0
  | Some (t, a) => rc_submitting c = 1 /\ t = rc_current c /\ issued_ticket c t /\
      match a with
      | None => ~ In t (queued log) /\ fresh c t
      | Some q => q <> 0 -> existsb (accepted_by t) log = false /\ fresh c t
      end
  end.
Definition inv c log sub : Prop := base c log /\ armed_ok c log /\ submission_ok c log sub.

(** What no move undoes: a set STOP of a ticket, the operations admitted, and
    the progress of their states. *)
Record grows c c' : Prop := {
  gr_fault : rc_fault c <> 0 -> rc_fault c' <> 0;
  gr_idle : rc_idle c' = rc_idle c;
  gr_used : rc_used c <= rc_used c';
  gr_local : rc_local_ticket c <= rc_local_ticket c';
  gr_count : rc_local_count c <= rc_local_count c';
  gr_stop : forall t, remote c t -> znth (t - 1) (rc_stop c) <> 0 -> znth (t - 1) (rc_stop c') <> 0;
  gr_local_stop : rc_local_ticket c' = rc_local_ticket c -> rc_local_stop c = 1 -> rc_local_stop c' = 1;
  gr_progress : forall t s s', 0 <= t < 2 ^ 32 -> state_at c t = Some s -> state_at c' t = Some s' -> s' = s \/ Progress s s'
}.

(** ** The fields the invariant reads *)
Definition held c :=
  (rc_stop c, rc_issued c, rc_states c, rc_idle c, rc_initialized c, rc_used c,
   (rc_local c, rc_local_ticket c, rc_local_stop c, rc_local_count c)).
Lemma base_held c c' log : held c' = held c -> rc_current c' = rc_current c -> base c log -> base c' log.
Proof. destruct c, c'. cbn. intros [= -> -> -> -> -> -> -> -> -> ->] -> []. by split. Qed.
Lemma grows_held c d d' : held d' = held d -> (rc_fault d <> 0 -> rc_fault d' <> 0) -> grows c d -> grows c d'.
Proof.
  destruct d, d'. cbn. intros [= -> -> -> -> -> -> -> -> -> ->] Hf []. split; try done. cbn in *. auto.
Qed.
Definition view c := (held c, (rc_current c, rc_armed c, rc_submitting c)).
Lemma inv_same c c' log sub : view c' = view c -> inv c log sub -> inv c' log sub.
Proof.
  intros E (Hb & Ha & Hs). split; [eapply base_held, Hb; unfold view in E; congruence|]. clear Hb.
  destruct c, c'. cbn in E. injection E as -> -> -> -> -> -> -> -> -> -> -> -> ->. split; [exact Ha|exact Hs].
Qed.
Lemma grows_refl c : grows c c.
Proof. split; try done; [lia..|]. intros t s s' _ E1 E2. left. congruence. Qed.
Lemma grows_same c c' : view c' = view c -> (rc_fault c <> 0 -> rc_fault c' <> 0) -> grows c c'.
Proof. intros E Hf. apply (grows_held c c c'); [unfold view in E; congruence|done|apply grows_refl]. Qed.
Lemma state_at_remote c t : rc_used c <= 32 -> remote c t -> state_at c t = rc_states c !! Z.to_nat (t - 1).
Proof.
  unfold remote, state_at. intros Hu Ht. rewrite is_local_small by lia. destruct (Z.eqb_spec t 0); [lia|].
  by destruct (Z.leb_spec t (rc_used c)); [|lia].
Qed.
Lemma state_at_local c t s : 0 <= t < 2 ^ 32 -> state_at c t = Some s -> remote c t \/ is_local t = true /\ t = rc_local_ticket c /\ s = rc_local c.
Proof.
  unfold state_at, remote. intros Ht. destruct (is_local t) eqn:El.
  - destruct (Z.eqb_spec t (rc_local_ticket c)); [|done]. intros [= <-]. by right.
  - destruct (Z.eqb_spec t 0); [done|]. cbn [negb andb]. destruct (Z.leb_spec t (rc_used c)); [|done]. left. lia.
Qed.
Lemma slot_at c log t s : base c log -> 0 <= t < 2 ^ 32 -> state_at c t = Some s -> slot_ok c s.
Proof.
  intros B Ht E. destruct (state_at_local c t s Ht E) as [Hr|(El & Et & ->)].
  - destruct (iv_slots _ _ B t Hr) as (s' & E' & H & _). rewrite E in E'. by injection E' as <-.
  - destruct (iv_local _ _ B) as [[E0 _]|(_ & _ & H & _)]; [|done]. rewrite Et, E0 in El. done.
Qed.
Lemma grows_trans c c' c'' log log' : base c log -> base c' log' -> rc_used c'' <= 32 -> grows c c' -> grows c' c'' -> grows c c''.
Proof.
  intros B B' U G G'. pose proof (gr_used _ _ G). pose proof (gr_local _ _ G). pose proof (gr_local _ _ G').
  split.
  - intros H'. by apply (gr_fault _ _ G'), G.
  - rewrite (gr_idle _ _ G'). apply G.
  - pose proof (gr_used _ _ G'). lia.
  - lia.
  - pose proof (gr_count _ _ G). pose proof (gr_count _ _ G'). lia.
  - intros t Ht H'. apply (gr_stop _ _ G'); [unfold remote in *; lia|]. by apply G.
  - intros E H'. apply (gr_local_stop _ _ G'); [lia|]. apply G; [lia|done].
  - intros t s s'' Ht E E''. assert (exists s', state_at c' t = Some s') as [s' E'].
    { destruct (state_at_local c t s Ht E) as [Hr|(El & Et & _)].
      - destruct (iv_slots _ _ B' t) as (s' & ? & _); [unfold remote in *; lia|]. by exists s'.
      - destruct (state_at_local c'' t s'' Ht E'') as [Hr|(_ & Et' & _)].
        + unfold remote in Hr. exfalso. by rewrite is_local_small in El by lia.
        + exists (rc_local c'). unfold state_at. rewrite El. destruct (Z.eqb_spec t (rc_local_ticket c')); [done|lia]. }
    destruct (gr_progress _ _ G t s s' Ht E E') as [->|P]; [by eapply G'|].
    destruct (gr_progress _ _ G' t s' s'' Ht E' E'') as [->|P']; [by right|]. right.
    destruct (slot_at c log t s B Ht E) as (V & _ & Hp & _). by eapply progress_trans; [..|exact P|exact P']; [|apply (state_valid_idle portable)].
Qed.

(** ** One slot *)
Lemma state_at_set c t s u : rc_used c <= 32 -> zlen (rc_states c) = 32 -> remote c t -> 0 <= u -> 
  state_at (set_slot t s c) u = if u =? t then Some s else state_at c u.
Proof.
  intros Hu Hl Ht Hu0. unfold remote, zlen in *. destruct (Z.eqb_spec u t) as [->|Hne].
  - rewrite state_at_remote by done. cbn. apply list_lookup_insert_eq. lia.
  - unfold state_at. cbn. destruct (is_local u); [done|]. destruct (Z.eqb_spec u 0); [done|]. cbn [negb andb].
    destruct (Z.leb_spec u (rc_used c)); [|done]. apply list_lookup_insert_ne. lia.
Qed.
Lemma base_slot_set c log t s s' : base c log -> remote c t -> state_at c t = Some s -> slot_ok c s' -> ls_operation s' = ls_operation s ->
  base (set_slot t s' c) log.
Proof.
  intros B Ht E Hok Ho. pose proof (iv_states _ _ B) as Hl. pose proof (iv_used _ _ B) as [Hu _].
  assert (Hset : forall u, 0 <= u -> state_at (set_slot t s' c) u = if u =? t then Some s' else state_at c u)
    by (intros; apply state_at_set; done || lia).
  split; try exact (iv_init _ _ B); try exact (iv_boot _ _ B); try exact (iv_idle _ _ B); try exact (iv_stop _ _ B);
    try exact (iv_used _ _ B); try exact (iv_local _ _ B); try exact (iv_current _ _ B); try exact (iv_queued _ _ B).
  - cbn. unfold zlen in *. by rewrite length_insert.
  - intros u Hu'. change (remote c u) in Hu'. rewrite Hset by (unfold remote in *; lia). destruct (Z.eqb_spec u t) as [->|].
    + exists s'. split; [done|]. split; [done|]. destruct (iv_slots _ _ B t Ht) as (s0 & E0 & _ & Hn). rewrite E in E0. injection E0 as <-.
      rewrite Ho. exact Hn.
    + exact (iv_slots _ _ B u Hu').
  - intros u Hu'. change (rc_used c < u <= 32) in Hu'. pose proof (iv_unused _ _ B u Hu') as H. unfold slot in *.
    destruct (Z.eqb_spec u 0); [done|]. cbn. rewrite list_lookup_insert_ne by (unfold remote in *; lia). exact H.
  - intros u v x y Hu' Hv'. change (remote c u) in Hu'. change (remote c v) in Hv'. rewrite !Hset by (unfold remote in *; lia).
    pose proof (iv_operations _ _ B) as Hops. destruct (Z.eqb_spec u t) as [->|], (Z.eqb_spec v t) as [->|]; [done|..].
    + intros [= <-] Ev Eo. rewrite Ho in Eo. by apply (Hops t v s y).
    + intros Eu [= <-] Eo. rewrite Ho in Eo. by apply (Hops u t x s).
    + intros Eu Ev Eo. by apply (Hops u v x y).
Qed.
Lemma grows_set_slot c log t s s' : base c log -> remote c t -> state_at c t = Some s -> Progress s s' -> grows c (set_slot t s' c).
Proof.
  intros B Ht E HP. pose proof (iv_states _ _ B) as Hl. pose proof (iv_used _ _ B) as [Hu _].
  split; try done; try (cbn; lia). intros u x y Hu' Ex Ey. rewrite state_at_set in Ey by (done || lia).
  destruct (Z.eqb_spec u t) as [->|]; [|left; congruence]. right. congruence.
Qed.
(** ** The states the coordinator writes *)
Lemma usb_flag_cases usb : usb_flag usb = 0 \/ usb_flag usb = 1.
Proof. unfold usb_flag. destruct (usb =? 0); cbn; auto. Qed.
Lemma same_refl (x : bytes) : same x x = true.
Proof. by apply bool_decide_true. Qed.
Ltac written Hb Ho :=
  unfold cancelled_state, refused_state, armed_state, fresh_state, started_state, LC_PROFILE_FLAGS, state_valid, state_common, state_armed,
    state_phase, progress;
  repeat match goal with |- context [usb_flag ?u] => destruct (usb_flag_cases u) as [-> | ->] end;
  destruct portable; cbn -[identity same]; rewrite ?Hb, ?Ho, ?same_refl; reflexivity.
Section Written.
Context (b op : bytes) (usb v : Z) (Hb : identity b = true) (Ho : identity op = true).
Lemma fresh_valid : valid (fresh_state b op usb) = true.
Proof using Hb Ho. written Hb Ho. Qed.
Lemma armed_valid : valid (armed_state b op usb) = true.
Proof using Hb Ho. written Hb Ho. Qed.
Lemma cancelled_valid : valid (cancelled_state portable (armed_state b op usb) v) = true.
Proof using Hb Ho. written Hb Ho. Qed.
Lemma refused_valid : valid (refused_state portable (fresh_state b op usb) v) = true.
Proof using Hb Ho. written Hb Ho. Qed.
Lemma armed_cancelled : Progress (armed_state b op usb) (cancelled_state portable (armed_state b op usb) v).
Proof using Hb Ho. apply progress_spec. written Hb Ho. Qed.
Lemma fresh_refused : Progress (fresh_state b op usb) (refused_state portable (fresh_state b op usb) v).
Proof using Hb Ho. apply progress_spec. written Hb Ho. Qed.
Lemma fresh_armed : Progress (fresh_state b op usb) (armed_state b op usb).
Proof using Hb Ho. apply progress_spec. written Hb Ho. Qed.
Lemma armed_disarmed : (armed_state b op usb) <| ls_flags ::= fun f => Z.land f (Z.lnot LC_BUTTON_ARMED) |> = fresh_state b op usb.
Proof using. written Hb Ho. Qed.
Lemma armed_fresh : Progress (armed_state b op usb) (fresh_state b op usb).
Proof using Hb Ho. apply progress_spec. written Hb Ho. Qed.
End Written.

(** ** What the calls do to the coordinator *)
Lemma inv_stops c log sub l v : zlen l = 32 -> inv c log sub -> inv (c <| rc_stop := l |> <| rc_local_stop := v |>) log sub.
Proof.
  destruct c. intros Hl (B & A & S). split; [|split; [exact A|exact S]]. cbn in *. destruct B. by split.
Qed.
Lemma grows_stops c l v : (forall t, remote c t -> znth (t - 1) (rc_stop c) <> 0 -> znth (t - 1) l <> 0) -> (rc_local_stop c = 1 -> v = 1) ->
  grows c (c <| rc_stop := l |> <| rc_local_stop := v |>).
Proof.
  intros H1 H2. split; try done; try (cbn; lia); [by cbn; auto..|]. intros t s s' _ E1 E2. left. unfold state_at in *. cbn in *. congruence.
Qed.
Lemma stop_written c log sub t : inv c log sub -> 1 <= t <= 32 -> inv (set_stop t 1 c) log sub /\ grows c (set_stop t 1 c).
Proof.
  intros H Ht. pose proof (iv_stop _ _ (proj1 H)) as Hl.
  replace (set_stop t 1 c) with (c <| rc_stop := <[Z.to_nat (t - 1) := 1]> (rc_stop c) |> <| rc_local_stop := rc_local_stop c |>) by by destruct c.
  split; [apply inv_stops; [unfold zlen in *; by rewrite length_insert|done]|]. apply grows_stops; [|done].
  intros u Hu Hs. rewrite znth_insert by (unfold remote in *; lia). by destruct (_ =? _).
Qed.
Lemma stop_ticket_ok c log sub t : inv c log sub -> 0 <= t -> inv (stop_ticket t c) log sub /\ grows c (stop_ticket t c).
Proof.
  intros H Ht. pose proof (iv_used _ _ (proj1 H)) as [Hu _]. unfold stop_ticket. destruct (is_local t).
  - destruct (_ =? _); [|by split; [|apply grows_refl]].
    replace (c <| rc_local_stop := 1 |>) with (c <| rc_stop := rc_stop c |> <| rc_local_stop := 1 |>) by by destruct c.
    split; [by apply inv_stops; [apply H|]|]. by apply grows_stops.
  - destruct (_ && _) eqn:E; [|by split; [|apply grows_refl]]. apply stop_written; [done|]. lia.
Qed.
Lemma cancel_arm_ok c log sub usb k : inv c log sub -> rc_armed c <> 0 ->
  exists c', cancel_arm portable usb c k = k c' /\ inv c' log sub /\ grows c c' /\ rc_armed c' = 0.
Proof.
  intros H Hne. pose proof H as (B & A & S). destruct A as [?|(Hr & Hcur & Hq & Hs & op & v & E & Ho)]; [done|].
  pose proof (iv_used _ _ B) as [Hu _]. set (t := rc_armed c) in *.
  assert (Hslot : slot c t = Some (armed_state (boot c) op v)).
  { rewrite state_at_remote in E by (done || lia). unfold slot. destruct (Z.eqb_spec t 0); [done|exact E]. }
  unfold cancel_arm. fold t. rewrite Hslot. cbn [follow].
  destruct (stop_written c log sub t H) as [H1 G1]; [unfold remote in *; lia|].
  set (c1 := set_stop t 1 c) in *. pose proof H1 as (B1 & A1 & S1).
  assert (E1 : state_at c1 t = Some (armed_state (boot c) op v)) by exact E.
  assert (Hb : identity (boot c) = true) by apply B.
  set (s' := cancelled_state portable (armed_state (boot c) op v) usb).
  assert (B2 : base (set_slot t s' c1) log).
  { apply (base_slot_set c1 log t (armed_state (boot c) op v) s'); [done|exact Hr|exact E1| |done]. split; [by apply cancelled_valid|]. split; [done|]. split; done. }
  assert (G2 : grows c1 (set_slot t s' c1)).
  { apply (grows_set_slot c1 log t (armed_state (boot c) op v) s'); [done|exact Hr|exact E1|]. by apply armed_cancelled. }
  eexists. split; [reflexivity|]. clearbody s'.
  split; [|split; [|done]].
  - split; [|split; [by left|]].
    + by eapply base_held, B2.
    + destruct sub as [[t' a]|]; [|exact S]. exfalso. destruct S as (S & _). lia.
  - eapply grows_trans; [exact B|exact B1|cbn; lia|exact G1|]. by eapply grows_held, G2.
Qed.
Lemma submitting_none c log sub : inv c log sub -> rc_submitting c = 0 -> sub = None.
Proof. intros (_ & _ & S) E. destruct sub as [[t a]|]; [|done]. destruct S as (S & _). lia. Qed.
Lemma submitting_unarmed c log t a : inv c log (Some (t, a)) -> rc_armed c = 0.
Proof. intros (_ & [?|(_ & _ & _ & E & _)] & S); [done|]. destruct S as (S & _). lia. Qed.

(** A new operation takes the next slot. *)
Definition admitted (t : Z) (s : lc_state) c : control :=
  (set_stop t 0 (set_slot t s c)) <| rc_used := t |> <| rc_current := t |> <| rc_issued := t |>.
Lemma base_admitted c log s : base c log -> rc_used c < 32 -> slot_ok c s -> local_namespace c (ls_operation s) = false ->
  (forall u s', remote c u -> state_at c u = Some s' -> ls_operation s' <> ls_operation s) ->
  base (admitted (rc_used c + 1) s c) log /\ grows c (admitted (rc_used c + 1) s c) /\
  state_at (admitted (rc_used c + 1) s c) (rc_used c + 1) = Some s.
Proof.
  intros B Hlt Hok Hn Hnew. set (t := rc_used c + 1). pose proof (iv_used _ _ B) as [Hu Hi]. pose proof (iv_states _ _ B) as Hl.
  assert (Hat : forall u, 0 <= u < 2 ^ 32 -> state_at (admitted t s c) u = if u =? t then Some s else state_at c u).
  { intros u Hu0. unfold state_at. cbn. destruct (is_local u) eqn:El.
    - destruct (Z.eqb_spec u t) as [->|]; [|done]. by rewrite is_local_small in El by lia.
    - destruct (Z.eqb_spec u 0) as [->|]; [by destruct (Z.eqb_spec 0 t); [lia|]|]. cbn [negb andb]. unfold zlen in Hl.
      destruct (Z.eqb_spec u t) as [->|].
      + destruct (Z.leb_spec t t); [|lia]. apply list_lookup_insert_eq. lia.
      + rewrite list_lookup_insert_ne by lia. destruct (Z.leb_spec u t), (Z.leb_spec u (rc_used c)); (done || lia). }
  assert (Hrem : forall u, remote (admitted t s c) u -> u = t \/ remote c u) by (intros u; unfold remote; cbn; lia).
  split; [split|split].
  - apply B.
  - apply B.
  - apply B.
  - cbn. pose proof (iv_stop _ _ B). unfold zlen in *. by rewrite length_insert.
  - cbn. unfold zlen in *. by rewrite length_insert.
  - cbn. lia.
  - intros u Hr. rewrite Hat by (unfold remote in Hr; cbn in Hr; lia). destruct (Hrem u Hr) as [->|Hr'].
    + exists s. rewrite Z.eqb_refl. done.
    + destruct (Z.eqb_spec u t); [unfold remote in Hr'; lia|]. exact (iv_slots _ _ B u Hr').
  - intros u Hu'. cbn in Hu'. pose proof (iv_unused _ _ B u) as H. unfold slot in *. destruct (Z.eqb_spec u 0); [lia|]. cbn.
    rewrite list_lookup_insert_ne by lia. apply H. lia.
  - intros u v x y Hx Hy. rewrite !Hat by (unfold remote in *; cbn in *; lia).
    destruct (Hrem u Hx) as [->|Hx'], (Hrem v Hy) as [->|Hy'].
    + done.
    + rewrite Z.eqb_refl. destruct (Z.eqb_spec v t); [done|]. intros [= <-] E Eo. by destruct (Hnew v y Hy' E).
    + rewrite Z.eqb_refl. destruct (Z.eqb_spec u t); [done|]. intros E [= <-] Eo. by destruct (Hnew u x Hx' E).
    + destruct (Z.eqb_spec u t), (Z.eqb_spec v t); try (unfold remote in *; lia). apply (iv_operations _ _ B); done.
  - exact (iv_local _ _ B).
  - right. left. unfold remote. cbn. lia.
  - destruct (iv_queued _ _ B) as [Hd Hq]. split; [done|]. intros u Hin. destruct (Hq u Hin) as [?|?]; [left|by right].
    unfold remote in *. cbn. lia.
  - split; try done; try (cbn; lia).
    + intros u Hr Hs. change (rc_stop (admitted t s c)) with (<[Z.to_nat (t - 1) := 0]> (rc_stop c)). rewrite znth_insert; [|rewrite (iv_stop _ _ B); unfold remote in Hr; lia|unfold remote in Hr; lia].
      destruct (Z.eqb_spec (t - 1) (u - 1)); [unfold remote in Hr; lia|done].
    + intros u x y Hu' Ex Ey. rewrite Hat in Ey by lia. destruct (Z.eqb_spec u t) as [->|]; [|left; congruence].
      destruct (state_at_local c t x Hu' Ex) as [Hr|(El & _)]; [unfold remote in Hr; lia|]. by rewrite is_local_small in El by lia.
  - rewrite Hat by lia. by rewrite Z.eqb_refl.
Qed.

(** The local slot takes a new recording. *)
Lemma base_local c log s count : base c log -> rc_local_count c < count < 2 ^ 31 -> slot_ok c s -> ls_operation s = local_operation (boot c) count ->
  forall c', held c' = (rc_stop c, rc_issued c, rc_states c, rc_idle c, rc_initialized c, rc_used c, (s, 2 ^ 31 + count, 0, count)) ->
  rc_current c' = 2 ^ 31 + count -> rc_fault c' = rc_fault c ->
  base c' log /\ grows c c' /\ state_at c' (2 ^ 31 + count) = Some s.
Proof.
  intros B Hc Hok Ho c' [= E1 E2 E3 E4 E5 E6 E7 E8 E9 E10] Ecur Ef. pose proof (iv_used _ _ B) as [Hu _].
  pose proof (iv_local _ _ B) as Hl.
  assert (Hcount : 0 <= rc_local_count c) by (destruct Hl as [[_ ->]|(_ & ? & _)]; lia).
  assert (Hat : forall u, remote c u -> state_at c' u = state_at c u).
  { intros u Hr. unfold state_at. unfold remote in Hr. rewrite is_local_small by lia. by rewrite E3, E6. }
  assert (Hb : boot c' = boot c) by (unfold boot; by rewrite E4).
  assert (Hrem : forall u, remote c' u <-> remote c u) by (intros; unfold remote; by rewrite E6).
  assert (Hslot : forall x, slot_ok c x -> slot_ok c' x) by (intros x; unfold slot_ok; by rewrite Hb).
  split; [split|split].
  - rewrite E5. apply B.
  - rewrite Hb. apply B.
  - rewrite Hb, E4. apply B.
  - rewrite E1. apply B.
  - rewrite E3. apply B.
  - rewrite E2, E6. apply B.
  - intros u Hr. apply Hrem in Hr. rewrite Hat by done. destruct (iv_slots _ _ B u Hr) as (x & Ex & Hx & Hn). exists x.
    split; [done|]. split; [by apply Hslot|]. unfold local_namespace. by rewrite E4.
  - intros u Hr. rewrite E6 in Hr. unfold slot. rewrite E3. by apply (iv_unused _ _ B).
  - intros u v x y Hx Hy. apply Hrem in Hx, Hy. rewrite !Hat by done. by apply (iv_operations _ _ B).
  - right. rewrite E8, E10, E7, Hb. split; [done|]. split; [lia|]. split; [by apply Hslot|done].
  - right. right. by rewrite Ecur, E8.
  - destruct (iv_queued _ _ B) as [Hd Hq]. split; [done|]. intros u Hin. destruct (Hq u Hin) as [?|?]; [left; by apply Hrem|right; lia].
  - split; rewrite ?Ef, ?E1, ?E4, ?E6, ?E8, ?E9, ?E10; try done; try lia.
    intros u x y Hu' Ex Ey. left. destruct (state_at_local c u x Hu' Ex) as [Hr|(El & Et & _)].
    + rewrite Hat in Ey by done. congruence.
    + unfold state_at in Ey. rewrite El, E8 in Ey. destruct (Z.eqb_spec u (2 ^ 31 + count)); [|done].
      exfalso. destruct Hl as [[E0 _]|(E0 & _)]; lia.
  - unfold state_at. rewrite is_local_big by lia. by rewrite E8, Z.eqb_refl, E7.
Qed.
(** A new state of the same operation in a slot, local or not. *)
Lemma base_set_state c log t s s' : base c log -> 0 <= t < 2 ^ 32 -> state_at c t = Some s -> slot_ok c s' -> ls_operation s' = ls_operation s ->
  Progress s s' -> base (set_state t s' c) log /\ grows c (set_state t s' c) /\ state_at (set_state t s' c) t = Some s'.
Proof.
  intros B Ht E Hok Ho HP. pose proof (iv_used _ _ B) as [Hu _]. destruct (state_at_local c t s Ht E) as [Hr|(El & Et & Es)].
  - unfold set_state. rewrite is_local_small by (unfold remote in Hr; lia). split; [by eapply base_slot_set|].
    split; [by eapply grows_set_slot|]. rewrite state_at_set; [by rewrite Z.eqb_refl|lia|apply B|done|lia].
  - unfold set_state. rewrite El. split; [|split].
    + assert (H : slot_ok c s' /\ ls_operation s' = ls_operation (rc_local c)) by (by rewrite <- Es). destruct H as [H1 H2].
      assert (Hat : forall u, remote c u -> state_at c <| rc_local := s' |> u = state_at c u)
        by (intros u Hr; unfold state_at; unfold remote in Hr; by rewrite is_local_small by lia).
      split; try exact (iv_init _ _ B); try exact (iv_boot _ _ B); try exact (iv_idle _ _ B); try exact (iv_stop _ _ B);
        try exact (iv_states _ _ B); try exact (iv_used _ _ B); try exact (iv_unused _ _ B); try exact (iv_current _ _ B);
        try exact (iv_queued _ _ B).
      * intros u Hr. change (remote c u) in Hr. rewrite Hat by done. exact (iv_slots _ _ B u Hr).
      * intros u v x y Hx Hy. change (remote c u) in Hx. change (remote c v) in Hy. rewrite !Hat by done. by apply (iv_operations _ _ B).
      * destruct (iv_local _ _ B) as [?|(? & ? & ? & Hop)]; [by left|right]. split; [done|]. split; [done|]. split; [done|].
        transitivity (ls_operation (rc_local c)); [exact H2|exact Hop].
    + split; try done; try (cbn; lia). intros u x y Hu' Ex Ey. destruct (state_at_local c u x Hu' Ex) as [Hr|(El' & Et' & ->)].
      * left. unfold state_at in *. rewrite is_local_small in * by (unfold remote in Hr; lia). cbn in Ey. congruence.
      * right. unfold state_at in Ey. rewrite El' in Ey. cbn in Ey. rewrite Et', Z.eqb_refl in Ey. injection Ey as <-. by rewrite <- Es.
    + unfold state_at. rewrite El. cbn. by rewrite Et, Z.eqb_refl.
Qed.

(** * One section *)
(** What a section owes from [c0]: the invariant, with the submission that is in
    progress elsewhere left alone, or with the one it starts; and that nothing
    the coordinator owes is undone. *)
Definition post c0 log (rest : option (Z * option Z)) (r : result) : Prop :=
  let '(c, p, evs) := r in
  inv c (log ++ evs) (match rest with Some _ => rest | None => point_submission p end) /\
  (rest = None \/ point_submission p = None) /\ point_ok c p /\ grows c0 c.
Definition from c0 log rest c : Prop := inv c log rest /\ grows c0 c.

Lemma queued_quiet log evs : evs = [] \/ evs = [EvWake] -> queued (log ++ evs) = queued log.
Proof. unfold queued. intros [-> | ->]; rewrite omap_app; by rewrite app_nil_r. Qed.
Lemma accepted_quiet log evs t : evs = [] \/ evs = [EvWake] -> existsb (accepted_by t) (log ++ evs) = existsb (accepted_by t) log.
Proof. intros [-> | ->]; rewrite existsb_app; by rewrite orb_false_r. Qed.
Lemma inv_quiet c log evs sub : evs = [] \/ evs = [EvWake] -> inv c log sub -> inv c (log ++ evs) sub.
Proof.
  intros He (B & A & S). unfold inv, armed_ok, submission_ok. rewrite (queued_quiet log evs He). split; [|split; [exact A|]].
  - destruct B. split; try done. by rewrite queued_quiet.
  - destruct sub as [[t [q|]]|]; [|exact S..]. by rewrite (accepted_quiet log evs t He).
Qed.
Lemma from_refl c log sub : inv c log sub -> from c log sub c.
Proof. intros H. split; [done|apply grows_refl]. Qed.
Lemma from_same c0 log rest c c' : view c' = view c -> (rc_fault c <> 0 -> rc_fault c' <> 0) -> from c0 log rest c -> from c0 log rest c'.
Proof. intros E Hf [H G]. split; [by eapply inv_same|]. eapply grows_held, G; [unfold view in E; congruence|done]. Qed.
Lemma from_trans c0 log log' sub rest rest' c c' : inv c0 log' sub -> from c0 log rest c -> inv c' log rest' -> grows c c' -> from c0 log rest' c'.
Proof.
  intros H0 [H G] H' G'. split; [done|]. eapply grows_trans; [apply H0|apply H|apply (iv_used _ _ (proj1 H'))|done|done].
Qed.

Lemma post_plain c0 log rest c c' p evs : from c0 log rest c -> view c' = view c -> (rc_fault c <> 0 -> rc_fault c' <> 0) ->
  point_submission p = None -> point_ok c' p -> evs = [] \/ evs = [EvWake] -> post c0 log rest (c', p, evs).
Proof.
  intros F E Hf Hp Hok He. destruct (from_same _ _ _ _ c' E Hf F) as [H G]. unfold post. rewrite Hp.
  split; [|by split; [right|]]. apply inv_quiet; [done|]. by destruct rest.
Qed.
(** The section that starts a submission. *)
Lemma post_submit c0 log t c c' p : view c' = view c -> (rc_fault c <> 0 -> rc_fault c' <> 0) ->
  point_submission p = Some (t, None) -> point_ok c' p -> from c0 log (Some (t, None)) c -> post c0 log None (c', p, []).
Proof.
  intros E Hf Hp Hok F. destruct (from_same _ _ _ _ c' E Hf F) as [H G]. unfold post. rewrite Hp, app_nil_r. by split; [|split; [left|]].
Qed.
Lemma post_leave c0 log rest c rc : from c0 log rest c -> post c0 log rest (leave c rc).
Proof. intros F. apply (post_plain _ _ _ c); try done; by left. Qed.
Lemma post_returns c0 log rest c rc : from c0 log rest c -> post c0 log rest (returns c rc).
Proof. intros F. apply (post_plain _ _ _ c); try done; by left. Qed.
Lemma post_unless_late c0 log rest e c no k : from c0 log rest c ->
  (forall c', from c0 log rest c' -> post c0 log rest (no c')) ->
  (from c0 log rest c <| rc_last_now := an_now e |> -> post c0 log rest (k c <| rc_last_now := an_now e |>)) ->
  post c0 log rest (unless_late e c no k).
Proof.
  intros F Hno Hk. unfold unless_late. destruct (negb (rc_fault c =? 0)); [by apply Hno|].
  destruct (_ <? _); [apply Hno; by eapply from_same, F|]. apply Hk. by eapply from_same, F.
Qed.
Lemma current_slot c log sub : inv c log sub -> rc_current c <> 0 -> exists s, state_at c (rc_current c) = Some s.
Proof.
  intros (B & _) Hne. destruct (iv_current _ _ B) as [?|[Hr|E]]; [done| |].
  - destruct (iv_slots _ _ B _ Hr) as (s & ? & _). by exists s.
  - exists (rc_local c). unfold state_at. rewrite E. destruct (iv_local _ _ B) as [[E0 _]|(E0 & ? & _)]; [lia|].
    by rewrite is_local_big, Z.eqb_refl by lia.
Qed.
Lemma current_active_some c log sub : inv c log sub -> exists b, current_active c = Some b.
Proof.
  intros H. unfold current_active. destruct (Z.eqb_spec (rc_current c) 0); [by exists false|].
  destruct (current_slot c log sub H) as [s ->]; [done|]. by exists (active s).
Qed.
Lemma armed_active c log sub : inv c log sub -> rc_armed c <> 0 -> current_active c = Some true.
Proof.
  intros (_ & [?|(Hr & E & _ & _ & op & v & Es & _)] & _) Hne; [done|]. unfold current_active. rewrite <- E.
  destruct (Z.eqb_spec (rc_armed c) 0); [done|]. by rewrite Es.
Qed.

(** Walks through the conditions of a section whose leaves change nothing the
    invariant reads. *)
Ltac quiet :=
  repeat lazymatch goal with
  | |- post _ _ _ (if ?b then _ else _) => destruct b eqn:?
  | |- post _ _ _ (leave _ _) => apply post_leave
  | |- post _ _ _ (returns _ _) => apply post_returns
  | |- post _ _ _ (unless_late _ _ _ _) => apply post_unless_late; [|intros|intros]
  | F : from ?c0 ?log ?rest ?c |- from ?c0 ?log ?rest _ => solve [exact F | eapply from_same, F; done]
  | F : from ?c0 ?log ?rest ?c |- post ?c0 ?log ?rest (_, Returned _ _ _, _) => apply (post_plain _ _ _ c); [exact F|done..|auto]
  end.
Lemma post_reply c0 log rest k s c : from c0 log rest c -> post c0 log rest (reply_with portable request_at snapshot_at k s c).
Proof. intros F. unfold reply_with. destruct (lc_encode_response _ _ _ _ _) as [rc frame]. quiet. Qed.
Hint Resolve post_reply : core.
Lemma command_reply_ok e k t c log rest : inv c log rest -> post c log rest (command_reply portable request_at snapshot_at e k t c).
Proof.
  intros F%from_refl. unfold command_reply. quiet; [auto|]. clear F. destruct (state_at _ t); quiet. auto.
Qed.
Lemma lrc_reply_allowed_ok e conn seq c log rest : inv c log rest -> post c log rest (lrc_reply_allowed e conn seq c).
Proof. intros F%from_refl. unfold lrc_reply_allowed. quiet. Qed.
Lemma lrc_disconnected_ok e conn c log rest : inv c log rest -> post c log rest (lrc_disconnected e conn c).
Proof. intros F%from_refl. unfold lrc_disconnected. quiet. Qed.
Lemma lrc_snapshot_ok e t out c log rest : inv c log rest -> post c log rest (lrc_snapshot self e t out c).
Proof. intros F%from_refl. unfold lrc_snapshot. quiet. destruct (state_at c t); quiet. Qed.
Lemma lrc_maintenance_claim_ok e c log rest : inv c log rest -> post c log rest (lrc_maintenance_claim e c).
Proof.
  intros H. pose proof (from_refl _ _ _ H) as F. unfold lrc_maintenance_claim. quiet.
  destruct (current_active_some c log rest H) as [b ->]. cbn [follow]. apply post_returns. destruct (_ && _); quiet.
Qed.
Lemma lrc_maintenance_release_ok c log rest : inv c log rest -> post c log rest (lrc_maintenance_release c).
Proof. intros F%from_refl. unfold lrc_maintenance_release. quiet. Qed.
Lemma lrc_set_standalone_ok e v c log rest : inv c log rest -> post c log rest (lrc_set_standalone e v c).
Proof.
  intros H. pose proof (from_refl _ _ _ H) as F. unfold lrc_set_standalone. quiet.
  destruct (current_active_some c log rest H) as [b ->]. cbn [follow]. quiet.
Qed.

(** ** Finding an operation *)
Lemma same_spec (x y : bytes) : same x y = true <-> x = y.
Proof. apply bool_decide_eq_true. Qed.
Lemma find_slot_spec op l i : 0 <= i ->
  find_slot op l i = 0 /\ (forall j s, l !! j = Some s -> ls_operation s <> op) \/
  i < find_slot op l i <= i + zlen l /\ exists s, l !! Z.to_nat (find_slot op l i - 1 - i) = Some s /\ ls_operation s = op.
Proof.
  revert i. induction l as [|x l IH]; intros i Hi; cbn [find_slot]; [by left|]. rewrite zlen_cons.
  destruct (same op (ls_operation x)) eqn:E.
  - apply same_spec in E. right. pose proof (zlen_nonneg l). split; [lia|]. exists x. replace (Z.to_nat _) with O by lia. done.
  - destruct (IH (i + 1)) as [[E0 H]|[Hb (s & Hs & Ho)]]; [lia|left|right].
    + split; [done|]. intros [|j] s Hj; [|by apply (H j s)]. injection Hj as <-. intros Ho.
      by rewrite (proj2 (same_spec _ _)) in E by done.
    + split; [lia|]. exists s. split; [|done]. by replace (Z.to_nat _) with (S (Z.to_nat (find_slot op l (i + 1) - 1 - (i + 1)))) by lia.
Qed.
Lemma taken_slot c log t s : base c log -> remote c t -> state_at c t = Some s <-> take (Z.to_nat (rc_used c)) (rc_states c) !! Z.to_nat (t - 1) = Some s.
Proof.
  intros B Hr. pose proof (iv_used _ _ B) as [Hu _]. rewrite state_at_remote by (done || lia). unfold remote in Hr.
  by rewrite lookup_take_lt by lia.
Qed.
(** The selected ticket: none, or one whose slot is there. *)
Definition found c t : Prop := t = 0 \/ (0 < t < 2 ^ 32) /\ (remote c t \/ is_local t = true) /\ exists s, state_at c t = Some s.
Lemma remote_found c log t : base c log -> remote c t -> found c t.
Proof.
  intros B Hr. pose proof (iv_used _ _ B) as [Hu _]. destruct (iv_slots _ _ B t Hr) as (s & E & _). right. split; [unfold remote in Hr; lia|].
  split; [by left|by exists s].
Qed.
Lemma local_found c log : base c log -> found c (rc_local_ticket c).
Proof.
  intros B. destruct (iv_local _ _ B) as [[-> _]|(E & ? & _)]; [by left|right]. rewrite E. split; [lia|].
  assert (is_local (2 ^ 31 + rc_local_count c) = true) as El by (apply is_local_big; lia). split; [by right|].
  exists (rc_local c). unfold state_at. by rewrite El, E, Z.eqb_refl.
Qed.
Lemma current_found c log : base c log -> found c (rc_current c).
Proof. intros B. destruct (iv_current _ _ B) as [->|[?| ->] ]; [by left|by eapply remote_found|by eapply local_found]. Qed.
Lemma find_operation_spec c log op : base c log ->
  found c (find_operation c op) /\
  (find_operation c op = 0 -> forall t s, remote c t -> state_at c t = Some s -> ls_operation s <> op).
Proof.
  intros B. pose proof (iv_used _ _ B) as [Hu _]. pose proof (iv_states _ _ B) as Hl. unfold find_operation.
  destruct (_ && _) eqn:El.
  - split; [by eapply local_found|]. intros E. rewrite E in El. done.
  - destruct (find_slot_spec op (take (Z.to_nat (rc_used c)) (rc_states c)) 0) as [[-> H]|[Hb (s & Hs & _)]]; [lia|..].
    + split; [by left|]. intros _ t s Hr E. apply (taken_slot c log t s B Hr) in E. by eapply H.
    + assert (Hr : remote c (find_slot op (take (Z.to_nat (rc_used c)) (rc_states c)) 0))
        by (unfold remote; unfold zlen in *; rewrite length_take in Hb; lia).
      split; [by eapply remote_found|]. unfold remote in Hr. lia.
Qed.
Lemma selected_found c log op : base c log -> found c (if zero op then rc_current c else find_operation c op).
Proof. intros B. destruct (zero op); [by eapply current_found|by eapply find_operation_spec]. Qed.
Lemma local_operation_namespace c count : zlen (boot c) = 16 -> local_namespace c (local_operation (boot c) count) = true.
Proof.
  intros Hb. apply same_spec. fold (boot c).
  assert (H : forall n, local_operation (boot c) n = blit 12 (be 4 n) (blits
    [(0, [Z.lxor (znth 0 (boot c)) 0xa5]); (1, [Z.lxor (znth 1 (boot c)) 0x73]); (6, [Z.lor (Z.land (znth 6 (boot c)) 15) 0x40]);
     (8, [Z.lor (Z.land (znth 8 (boot c)) 63) 0x80])] (boot c))) by done.
  assert (Hz : zlen (blits [(0, [Z.lxor (znth 0 (boot c)) 0xa5]); (1, [Z.lxor (znth 1 (boot c)) 0x73]); (6, [Z.lor (Z.land (znth 6 (boot c)) 15) 0x40]);
     (8, [Z.lor (Z.land (znth 8 (boot c)) 63) 0x80])] (boot c)) = 16) by (rewrite zlen_blits; [done|by rewrite Hb]).
  rewrite !H, !slice_blit_disj by (rewrite ?zlen_be, ?Hz; lia). done.
Qed.
(** A retained operation is found under its own ticket. *)
Lemma find_operation_self c log t s : base c log -> remote c t -> state_at c t = Some s -> find_operation c (ls_operation s) = t.
Proof.
  intros B Hr E. pose proof (iv_used _ _ B) as [Hu _]. pose proof (iv_states _ _ B) as Hl. unfold find_operation.
  destruct (_ && _) eqn:El.
  - exfalso. apply andb_true_iff in El as [El Eo%same_spec]. destruct (iv_slots _ _ B t Hr) as (s' & E' & _ & Hn).
    rewrite E in E'. injection E' as <-. destruct (iv_local _ _ B) as [[E0 _]|(_ & _ & _ & Ho)]; [by rewrite E0 in El|].
    rewrite Eo, Ho, local_operation_namespace in Hn; [done|apply B].
  - destruct (find_slot_spec (ls_operation s) (take (Z.to_nat (rc_used c)) (rc_states c)) 0) as [[_ H]|[Hb (s' & Hs & Ho)]]; [lia|..].
    + exfalso. apply (taken_slot c log t s B Hr) in E. by eapply H.
    + set (u := find_slot _ _ _) in *. assert (Hr' : remote c u) by (unfold remote; unfold zlen in *; rewrite length_take in Hb; lia).
      apply (iv_operations _ _ B u t s' s); [done..| |done|done]. apply (taken_slot c log u s' B Hr').
      by replace (u - 1) with (u - 1 - 0) by lia.
Qed.
Lemma post_selected c0 log rest c op k : from c0 log rest c -> (if zero op then rc_current c else find_operation c op) <> 0 ->
  (forall s, post c0 log rest (k s)) -> post c0 log rest (follow c (state_at c (if zero op then rc_current c else find_operation c op)) k).
Proof.
  intros F Hne Hk. destruct (selected_found c log op) as [?|(_ & _ & s & ->)]; [apply F|done|]. apply Hk.
Qed.
Lemma lrc_pending_reply_ok e conn frame n out c log rest : inv c log rest ->
  post c log rest (lrc_pending_reply portable self request_at snapshot_at e conn frame n out c).
Proof.
  intros F%from_refl. unfold lrc_pending_reply. quiet. destruct (parse _ _ _ _ _) as [[|?|?] [r|]]; quiet; [auto|].
  apply post_selected; [done|lia|auto].
Qed.

(** ** The worker *)
Lemma accepted_in log t : existsb (accepted_by t) log = true -> In t (queued log).
Proof.
  intros (e & He & Ha)%existsb_exists. destruct e as [u d q|]; [|done]. cbn in Ha. apply andb_true_iff in Ha as [->%Z.eqb_eq _].
  apply list_elem_of_In, list_elem_of_omap. exists (EvQueue t d q). split; [by apply list_elem_of_In|done].
Qed.
Lemma set_state_same t s c : rc_current (set_state t s c) = rc_current c /\ rc_armed (set_state t s c) = rc_armed c /\
  rc_submitting (set_state t s c) = rc_submitting c /\ rc_used (set_state t s c) = rc_used c /\ rc_local_count (set_state t s c) = rc_local_count c.
Proof. unfold set_state. by destruct (is_local t). Qed.
Lemma lrc_publish_ok e t s c log rest : inv c log rest -> 0 <= t < 2 ^ 32 -> existsb (accepted_by t) log = true ->
  match s with Some so => 0 <= ls_phase (deref so) | None => True end -> post c log rest (lrc_publish portable self e t s c).
Proof.
  intros H Ht Ha Hphase. pose proof (from_refl _ _ _ H) as F. unfold lrc_publish. quiet.
  destruct (state_at c t) as [old|] eqn:E, s as [so|]; quiet.
  match goal with E0 : _ || negb (t =? rc_current c) = false |- _ => apply orb_false_iff in E0 as [_ Hcur%negb_false_iff%Z.eqb_eq] end.
  match goal with E0 : negb (lc_same_operation_progress _ _ _ =? 0) = false |- _ => apply negb_false_iff, Z.eqb_eq, lc_progress_inv in E0 as
    (ao & bo & [= <-] & [= <-] & _ & V & _ & P) end. cbn [deref] in P.
  destruct H as (B & A & S). assert (Hok : slot_ok c (deref so)).
  { destruct (slot_at c log t old B Ht E) as (_ & Hb & _ & Hi). split; [|split; [|split]].
    - unfold lc_validate_state in V. destruct (negb _) in V; [done|]. destruct (state_valid _ _) eqn:Ev in V; [exact Ev|done].
    - rewrite <- Hb. symmetry. apply P.
    - done.
    - rewrite <- (pg_operation _ _ P). exact Hi. }
  destruct (base_set_state c log t old (deref so)) as (B' & G' & E'); [done..|symmetry; apply P|done|].
  destruct (set_state_same t (deref so) c) as (H1 & H2 & H3 & H4 & H5).
  assert (Hin : In t (queued log)) by by apply accepted_in.
  split; [|exact G']. split; [done|split].
  - left. rewrite H2. destruct A as [?|(_ & E1 & Hn & _)]; [done|]. by rewrite E1, <- Hcur in Hn.
  - destruct rest as [[u a]|]; [|unfold submission_ok in *; by rewrite H3]. destruct S as (S1 & -> & S3 & S4). unfold submission_ok. rewrite H1, H3.
    split; [done|]. split; [done|]. split; [unfold issued_ticket, remote in *; by rewrite H4, H5|]. rewrite <- Hcur in *.
    destruct a as [q|]; [|by destruct S4]. intros Hq. destruct (S4 Hq) as [Hf _]. by rewrite Ha in Hf.
Qed.

(** ** A submission answered *)
Lemma answered_ok c log t a : inv c log (Some (t, a)) -> from c log None c <| rc_submitting := 0 |>.
Proof.
  intros H. pose proof (submitting_unarmed _ _ _ _ H) as Ha. destruct H as (B & _ & _). split.
  - split; [by eapply base_held, B|]. split; [by left|done].
  - apply (grows_held c c); try done. apply grows_refl.
Qed.
(** The end of a refused submission: the slot, as a START wrote it, is a fault. *)
Lemma refused_ok c log t q usb : inv c log (Some (t, Some q)) -> q <> 0 ->
  exists s, state_at c t = Some s /\ ls_phase s = LC_STARTING /\ ls_epoch s = 0 /\
    from c log None (set_state t (refused_state portable s usb) c) <| rc_submitting := 0 |>.
Proof.
  intros H Hq. pose proof (submitting_unarmed _ _ _ _ H) as Ha. destruct H as (B & _ & _ & -> & Hi & Hs).
  destruct (Hs Hq) as (_ & op & v & E & Ho). eexists. split; [exact E|]. split; [done|]. split; [done|].
  pose proof (iv_used _ _ B) as [Hu _]. assert (Hb : identity (boot c) = true) by apply B.
  assert (Ht : 0 <= rc_current c < 2 ^ 32).
  { destruct Hi as [Hr|Hl]; [unfold remote in Hr; lia|]. destruct (iv_local _ _ B) as [[_ E0]|(_ & ? & _)]; lia. }
  destruct (base_set_state c log (rc_current c) _ (refused_state portable (fresh_state (boot c) op v) usb) B Ht E) as (B' & G' & _);
    [split; [by apply refused_valid|done]|done|by apply fresh_refused|].
  destruct (set_state_same (rc_current c) (refused_state portable (fresh_state (boot c) op v) usb) c) as (H1 & H2 & _).
  split; [|by eapply grows_held, G']. split; [by eapply base_held, B'|]. split; [left|done]. by rewrite <- Ha, <- H2.
Qed.
Lemma command_queued_ok e k t q c log : inv c log (Some (t, Some q)) -> remote c t ->
  post c log None (command_queued portable e k t q c).
Proof.
  intros H Hr. pose proof (answered_ok _ _ _ _ H) as F. pose proof (iv_used _ _ (proj1 H)) as [Hu _]. unfold command_queued.
  destruct (negb (enter e c)); [|destruct (Z.eqb_spec q 0) as [->|Hq]].
  - apply post_returns. destruct (negb _); eapply from_same, F; done.
  - apply (post_plain _ _ _ _ _ _ _ F); try done; [by right; left|by left].
  - destruct (refused_ok c log t q (cm_usb k) H Hq) as (s & E & E1 & E2 & F').
    rewrite state_at_remote in E by (done || lia).
    assert (E' : slot c <| rc_gate := 1 |> <| rc_submitting := 0 |> t = Some s)
      by (unfold slot; unfold remote in Hr; destruct (Z.eqb_spec t 0); [lia|exact E]).
    rewrite E'. cbn [follow]. rewrite E1, E2. cbn [negb Z.eqb orb LC_STARTING Pos.eqb].
    unfold set_state in F'. rewrite is_local_small in F' by (unfold remote in Hr; lia).
    apply (post_plain _ _ _ _ _ _ _ F'); try done; [by right; left|by left].
Qed.
Lemma button_queued_ok e usb t q c log : inv c log (Some (t, Some q)) -> post c log None (button_queued portable e usb t q c).
Proof.
  intros H. pose proof (answered_ok _ _ _ _ H) as F. unfold button_queued.
  destruct (negb (enter e c)); [|destruct (Z.eqb_spec q 0) as [->|Hq]].
  - apply post_returns. destruct (negb _); eapply from_same, F; done.
  - apply post_leave. eapply from_same, F; done.
  - destruct (refused_ok c log t q (flagged (usb =? 1)) H Hq) as (s & E & _ & _ & F').
    change (state_at c <| rc_gate := 1 |> <| rc_submitting := 0 |> t) with (state_at c t). rewrite E. cbn [follow].
    apply post_leave. unfold set_state in *. destruct (is_local t); eapply from_same, F'; done.
Qed.
(** The callback itself. *)
Lemma queue_ok c log t d q : inv c log (Some (t, None)) -> inv c (log ++ [EvQueue t d q]) (Some (t, Some q)).
Proof.
  intros H. pose proof (submitting_unarmed _ _ _ _ H) as Ha. destruct H as (B & _ & S1 & S2 & S3 & S4 & S5).
  assert (Hq : queued (log ++ [EvQueue t d q]) = queued log ++ [t]) by (unfold queued; by rewrite omap_app).
  split; [|split; [by left|]].
  - destruct B. split; try done. rewrite Hq. destruct iv_queued0 as [Hd Hin]. split.
    + apply NoDup_app. split; [done|]. split; [|apply NoDup_singleton]. intros x Hx%list_elem_of_In ->%list_elem_of_singleton. done.
    + intros u [Hu|[<-|[]]]%in_app_iff; [by apply Hin|exact S3].
  - split; [done|]. split; [done|]. split; [done|]. intros Hq0. split; [|exact S5]. rewrite existsb_app. apply orb_false_iff. split.
    + apply not_true_is_false. by intros ?%accepted_in.
    + cbn. rewrite Z.eqb_refl. by destruct (Z.eqb_spec q 0).
Qed.

(** ** A command admitted *)
Lemma found_grows c c' t : grows c c' -> found c t -> t = 0 \/ remote c' t \/ is_local t = true.
Proof.
  intros G [->|(_ & [Hr|Hl] & _)]; [by left|right; left|by right; right]. pose proof (gr_used _ _ G). unfold remote in *. lia.
Qed.
Lemma command_known_ok c0 log sub rest k t c : inv c0 log sub -> from c0 log rest c -> found c t -> post c0 log rest (command_known portable k t c).
Proof.
  intros H0 F Hf. pose proof F as [H G]. unfold command_known.
  set (evs := if lr_command (cm_request k) =? LC_STOP then [EvWake] else []).
  assert (He : evs = [] \/ evs = [EvWake]) by (unfold evs; destruct (_ =? _); auto).
  assert (Hclose : forall c', from c0 log rest c' -> grows c c' -> post c0 log rest (c' <| rc_gate := 0 |>, CommandReply k t, evs)).
  { intros c' F' G'. apply (post_plain _ _ _ c'); try done. exact (found_grows c c' t G' Hf). }
  clearbody evs. destruct (negb (_ && _)) eqn:E; [by apply Hclose, grows_refl|].
  destruct Hf as [->|(Ht & _ & s & Es)]; [by rewrite andb_false_r in E|]. rewrite Es. cbn [follow].
  assert (Hs : exists c', (if active s then stop_ticket t c else c) = c' /\ inv c' log rest /\ grows c c').
  { eexists. split; [reflexivity|]. destruct (active s); [apply stop_ticket_ok; [done|lia]|split; [done|apply grows_refl]]. }
  destruct Hs as (c1 & -> & H1 & G1). pose proof (from_trans _ _ _ _ _ _ _ _ H0 F H1 G1) as F1.
  destruct (Z.eqb_spec (rc_armed c1) t); [|by apply Hclose].
  destruct (cancel_arm_ok c1 log rest (cm_usb k) (fun c => (c <| rc_gate := 0 |>, CommandReply k t, evs)) H1) as (c2 & -> & H2 & G2 & _); [lia|].
  apply Hclose; [by eapply from_trans, G2|]. eapply grows_trans; [apply H|apply H1|apply (iv_used _ _ (proj1 H2))|done|done].
Qed.

(** A parsed START names its operation. *)
Lemma request_operation r : request_valid r = true -> lr_command r = LC_START -> identity (lr_operation r) = true.
Proof.
  unfold request_valid. intros H E. rewrite E in H. destruct (_ || _); [done|]. cbn -[identity] in H.
  rewrite !andb_true_iff in H. tauto.
Qed.
(** A new operation waits for the button, or for the worker. *)
Lemma started_arm c0 log sub c c1 t op usb : inv c0 log sub -> from c0 log None c -> base c1 log -> grows c c1 -> remote c1 t ->
  state_at c1 t = Some (fresh_state (boot c) op usb) -> identity op = true -> ~ In t (queued log) ->
  rc_current c1 = t -> boot c1 = boot c -> rc_submitting c1 = 0 ->
  from c0 log None (set_slot t ((fresh_state (boot c) op usb) <| ls_flags ::= fun f => Z.lor f LC_BUTTON_ARMED |>) c1) <| rc_armed := t |>.
Proof.
  intros H0 F B1 G1 Hr E Ho Hq Hcur Hb Hs. change (fresh_state (boot c) op usb) <| ls_flags ::= _ |> with (armed_state (boot c) op usb).
  assert (Hbi : identity (boot c) = true) by (rewrite <- Hb; apply B1).
  assert (Hok : slot_ok c1 (armed_state (boot c) op usb)) by (split; [by apply armed_valid|done]).
  pose proof (base_slot_set _ log t _ _ B1 Hr E Hok eq_refl) as B2.
  pose proof (grows_set_slot _ log t _ _ B1 Hr E (fresh_armed _ _ _ Hbi Ho)) as G2.
  pose proof (iv_used _ _ B1) as [Hu _]. pose proof (iv_states _ _ B1) as Hl.
  assert (E2 : state_at (set_slot t (armed_state (boot c) op usb) c1) t = Some (armed_state (boot c) op usb))
    by (rewrite state_at_set, Z.eqb_refl; [done|lia|done|done|unfold remote in Hr; lia]).
  eapply from_trans; [exact H0|exact F|split; [by eapply base_held, B2|split; [right|exact Hs]]|].
  - split; [exact Hr|]. split; [done|]. split; [exact Hq|]. split; [exact Hs|]. exists op, usb. split; [|done].
    transitivity (Some (armed_state (boot c) op usb)); [exact E2|]. by rewrite <- Hb.
  - assert (G3 : grows c (set_slot t (armed_state (boot c) op usb) c1))
      by (eapply grows_trans; [apply F|exact B1|cbn; lia|exact G1|exact G2]).
    by eapply grows_held, G3.
Qed.
Lemma started_submit c0 log sub c c1 t op usb : inv c0 log sub -> from c0 log None c -> base c1 log -> grows c c1 -> issued_ticket c1 t ->
  state_at c1 t = Some (fresh_state (boot c) op usb) -> identity op = true -> ~ In t (queued log) ->
  rc_current c1 = t -> boot c1 = boot c -> rc_armed c1 = 0 ->
  from c0 log (Some (t, None)) c1 <| rc_submitting := 1 |>.
Proof.
  intros H0 F B1 G1 Hi E Ho Hq Hcur Hb Ha.
  eapply from_trans; [exact H0|exact F|split; [by eapply base_held, B1|split; [by left|]]|by eapply grows_held, G1].
  split; [done|]. split; [done|]. split; [exact Hi|]. split; [exact Hq|]. exists op, usb. split; [|done]. rewrite <- Hb in E. exact E.
Qed.
Lemma command_start_ok c0 log sub k ready now c : inv c0 log sub -> from c0 log None c -> rc_submitting c = 0 ->
  identity (lr_operation (cm_request k)) = true -> local_namespace c (lr_operation (cm_request k)) = false ->
  (forall t s, remote c t -> state_at c t = Some s -> ls_operation s <> lr_operation (cm_request k)) ->
  post c0 log None (command_start portable k ready now c).
Proof.
  intros H0 F Hsub Ho Hn Hnew. pose proof F as [H G]. pose proof H as (B & A & S). pose proof (iv_used _ _ B) as [Hu _].
  unfold command_start. destruct (_ || (rc_used c =? LRC_OPERATIONS)) eqn:E; [by apply post_leave|].
  apply orb_false_iff in E as [_ Hlt%Z.eqb_neq]. unfold LRC_OPERATIONS in Hlt.
  destruct (current_active_some c log None H) as [b Eb]. rewrite Eb. cbn [follow].
  destruct b; [by apply post_leave|]. destruct (_ || _); [by apply post_leave|].
  assert (Harm : rc_armed c = 0).
  { destruct (decide (rc_armed c = 0)); [done|]. rewrite (armed_active c log None) in Eb by done. done. }
  unfold u32. rewrite Z.mod_small by lia. rewrite (iv_unused _ _ B) by lia. cbn [follow].
  change (started_state portable zero_lc_state (lr_operation (cm_request k)) (ls_boot (rc_idle c)) (cm_usb k))
    with (fresh_state (boot c) (lr_operation (cm_request k)) (cm_usb k)).
  set (t := rc_used c + 1). set (s := fresh_state (boot c) (lr_operation (cm_request k)) (cm_usb k)).
  assert (Hb : identity (boot c) = true) by apply B.
  destruct (base_admitted c log s B) as (B1 & G1 & E1); [lia|by split; [apply fresh_valid|]|done|done|].
  fold t in B1, G1, E1. change ((set_stop t 0 (set_slot t s c)) <| rc_used := t |> <| rc_current := t |> <| rc_issued := t |>) with (admitted t s c).
  assert (Hnq : ~ In t (queued log)).
  { intros Hin. destruct (iv_queued _ _ B) as [_ Hq]. destruct (Hq t Hin) as [Hr|?]; [unfold remote in Hr|]; lia. }
  assert (Hrt : remote (admitted t s c) t) by (unfold remote; cbn; lia).
  pose proof (started_arm c0 log sub c (admitted t s c) t (lr_operation (cm_request k)) (cm_usb k) H0 F B1 G1 Hrt E1) as Harmed.
  pose proof (started_submit c0 log sub c (admitted t s c) t (lr_operation (cm_request k)) (cm_usb k) H0 F B1 G1 (or_introl Hrt) E1) as Hplain.
  fold s in Harmed. change (rc_submitting c = 0) with (rc_submitting (admitted t s c) = 0) in Hsub.
  change (rc_armed c = 0) with (rc_armed (admitted t s c) = 0) in Harm.
  assert (Hs1 : rc_current (admitted t s c) = t /\ boot (admitted t s c) = boot c) by done. destruct Hs1 as [Hcur Hboot].
  fold s. set (c1 := admitted t s c) in *. clearbody c1 s.
  destruct (lr_mode (cm_request k) =? 2).
  - assert (Hr2 : forall x, remote (set_slot t x c1) t) by (intros; exact Hrt).
    eapply post_plain; [by apply Harmed|done|done|done|right; left; apply Hr2|by left].
  - eapply post_submit; [..|by apply Hplain]; done.
Qed.
Lemma admit_sequence_view conn seq c : view (fst (admit_sequence conn seq c)) = view c /\ rc_fault (fst (admit_sequence conn seq c)) = rc_fault c.
Proof.
  unfold admit_sequence. destruct (_ && _); [done|]. destruct (_ && _); [done|]. destruct (rc_connection c =? 0); by destruct (_ <=? _).
Qed.
Lemma command_admit_ok c0 log sub e k ready c : inv c0 log sub -> from c0 log sub c -> request_valid (cm_request k) = true ->
  post c0 log sub (command_admit portable e k ready c).
Proof.
  intros H0 F Hr. unfold command_admit. apply post_unless_late; [done|by intros; apply post_leave|].
  clear F. intros F. set (c1 := c <| rc_last_now := an_now e |>) in *. clearbody c1.
  destruct (negb (rc_submitting c1 =? 0)) eqn:Es; [by apply post_leave|]. apply negb_false_iff, Z.eqb_eq in Es.
  pose proof (submitting_none _ _ _ (proj1 F) Es) as En.
  destruct (admit_sequence_view (cm_conn k) (lr_sequence (cm_request k)) c1) as [Hv Hf].
  destruct (admit_sequence _ _ _) as [c2 granted]. cbn [fst] in *.
  assert (F2 : from c0 log sub c2) by (eapply from_same; [exact Hv|by rewrite Hf|exact F]).
  assert (Es2 : rc_submitting c2 = 0) by (unfold view in Hv; congruence). clear F Hv Hf Es.
  destruct (negb granted); [by apply post_leave|]. pose proof F2 as [H2 G2]. pose proof H2 as (B & _).
  destruct (_ && local_namespace _ _) eqn:En1; [by apply post_leave|].
  destruct (_ && (_ =? 0)) eqn:En2.
  - apply andb_true_iff in En2 as [Ec Et]. rewrite Ec in En1. cbn [andb] in En1. apply Z.eqb_eq in Ec.
    pose proof (request_operation _ Hr Ec) as Ho. rewrite identity_not_zero in Et by done. apply Z.eqb_eq in Et. rewrite En.
    eapply command_start_ok; try done; [by rewrite <- En|]. by apply (find_operation_spec c2 log).
  - destruct (_ && negb _); [by apply post_leave|]. eapply command_known_ok; [exact H0|done|]. by eapply selected_found.
Qed.
Lemma parse_valid c frame n r rc : parse self request_at c frame n = (rc, Some r) -> request_valid r = true.
Proof.
  unfold parse, lc_parse_request. destruct frame; [|done]. destruct (_ || _); [done|]. destruct (_ || _); [done|].
  destruct (_ || _) eqn:E; [done|]. intros [= _ <-]. apply orb_false_iff in E as [E _]. by apply orb_false_iff in E as [E%negb_false_iff _].
Qed.
Lemma lrc_command_ok e conn frame n reply c log sub : inv c log sub -> post c log sub (lrc_command portable self request_at e conn frame n reply c).
Proof.
  intros H. pose proof (from_refl _ _ _ H) as F. unfold lrc_command. quiet.
  destruct (parse _ _ _ _ _) as [[|?|?] [r|]] eqn:Ep; quiet. apply parse_valid in Ep. apply (command_admit_ok c log sub); [done| |done]. quiet.
Qed.

(** ** The button *)
(** The identity of a recording of the device's own is one: its sixth byte is
    neither 0 nor 255. *)
Lemma local_operation_identity b n : zlen b = 16 -> identity (local_operation b n) = true.
Proof.
  intros Hb. set (x := Z.lor (Z.land (znth 6 b) 15) 0x40).
  assert (Hs : slice 6 1 (local_operation b n) = [x]).
  { unfold local_operation. eapply (slice_blits _ _ [(0, 1); (1, 1); (6, 1); (8, 1); (12, 4)] 16); [|done|done|done|reflexivity|reflexivity|done].
    unfold shape_of. cbn [map]. by rewrite zlen_be. }
  assert (H6 : Z.testbit x 6 = true) by (unfold x; rewrite Z.lor_spec; apply orb_true_r).
  assert (H5 : Z.testbit x 5 = false) by (unfold x; rewrite Z.lor_spec, Z.land_spec; by rewrite andb_false_r).
  assert (Hne : forall v, all (local_operation b n) v = true -> x = v).
  { intros v Hv%all_spec. assert (Hl : zlen (local_operation b n) = 16).
    { unfold local_operation. rewrite zlen_blits; [done|]. unfold shape_of. cbn [map]. by rewrite zlen_be, Hb. }
    rewrite Hl in Hv. rewrite Hv in Hs. rewrite slice_fill in Hs by lia. by injection Hs. }
  unfold identity. apply andb_true_iff. split; apply negb_true_iff, not_true_is_false; intros E; apply Hne in E.
  - rewrite E in H6. done.
  - rewrite E in H5. done.
Qed.
Lemma local_start_ok c0 log sub usb t c : inv c0 log sub -> from c0 log None c -> rc_armed c = 0 ->
  rc_local_count c < LRC_LOCAL_TICKET - 1 -> post c0 log None (local_start portable usb t c).
Proof.
  intros H0 F Ha Hlt. change LRC_LOCAL_TICKET with (2 ^ 31) in Hlt. pose proof F as [(B & _) G]. unfold local_start. cbv zeta.
  assert (Hcount : 0 <= rc_local_count c) by (destruct (iv_local _ _ B) as [[_ ->]|(_ & ? & _)]; lia).
  rewrite local_ticket_add by lia. set (n := rc_local_count c + 1).
  assert (Hn : rc_local_count c < n < 2 ^ 31) by lia. assert (Hq : ~ In (2 ^ 31 + n) (queued log)).
  { intros Hin. destruct (iv_queued _ _ B) as [_ Hq]. pose proof (iv_used _ _ B). destruct (Hq _ Hin) as [Hr|?]; [unfold remote in Hr|]; lia. }
  assert (Hb : identity (boot c) = true) by apply B. assert (Hl : zlen (boot c) = 16) by apply B.
  pose proof (local_operation_identity (boot c) n Hl) as Ho.
  assert (Hok : slot_ok c (fresh_state (boot c) (local_operation (boot c) n) usb)) by (split; [by apply fresh_valid|done]).
  match goal with |- post _ _ _ (?x, _, _) => set (c' := x) end.
  destruct (base_local c log _ n B Hn Hok eq_refl c' eq_refl eq_refl eq_refl) as (B' & G' & E').
  assert (Hcur : rc_current c' = 2 ^ 31 + n) by done. assert (Hcnt : rc_local_count c' = n) by done.
  assert (Hsub : rc_submitting c' = 1) by done. assert (Ha' : rc_armed c' = 0) by done. assert (Hb' : boot c' = boot c) by done.
  clearbody c'. eapply post_submit; [done|done|done|done|]. eapply from_trans; [exact H0|exact F| |exact G'].
  split; [done|]. split; [by left|]. split; [done|]. split; [done|]. split; [right; lia|]. split; [done|].
  exists (local_operation (boot c) n), usb. by rewrite Hb'.
Qed.
(** A tap: the armed operation starts or is cancelled, the live one stops, or a
    local one starts. *)
Lemma button_armed_ok c0 log sub usb t c : inv c0 log sub -> from c0 log None c -> rc_armed c <> 0 ->
  post c0 log None (follow c (slot c (rc_armed c)) (fun s =>
    ((set_slot (rc_armed c) (s <| ls_flags ::= fun f => Z.land f (Z.lnot LC_BUTTON_ARMED) |>) c)
       <| rc_armed := 0 |> <| rc_armed_deadline := 0 |> <| rc_submitting := 1 |> <| rc_button_local_ready := 0 |> <| rc_gate := 0 |>,
     ButtonQueue usb (rc_armed c) t, []))).
Proof.
  intros H0 F Hne. pose proof F as [(B & A & _) G]. destruct A as [?|(Hr & Hcur & Hq & Hs & op & v & E & Ho)]; [done|].
  pose proof (iv_used _ _ B) as [Hu _]. set (x := rc_armed c) in *.
  assert (Hslot : slot c x = Some (armed_state (boot c) op v)).
  { rewrite state_at_remote in E by (done || lia). unfold slot. by destruct (Z.eqb_spec x 0). }
  rewrite Hslot. cbn [follow]. rewrite armed_disarmed. assert (Hb : identity (boot c) = true) by apply B.
  assert (Hx : 0 <= x < 2 ^ 32) by (unfold remote in Hr; lia).
  destruct (base_set_state c log x _ (fresh_state (boot c) op v) B Hx E) as (B1 & G1 & E1);
    [by split; [apply fresh_valid|]|done|by apply armed_fresh|].
  unfold set_state in *. rewrite is_local_small in * by (unfold remote in Hr; lia).
  assert (Hc1 : rc_current (set_slot x (fresh_state (boot c) op v) c) = x) by done.
  assert (Hb1 : boot (set_slot x (fresh_state (boot c) op v) c) = boot c) by done.
  assert (Hr1 : remote (set_slot x (fresh_state (boot c) op v) c) x) by done.
  set (c1 := set_slot x (fresh_state (boot c) op v) c) in *. clearbody c1.
  apply (post_submit c0 log x (c1 <| rc_armed := 0 |> <| rc_submitting := 1 |>)); [done..|].
  eapply from_trans; [exact H0|exact F| |by eapply grows_held, G1].
  split; [by eapply base_held, B1|]. split; [by left|]. split; [done|]. split; [done|]. split; [by left|]. split; [done|].
  exists op, v. split; [|done]. rewrite <- Hb1 in E1. exact E1.
Qed.
Lemma button_single_ok c0 log sub usb ready t c : inv c0 log sub -> from c0 log None c -> post c0 log None (button_single portable usb ready t c).
Proof.
  intros H0 F. unfold button_single. cbv zeta. set (x := rc_button_ticket c). set (c1 := c <| rc_button_ticket := 0 |>).
  assert (F1 : from c0 log None c1) by (eapply from_same, F; done). clearbody c1 x. clear F. pose proof F1 as [H1 G1].
  assert (Hrest : (rc_armed c1 <> 0 -> x <> rc_current c1) -> post c0 log None
    (if (x =? rc_current c1) && negb (rc_button_local_ready c1 =? 0) && negb (rc_standalone c1 =? 0) && (ready =? 1) &&
        negb (no_power portable usb) && (rc_local_count c1 <? LRC_LOCAL_TICKET - 1) && (t <=? UINT64_MAX - LRC_PREPARE_MS)
     then local_start portable usb t c1 else leave (c1 <| rc_button_local_ready := 0 |>) 0)).
  { intros Hna. quiet. eapply local_start_ok; [exact H0|done|lia|lia]. }
  destruct (negb (x =? 0) && (x =? rc_current c1)) eqn:Ex.
  - assert (Ex' : x = rc_current c1) by lia. destruct (current_slot c1 log None H1) as [s Es]; [lia|]. subst x. rewrite Es. cbn [follow].
    destruct (active s) eqn:Ea.
    + destruct (Z.eqb_spec (rc_armed c1) (rc_current c1)) as [Earm|_].
      * quiet; [|rewrite <- Earm; eapply button_armed_ok; [exact H0|done|lia]].
        destruct (cancel_arm_ok c1 log None (flagged (usb =? 1)) (fun c => leave (c <| rc_button_local_ready := 0 |>) 0) H1) as (c2 & -> & H2 & G2 & _); [lia|].
        assert (F2 : from c0 log None c2) by by eapply from_trans, G2. apply post_leave. eapply from_same, F2; done.
      * destruct (stop_ticket_ok c1 log None (rc_current c1) H1) as [H2 G2].
        { destruct (current_found c1 log) as [E0|(? & _)]; [apply H1|lia..]. }
        assert (F2 : from c0 log None (stop_ticket (rc_current c1) c1)) by by eapply from_trans, G2.
        apply (post_plain _ _ _ _ _ _ _ F2); try done. by right.
    + apply Hrest. intros Hne _. pose proof (armed_active c1 log None H1 Hne) as Hact. unfold current_active in Hact.
      rewrite Es in Hact. destruct (_ =? 0); congruence.
  - apply Hrest. intros Hne E. destruct H1 as (_ & [?|(Hr & E1 & _)] & _); [done|]. unfold remote in Hr. lia.
Qed.
Lemma button_event_ok c0 log sub pressed usb ready t c : inv c0 log sub -> from c0 log None c ->
  post c0 log None (button_event portable pressed usb ready t c).
Proof.
  intros H0 F. unfold button_event. destruct (bg_sample _ _ _) as [event g].
  set (c1 := c <| rc_button := g |>). assert (F1 : from c0 log None c1) by (eapply from_same, F; done). clearbody c1. clear F.
  pose proof F1 as [H1 G1]. quiet. destruct event; quiet.
  - unfold button_press. cbv zeta. quiet.
    destruct (current_active_some (c1 <| rc_button_ticket := rc_current c1 |>) log None) as [b ->]; [by eapply inv_same, H1|].
    cbn [follow]. quiet.
  - by eapply button_single_ok.
  - unfold button_five. quiet. destruct (current_active_some c1 log None H1) as [b ->]. cbn [follow]. quiet.
Qed.
Lemma lrc_button_sample_ok e pressed c log sub : inv c log sub -> post c log sub (lrc_button_sample portable e pressed c).
Proof.
  intros H0. pose proof (from_refl _ _ _ H0) as F. unfold lrc_button_sample. quiet.
  all: match goal with E : negb (rc_submitting _ =? 0) = false |- _ => apply negb_false_iff, Z.eqb_eq in E; rename E into Es end.
  all: match goal with F' : from _ _ _ (_ <| rc_last_now := _ |>) |- _ => pose proof (submitting_none _ _ _ (proj1 F') Es) as -> end.
  all: set (t := rc_last_now _) in *; set (c1 := _ <| rc_last_now := _ |>) in *; clearbody t c1.
  - destruct (cancel_arm_ok c1 log None (flagged (an_usb e =? 1)) (button_event portable pressed (an_usb e) (an_ready e) t))
      as (c2 & -> & H2 & G2 & _); [match goal with F' : from _ _ _ c1 |- _ => apply F' end|lia|].
    apply (button_event_ok c log None); [done|]. by eapply from_trans, G2.
  - by apply (button_event_ok c log None).
Qed.

(** * Every move *)
Lemma start_ok o e c log sub : inv c log sub -> contract_call log o -> post c log sub (start portable self request_at snapshot_at o e c).
Proof.
  intros H Hc. destruct o; cbn [start].
  - by apply lrc_command_ok.
  - by apply lrc_reply_allowed_ok.
  - by apply lrc_disconnected_ok.
  - by apply lrc_pending_reply_ok.
  - destruct Hc as (? & ? & ?). by apply lrc_publish_ok.
  - by apply lrc_snapshot_ok.
  - by apply lrc_maintenance_claim_ok.
  - by apply lrc_maintenance_release_ok.
  - by apply lrc_set_standalone_ok.
  - by apply lrc_button_sample_ok.
Qed.
(** A call that holds the submission leaves it its own, or ends it; another
    leaves it alone. *)
Lemma advance_ok e p c log sub : inv c log sub -> point_ok c p -> (point_submission p = None \/ point_submission p = sub) ->
  post c log (match point_submission p with Some _ => None | None => sub end) (advance portable request_at snapshot_at e p c).
Proof.
  intros H Hp Hs. destruct p as [rc r o| |k t d|k t q|k t|usb t d|usb t q]; cbn [advance point_submission] in *.
  - apply (post_plain _ _ _ c); try done; [by apply from_refl|by left].
  - done.
  - destruct Hs as [?|<-]; [done|]. split; [by apply queue_ok|]. split; [by left|]. split; [done|apply grows_refl].
  - destruct Hs as [?|<-]; [done|]. by apply command_queued_ok.
  - by apply command_reply_ok.
  - destruct Hs as [?|<-]; [done|]. split; [by apply queue_ok|]. split; [by left|]. split; [done|apply grows_refl].
  - destruct Hs as [?|<-]; [done|]. by apply button_queued_ok.
Qed.

Definition calls_ok (s : system) sub : Prop :=
  omap point_submission (sy_calls s) = option_list sub /\ Forall (point_ok (sy_control s)) (sy_calls s).
Definition sys_ok (s : system) : Prop := exists sub, inv (sy_control s) (sy_log s) sub /\ calls_ok s sub.
Lemma point_ok_grows c c' p : grows c c' -> point_ok c p -> point_ok c' p.
Proof. intros G. pose proof (gr_used _ _ G). destruct p; cbn; unfold remote; intuition lia. Qed.
Abbreviation step := (make portable self request_at snapshot_at).
Lemma step_ok m s : sys_ok s -> contract s m -> sys_ok (step m s) /\ grows (sy_control s) (sy_control (step m s)).
Proof.
  destruct s as [c ps log]. intros (sub & H & Hs & Hp) Hc. cbn [sy_control sy_calls sy_log] in *. destruct m as [o e|i e]; cbn [make sy_control sy_calls sy_log].
  - pose proof (start_ok o e c log sub H Hc) as P. destruct (start _ _ _ _ _ _ _) as [[c' p] evs].
    destruct P as (H' & Hx & Hok & G). split; [|exact G]. eexists. split; [exact H'|]. split; cbn [sy_calls sy_control].
    + rewrite omap_app, Hs. cbn. destruct sub as [x|]; [destruct Hx as [?| ->]; [done|by rewrite app_nil_r]|]. by destruct (point_submission p).
    + apply Forall_app. split; [|by constructor]. eapply Forall_impl; [exact Hp|]. intros x. by apply point_ok_grows.
  - destruct (ps !! i) as [p|] eqn:E; [|split; [by exists sub|apply grows_refl]].
    assert (Hpp : point_ok c p) by (by eapply Forall_lookup_1 in Hp).
    apply list_elem_of_split_length in E as (l1 & l2 & -> & ->).
    rewrite omap_app in Hs. cbn in Hs.
    assert (Hcase : point_submission p = None /\ omap point_submission l1 ++ omap point_submission l2 = option_list sub \/
      point_submission p = sub /\ is_Some sub /\ omap point_submission l1 = [] /\ omap point_submission l2 = []).
    { destruct (point_submission p) as [y|]; [right|by left]. destruct (omap point_submission l1) as [|? [|]], sub; cbn in Hs; try done.
      injection Hs as -> ->. done. }
    pose proof (advance_ok e p c log sub H Hpp) as P. destruct (advance _ _ _ _ _ _) as [[c' p'] evs].
    destruct P as (H' & Hx & Hok & G); [destruct Hcase as [[? _]|[? _]]; auto|]. split; [|exact G]. eexists. split; [exact H'|].
    rewrite insert_app_r_alt, Nat.sub_diag by done. cbn [insert list_insert]. split; cbn [sy_calls sy_control].
    + rewrite omap_app. cbn. destruct Hcase as [[E1 E2]|(-> & [y ->] & -> & ->)]; [|by destruct (point_submission p')].
      rewrite E1 in Hx |- *. destruct sub as [x|].
      * destruct Hx as [?| ->]; [done|]. exact E2.
      * apply app_eq_nil in E2 as [-> ->]. by destruct (point_submission p').
    + apply Forall_app in Hp as [Hp1 Hp2]. apply Forall_cons in Hp2 as [_ Hp2]. apply Forall_app. split; [|constructor; [done|]];
        (eapply Forall_impl; [eassumption|]; intros x; by apply point_ok_grows).
Qed.
Fixpoint run_moves (ms : list move) (s : system) : system :=
  match ms with [] => s | m :: ms => run_moves ms (step m s) end.
Fixpoint contract_kept (ms : list move) (s : system) : Prop :=
  match ms with [] => True | m :: ms => contract s m /\ contract_kept ms (step m s) end.
Lemma lrc_run_ok ms s : sys_ok s -> contract_kept ms s -> sys_ok (run_moves ms s) /\ grows (sy_control s) (sy_control (run_moves ms s)).
Proof.
  revert s. induction ms as [|m ms IH]; intros s H; cbn; [by split; [|apply grows_refl]|]. intros [Hc Hk].
  destruct (step_ok m s H Hc) as [H1 G1]. destruct (IH _ H1 Hk) as [H2 G2]. split; [done|].
  destruct H as (? & (B & _) & _), H1 as (? & (B1 & _) & _), H2 as (? & (B2 & _) & _).
  eapply grows_trans; [exact B|exact B1|apply (iv_used _ _ B2)|done|done].
Qed.
(** A coordinator just initialised, and what moves that keep the worker's
    contract make of it. *)
Definition booted c : Prop :=
  exists c0 port bo bi, zlen (deref bo) = 16 /\ lrc_init portable self c0 port (Some bo) bi true = (LRC_OK, Some c).
Definition reached (s : system) : Prop := exists c ms, booted c /\ contract_kept ms (System c [] []) /\ s = run_moves ms (System c [] []).
Lemma booted_ok c : booted c -> sys_ok (System c [] []).
Proof.
  intros (c0 & port & bo & bi & Hl & E). unfold lrc_init in E. destruct (_ || _); [done|]. destruct port; [|done]. destruct bi; [|done].
  destruct (_ || _) eqn:Eb; [done|]. injection E as <-. rewrite !orb_false_iff, !negb_false_iff in Eb. destruct Eb as [[_ Hb] _].
  rewrite slice_all' in * by done. exists None. split; [|by split; [|constructor]]. split; [|split; [by left|done]]. cbn [sy_control].
  split; try done.
  - unfold remote. cbn. lia.
  - intros t Ht. cbn in Ht. unfold slot. destruct (Z.eqb_spec t 0); [lia|]. cbn [rc_states fresh_control].
    apply lookup_fill. unfold LRC_OPERATIONS. lia.
  - unfold remote. cbn. lia.
  - by left.
  - by left.
  - split; [constructor|]. by intros t [].
Qed.
Lemma reached_ok s : reached s -> sys_ok s.
Proof. intros (c & ms & Hb & Hk & ->). by apply lrc_run_ok; [apply booted_ok|]. Qed.
End Safety.

Section Theorems.
Context (portable : bool) (self request_at snapshot_at : Z).
Abbreviation reach := (reached portable self request_at snapshot_at).
Abbreviation kept := (contract_kept portable self request_at snapshot_at).
Abbreviation after := (run_moves portable self request_at snapshot_at).

(** C21. Whatever calls run, however their sections interleave and whatever the
    port answers, no call follows a null pointer or leaves an array, the current
    ticket always names a state, and each of the operations admitted since boot
    keeps a slot of its own whose state validates, belongs to this boot, and is
    what a lookup of that operation finds: no operation is admitted twice. *)
Theorem lrc_well_formed s : reach s ->
  Forall (fun p => p <> Undefined) (sy_calls s) /\
  (rc_current (sy_control s) <> 0 -> is_Some (state_at (sy_control s) (rc_current (sy_control s)))) /\
  forall t, 1 <= t <= rc_used (sy_control s) -> exists st,
    state_at (sy_control s) t = Some st /\ state_valid portable st = true /\ ls_boot st = ls_boot (rc_idle (sy_control s)) /\
    find_operation (sy_control s) (ls_operation st) = t.
Proof.
  intros (sub & H & _ & Hp)%reached_ok. pose proof H as (B & _). split; [|split].
  - eapply Forall_impl; [exact Hp|]. by intros p Hok ->.
  - intros Hne. destruct (current_slot _ _ _ _ H Hne) as [st ->]. done.
  - intros t Ht. destruct (iv_slots _ _ _ B t Ht) as (st & E & (Hv & Hb & _) & _). exists st. split; [done|]. split; [done|]. split; [done|].
    by eapply find_operation_self.
Qed.

(** C10. No ticket is ever handed to the worker twice, and only tickets that a
    START or a tap has issued are: a repeated command, a lost reply or a race
    between the phone and the button never starts a recording again. *)
Theorem lrc_queue_once s : reach s ->
  NoDup (queued (sy_log s)) /\
  forall t, In t (queued (sy_log s)) ->
    1 <= t <= rc_used (sy_control s) \/ LRC_LOCAL_TICKET < t <= LRC_LOCAL_TICKET + rc_local_count (sy_control s).
Proof. intros (sub & (B & _) & _)%reached_ok. exact (iv_queued _ _ _ B). Qed.

(** C20. STOP latches: once the stop of a ticket is requested, no later move makes
    it unrequested; it stays, or the ticket is no longer answered for (the
    coordinator is fenced, or the local slot holds another recording). *)
Theorem lrc_stop_latched s ms t : reach s -> kept ms s -> 0 <= t < 2 ^ 32 ->
  lrc_stop_requested (sy_control s) t = 1 ->
  lrc_stop_requested (sy_control (after ms s)) t = 1 \/ lrc_stop_requested (sy_control (after ms s)) t = -1.
Proof.
  intros H0%reached_ok Hk Ht. destruct (lrc_run_ok _ _ _ _ ms s H0 Hk) as [(sub' & (B' & _) & _) G]. destruct H0 as (sub & (B & _) & _).
  pose proof (iv_used _ _ _ B) as [Hu Hi]. pose proof (iv_used _ _ _ B') as [Hu' Hi'].
  set (c := sy_control s) in *. set (c' := sy_control (after ms s)) in *. pose proof (gr_used _ _ G) as Hg. unfold lrc_stop_requested.
  rewrite (iv_init _ _ _ B), (iv_init _ _ _ B'). change (1 =? 0) with false. cbn [orb].
  destruct (Z.eqb_spec t 0) as [_|Hne]; [done|]. cbn [orb].
  destruct (negb (rc_fault c =? 0)); [done|]. destruct (negb (rc_fault c' =? 0)); [by right|].
  destruct (is_local t).
  - destruct (Z.eqb_spec t (rc_local_ticket c)); [|done]. destruct (Z.eqb_spec t (rc_local_ticket c')); [|by right].
    intros E. left. by apply (gr_local_stop _ _ G); [congruence|].
  - destruct (Z.ltb_spec (rc_issued c) t); [done|]. destruct (Z.ltb_spec (rc_issued c') t); [lia|]. intros E.
    pose proof (gr_stop _ _ G t) as Hst. unfold remote in Hst. left.
    destruct (Z.eqb_spec (znth (t - 1) (rc_stop c)) 0); [done|]. destruct (Z.eqb_spec (znth (t - 1) (rc_stop c')) 0); [|done].
    destruct Hst; [lia|done|done].
Qed.

(** C19. What the coordinator reports of a ticket only progresses: a later state
    of the same ticket is the earlier one or one that [progress] accepts after
    it, so phases, frame counts and reasons never regress, a terminal state never
    changes, and the operation and its boot stay, whoever writes the state (the
    worker, a cancelled arm, a refused submission). *)
Theorem lrc_states_progress s ms t x y : reach s -> kept ms s -> 0 <= t < 2 ^ 32 ->
  state_at (sy_control s) t = Some x -> state_at (sy_control (after ms s)) t = Some y ->
  y = x \/ progress x y = true.
Proof.
  intros H0%reached_ok Hk Ht Ex Ey. destruct (lrc_run_ok _ _ _ _ ms s H0 Hk) as [_ G].
  destruct (gr_progress _ _ G t x y Ht Ex Ey) as [->|P]; [by left|right]. by apply progress_spec.
Qed.
End Theorems.

(** * A concrete run: a START, a race, progress, a STOP *)
Definition demo_boot : bytes := fill 16 1.
Definition demo_owner : bytes := fill 32 9.
Definition demo_control : control := fresh_control false demo_boot demo_owner.
Definition demo_frame (command sequence mode : Z) : bytes :=
  blits [(0, [0x4f; 0x50; 1; command]); put16 4 sequence; put16 6 72; (8, demo_boot); (24, fill 16 5); (40, demo_owner); (72, [mode])] (fill 80 0).
Definition demo_answers (now : Z) : answers := Answers true now 1 1 1 0.
Definition demo_command (command sequence mode now : Z) : move :=
  Begin (Lrc_command 1 (Some (Obj 0x30000 (demo_frame command sequence mode))) 80 (Some (Obj 0x31000 (fill 81 0)))) (demo_answers now).
Definition demo_running : lc_state :=
  LcState demo_boot (fill 16 5) (fill 16 3) LC_RUNNING 0 (1 + 2 + 64 + 256) 7 500 0 2000.
(** A START from the phone, a tap sampled while it is handed over, the worker's
    first report, the reply. *)
Definition demo_moves : list move :=
  [demo_command LC_START 1 1 10; Begin (Lrc_button_sample 0) (demo_answers 11); Continue 0 (demo_answers 12); Continue 0 (demo_answers 13);
   Begin (Lrc_publish 1 (Some (Obj 0x32000 demo_running))) (demo_answers 14); Continue 0 (demo_answers 15); demo_command LC_STOP 2 0 16].
Definition demo_later : list move := [Begin (Lrc_disconnected 1) (demo_answers 17); Continue 3 (demo_answers 18)].
Definition demo_system : system := System demo_control [] [].
Definition demo_state : system := run_moves false 0x20000 0x33000 0x34000 demo_moves demo_system.

Lemma demo_booted : booted false 0x20000 demo_control.
Proof.
  exists (demo_control <| rc_initialized := 0 |>), (Some (Obj 0x40000 true)), (Obj 0x40100 demo_boot), (Some (Obj 0x40200 demo_owner)).
  split; by vm_compute.
Qed.
Lemma lrc_demo_reached : reached false 0x20000 0x33000 0x34000 demo_state.
Proof.
  exists demo_control, demo_moves. split; [exact demo_booted|]. split; [|done].
  vm_compute. intuition discriminate.
Qed.
Lemma lrc_well_formed_witness :
  rc_used (sy_control demo_state) = 1 /\ find_operation (sy_control demo_state) (fill 16 5) = 1.
Proof.
  split; [by vm_compute|].
  destruct (lrc_well_formed false 0x20000 0x33000 0x34000 demo_state lrc_demo_reached) as (_ & _ & H).
  destruct (H 1) as (st & E & _ & _ & Ef); [vm_compute; intuition discriminate|].
  assert (Eo : option_map ls_operation (state_at (sy_control demo_state) 1) = Some (fill 16 5)) by (by vm_compute).
  rewrite E in Eo. injection Eo as Eo. by rewrite <- Eo.
Defined.
Lemma lrc_queue_once_witness : queued (sy_log demo_state) = [1] /\ NoDup (queued (sy_log demo_state)).
Proof.
  split; [by vm_compute|]. exact (proj1 (lrc_queue_once false 0x20000 0x33000 0x34000 demo_state lrc_demo_reached)).
Defined.
Lemma lrc_stop_latched_witness :
  lrc_stop_requested (sy_control demo_state) 1 = 1 /\
  (lrc_stop_requested (sy_control (run_moves false 0x20000 0x33000 0x34000 demo_later demo_state)) 1 = 1 \/
   lrc_stop_requested (sy_control (run_moves false 0x20000 0x33000 0x34000 demo_later demo_state)) 1 = -1).
Proof.
  split; [by vm_compute|].
  apply (lrc_stop_latched false 0x20000 0x33000 0x34000 demo_state demo_later 1 lrc_demo_reached); [|lia|by vm_compute].
  split; [exact I|]. split; exact I.
Defined.
Definition demo_started : system := run_moves false 0x20000 0x33000 0x34000 (take 4 demo_moves) demo_system.
Lemma lrc_states_progress_witness :
  state_at (sy_control demo_started) 1 = Some (fresh_state false demo_boot (fill 16 5) 1) /\
  state_at (sy_control (run_moves false 0x20000 0x33000 0x34000 (drop 4 demo_moves) demo_started)) 1 = Some demo_running /\
  (demo_running = fresh_state false demo_boot (fill 16 5) 1 \/ progress (fresh_state false demo_boot (fill 16 5) 1) demo_running = true).
Proof.
  split; [by vm_compute|]. split; [by vm_compute|].
  apply (lrc_states_progress false 0x20000 0x33000 0x34000 demo_started (drop 4 demo_moves) 1); [|vm_compute; intuition discriminate|lia|by vm_compute|by vm_compute].
  exists demo_control, (take 4 demo_moves). split; [exact demo_booted|]. split; [vm_compute; intuition discriminate|done].
Defined.
