(* ===== verification/ControlWorker.v ===== *)
(** The adapter between the coordinator and the worker
    ([recording_control_worker.c/.h]): the codec worker starts a ticket's session
    under the coordinator's STOP as its start check, hands a STOP on to the
    worker before each step, and publishes the worker's status as the ticket's
    state.

    The coordinator is part of the world the hooks act on: other actors move it
    inside every hook and between two of the adapter's own accesses to it. *)
From S2P Require Import Prelude FrameQueue LongControl RecordingControl SegmentHeader RecordTypes PlainSegment Wp RecordingPipeline RecordingWorker.

Record lcw_owner := LcwOwner { lo_ticket : Z; lo_session : es_binding; lo_start_result : Z }.
Record lcw_observation := LcwObservation {
  ob_usb : Z; ob_mic_on : Z; ob_producer_joined : Z; ob_storage_joined : Z; ob_released : Z; ob_accepted_frames : Z
}.

Section Adapter.
Context {W : Type} (hooks : rw_hooks W) (opus : opus_codec) (qa frame_at summary_at : Z).
(** Where the coordinator is in the world. *)
Context (get : W -> control) (put : control -> W -> W).
(** The build profile, and the addresses of the coordinator and of the local state. *)
Context (portable : bool) (self state_at : Z).
Abbreviation TW := (pipeline * (rw_mem * W))%type.
Abbreviation IW := (rw_mem * W)%type.

(** [consent]: the start check of the ticket. *)
Definition consent (ticket : Z) (w : W) : Z * W := (lrc_stop_requested (get w) ticket, w).
Definition consenting (ticket : Z) : rw_hooks W := {|
  now_ms := now_ms hooks; supervisor_arm := supervisor_arm hooks; supervisor_disarm := supervisor_disarm hooks;
  acquire := acquire hooks; release := release hooks; capture_start := capture_start hooks;
  stop_and_join := stop_and_join hooks; reserve := reserve hooks; seal_commit := seal_commit hooks;
  finalize_hook := finalize_hook hooks; poll_hook := poll_hook hooks; capacity_hook := capacity_hook hooks;
  consent_hook := fun _ _ _ => consent ticket; preempt := preempt hooks
|}.
(** A call of the coordinator's. *)
Definition coordinator {A} (f : control -> control * A) : M TW A :=
  inner (call (fun w => let '(c, a) := f (get w) in (a, put c w))).
Definition answered (r : result) : control * (Z * option lc_state) :=
  match r with
  | (c, Returned rc _ out, _) => (c, (rc, out))
  | (c, _, _) => (c, (LRC_FAULT, None)) (* these calls have one section *)
  end.
Definition stop_requested (ticket : Z) : M TW Z := coordinator (fun c => (c, lrc_stop_requested c ticket)).
Definition snapshot (e : answers) (ticket : Z) : M TW (Z * option lc_state) :=
  coordinator (fun c => answered (lrc_snapshot self e ticket (Some (Obj state_at zero_lc_state)) c)).
Definition publish (e : answers) (ticket : Z) (s : lc_state) : M TW Z :=
  coordinator (fun c => let '(c, r) := answered (lrc_publish portable self e ticket (Some (Obj state_at s)) c) in (c, fst r)).
Definition others : M TW unit := inner (preempted hooks qa).

(** [rw_request_stop] by the codec worker: while it holds the gate the producer's
    calls can only enter, and are refused. *)
Definition entry (i : interruption) : bool := match i with Enter _ => true | Proceed => false end.
Definition turned_away : M IW unit :=
  do l <- call (preempt hooks);
  change (fun m => fold_left (fun m i => interrupt qa i m) (List.filter entry l) m).
Definition own_request (epoch reason : Z) : M IW Z :=
  own (fun m =>
    let '(m, rc) := enter_call (RequestStop epoch reason) m in
    run change (fun _ => m);
    match rc with
    | Some rc => ret rc
    | None =>
        run turned_away;
        own (fun m =>
          let '(m, rc) := proceed_call qa m in
          run change (fun _ => m);
          ret (match rc with Some rc => rc | None => RW_OK end)) (* a request has two sections *)
    end).

(** [valid]: no pointer is NULL; [lock_free]: what [atomic_is_lock_free] answers. *)
Definition lcw_start (valid lock_free : bool) (e : answers) (ticket : Z) (s : es_binding) (first : Z) : M TW (Z * option lcw_owner) :=
  if negb valid then ret (RW_ARGUMENT, None) else
  do r <- snapshot e ticket;
  if fst r =? LRC_BUSY then ret (RW_BUSY, None) else
  match r with
  | (0, Some state) =>
      if negb (ls_phase state =? LC_STARTING) then ret (RW_STATE, None) else
      run others;
      do rc <- rw_start_controlled (consenting ticket) opus qa frame_at summary_at lock_free (Some s) first true;
      ret (rc, Some (LcwOwner ticket s rc))
  | _ => ret (RW_STATE, None)
  end.
Definition in_session_state (w : rw_status) : bool :=
  (ws_state w =? RW_RUNNING) || (ws_state w =? RW_STOPPING) || (ws_state w =? RW_DRAINING).
Definition lcw_step (o : option lcw_owner) : M TW Z :=
  match o with
  | None => ret RW_ARGUMENT
  | Some o =>
      do stop <- stop_requested (lo_ticket o);
      do r <- rw_get_status true;
      if fst r =? RW_BUSY then ret RW_BUSY else
      match snd r with
      | Some w =>
          if stop <? 0 then ret RW_ERROR else
          do rc <- (if negb (stop =? 0) && negb (ws_epoch w =? 0) && in_session_state w
                    then inner (own_request (ws_epoch w) RW_USER) else ret RW_OK);
          if rc =? RW_BUSY then ret RW_WAIT else
          if negb (rc =? 0) then ret RW_ERROR else
          rw_step hooks opus qa frame_at summary_at
      | None => ret RW_ERROR
      end
  end.

(** ** [lcw_publish] *)
Definition flag (b : bool) (f : Z) : Z := if b then f else 0.
Definition set (v : Z) : bool := negb (v =? 0).
Definition observation_ok (v : lcw_observation) : bool :=
  negb ((1 <? ob_usb v) || (1 <? ob_mic_on v) || (1 <? ob_producer_joined v) || (1 <? ob_storage_joined v) || (1 <? ob_released v) ||
        (LC_MAX_FRAMES <? ob_accepted_frames v)).
Definition observed (v : lcw_observation) (w : rw_status) (s : lc_state) : lc_state :=
  let flags := u16 (Z.lor (LC_PROFILE_FLAGS portable) (Z.lor (flag (set (ob_usb v)) LC_USB_PRESENT) (Z.lor (flag (set (ob_mic_on v)) LC_MIC_ON)
    (Z.lor (flag (set (ob_producer_joined v)) LC_PRODUCER_JOINED) (Z.lor (flag (set (ob_storage_joined v)) LC_STORAGE_JOINED)
      (flag (set (ob_released v)) LC_RELEASED)))))) in
  s <| ls_flags := Z.lor flags (flag (set (ws_capacity_known w)) LC_CAPACITY_KNOWN) |> <| ls_reason := 0 |> <| ls_epoch := ws_epoch w |>
    <| ls_accepted_frames := ob_accepted_frames v |> <| ls_committed_frames := 0 |> <| ls_admitted_frames := ws_admitted_frames w |>.
Definition never_started (o : lcw_owner) : bool := (lo_start_result o =? RW_NO_CAPACITY) || (lo_start_result o =? RW_CANCELLED).
(** Nothing may be held after a start that was given up. *)
Definition nothing_held (v : lcw_observation) (w : rw_status) : bool :=
  (ws_state w =? RW_IDLE) && negb (set (ws_fault w)) && negb (set (ws_lease_held w)) && negb (set (ws_supervisor_armed w)) &&
  negb (set (ws_supervisor_confirmed w)) && negb (set (ob_accepted_frames v)) && negb (set (ob_mic_on v)) &&
  set (ob_producer_joined v) && set (ob_storage_joined v) && set (ob_released v).
Definition given_up (o : lcw_owner) (s : lc_state) : lc_state :=
  let full := lo_start_result o =? RW_NO_CAPACITY in
  s <| ls_phase := if full then LC_NO_CAPACITY else LC_CANCELLED_BEFORE_START |> <| ls_reason := if full then RW_FULL else RW_USER |>
    <| ls_epoch := 0 |> <| ls_recording := fill 16 0 |>.
(** A stopped session is published as such only when every count agrees. *)
Definition stopped_clean (v : lcw_observation) (w : rw_status) : bool :=
  let p := ws_pipeline w in
  negb (set (ws_fault w)) && negb (set (ws_lease_held w)) && negb (set (ws_supervisor_armed w)) && negb (set (ws_supervisor_confirmed w)) &&
  set (ws_producer_fenced w) && set (ws_queue_closed w) && set (ws_queue_summary_valid w) &&
  (s_accepted (ws_queue w) =? ob_accepted_frames v) && negb (set (s_discarded (ws_queue w))) &&
  negb (set (ws_worker_discarded_frames w)) && negb (set (ps_discarded_samples p)) && negb (set (ps_commit_uncertain p)) &&
  negb (set (ps_pending_segments p)) && set (ps_buffers_wiped p) && set (ps_manifest_finalized p) &&
  (ps_captured_samples p =? ob_accepted_frames v * 320).
Definition or_flags (f : Z) (s : lc_state) : lc_state := s <| ls_flags ::= fun g => Z.lor g f |>.
Definition session_state (o : lcw_owner) (v : lcw_observation) (w : rw_status) (s : lc_state) : option lc_state :=
  let p := ws_pipeline w in
  if negb (ps_committed_samples p mod 320 =? 0) || (UINT32_MAX <? ps_committed_samples p / 320) then None else
  let s := s <| ls_committed_frames := ps_committed_samples p / 320 |> in
  let s := if set (ws_epoch w) && set (ps_session_reserved p)
           then (or_flags LC_SESSION_CREATED s) <| ls_recording := eb_recording_id (lo_session o) |> else s in
  if ws_state w =? RW_RUNNING then Some (s <| ls_phase := LC_RUNNING |>) else
  if (ws_state w =? RW_STOPPING) || (ws_state w =? RW_DRAINING)
  then Some (s <| ls_phase := if ws_state w =? RW_DRAINING then LC_DRAINING else LC_STOPPING |> <| ls_reason := u8 (ws_reason w) |>) else
  if ws_state w =? RW_STOPPED then
    if stopped_clean v w then Some ((or_flags LC_FINALIZED s) <| ls_phase := LC_STOPPED |> <| ls_reason := u8 (ws_reason w) |>) else None
  else Some ((or_flags LC_FAULT_LATCH s) <| ls_phase := LC_FAULT |> <| ls_reason := u8 (if set (ws_reason w) then ws_reason w else RW_CORE) |>).
(** The state that is published; [None]: a fault. *)
Definition published (o : lcw_owner) (v : lcw_observation) (w : rw_status) (s : lc_state) : option lc_state :=
  let s := observed v w s in
  if never_started o then if nothing_held v w then Some (given_up o s) else None else session_state o v w s.
Definition lcw_publish (o : option lcw_owner) (v : option lcw_observation) (e e' : answers) : M TW Z :=
  match o, v with
  | Some o, Some v =>
      if negb (observation_ok v) then ret LRC_ARGUMENT else
      do r <- rw_get_status true;
      if fst r =? RW_BUSY then ret LRC_BUSY else
      match snd r with
      | None => ret LRC_FAULT
      | Some w =>
          do q <- snapshot e (lo_ticket o);
          if fst q =? LRC_BUSY then ret LRC_BUSY else
          match q with
          | (0, Some s) =>
              match published o v w s with
              | None => ret LRC_FAULT
              | Some s => run others; publish e' (lo_ticket o) s
              end
          | _ => ret LRC_FAULT
          end
      end
  | _, _ => ret LRC_ARGUMENT
  end.
End Adapter.
