(* ===== verification/ControlWorkerSafety.v ===== *)
(** The adapter between the coordinator and the worker, proved: a STOP the
    coordinator has latched ends the session at the adapter's next step, and one
    latched before the start keeps the microphone off. *)
From S2P Require Import Prelude FrameQueue LongControl RecordingControl ControlSafety SegmentHeader RecordTypes PlainSegment Wp RecordingPipeline PipelineWorld RecordingWorker WorkerSafety WorkerSession WorkerRuns ControlWorker.

(** * A STOP reaches the worker *)
(** A call that finds the gate held can only leave its fault. *)
Lemma turned_away_one qa i m : wk_gate m = 1 -> entry i = true ->
  interrupt qa i m = m \/ exists epoch, interrupt qa i m = producer_fault epoch m.
Proof.
  intros Hg Hi. destruct i as [c|]; [|done]. cbn [interrupt]. destruct c; cbn [enter_call]; rewrite Hg; cbn [negb Z.eqb]; repeat case_match; cbn [fst]; eauto.
Qed.
(** What a held gate protects. *)
Definition guarded_by_gate (m : rw_mem) :=
  (wk_gate m, wk_in_flight m, rw_token m, wk_state m, wk_report m, wk_entry m, wk_stop m).
Lemma rw_token_fault epoch m : rw_token (producer_fault epoch m) = rw_token m.
Proof.
  unfold producer_fault, rw_token. destruct (Z.eqb_spec (wk_epoch m) epoch) as [<-|]; [|done]. cbn.
  apply Z.bits_inj'. intros n Hn. rewrite !Z.land_spec, Z.lor_spec. destruct (Z.testbit RW_EPOCH_MAX n) eqn:E; [|by rewrite !andb_false_r].
  replace (Z.testbit RW_EPOCH_FAULT n) with false; [by rewrite orb_false_r|]. unfold RW_EPOCH_MAX, RW_EPOCH_FAULT in *.
  change 0x7fffffff with (Z.ones 31) in E. change 0x80000000 with (2 ^ 31). destruct (Z.lt_ge_cases n 31) as [Hl|Hl].
  - rewrite Z.pow2_bits_false by lia. done.
  - rewrite Z.ones_spec_high in E by lia. done.
Qed.
Lemma turned_away_all qa l : forall m, wk_gate m = 1 ->
  guarded_by_gate (fold_left (fun m i => interrupt qa i m) (List.filter entry l) m) = guarded_by_gate m.
Proof.
  induction l as [|i l IH]; intros m Hg; [done|]. cbn [List.filter]. destruct (entry i) eqn:Ei; [|by apply IH]. cbn [fold_left].
  assert (E : guarded_by_gate (interrupt qa i m) = guarded_by_gate m).
  { destruct (turned_away_one qa i m Hg Ei) as [->|[epoch ->]]; [done|]. unfold guarded_by_gate. rewrite rw_token_fault. unfold producer_fault. by case_match. }
  rewrite IH; [exact E|]. unfold guarded_by_gate in E. by injection E as ->.
Qed.
Section Stop.
Context {W : Type} (hooks : rw_hooks W) (opus : opus_codec) (qa frame_at summary_at : Z).
Abbreviation IW := (rw_mem * W)%type.
Implicit Types (m : rw_mem) (w : W).
Lemma wp_own_request epoch m w : wk_gate m = 0 -> rw_token m = epoch -> epoch <> 0 -> wk_state m = RW_RUNNING ->
  wp (own_request hooks qa epoch RW_USER) (fun rc s => rc = RW_OK /\ wk_report (fst s) = wk_report m /\ wk_entry (fst s) = wk_entry m /\
    wk_stop (fst s) <> RW_NONE) (m, w).
Proof.
  intros Hg <- He Hs. unfold own_request. apply wp_own. cbn [enter_call stop_requestable].
  assert (Hmax : (RW_EPOCH_MAX <? rw_token m) = false).
  { apply Z.ltb_ge. unfold rw_token, RW_EPOCH_MAX. change 0x7fffffff with (Z.ones 31). rewrite Z.land_ones by lia.
    pose proof (Z.mod_pos_bound (wk_epoch m) (2 ^ 31) eq_refl). change (Z.ones 31) with (2 ^ 31 - 1). lia. }
  apply Z.eqb_neq in He. rewrite He, Hmax, Z.eqb_refl, Hg. cbn.
  set (m0 := admit_call (RequestStop (rw_token m) RW_USER) m). apply wp_bind, wp_change. unfold turned_away. apply wp_bind, wp_bind, wp_call. intros l w1 _.
  apply wp_change. pose proof (turned_away_all qa l m0 eq_refl) as Ek. set (m1 := fold_left _ _ _) in *. clearbody m1.
  unfold guarded_by_gate in Ek. injection Ek as E1 E2 E3 E4 E5 E6 E7. unfold m0 in *. clear m0. cbn in *.
  apply wp_own. unfold proceed_call. rewrite E2, E3, Z.eqb_refl, E4, Hs. cbn. apply wp_bind, wp_change, wp_ret. cbn [fst]. split; [done|].
  destruct (Z.eqb_spec (wk_stop m1) RW_NONE) as [En|En]; by split_and!.
Qed.
End Stop.
(** C9. A STOP that the coordinator has latched for the ticket reaches the worker: while
    the session runs, the adapter's next step finds it, latches it in the worker
    and leaves the running state, whatever the hooks, Opus and the producer do. *)
Theorem lcw_stop_ends_session {W} (hooks : rw_hooks W) get put opus qa frame_at summary_at o c m (w : W) :
  lrc_stop_requested (get w) (lo_ticket o) = 1 -> state_of m = RW_RUNNING -> wk_state m = RW_RUNNING ->
  rw_token m = ws_epoch (wk_report m) -> ws_epoch (wk_report m) <> 0 -> wk_gate m = 0 -> wk_entry m = 0 -> rp_active c = 0 ->
  ending_state (state_of (fst (snd (snd (lcw_step hooks opus qa frame_at summary_at get put (Some o) (c, (m, w))))))).
Proof.
  intros Hstop Hst Hs Ht He Hg Hen Ha.
  change (wp (lcw_step hooks opus qa frame_at summary_at get put (Some o)) (fun _ r => ending_state (state_of (fst (snd r)))) (c, (m, w))).
  unfold lcw_step. apply wp_bind. unfold stop_requested, coordinator, inner at 1. apply wp_call. intros stop s E.
  unfold call in E. cbn [fst snd] in E. rewrite Hstop in E. injection E as <- <-. set (w' := put (get w) w). cbn [fst snd] in *.
  apply wp_bind. unfold rw_get_status. cbn [negb]. apply wp_bind. unfold memory at 1, inner at 1. apply wp_call. intros m1 s1 E1. injection E1 as <- <-.
  cbn [fst]. rewrite Hen. cbn [negb Z.eqb]. apply wp_bind. unfold rp_get_status. cbn [negb]. apply wp_own. rewrite Ha. cbn [negb Z.eqb]. apply wp_ret.
  change RP_OK with 0. apply wp_bind. unfold inner at 1, report. apply wp_call. intros [] s2 E2. injection E2 as <-. cbn [fst snd].
  apply wp_bind. unfold memory, inner at 1. apply wp_call. intros m3 s3 E3. injection E3 as <- <-. apply wp_ret. cbn [fst snd].
  change (RW_OK =? RW_BUSY) with false. change (1 <? 0) with false. cbn [negb Z.eqb andb]. set (m2 := report_upd _ m).
  assert (E2 : wk_report m2 = (wk_report m) <| ws_pipeline := status c |>) by done.
  assert (E : (ws_epoch (wk_report m2) =? 0) = false /\ in_session_state (wk_report m2) = true).
  { rewrite E2. unfold in_session_state. cbn. unfold state_of in Hst. rewrite Hst. split; [by apply Z.eqb_neq|done]. }
  destruct E as [Ee Ein]. rewrite Ee, Ein. cbn [negb andb]. apply wp_bind. unfold inner at 1. apply wp_call. intros rc [m4 w4] E4.
  pose proof (wp_own_request hooks qa (ws_epoch (wk_report m2)) m2 w') as Hr. unfold wp in Hr. rewrite E4 in Hr. cbn [fst snd] in Hr.
  destruct Hr as (-> & Er & Een & Hn); [done..|]. change (RW_OK =? RW_BUSY) with false. cbn [Z.eqb negb]. change (RW_OK =? 0) with true. cbn [negb].
  apply (step_answers hooks opus qa frame_at summary_at (c, (m4, w4))); cbn [fst snd]; [|by rewrite Een|done].
  unfold state_of in *. by rewrite Er, E2.
Qed.

(** * A STOP before the start keeps the microphone off *)
Definition silent (e : hook_event) : Prop := match e with EvCapture _ _ _ _ | EvStop _ _ _ | EvFinalize _ => False | _ => True end.
Section Silence.
Context {W : Type} (hooks : rw_hooks (control * W)) (opus : opus_codec) (qa frame_at summary_at ticket : Z).
Abbreviation world := (control * W)%type.
Definition coordinator_of (w : list hook_event * world) : control := fst (snd w).
Definition with_coordinator (k : control) (w : list hook_event * world) : list hook_event * world := (fst w, (k, snd (snd w))).
Abbreviation H := (consenting (logged hooks) coordinator_of ticket).
Abbreviation IW := (rw_mem * (list hook_event * world))%type.
(** The ticket's stop is requested, or the ticket is no longer answered for. *)
Definition refused (w : world) : Prop := lrc_stop_requested (fst w) ticket = 1 \/ lrc_stop_requested (fst w) ticket = -1.
(** What the coordinator's other actors do inside these hooks keeps it so, as
    [ControlSafety.lrc_stop_latched] says of every move of theirs. *)
Record refusal_kept : Prop := {
  rk_now : forall w, refused w -> refused (snd (now_ms hooks w));
  rk_arm : forall d w, refused w -> refused (snd (supervisor_arm hooks d w));
  rk_disarm : forall w, refused w -> refused (snd (supervisor_disarm hooks w));
  rk_acquire : forall d w, refused w -> refused (snd (acquire hooks d w));
  rk_release : forall d w, refused w -> refused (snd (release hooks d w));
  rk_preempt : forall w, refused w -> refused (snd (preempt hooks w))
}.
Context (Hkept : refusal_kept) (t0 : list hook_event).
Definition muted (s : IW) : Prop := refused (snd (snd s)) /\ exists evs, fst (snd s) = t0 ++ evs /\ Forall silent evs.
Definition mute {A} (o : M IW A) : Prop := forall s, muted s -> muted (snd (o s)).
Lemma mute_ret {A} (a : A) : mute (ret a).
Proof. by intros s H. Qed.
Lemma mute_bind {A B} (o : M IW A) (k : A -> M IW B) : mute o -> (forall a, mute (k a)) -> mute (bind o k).
Proof. intros Ho Hk s Hs%Ho. unfold bind. destruct (o s) as [a s']. by apply Hk. Qed.
Lemma mute_own {A} (k : rw_mem -> M IW A) : (forall m, mute (k m)) -> mute (own k).
Proof. intros Hk s. apply Hk. Qed.
Lemma mute_change f : mute (change f).
Proof. by intros s Hs. Qed.
Lemma mute_preempted : mute (preempted H qa).
Proof.
  apply mute_bind; [|intros l; apply mute_change]. intros [m [t w]] [Hr He]. unfold call. cbn in *. pose proof (rk_preempt Hkept w Hr) as Hp.
  destruct (preempt hooks w) as [l w']. by split.
Qed.
(** A hook that is not the microphone's. *)
Lemma mute_hook {A} (f : list hook_event * world -> A * (list hook_event * world)) (g : world -> A * world) (e : A -> hook_event) :
  (forall t w, f (t, w) = (fst (g w), (t ++ [e (fst (g w))], snd (g w)))) -> (forall w, refused w -> refused (snd (g w))) -> (forall a, silent (e a)) ->
  mute (hook H qa f).
Proof.
  intros Hf Hg He. apply mute_bind; [|intros a; apply mute_bind; [apply mute_preempted|intros _; apply mute_ret]].
  intros [m [t w]] [Hr (evs & Et & Hevs)]. unfold call. cbn [fst snd] in *. rewrite Hf. split; cbn [fst snd]; [auto|].
  exists (evs ++ [e (fst (g w))]). rewrite Et, app_assoc. split; [done|]. by apply Forall_app; split; [|constructor].
Qed.
Ltac mutes :=
  repeat first
    [ solve [auto 2]
    | apply mute_ret | apply mute_preempted | apply mute_change
    | match goal with
      | |- mute (bind _ _) => apply mute_bind; [|intros ?]
      | |- mute (own _) => apply mute_own; intros ?
      | |- mute (load _ _ _) => unfold load
      | |- mute (store _ _ _) => unfold store
      | |- mute (report _) => unfold report
      | |- mute (both _ _) => unfold both
      | |- mute (rw_latch _ _ _) => unfold rw_latch
      | |- mute (rw_state_set _ _ _) => unfold rw_state_set
      | |- mute (is_external _ _) => unfold is_external
      | |- mute (stop_reason _ _) => unfold stop_reason
      | |- mute (unsafe_unless _ _ _) => unfold unsafe_unless
      | |- mute is_safe => unfold is_safe
      | |- mute (match ?x with _ => _ end) => destruct x
      end
    | progress (cbv beta zeta) ].
Ltac hooked g e := apply (mute_hook _ g e); [intros t w; cbn; by destruct (g w)|auto|done].
Lemma mute_now : mute (hook H qa (now_ms H)).
Proof. hooked (now_ms hooks) EvNow. apply (rk_now Hkept). Qed.
Lemma mute_clock : mute (rw_clock H qa).
Proof. pose proof mute_now. unfold rw_clock. mutes. Qed.
Hint Resolve mute_clock : core.
Lemma mute_guard : mute (rw_guard H qa).
Proof. unfold rw_guard, rw_collect_fault. mutes. Qed.
Hint Resolve mute_guard : core.
Lemma mute_arming d : mute (hook H qa (supervisor_arm H d)).
Proof. hooked (supervisor_arm hooks d) (EvArm d). apply (rk_arm Hkept). Qed.
Lemma mute_disarming : mute (hook H qa (supervisor_disarm H)).
Proof. hooked (supervisor_disarm hooks) EvDisarm. apply (rk_disarm Hkept). Qed.
Lemma mute_acquiring d : mute (hook H qa (acquire H d)).
Proof. hooked (acquire hooks d) (fun r : Z * rw_readiness => EvAcquire d (fst r)). apply (rk_acquire Hkept). Qed.
Lemma mute_releasing d : mute (hook H qa (release H d)).
Proof. hooked (release hooks d) (EvRelease d). apply (rk_release Hkept). Qed.
Hint Resolve mute_arming mute_disarming mute_acquiring mute_releasing : core.
Lemma mute_arm : mute (rw_arm H qa).
Proof. unfold rw_arm. mutes. Qed.
Lemma mute_disarm : mute (rw_disarm H qa).
Proof. unfold rw_disarm. mutes. Qed.
Lemma mute_release : mute (rw_release_lease H qa).
Proof. unfold rw_release_lease. mutes. Qed.
Lemma mute_fault : mute (rw_fault H qa).
Proof. unfold rw_fault. mutes. Qed.
Lemma mute_new_session : mute (new_session H qa).
Proof. unfold new_session. mutes. Qed.
Hint Resolve mute_arm mute_disarm mute_release mute_fault mute_new_session : core.

(** The worker's outer calls, the pipeline left alone. *)
Definition aside (c : pipeline) (r : pipeline * IW) : Prop := fst r = c /\ muted (snd r).
Definition silently {A} (o : M (pipeline * IW) A) : Prop := forall c r, aside c r -> wp o (fun _ => aside c) r.
Lemma silently_ret {A} (a : A) : silently (ret a).
Proof. by intros c r Hr. Qed.
Lemma silently_bind {A B} (o : M (pipeline * IW) A) (k : A -> M (pipeline * IW) B) : silently o -> (forall a, silently (k a)) -> silently (bind o k).
Proof. intros Ho Hk c r Hr. apply wp_bind. eapply wp_mono; [by apply Ho|]. intros a r' Hr'. by apply Hk. Qed.
Lemma silently_inner {A} (o : M IW A) : mute o -> silently (inner o).
Proof. intros Ho c [c' s] [<- Hs]. specialize (Ho s Hs). unfold inner. apply wp_call. intros a s' E. rewrite E in Ho. by split. Qed.
Lemma silently_memory : silently memory.
Proof. apply silently_inner, mute_own. intros m. apply mute_ret. Qed.
Ltac silence :=
  repeat first
    [ solve [auto 2]
    | apply silently_ret | apply silently_memory
    | match goal with
      | |- silently (bind _ _) => apply silently_bind; [|intros ?]
      | |- silently (inner _) => apply silently_inner; mutes
      | |- silently (fault_error _ _) => unfold fault_error
      | |- silently (match ?x with _ => _ end) => destruct x
      end
    | progress (cbv beta zeta) ].
Lemma silently_not_admitted : silently (not_admitted H qa).
Proof. unfold not_admitted. silence. Qed.
Lemma silently_withdrawn reason rc : silently (withdrawn H qa reason rc).
Proof. unfold withdrawn. silence. Qed.
Hint Resolve silently_not_admitted silently_withdrawn : core.
(** The start check refuses. *)
Lemma silently_consent k : silently (early_consent H qa true k).
Proof.
  unfold early_consent. cbn [negb]. apply silently_bind; [apply silently_memory|]. intros m c [c' [m1 [t [kk w]]]] [<- [Hr (evs & Et & Hevs)]]. cbn [fst snd] in *. apply wp_bind.
  apply (wp_mono _ (fun (admitted : Z) r => admitted <> 0 /\ aside c' r)).
  - unfold inner, hook. apply wp_call. intros a s' E. unfold bind, ret in E.
    assert (Hm := mute_preempted (m1, (t, (kk, w)))). unfold call at 1 in E. cbn [fst snd consent_hook consenting consent coordinator_of] in E.
    destruct (preempted H qa (m1, (t, (kk, w)))) as [u s2]. injection E as <- <-. unfold refused in Hr. cbn [fst] in Hr. split; [by destruct Hr as [->| ->]|].
    split; [done|]. apply Hm. split; [done|by exists evs].
  - intros admitted r [Ha%Z.eqb_neq Hr0]. apply wp_bind. eapply wp_mono; [by apply (silently_inner _ mute_guard)|]. intros ok r' Hr'. rewrite Ha.
    wp_step; [by apply silently_not_admitted|by apply silently_withdrawn].
Qed.
Lemma silently_start lock_free b first : silently (rw_start_controlled H opus qa frame_at summary_at lock_free (Some b) first true).
Proof.
  unfold rw_start_controlled, rw_start_inner, rw_entered, acquire_lease. pose proof silently_consent. silence.
Qed.
Lemma snapshot_same self e at_ k : fst (answered (lrc_snapshot self e ticket at_ k)) = k.
Proof. unfold lrc_snapshot. by repeat case_match. Qed.
Lemma silently_snapshot self at_ e : silently (snapshot coordinator_of with_coordinator self at_ e ticket).
Proof.
  apply silently_inner. intros [m [t [k w]]] [Hr He]. unfold call. cbn [fst snd coordinator_of].
  pose proof (snapshot_same self e (Some (Obj at_ zero_lc_state)) k) as Hs. destruct (answered _) as [k' a]. cbn in Hs. subst k'. by split.
Qed.
Lemma silently_lcw_start self at_ valid lock_free e b first :
  silently (lcw_start (logged hooks) opus qa frame_at summary_at coordinator_of with_coordinator self at_ valid lock_free e ticket b first).
Proof.
  unfold lcw_start, others. pose proof silently_start. pose proof (silently_snapshot self at_ e).
  assert (Hp : silently (inner (preempted (logged hooks) qa))) by apply silently_inner, mute_preempted. silence.
Qed.
End Silence.
(** C6. A STOP before the start keeps the microphone off: when the ticket's stop is
    requested as the adapter starts its session, whatever the hooks answer, Opus
    does and the producer attempts, nothing is captured, stopped or finalized,
    and the pipeline is not touched.  The other actors may move the coordinator
    inside every hook; the hypothesis [refusal_kept] is that they leave the stop
    requested or the ticket no longer answered for, which the coordinator's own
    [lrc_stop_latched] says of their moves on a coordinator in use. *)
Theorem lcw_stop_prevents_capture {W} (hooks : rw_hooks (control * W)) opus qa frame_at summary_at self state_at valid lock_free e ticket b first c m t k (w : W) :
  refusal_kept hooks ticket -> lrc_stop_requested k ticket = 1 ->
  let r := snd (lcw_start (logged hooks) opus qa frame_at summary_at coordinator_of with_coordinator self state_at valid lock_free e ticket b first
                  (c, (m, (t, (k, w))))) in
  fst r = c /\ exists evs, fst (snd (snd r)) = t ++ evs /\ Forall silent evs.
Proof.
  intros Hk Hs. destruct (silently_lcw_start hooks opus qa frame_at summary_at ticket Hk t self state_at valid lock_free e b first c (c, (m, (t, (k, w)))))
    as [Hc [_ He]]; [|by split].
  split; [done|]. split; [by left|]. exists []. by rewrite app_nil_r.
Qed.

(** * Concrete runs *)
(** A ticket stopped while it runs, before the adapter's next step. *)
Definition desk_stopped (w : Z) : control := sy_control demo_state.
Lemma lcw_stop_ends_session_witness :
  lrc_stop_requested (sy_control demo_state) 1 = 1 /\ state_of (fst (snd studio_started)) = RW_RUNNING /\
  ending_state (state_of (fst (snd (snd (lcw_step studio_hooks studio_codec 0x20000000 0x20020000 0x20030000 desk_stopped (fun _ w => w)
    (Some (LcwOwner 1 studio_session RW_OK)) studio_started))))).
Proof.
  assert (Hc : lrc_stop_requested (sy_control demo_state) 1 = 1 /\
    (let m := fst (snd studio_started) in state_of m = RW_RUNNING /\ wk_state m = RW_RUNNING /\ rw_token m = ws_epoch (wk_report m) /\
       negb (ws_epoch (wk_report m) =? 0) = true /\ wk_gate m = 0 /\ wk_entry m = 0 /\ rp_active (fst studio_started) = 0)) by (by vm_compute).
  destruct Hc as (Hs & H1 & H2 & H3 & H4%negb_true_iff%Z.eqb_neq & H5 & H6 & H7). split; [exact Hs|]. split; [exact H1|].
  replace studio_started with (fst studio_started, (fst (snd studio_started), snd (snd studio_started))) at 1 by (by destruct studio_started as [c [m w]]).
  exact (lcw_stop_ends_session studio_hooks desk_stopped (fun _ w => w) studio_codec 0x20000000 0x20020000 0x20030000 (LcwOwner 1 studio_session RW_OK)
    (fst studio_started) (fst (snd studio_started)) (snd (snd studio_started)) Hs H1 H2 H3 H4 H5 H6 H7).
Defined.
(** A ticket stopped before the codec worker starts it; the capacity is known. *)
Definition desk_early : control :=
  sy_control (run_moves false 0x20000 0x33000 0x34000
    [demo_command LC_START 1 1 10; Continue 0 (demo_answers 12); Continue 0 (demo_answers 13); Continue 0 (demo_answers 15); demo_command LC_STOP 2 0 16] demo_system).
Definition beside {A} (f : Z -> A * Z) (w : control * Z) : A * (control * Z) := let '(a, z) := f (snd w) in (a, (fst w, z)).
Definition desk_hooks : rw_hooks (control * Z) := {|
  now_ms := beside (now_ms studio_hooks); supervisor_arm := fun d => beside (supervisor_arm studio_hooks d);
  supervisor_disarm := beside (supervisor_disarm studio_hooks); acquire := fun d => beside (acquire studio_hooks d);
  release := fun d => beside (release studio_hooks d); capture_start := fun e f d => beside (capture_start studio_hooks e f d);
  stop_and_join := fun e d => beside (stop_and_join studio_hooks e d); reserve := fun b d => beside (reserve studio_hooks b d);
  seal_commit := fun b p n d => beside (seal_commit studio_hooks b p n d); finalize_hook := fun r d => beside (finalize_hook studio_hooks r d);
  poll_hook := fun b d => beside (poll_hook studio_hooks b d); capacity_hook := fun b d => beside (capacity_hook studio_hooks b d);
  consent_hook := fun e k d => beside (consent_hook studio_hooks e k d); preempt := beside (preempt studio_hooks)
|}.
Lemma desk_kept ticket : refusal_kept desk_hooks ticket.
Proof. split; intros; unfold refused, beside; cbn; done. Qed.
Definition desk_idle := snd (worker_calls (logged desk_hooks) studio_codec 0x20000000 0x20020000 0x20030000
  [CallInitCapacityAsync true true true true RP_MANUAL RP_WORKER_STACK_MIN 1000] (boot_pipeline, (boot_worker, ([], (desk_early, 0))))).
Definition desk_end := lcw_start (logged desk_hooks) studio_codec 0x20000000 0x20020000 0x20030000 coordinator_of with_coordinator
  0x20000 0x36000 true true (demo_answers 20) 1 studio_session 0
  (fst desk_idle, (fst (snd desk_idle), (fst (snd (snd desk_idle)), (desk_early, snd (snd (snd (snd desk_idle))))))).
Lemma lcw_stop_prevents_capture_witness :
  lrc_stop_requested desk_early 1 = 1 /\ fst (fst desk_end) = RW_CANCELLED /\ fst (snd desk_end) = fst desk_idle /\
  exists evs, fst (snd (snd (snd desk_end))) = fst (snd (snd desk_idle)) ++ evs /\ Forall silent evs.
Proof.
  assert (Hc : lrc_stop_requested desk_early 1 = 1 /\ fst (fst desk_end) = RW_CANCELLED) by (by vm_compute). destruct Hc as [Hs Hrc].
  split; [exact Hs|]. split; [exact Hrc|].
  exact (lcw_stop_prevents_capture desk_hooks studio_codec 0x20000000 0x20020000 0x20030000 0x20000 0x36000 true true (demo_answers 20) 1 studio_session 0
    (fst desk_idle) (fst (snd desk_idle)) (fst (snd (snd desk_idle))) desk_early (snd (snd (snd (snd desk_idle)))) (desk_kept 1) Hs).
Defined.
