(* ===== verification/BleCodec.v ===== *)
(** The frame codec of the phone synchronisation ([durable_ble_codec.c/.h]):
    requests for the catalog, manifests and segments, acknowledgements and
    deletions, in the small and the full command family, their responses, and the
    catalog page. *)
From S2P Require Import Prelude.

Definition DB_CATALOG : Z := 0x30.
Definition DB_MANIFEST : Z := 0x31.
Definition DB_SEGMENT : Z := 0x32.
Definition DB_RECEIVE_ACK : Z := 0x33.
Definition DB_DELETE : Z := 0x34.
Definition DB_FULL_RECEIVE_RANGE : Z := 0x3e.
Definition DB_RECEIPT_BATCH_MAX : Z := 32.
Definition DB_FULL_STREAM : Z := 0x3d.
Definition DB_STREAM_MAX_DATA : Z := 4096.
Definition DB_FULL_CATALOG : Z := 0x38.
Definition DB_MAX_REQUEST : Z := 82.
Definition DB_MAX_DATA : Z := 52.
Definition DB_CATALOG_HEADER : Z := 128.
Definition DB_CATALOG_ENTRY : Z := 64.
Definition DB_MAX_RECORDINGS : Z := 8.
Definition DB_MAX_CATALOG : Z := 640.
Definition DB_MAX_CONTAINER : Z := 34357.
Definition DB_FULL_MAX_DATA : Z := 192.
Definition DB_FULL_MAX_RECORDINGS : Z := 32.
Definition DB_FULL_MAX_SEGMENTS : Z := 5120.
Definition DB_FULL_MAX_CATALOG : Z := 128 + 64 * DB_FULL_MAX_RECORDINGS.
Definition DB_OK : Z := 0.
Definition DB_ARGUMENT : Z := -1.
Definition DB_INVALID : Z := -2.

Record db_request := DbRequest {
  dr_nonce : bytes; dr_recording : bytes; dr_operation : bytes; dr_sha256 : bytes; dr_revision : Z;
  dr_segment : Z; dr_container_bytes : Z; dr_offset : Z; dr_sequence : Z; dr_maximum : Z; dr_command : Z
}.
#[export] Instance eta_db_request : Eta db_request := fun r =>
  DbRequest (dr_nonce r) (dr_recording r) (dr_operation r) (dr_sha256 r) (dr_revision r) (dr_segment r)
    (dr_container_bytes r) (dr_offset r) (dr_sequence r) (dr_maximum r) (dr_command r).
Record db_volume := DbVolume { dv_device : bytes; dv_volume : bytes; dv_fingerprint : bytes; dv_generation : Z }.
Record db_catalog_entry := DbEntry {
  de_recording : bytes; de_manifest_sha256 : bytes; de_revision : Z; de_segments : Z; de_state : Z
}.
Definition sizeof_db_request : Z := 112.
Definition sizeof_db_volume : Z := 72.
Definition sizeof_db_catalog_entry : Z := 64.

(** ** Spans *)
Definition db_span {A} (p : ptr A) (n : Z) : bool :=
  match p with Some p => negb (n =? 0) && (addr p <=? UINTPTR_MAX - (n - 1)) | None => false end.
Definition db_separate {A B} (a : ptr A) (an : Z) (b : ptr B) (bn : Z) : bool :=
  db_span a an && db_span b bn &&
  match a, b with
  | Some a, Some b => if addr a <? addr b then an <=? addr b - addr a else bn <=? addr a - addr b
  | _, _ => false
  end.

(** ** Requests *)
Definition durable_ble_is_full (command : Z) : bool := (DB_FULL_CATALOG <=? command) && (command <=? DB_FULL_RECEIVE_RANGE).
Definition kind (command : Z) : Z :=
  if command =? DB_FULL_RECEIVE_RANGE then DB_RECEIVE_ACK else
  if command =? DB_FULL_STREAM then DB_SEGMENT else
  if durable_ble_is_full command then u8 (command - 8) else command.
Definition db_revision (v : Z) (full : bool) : bool :=
  (v <=? if full then DB_FULL_MAX_SEGMENTS * 4 + 2 else 130) && (v mod 4 <=? 2).
Definition db_container (n : Z) : bool := (425 <=? n) && (n <=? DB_MAX_CONTAINER) && ((n - 357) mod 68 =? 0).

Section Request.
Context (r : db_request).
Let full := durable_ble_is_full (dr_command r).
Definition max_data : Z :=
  if dr_command r =? DB_FULL_STREAM then DB_STREAM_MAX_DATA else if full then DB_FULL_MAX_DATA else DB_MAX_DATA.
Definition max_segments : Z := if full then DB_FULL_MAX_SEGMENTS else 32.
Definition catalog_request : bool :=
  (dr_offset r <? if full then DB_FULL_MAX_CATALOG else DB_MAX_CATALOG) && (1 <=? dr_maximum r) &&
  (dr_maximum r <=? max_data) && zero (dr_recording r) && zero (dr_operation r) && zero (dr_sha256 r) &&
  (dr_revision r =? 0) && (dr_segment r =? 0) && (dr_container_bytes r =? 0).
Definition manifest_request : bool :=
  identity (dr_recording r) && identity (dr_sha256 r) && db_revision (dr_revision r) full &&
  (dr_offset r <? 128 + 64 * (dr_revision r / 4)) && (1 <=? dr_maximum r) && (dr_maximum r <=? max_data) &&
  zero (dr_operation r) && (dr_segment r =? 0) && (dr_container_bytes r =? 0).
Definition segment_request : bool :=
  identity (dr_recording r) && identity (dr_sha256 r) && (dr_segment r <? max_segments) &&
  (dr_offset r <? DB_MAX_CONTAINER) && (1 <=? dr_maximum r) && (dr_maximum r <=? max_data) &&
  zero (dr_operation r) && (dr_revision r =? 0) && (dr_container_bytes r =? 0).
Definition receipt_request : bool :=
  identity (dr_recording r) && identity (dr_sha256 r) && (dr_segment r <? max_segments) &&
  (if dr_command r =? DB_FULL_RECEIVE_RANGE
   then (1 <=? dr_container_bytes r) && (dr_container_bytes r <=? DB_RECEIPT_BATCH_MAX) &&
        (dr_container_bytes r <=? max_segments - dr_segment r)
   else db_container (dr_container_bytes r)) &&
  zero (dr_operation r) && (dr_revision r =? 0) && (dr_offset r =? 0) && (dr_maximum r =? 0).
Definition delete_request : bool :=
  identity (dr_operation r) && identity (dr_sha256 r) && zero (dr_recording r) && (dr_revision r =? 0) &&
  (dr_segment r =? 0) && (dr_container_bytes r =? 0) && (dr_offset r =? 0) && (dr_maximum r =? 0).
Definition db_request_valid : bool :=
  if negb (identity (dr_nonce r)) || (dr_sequence r =? 0) then false else
  let command := kind (dr_command r) in
  if command =? DB_CATALOG then catalog_request else
  if command =? DB_MANIFEST then manifest_request else
  if command =? DB_SEGMENT then segment_request else
  if command =? DB_RECEIVE_ACK then receipt_request else
  if command =? DB_DELETE then delete_request else false.
End Request.

(** The fields every request has; [memset] clears the others. *)
Definition blank_request (frame : bytes) : db_request :=
  DbRequest (slice 8 16 frame) (fill 16 0) (fill 16 0) (fill 32 0) 0 0 0 0 (get16 4 frame) 0 (znth 3 frame).
(** The request of a frame whose length fits its command: [None] where a reserved
    byte is set.  Offsets are of the frame, eight beyond those of the payload. *)
Definition decode_db_request (wire : Z) (frame : bytes) : option db_request :=
  let command := kind wire in
  let full := durable_ble_is_full wire in
  let extra := if full then 2 else 0 in
  let offset at_ := if full then get32 at_ frame else get16 at_ frame in
  let unless (b : bool) (r : db_request) := if b then None else Some r in
  let r := blank_request frame in
  if command =? DB_CATALOG then
    unless (negb (znth (27 + extra) frame =? 0))
      (r <| dr_offset := offset 24 |> <| dr_maximum := znth (26 + extra) frame |>)
  else if command =? DB_MANIFEST then
    unless (negb (znth (79 + extra) frame =? 0))
      (r <| dr_recording := slice 24 16 frame |> <| dr_revision := get32 40 frame |> <| dr_sha256 := slice 44 32 frame |>
         <| dr_offset := offset 76 |> <| dr_maximum := znth (78 + extra) frame |>)
  else if command =? DB_SEGMENT then
    unless (negb (wire =? DB_FULL_STREAM) && negb (znth (47 + extra) frame =? 0))
      (r <| dr_recording := slice 24 16 frame |> <| dr_segment := get32 40 frame |> <| dr_offset := offset 44 |>
         <| dr_maximum := if wire =? DB_FULL_STREAM then get16 48 frame else znth (46 + extra) frame |>
         <| dr_sha256 := slice (48 + extra) 32 frame |>)
  else if command =? DB_RECEIVE_ACK then
    Some (r <| dr_recording := slice 24 16 frame |> <| dr_segment := get32 40 frame |>
            <| dr_container_bytes := get32 44 frame |> <| dr_sha256 := slice 48 32 frame |>)
  else
    unless (negb (zero (slice 72 8 frame)))
      (r <| dr_operation := slice 24 16 frame |> <| dr_sha256 := slice 40 32 frame |>).
Definition expected_payload (wire : Z) : Z :=
  (if kind wire =? DB_CATALOG then 20 else 72) + if durable_ble_is_full wire && (kind wire <=? DB_SEGMENT) then 2 else 0.
Definition durable_ble_parse_request (frame : ptr bytes) (n : Z) (out : ptr db_request) : Z * option db_request :=
  if (n <? 8) || (DB_MAX_REQUEST <? n) || negb (db_separate frame n out sizeof_db_request) then (DB_ARGUMENT, None) else
  match frame with
  | None => (DB_ARGUMENT, None)
  | Some fo =>
      let frame := deref fo in
      let wire := znth 3 frame in
      if negb (durable_ble_is_full wire) && (80 <? n) then (DB_ARGUMENT, None) else
      if negb (znth 0 frame =? 0x4f) || negb (znth 1 frame =? 0x50) || negb (znth 2 frame =? 1) ||
         negb (get16 6 frame =? n - 8) || (kind wire <? DB_CATALOG) || (DB_DELETE <? kind wire) || (get16 4 frame =? 0)
      then (DB_INVALID, None) else
      if negb (n - 8 =? expected_payload wire) then (DB_INVALID, None) else
      match decode_db_request wire frame with
      | None => (DB_INVALID, None)
      | Some r => if db_request_valid r then (DB_OK, Some r) else (DB_INVALID, None)
      end
  end.

(** ** Responses *)
Definition db_header (r : db_request) (payload : Z) : list field :=
  [(0, [0x4f]); (1, [0x50]); (2, [1]); (3, [u8 (Z.lor (dr_command r) 0x80)]); put16 4 (dr_sequence r);
   put16 6 (u16 (payload + 1)); (8, [0])].
Definition wanted (r : db_request) (total : Z) : Z :=
  let remaining := total - dr_offset r in
  let n := if remaining <? dr_maximum r then remaining else dr_maximum r in
  if (dr_command r =? DB_FULL_STREAM) && (DB_FULL_MAX_DATA <? n) then DB_FULL_MAX_DATA else n.
Definition read_total_ok (r : db_request) (total : Z) : bool :=
  let full := durable_ble_is_full (dr_command r) in
  let command := kind (dr_command r) in
  negb (negb (db_request_valid r) || (command <? DB_CATALOG) || (DB_SEGMENT <? command) || (total <=? dr_offset r) ||
        (negb full && (0xffff <? total))) &&
  negb ((command =? DB_CATALOG) &&
        ((total <? 128) || ((if full then DB_FULL_MAX_CATALOG else DB_MAX_CATALOG) <? total) ||
         negb ((total - 128) mod 64 =? 0))) &&
  negb ((command =? DB_MANIFEST) && negb (total =? 128 + 64 * (dr_revision r / 4))) &&
  negb ((command =? DB_SEGMENT) && negb (db_container total)).
Definition read_prefix (command : Z) : Z := if durable_ble_is_full command then 33 else 29.
Definition read_fields (r : db_request) (total : Z) (data : bytes) : list field :=
  let prefix := read_prefix (dr_command r) in
  db_header r (u16 (prefix - 9 + zlen data)) ++ [(9, dr_nonce r)] ++
  (if durable_ble_is_full (dr_command r) then [put32 25 (dr_offset r); put32 29 total]
   else [put16 25 (u16 (dr_offset r)); put16 27 (u16 total)]) ++ [(prefix, data)].
(** [out] holds the caller's bytes; the response replaces them. *)
Definition durable_ble_read_response (out : ptr bytes) (capacity : Z) (r : ptr db_request) (total : Z)
    (data : ptr bytes) (n : Z) : Z * option bytes :=
  match r with
  | None => (DB_ARGUMENT, None)
  | Some ro =>
      let full := durable_ble_is_full (dr_command (deref ro)) in
      if (n <? 1) || ((if full then DB_FULL_MAX_DATA else DB_MAX_DATA) <? n) ||
         negb (capacity =? read_prefix (dr_command (deref ro)) + n) || negb (db_separate out capacity r sizeof_db_request) ||
         negb (db_separate out capacity data n) || negb (db_separate r sizeof_db_request data n)
      then (DB_ARGUMENT, None) else
      if negb (read_total_ok (deref ro) total) || negb (n =? wanted (deref ro) total) then (DB_INVALID, None) else
      match out, data with
      | Some oo, Some dd => (DB_OK, Some (blits (read_fields (deref ro) total (slice 0 n (deref dd))) (deref oo)))
      | _, _ => (DB_ARGUMENT, None)
      end
  end.

Definition receipt_fields (r : db_request) : list field :=
  db_header r 72 ++ [(9, dr_nonce r); (25, dr_recording r); put32 41 (dr_segment r); put32 45 (dr_container_bytes r);
                     (49, dr_sha256 r)].
Definition durable_ble_receipt_response (out : ptr bytes) (capacity : Z) (r : ptr db_request) : Z * option bytes :=
  if negb (capacity =? 81) || negb (db_separate out capacity r sizeof_db_request) then (DB_ARGUMENT, None) else
  match out, r with
  | Some oo, Some ro =>
      if negb (db_request_valid (deref ro)) || negb (kind (dr_command (deref ro)) =? DB_RECEIVE_ACK)
      then (DB_INVALID, None) else (DB_OK, Some (blits (receipt_fields (deref ro)) (deref oo)))
  | _, _ => (DB_ARGUMENT, None)
  end.

Definition delete_fields (r : db_request) (tombstone_revision : Z) : list field :=
  db_header r 72 ++ [(9, dr_nonce r); (25, dr_operation r); (41, dr_sha256 r); put64 73 tombstone_revision].
Definition durable_ble_delete_response (out : ptr bytes) (capacity : Z) (r : ptr db_request)
    (original_manifest_revision tombstone_revision : Z) : Z * option bytes :=
  if negb (capacity =? 81) || negb (db_separate out capacity r sizeof_db_request) then (DB_ARGUMENT, None) else
  match out, r with
  | Some oo, Some ro =>
      let r := deref ro in
      if negb (db_request_valid r) || negb (kind (dr_command r) =? DB_DELETE) ||
         negb (db_revision original_manifest_revision (durable_ble_is_full (dr_command r))) ||
         (original_manifest_revision mod 4 =? 0) || (tombstone_revision <=? original_manifest_revision) ||
         (INT64_MAX <? tombstone_revision)
      then (DB_INVALID, None) else (DB_OK, Some (blits (delete_fields r tombstone_revision) (deref oo)))
  | _, _ => (DB_ARGUMENT, None)
  end.

(** ** The catalog page *)
(** [memcmp(a, b, n) < 0]. *)
Fixpoint memcmp_lt (a b : bytes) : bool :=
  match a, b with
  | x :: a, y :: b => (x <? y) || ((x =? y) && memcmp_lt a b)
  | _, _ => false
  end.
Definition db_entry_valid (full : bool) (e : db_catalog_entry) : bool :=
  identity (de_recording e) && identity (de_manifest_sha256 e) &&
  (de_segments e <=? if full then DB_FULL_MAX_SEGMENTS else 32) && (de_state e <=? 2) &&
  (de_revision e =? de_segments e * 4 + de_state e).
(** The entries after [previous]: each valid, and in ascending order. *)
Fixpoint entries_valid (full : bool) (previous : option db_catalog_entry) (es : list db_catalog_entry) : bool :=
  match es with
  | [] => true
  | e :: es =>
      db_entry_valid full e &&
      match previous with Some q => memcmp_lt (de_recording q) (de_recording e) | None => true end &&
      entries_valid full (Some e) es
  end.
(** The five fields of an entry fill its 64 bytes. *)
Definition entry_image (e : db_catalog_entry) : bytes :=
  de_recording e ++ le 8 (de_revision e) ++ le 4 (de_segments e) ++ le 4 (de_state e) ++ de_manifest_sha256 e.
Definition catalog_magic (full : bool) : bytes := [0x4f; 0x50; 0x4e; 0x44; 0x43; 0x54; if full then 0x32 else 0x31].
Definition catalog_fields (full : bool) (v : db_volume) (nonce : bytes) (snapshot_revision count : Z)
    (es : list db_catalog_entry) : list field :=
  [(0, catalog_magic full); put16 8 (if full then 2 else 1); put16 10 128; put16 12 64; (16, dv_device v);
   (32, dv_volume v); put64 48 (dv_generation v); (56, nonce); put64 72 snapshot_revision; (80, dv_fingerprint v);
   put32 112 count; put32 116 2] ++ table 128 64 (map entry_image es).
Definition catalog_build (out : ptr bytes) (capacity : Z) (v : ptr db_volume) (nonce : ptr bytes) (snapshot_revision : Z)
    (entries : ptr (list db_catalog_entry)) (count : Z) (full : bool) : Z * option bytes :=
  let size := sizeof_db_catalog_entry * count in
  if ((if full then DB_FULL_MAX_RECORDINGS else DB_MAX_RECORDINGS) <? count) ||
     negb (capacity =? DB_CATALOG_HEADER + DB_CATALOG_ENTRY * count) ||
     negb (db_separate out capacity v sizeof_db_volume) || negb (db_separate out capacity nonce 16) ||
     negb (db_separate v sizeof_db_volume nonce 16) ||
     (negb (count =? 0) &&
      (negb (db_separate out capacity entries size) || negb (db_separate v sizeof_db_volume entries size) ||
       negb (db_separate nonce 16 entries size)))
  then (DB_ARGUMENT, None) else
  match v, nonce with
  | Some vo, Some no =>
      let v := deref vo in
      let nonce := slice 0 16 (deref no) in
      let es := match entries with Some eo => take (Z.to_nat count) (deref eo) | None => [] end in
      if negb (identity (dv_device v)) || negb (identity (dv_volume v)) || negb (identity (dv_fingerprint v)) ||
         negb (identity nonce) || (dv_generation v =? 0) || (INT64_MAX <? dv_generation v) ||
         (snapshot_revision =? 0) || (INT64_MAX <? snapshot_revision) || negb (entries_valid full None es)
      then (DB_INVALID, None)
      else (DB_OK, Some (blits (catalog_fields full v nonce snapshot_revision count es) (fill capacity 0)))
  | _, _ => (DB_ARGUMENT, None)
  end.
Definition durable_ble_catalog_build out capacity v nonce revision entries count : Z * option bytes :=
  catalog_build out capacity v nonce revision entries count false.
Definition durable_ble_catalog_build_full out capacity v nonce revision entries count : Z * option bytes :=
  catalog_build out capacity v nonce revision entries count true.

(** * Requests are read from canonical frames only *)
Record request_wf (r : db_request) : Prop := {
  qw_nonce : zlen (dr_nonce r) = 16; qw_recording : zlen (dr_recording r) = 16;
  qw_operation : zlen (dr_operation r) = 16; qw_sha256 : zlen (dr_sha256 r) = 32;
  qw_revision : 0 <= dr_revision r; qw_segment : 0 <= dr_segment r;
  qw_container : 0 <= dr_container_bytes r; qw_offset : 0 <= dr_offset r;
  qw_sequence : 0 <= dr_sequence r < 2 ^ 16; qw_maximum : 0 <= dr_maximum r; qw_command : is_byte (dr_command r)
}.

(** The regions of the frame that asks for [r]. *)
Definition request_body (r : db_request) : list (Z * Z * bytes) :=
  let full := durable_ble_is_full (dr_command r) in
  let command := kind (dr_command r) in
  let w := if full then 4 else 2 in
  let offset at_ := (at_, w, le (Z.to_nat w) (dr_offset r)) in
  let byte at_ v := (at_, 1, [v]) in
  if command =? DB_CATALOG then [offset 24; byte (24 + w) (dr_maximum r); byte (25 + w) 0] else
  if command =? DB_MANIFEST then
    [(24, 16, dr_recording r); (40, 4, le 4 (dr_revision r)); (44, 32, dr_sha256 r); offset 76;
     byte (76 + w) (dr_maximum r); byte (77 + w) 0] else
  if command =? DB_SEGMENT then
    [(24, 16, dr_recording r); (40, 4, le 4 (dr_segment r)); offset 44] ++
    (if dr_command r =? DB_FULL_STREAM then [(44 + w, 2, le 2 (dr_maximum r))]
     else [byte (44 + w) (dr_maximum r); byte (45 + w) 0]) ++ [(46 + w, 32, dr_sha256 r)] else
  if command =? DB_RECEIVE_ACK then
    [(24, 16, dr_recording r); (40, 4, le 4 (dr_segment r)); (44, 4, le 4 (dr_container_bytes r));
     (48, 32, dr_sha256 r)] else
  [(24, 16, dr_operation r); (40, 32, dr_sha256 r); (72, 8, fill 8 0)].
Definition request_regions (r : db_request) : list (Z * Z * bytes) :=
  [(0, 1, [0x4f]); (1, 1, [0x50]); (2, 1, [1]); (3, 1, [dr_command r]); (4, 2, le 2 (dr_sequence r));
   (6, 2, le 2 (expected_payload (dr_command r))); (8, 16, dr_nonce r)] ++ request_body r.
Definition encode_request (r : db_request) : bytes := concat (map snd (request_regions r)).

Definition db_commands : list Z := [0x30; 0x31; 0x32; 0x33; 0x34; 0x38; 0x39; 0x3a; 0x3b; 0x3c; 0x3d; 0x3e].

Lemma kind_cases c : is_byte c -> DB_CATALOG <= kind c <= DB_DELETE -> In c db_commands.
Proof.
  intros Hc. assert (H : forallb (fun c => negb ((DB_CATALOG <=? kind c) && (kind c <=? DB_DELETE)) ||
    existsb (Z.eqb c) db_commands) (zseq 256) = true) by by vm_compute.
  rewrite forallb_forall in H. specialize (H c). intros [H1 H2].
  rewrite (proj2 (Z.leb_le _ _) H1), (proj2 (Z.leb_le _ _) H2) in H.
  destruct (existsb (Z.eqb c) db_commands) eqn:E.
  - apply existsb_exists in E as (x & Hx & ->%Z.eqb_eq). done.
  - discriminate H. apply list_elem_of_In, elem_of_seqZ. unfold is_byte in Hc. lia.
Qed.

(** The checks the parser makes before it decodes a frame. *)
Definition request_frame (r : db_request) (p : bytes) : Prop :=
  znth 0 p = 0x4f /\ znth 1 p = 0x50 /\ znth 2 p = 1 /\ znth 3 p = dr_command r /\
  get16 6 p = expected_payload (dr_command r).

(** What an admitted request says of its fields, for a command that is known. *)
Ltac known_request Hv :=
  repeat match type of Hv with context [kind ?c] => let v := eval vm_compute in (kind c) in change (kind c) with v in * end;
  cbn -[Z.add Z.mul Z.div Z.sub Z.modulo] in Hv; unfold db_revision, db_container in Hv; destruct (negb (identity _) || _) in Hv; [done|];
  rewrite ?andb_true_iff, ?Z.leb_le, ?Z.ltb_lt, ?Z.eqb_eq in Hv; destruct_and! Hv; subst;
  repeat match goal with H : zero ?x = true |- _ => apply (zero_fill x _ ltac:(eassumption)) in H; subst x end.

(** The regions of a frame and the decoder's fields, for a command that is known. *)
Lemma guard_some {A} (b : bool) (x y : A) : (if negb b then None else Some x) = Some y <-> b = true /\ x = y.
Proof. destruct b; cbn; split; [by intros [= ->]|by intros [_ ->]|done|by intros [? _]]. Qed.

Ltac small_field :=
  unfold DB_MAX_CATALOG, DB_FULL_MAX_CATALOG, DB_FULL_MAX_RECORDINGS, DB_MAX_CONTAINER, DB_STREAM_MAX_DATA,
    DB_FULL_MAX_SEGMENTS, DB_RECEIPT_BATCH_MAX in *; first [lia|done|divlia].
Ltac request_case Hv :=
  known_request Hv;
  repeat match goal with |- context [expected_payload ?c] =>
    let v := eval vm_compute in (expected_payload c) in change (expected_payload c) with v in * end;
  unfold reads_as; cbn -[get16 get32 fill le Z.add]; 
  repeat match goal with |- context [Z.add (Zpos ?a) ?b] =>
    let v := eval vm_compute in (Z.add (Zpos a) b) in change (Z.add (Zpos a) b) with v in * end;
  rewrite !Forall_cons, Forall_nil, ?guard_some, ?Z.eqb_eq, ?zero_spec, ?zlen_slice by lia;
  rewrite !slice1_znth by lia;
  repeat (rewrite get16_slice by small_field);
  repeat (rewrite get32_slice by small_field);
  split; intros ?; destruct_and!; [split_and!; first [done|congruence]|];
  match goal with
  | E : DbRequest _ _ _ _ _ _ _ _ _ _ _ = _ |- _ => injection E; clear E; intros
  | E : Some _ = Some _ |- _ => injection E; clear E; intros
  end;
  split_and!; done.

Lemma request_reads r p : request_wf r -> In (dr_command r) db_commands -> db_request_valid r = true ->
  zlen p = 8 + expected_payload (dr_command r) -> is_bytes p ->
  reads_as p (request_regions r) <-> request_frame r p /\ decode_db_request (dr_command r) p = Some r.
Proof.
  intros [] Hc Hv Hl Hp. destruct r as [nonce rec op sha rev seg cont off seq max cmd].
  unfold db_request_valid, catalog_request, manifest_request, segment_request, receipt_request, delete_request, max_data, max_segments in Hv.
  cbn [dr_nonce dr_recording dr_operation dr_sha256 dr_revision dr_segment dr_container_bytes dr_offset dr_sequence dr_maximum dr_command] in *.
  unfold request_frame, request_regions, request_body, decode_db_request.
  cbn [dr_nonce dr_recording dr_operation dr_sha256 dr_revision dr_segment dr_container_bytes dr_offset dr_sequence dr_maximum dr_command].
  repeat (destruct Hc as [<-|Hc]); [..|done].
  all: request_case Hv.
Qed.

(** The regions of a request tile its frame. *)
Lemma request_tiles r : request_wf r -> In (dr_command r) db_commands ->
  tiles 0 (map fst (request_regions r)) = Some (8 + expected_payload (dr_command r)) /\
  Forall (fun x => zlen x.2 = x.1.2) (request_regions r).
Proof.
  intros [] Hc. destruct r as [nonce rec op sha rev seg cont off seq max cmd].
  cbn [dr_nonce dr_recording dr_operation dr_sha256 dr_revision dr_segment dr_container_bytes dr_offset dr_sequence dr_maximum dr_command] in *.
  repeat (destruct Hc as [<-|Hc]); [..|done].
  all: split; [by vm_compute|]; unfold request_regions, request_body.
  all: cbn -[le Z.add fill expected_payload]; repeat (apply Forall_cons; split); try apply Forall_nil; done; cbn [fst snd]; by rewrite ?zlen_le.
Qed.

Lemma encode_reads r : request_wf r -> In (dr_command r) db_commands ->
  reads_as (encode_request r) (request_regions r) /\ zlen (encode_request r) = 8 + expected_payload (dr_command r).
Proof. intros Hwf Hc. destruct (request_tiles r Hwf Hc). by apply (reads_as_concat _ 0 [] _). Qed.

Lemma decode_wf p c r : In c db_commands -> zlen p = 8 + expected_payload c -> is_bytes p -> znth 3 p = c ->
  decode_db_request c p = Some r -> request_wf r /\ dr_command r = c.
Proof.
  intros Hc Hl Hp H3. assert (Hf : forall n, 0 <= n -> zlen (@fill Z n 0) = n) by (intros; by rewrite zlen_fill).
  assert (H16 : forall o, 0 <= o -> o + 2 <= zlen p -> 0 <= get16 o p < 2 ^ 16) by (intros; by apply (get_le_range 2)).
  assert (H32 : forall o, 0 <= o -> o + 4 <= zlen p -> 0 <= get32 o p < 2 ^ 32) by (intros; by apply (get_le_range 4)).
  assert (H8 : forall i, 0 <= i < zlen p -> is_byte (znth i p)) by (intros; by apply znth_range).
  assert (Hs : forall o n, 0 <= o -> 0 <= n -> o + n <= zlen p -> zlen (slice o n p) = n) by (intros; by apply zlen_slice).
  repeat (destruct Hc as [<-|Hc]); [..|done].
  all: match type of Hl with _ = ?e => let v := eval vm_compute in e in change e with v in Hl end.
  all: unfold decode_db_request; match goal with |- context [kind ?c] => let v := eval vm_compute in (kind c) in change (kind c) with v end.
  all: cbn -[get16 get32 fill]; rewrite H3; intros E.
  all: repeat match type of E with (if ?b then _ else _) = _ => destruct b; [done|] end; injection E as <-.
  all: split; [constructor; cbn|done].
  all: first [apply Hf; lia|apply Hs; lia|apply H16; lia|apply H32; lia|apply H8; lia|by rewrite <- H3; apply H8; lia|done].
Qed.

Lemma valid_command r : request_wf r -> db_request_valid r = true -> In (dr_command r) db_commands.
Proof.
  intros Hwf Hv. apply kind_cases; [apply Hwf|]. unfold db_request_valid in Hv.
  destruct (_ || _) in Hv; [done|]. unfold DB_CATALOG, DB_DELETE, DB_MANIFEST, DB_SEGMENT, DB_RECEIVE_ACK in *.
  repeat match type of Hv with (if ?a =? ?b then _ else _) = _ => destruct (Z.eqb_spec a b); [lia|] end. done.
Qed.

Lemma decode_sequence c p r : decode_db_request c p = Some r -> dr_sequence r = get16 4 p.
Proof.
  unfold decode_db_request. cbv zeta.
  repeat match goal with |- (if ?b then _ else _) = _ -> _ => destruct b end; try done; by intros [= <-].
Qed.

Lemma valid_sequence r : db_request_valid r = true -> dr_sequence r <> 0.
Proof. unfold db_request_valid. intros Hv E. rewrite E, orb_true_r in Hv. done. Qed.

Ltac branch E := match goal with |- (if ?b then _ else _) = _ -> _ => destruct b eqn:E end.

(** C26. The parser accepts exactly the canonical frames: it yields a request if and
    only if the request is admissible and the frame is, byte for byte, the one that
    asks for it.  So no byte of an accepted frame is free, and two requests never
    share a frame. *)
Theorem db_request_canonical (frame : obj bytes) (out : ptr db_request) (r : db_request)
    (Hp : is_bytes (deref frame))
    (Hout : db_separate (Some frame) (zlen (deref frame)) out sizeof_db_request = true) :
  durable_ble_parse_request (Some frame) (zlen (deref frame)) out = (DB_OK, Some r) <->
  request_wf r /\ db_request_valid r = true /\ deref frame = encode_request r.
Proof.
  unfold durable_ble_parse_request. rewrite Hout. cbn [negb]. rewrite orb_false_r. destruct frame as [a p]. cbn [deref addr] in *.
  split.
  - branch E1; [done|]. branch E2; [done|]. branch E3; [done|]. branch E4; [done|]. destruct (decode_db_request _ _) as [q|] eqn:Ed; [|done].
    destruct (db_request_valid q) eqn:Ev; [|done]. intros [= <-].
    rewrite !orb_false_iff, !negb_false_iff, !Z.eqb_eq, !Z.ltb_ge in E3. apply negb_false_iff, Z.eqb_eq in E4.
    destruct_and! E3. assert (Hc : In (znth 3 p) db_commands).
    { apply kind_cases; [|lia]. apply znth_range; [|done]. apply orb_false_iff in E1 as [E1 _]. lia. }
    destruct (decode_wf p _ q Hc ltac:(lia) Hp eq_refl Ed) as [Hwf Hq]. split; [done|]. split; [done|]. rewrite <- Hq in *.
    destruct (encode_reads q Hwf Hc) as [Hr Hl].
    eapply (reads_as_eq (request_regions q) (8 + expected_payload (dr_command q))); [by apply request_tiles|lia|done| |done].
    apply request_reads; try done; [lia|]. split; [|done]. split_and!; try done. lia.
  - intros (Hwf & Hv & ->). pose proof (valid_command r Hwf Hv) as Hc. destruct (encode_reads r Hwf Hc) as [Hr Hl].
    apply request_reads in Hr as [(F0 & F1 & F2 & F3 & F6) Hd]; [|done..]. rewrite F0, F1, F2, F3, F6, Hd, Hv, Hl.
    rewrite <- (decode_sequence _ _ _ Hd), (proj2 (Z.eqb_neq _ _) (valid_sequence r Hv)).
    clear -Hc. revert Hc. generalize (dr_command r). intros c Hc. repeat (destruct Hc as [<-|Hc]); [reflexivity..|done].
Qed.

Definition sample_db_request : db_request :=
  DbRequest (fill 16 7) (fill 16 3) (fill 16 0) (fill 32 5) 0 41 0 1000 513 200 DB_FULL_STREAM.
Lemma db_request_canonical_witness :
  durable_ble_parse_request (Some (Obj 0x1000 (encode_request sample_db_request)))
    (zlen (encode_request sample_db_request)) (Some (Obj 0x2000 sample_db_request)) = (DB_OK, Some sample_db_request).
Proof.
  apply (db_request_canonical (Obj 0x1000 (encode_request sample_db_request)) (Some (Obj 0x2000 sample_db_request)) sample_db_request);
    [apply is_bytesb_sound; by vm_compute|by vm_compute|].
  split_and!; [constructor; by vm_compute|by vm_compute|done].
Defined.
