(* ===== verification/BleTransfer.v ===== *)
(** What the phone gets by the sync codec: an object asked for chunk by chunk
    arrives whole, and a catalog page says what the volume holds. *)
From Stdlib Require Import Sorted.
From S2P Require Import Prelude BleCodec.

(** * Objects are read in whole *)
Lemma db_span_shrink {A} (p : ptr A) n m : 1 <= m <= n -> db_span p n = true -> db_span p m = true.
Proof. unfold db_span. destruct p as [p|]; [|done]. rewrite !andb_true_iff, !negb_true_iff, !Z.eqb_neq, !Z.leb_le. lia. Qed.

Lemma db_separate_shrink {A B} (a : ptr A) (b : ptr B) an bn am bm :
  1 <= am <= an -> 1 <= bm <= bn -> db_separate a an b bn = true -> db_separate a am b bm = true.
Proof.
  intros Ha Hb. unfold db_separate. rewrite !andb_true_iff. intros [[Sa Sb] H].
  rewrite (db_span_shrink a an), (db_span_shrink b bn) by done. split; [done|].
  destruct a, b; try done. destruct (_ <? _); rewrite Z.leb_le in *; lia.
Qed.

(** The next request of a transfer. *)
Definition ask (r : db_request) (offset : Z) : db_request := r <| dr_offset := offset |>.

Lemma wanted_bounds r total : dr_offset r < total -> 1 <= dr_maximum r ->
  1 <= wanted r total /\ dr_offset r + wanted r total <= total /\ wanted r total <= dr_maximum r /\
  (dr_command r = DB_FULL_STREAM -> wanted r total <= DB_FULL_MAX_DATA).
Proof.
  unfold wanted, DB_FULL_MAX_DATA. intros.
  destruct (_ <? dr_maximum r) eqn:?, (_ =? DB_FULL_STREAM) eqn:?; cbn [andb]; try destruct (192 <? _) eqn:?; lia.
Qed.

Lemma read_command r total : read_total_ok r total = true ->
  db_request_valid r = true /\ kind (dr_command r) <= DB_SEGMENT /\ dr_offset r < total.
Proof.
  unfold read_total_ok. rewrite !andb_true_iff, negb_true_iff, !orb_false_iff, negb_false_iff, !Z.ltb_ge, Z.leb_gt.
  intros. by destruct_and!.
Qed.

Lemma read_maximum r total : read_total_ok r total = true -> 1 <= dr_maximum r <= max_data r.
Proof.
  intros (Hv & Hk & _)%read_command. unfold db_request_valid, catalog_request, manifest_request, segment_request in Hv.
  destruct (_ || _) in Hv; [done|]. cbv zeta in Hv. unfold DB_CATALOG, DB_MANIFEST, DB_SEGMENT, DB_RECEIVE_ACK, DB_DELETE in *.
  repeat match type of Hv with (if ?a =? ?b then _ else _) = _ => destruct (Z.eqb_spec a b); [lia|] end. done.
Qed.

(** A request for an object can be repeated at any offset within it. *)
Lemma ask_ok r total o : request_wf r -> read_total_ok r total = true -> 0 <= o < total ->
  read_total_ok (ask r o) total = true /\ request_wf (ask r o).
Proof.
  intros Hwf Hr Ho. pose proof (read_command r total Hr) as (Hv & Hk & _). pose proof (valid_command r Hwf Hv) as Hc.
  split; [|by destruct Hwf; constructor; try done; cbn; lia].
  destruct r as [nonce rec op sha rev seg cont off seq max cmd]. unfold ask, read_total_ok, db_request_valid, catalog_request, manifest_request, segment_request, max_data, max_segments in *. cbn -[Z.mul Z.sub Z.add Z.div Z.modulo] in *.
  cbn [dr_nonce dr_recording dr_operation dr_sha256 dr_revision dr_segment dr_container_bytes dr_offset dr_sequence dr_maximum dr_command] in *. clear Hwf Hv.
  repeat (destruct Hc as [<-|Hc]); [..|done].
  all: repeat match type of Hr with context [kind ?c] => let v := eval vm_compute in (kind c) in change (kind c) with v in * end.
  all: cbn -[Z.mul Z.sub Z.add Z.div Z.modulo zero identity db_revision db_container] in *; try lia.
  all: destruct (negb (identity nonce) || _); [done|].
  all: rewrite ?andb_true_iff, ?negb_true_iff, ?orb_false_iff, ?negb_false_iff, ?andb_true_iff, ?Z.leb_le, ?Z.ltb_lt, ?Z.leb_gt, ?Z.ltb_ge, ?Z.eqb_eq in *.
  all: destruct_and!; split_and!; try done; unfold DB_MAX_CATALOG, DB_FULL_MAX_CATALOG, DB_FULL_MAX_RECORDINGS, DB_MAX_CONTAINER in *; try lia.
  all: match goal with H : db_container _ = true |- _ => unfold db_container, DB_MAX_CONTAINER in H end; lia.
Qed.

(** * The chunks of a transfer *)
Definition chunk_max (r : db_request) : Z :=
  if dr_command r =? DB_FULL_STREAM then Z.min DB_FULL_MAX_DATA (dr_maximum r) else dr_maximum r.
Lemma wanted_chunk r total : wanted r total = Z.min (total - dr_offset r) (chunk_max r).
Proof.
  unfold wanted, chunk_max, DB_FULL_MAX_DATA.
  destruct (_ <? dr_maximum r) eqn:?, (_ =? DB_FULL_STREAM) eqn:?; cbn [andb]; try destruct (192 <? _) eqn:?; lia.
Qed.

Definition payload (p : bytes) : bytes :=
  let prefix := read_prefix (u8 (znth 3 p - 0x80)) in slice prefix (zlen p - prefix) p.
Section Transfer.
Context (r : db_request) (object : bytes) (at_out at_r at_data : Z).
Let prefix := read_prefix (dr_command r).
Let total := zlen object.

(** The response to a request for the bytes at [o]. *)
Definition respond (o : Z) : Z * option bytes :=
  let n := wanted (ask r o) total in
  durable_ble_read_response (Some (Obj at_out (fill (prefix + n) 0))) (prefix + n) (Some (Obj at_r (ask r o))) total
    (Some (Obj at_data (slice o n object))) n.
(** Asks from [o] on until the end of the object, each time behind what came. *)
Fixpoint transfer (fuel : nat) (o : Z) : option (list bytes) :=
  if total <=? o then Some [] else
  match fuel with
  | O => None
  | S fuel =>
      match respond o with
      | (rc, Some p) => if rc =? DB_OK then cons p <$> transfer fuel (o + zlen (payload p)) else None
      | (_, None) => None
      end
  end.
Context (Hwf : request_wf r) (Hok : read_total_ok r total = true).
Context (Hor : db_separate (Some (Obj at_out tt)) 225 (Some (Obj at_r tt)) sizeof_db_request = true).
Context (Hod : db_separate (Some (Obj at_out tt)) 225 (Some (Obj at_data tt)) 192 = true).
Context (Hrd : db_separate (Some (Obj at_r tt)) sizeof_db_request (Some (Obj at_data tt)) 192 = true).

(** Every response is the header, the request's nonce, the position and the data. *)
Definition response_image (o : Z) (data : bytes) : bytes :=
  [0x4f; 0x50; 1; u8 (Z.lor (dr_command r) 0x80)] ++ le 2 (dr_sequence r) ++ le 2 (u16 (u16 (prefix - 9 + zlen data) + 1)) ++
  [0] ++ dr_nonce r ++
  (if durable_ble_is_full (dr_command r) then le 4 o ++ le 4 total else le 2 (u16 o) ++ le 2 (u16 total)) ++ data.

Lemma chunk_bounds : 1 <= chunk_max r <= (if durable_ble_is_full (dr_command r) then DB_FULL_MAX_DATA else DB_MAX_DATA).
Proof using Hok.
  pose proof (read_maximum r total Hok) as Hm. unfold chunk_max, max_data, DB_FULL_MAX_DATA in *.
  destruct (Z.eqb_spec (dr_command r) DB_FULL_STREAM) as [->|]; [|lia]. change (durable_ble_is_full DB_FULL_STREAM) with true. cbn. lia.
Qed.

Lemma read_image q data base : dr_command q = dr_command r -> dr_nonce q = dr_nonce r -> dr_sequence q = dr_sequence r ->
  zlen base = prefix + zlen data -> blits (read_fields q total data) base = response_image (dr_offset q) data.
Proof using Hwf.
  intros Hc Hn Hs Hb. rewrite blits_whole.
  - unfold read_fields, db_header, response_image. rewrite Hc, Hn, Hs. fold prefix.
    by destruct (durable_ble_is_full _); cbn [app map snd concat put16 put32]; rewrite ?app_nil_r.
  - pose proof (qw_nonce r Hwf) as Hl. unfold read_fields, db_header. rewrite Hc, Hn, Hs. unfold prefix in *. rewrite Hb. unfold read_prefix. 
    destruct (durable_ble_is_full _); unfold put16, put32, shape_of; cbn [app map]; rewrite !zlen_le, Hl; repeat match goal with |- context [zlen [?x]] => change (zlen [x]) with 1 end.
    all: cbn [tiles]; rewrite (proj2 (Z.leb_le 0 (zlen data)) (zlen_nonneg data)); reflexivity.
Qed.

Lemma respond_chunk o : 0 <= o < total ->
  respond o = (DB_OK, Some (response_image o (slice o (wanted (ask r o) total) object))) /\
  wanted (ask r o) total = Z.min (total - o) (chunk_max r).
Proof using All.
  intros Ho. destruct (ask_ok r total o Hwf Hok Ho) as [Hok' _]. pose proof chunk_bounds as Hm. split; [|apply (wanted_chunk (ask r o))].
  unfold respond. pose proof (wanted_chunk (ask r o) total) as Hw. change (chunk_max (ask r o)) with (chunk_max r) in Hw.
  change (dr_offset (ask r o)) with o in Hw. set (n := wanted (ask r o) total) in *.
  assert (Hn : zlen (slice o n object) = n) by (apply zlen_slice; unfold total in *; lia).
  unfold durable_ble_read_response. cbn [deref]. change (dr_command (ask r o)) with (dr_command r). fold prefix.
  assert (Hpre : 29 <= prefix /\ prefix + n <= 225).
  { unfold prefix, read_prefix, DB_FULL_MAX_DATA, DB_MAX_DATA in *. destruct (durable_ble_is_full _); lia. }
  assert (Hbig : n <= 192) by (unfold DB_FULL_MAX_DATA, DB_MAX_DATA in *; destruct (durable_ble_is_full _); lia).
  rewrite (proj2 (Z.ltb_ge _ _)), (proj2 (Z.ltb_ge _ _)), Z.eqb_refl by lia.
  erewrite (db_separate_shrink (Some (Obj at_out _)) (Some (Obj at_r _))); [|split; [|apply Hpre]|split|exact Hor]; [|lia|done|done].
  erewrite (db_separate_shrink (Some (Obj at_out _)) (Some (Obj at_data _))); [|split; [|apply Hpre]|split; [|exact Hbig]|exact Hod]; [|lia..].
  erewrite (db_separate_shrink (Some (Obj at_r _)) (Some (Obj at_data _))); [|split|split; [|exact Hbig]|exact Hrd]; [|done|done|lia].
  rewrite Hok', Z.eqb_refl. cbn [negb orb]. do 2 f_equal. rewrite slice_all' by done.
  apply (read_image (ask r o)); [done..|]. rewrite Hn. apply zlen_fill. lia.
Qed.

Lemma zlen_head o data : zlen (response_image o data) = prefix + zlen data.
Proof using Hwf.
  unfold response_image, prefix, read_prefix. pose proof (qw_nonce r Hwf) as Hl.
  destruct (durable_ble_is_full _); autorewrite with zlen; rewrite Hl; lia.
Qed.

Lemma payload_image o data : payload (response_image o data) = data.
Proof using Hwf Hok.
  pose proof (read_command r total Hok) as (Hv & _). pose proof (valid_command r Hwf Hv) as Hc.
  unfold payload. rewrite zlen_head. change (znth 3 (response_image o data)) with (u8 (Z.lor (dr_command r) 0x80)).
  assert (E : u8 (u8 (Z.lor (dr_command r) 0x80) - 0x80) = dr_command r).
  { clear -Hc. revert Hc. generalize (dr_command r). intros c Hc. repeat (destruct Hc as [<-|Hc]); [reflexivity..|done]. }
  rewrite E. fold prefix. replace (prefix + zlen data - prefix) with (zlen data) by lia.
  pose proof (zlen_head o data) as Hl. unfold response_image in *. rewrite !app_assoc in *. rewrite zlen_app in Hl.
  rewrite slice_app_r by lia. replace (prefix - _) with 0 by lia. apply slice_all.
Qed.

Lemma nonce_image o data : slice 9 16 (response_image o data) = dr_nonce r.
Proof using Hwf.
  pose proof (qw_nonce r Hwf) as Hl. unfold response_image. set (rest := _ ++ data). 
  rewrite !app_assoc. rewrite <- app_assoc with (m := dr_nonce r). rewrite slice_app_r by (autorewrite with zlen; lia).
  autorewrite with zlen. rewrite slice_app_l by (try rewrite Hl; lia). by apply slice_all'.
Qed.

Lemma ceil_step rem_o c : 1 <= c -> 0 < total - rem_o ->
  (Z.max 0 (total - (rem_o + Z.min (total - rem_o) c)) + c - 1) / c + 1 = (Z.max 0 (total - rem_o) + c - 1) / c.
Proof.
  intros Hc Hr. destruct (Z.leb_spec c (total - rem_o)).
  - rewrite <- Z.div_add by lia. f_equal. lia.
  - rewrite Z.min_l, (Z.max_l _ (_ - (_ + _))), Z.div_small by lia. apply Z.div_unique with (total - rem_o - 1); lia.
Qed.

(** C25. An object is read in whole: whichever of the catalog, a manifest or a
    segment a request asks for, at an admissible total length, asking on at each
    offset behind the data received ends after exactly as many responses as chunks
    of the largest size the request and the command admit; every response carries
    the request's nonce, and their data concatenate to the object. *)
Theorem db_object_transferred :
  exists ps, transfer (length object) 0 = Some ps /\ concat (map payload ps) = object /\
    zlen ps = (total + chunk_max r - 1) / chunk_max r /\ Forall (fun p => slice 9 16 p = dr_nonce r) ps.
Proof using All.
  pose proof chunk_bounds as [Hm _]. pose proof (zlen_nonneg object) as H0.
  enough (H : forall fuel o, 0 <= o <= total -> total - o <= Z.of_nat fuel -> exists ps,
    transfer fuel o = Some ps /\ concat (map payload ps) = slice o (Z.max 0 (total - o)) object /\
    zlen ps = (Z.max 0 (total - o) + chunk_max r - 1) / chunk_max r /\ Forall (fun p => slice 9 16 p = dr_nonce r) ps).
  { destruct (H (length object) 0) as (ps & ? & E & ? & ?); [unfold total; lia|unfold total, zlen; lia|]. exists ps.
    rewrite Z.sub_0_r, Z.max_r in * by (unfold total; lia). split_and!; try done. rewrite E. apply slice_all. }
  induction fuel as [|fuel IH]; intros o Ho Hf; cbn [transfer]; destruct (Z.leb_spec total o).
  1,3: exists []; rewrite Z.max_l by lia; split_and!; [done| |rewrite Z.div_small; [done|lia]|by apply Forall_nil].
  1,2: symmetry; apply slice_none; unfold total in *; lia.
  - lia.
  - destruct (respond_chunk o ltac:(lia)) as [-> Hw]. set (n := wanted _ _) in *. rewrite Z.eqb_refl, payload_image.
    assert (Hn : zlen (slice o n object) = n) by (apply zlen_slice; unfold total in *; lia). rewrite Hn.
    destruct (IH (o + n)) as (ps & -> & E & Hl & Hf'); [lia|lia|]. eexists. split; [done|]. cbn [map concat]. rewrite payload_image, E.
    split_and!.
    + rewrite <- slice_split by lia. f_equal. lia.
    + rewrite zlen_cons, Hl. unfold n in *. rewrite Hw. apply ceil_step; [done|lia].
    + apply Forall_cons. split; [apply nonce_image|done].
Qed.
End Transfer.

Definition sample_object : bytes := map (fun i => i mod 251) (zseq 425).
Definition sample_read : db_request := sample_db_request <| dr_segment := 40 |> <| dr_offset := 0 |>.
Lemma db_object_transferred_witness :
  exists ps, transfer sample_read sample_object 0x1000 0x2000 0x3000 425 0 = Some ps /\
    concat (map payload ps) = sample_object /\ zlen ps = 3.
Proof.
  destruct (db_object_transferred sample_read sample_object 0x1000 0x2000 0x3000) as (ps & E & H & Hl & _).
  - constructor; by vm_compute.
  - by vm_compute.
  - by vm_compute.
  - by vm_compute.
  - by vm_compute.
  - exists ps. split; [exact E|]. split; [exact H|]. rewrite Hl. by vm_compute.
Defined.

(** * The catalog *)
Record entry_wf (e : db_catalog_entry) : Prop := {
  ew_recording : zlen (de_recording e) = 16; ew_manifest : zlen (de_manifest_sha256 e) = 32;
  ew_segments : 0 <= de_segments e; ew_state : 0 <= de_state e
}.
Record volume_wf (v : db_volume) : Prop := {
  vw_device : zlen (dv_device v) = 16; vw_volume : zlen (dv_volume v) = 16;
  vw_fingerprint : zlen (dv_fingerprint v) = 32; vw_generation : 0 <= dv_generation v
}.
(** How a reader takes the page apart. *)
Definition decode_entry (p : bytes) : db_catalog_entry :=
  DbEntry (slice 0 16 p) (slice 32 32 p) (get64 16 p) (get32 24 p) (get32 28 p).
Definition catalog_volume (p : bytes) : db_volume := DbVolume (slice 16 16 p) (slice 32 16 p) (slice 80 32 p) (get64 48 p).
Definition catalog_entries (p : bytes) : list db_catalog_entry :=
  map (fun i => decode_entry (slice (128 + 64 * i) 64 p)) (zseq (get32 112 p)).

Definition before (a b : db_catalog_entry) : Prop := memcmp_lt (de_recording a) (de_recording b) = true.
Lemma memcmp_lt_trans a : forall b c, memcmp_lt a b = true -> memcmp_lt b c = true -> memcmp_lt a c = true.
Proof.
  induction a as [|x a IH]; intros [|y b] [|z c]; try done. cbn. rewrite !orb_true_iff, !andb_true_iff, !Z.ltb_lt, !Z.eqb_eq.
  intros [H1|[-> H1]] [H2|[-> H2]]; [left; lia|by left..|right]. split; [done|by eapply IH].
Qed.
Lemma memcmp_lt_irrefl a : memcmp_lt a a = false.
Proof. induction a as [|x a IH]; [done|]. cbn. by rewrite Z.ltb_irrefl, IH, andb_false_r. Qed.

Lemma entries_valid_sorted full es : forall q, entries_valid full q es = true ->
  Forall (fun e => db_entry_valid full e = true) es /\ StronglySorted before es /\
  (forall e, q = Some e -> Forall (before e) es).
Proof.
  induction es as [|e es IH]; intros q H; [split_and!; [done|constructor|by constructor]|].
  cbn in H. rewrite !andb_true_iff in H. destruct H as [[Hv Hq] H]. apply IH in H as (Hf & Hs & Hb).
  split_and!; [by constructor|constructor; [done|by apply Hb]|]. intros e' ->. constructor; [done|].
  eapply Forall_impl; [by apply Hb|]. intros x. by apply memcmp_lt_trans.
Qed.

Lemma zlen_entry_image e : entry_wf e -> zlen (entry_image e) = 64.
Proof. intros []. unfold entry_image. autorewrite with zlen. lia. Qed.

Lemma decode_entry_image e full : entry_wf e -> db_entry_valid full e = true -> decode_entry (entry_image e) = e.
Proof.
  intros Hwf Hv. pose proof Hwf as []. destruct e as [rec man rev seg st]. unfold db_entry_valid in Hv. cbn [de_recording de_manifest_sha256 de_revision de_segments de_state] in *.
  assert (Hb : seg < 2 ^ 16 /\ st <= 2 /\ rev = seg * 4 + st).
  { unfold DB_FULL_MAX_SEGMENTS in *. rewrite !andb_true_iff, !Z.leb_le, Z.eqb_eq in Hv. destruct_and! Hv. destruct full; lia. }
  destruct (reads_as_concat [(0, 16, rec); (16, 8, le 8 rev); (24, 4, le 4 seg); (28, 4, le 4 st); (32, 32, man)] 0 [] 64) as [Hr _];
    [done|done|repeat (apply Forall_cons; split; [done|]); by apply Forall_nil|].
  cbn [map snd concat app] in Hr. rewrite app_nil_r in Hr. unfold reads_as in Hr. rewrite !Forall_cons in Hr. destruct_and! Hr.
  unfold entry_image, decode_entry, get64, get32. cbn [de_recording de_manifest_sha256 de_revision de_segments de_state] in *.
  f_equal; [done|done|..].
  all: match goal with H : ?x = le _ _ |- unle ?x = _ => rewrite H, unle_le; apply Z.mod_small; cbn; lia end.
Qed.

(** The header's fields, and the entries behind them. *)
Definition catalog_shape : list (Z * Z) :=
  [(0, 7); (8, 2); (10, 2); (12, 2); (16, 16); (32, 16); (48, 8); (56, 16); (72, 8); (80, 32); (112, 4); (116, 4)].
Definition catalog_header (full : bool) (v : db_volume) (nonce : bytes) (rev count : Z) : list field :=
  take 12 (catalog_fields full v nonce rev count []).

Lemma zlen_images es : Forall entry_wf es -> zlen (concat (map entry_image es)) = 64 * zlen es.
Proof. induction 1 as [|e es He Hes IH]; [done|]. cbn [map concat]. rewrite zlen_app, zlen_entry_image, zlen_cons, IH by done. lia. Qed.

Lemma catalog_header_shape full v nonce rev count : volume_wf v -> zlen nonce = 16 ->
  shape_of (catalog_header full v nonce rev count) = catalog_shape.
Proof.
  intros [] Hn. unfold catalog_header, catalog_fields, put16, put32, put64, shape_of. cbn [take map app].
  rewrite !zlen_le, vw_device0, vw_volume0, vw_fingerprint0, Hn. by destruct full.
Qed.

Lemma catalog_fits n : 128 <= n -> fits n catalog_shape = true.
Proof. intros. unfold catalog_shape. cbn [fits forallb]. rewrite !andb_true_iff, !Z.leb_le. lia. Qed.

Lemma catalog_image full v nonce rev count es page : volume_wf v -> zlen nonce = 16 -> Forall entry_wf es -> zlen es = count ->
  page = blits (catalog_fields full v nonce rev count es) (fill (128 + 64 * count) 0) ->
  zlen page = 128 + 64 * count /\ slice 128 (64 * count) page = concat (map entry_image es) /\
  forall o n, 0 <= o -> 0 <= n -> o + n <= 128 ->
    slice o n page = slice o n (blits (catalog_header full v nonce rev count) (fill (128 + 64 * count) 0)).
Proof.
  intros Hv Hn He Hc ->. unfold catalog_fields. rewrite blits_app. change (_ :: _) with (catalog_header full v nonce rev count).
  set (q := blits (catalog_header _ _ _ _ _) _). pose proof (zlen_nonneg es) as H0.
  assert (Hq : zlen q = 128 + 64 * count).
  { unfold q. rewrite zlen_blits; rewrite zlen_fill by lia; [done|]. rewrite catalog_header_shape by done. apply catalog_fits. lia. }
  assert (Hi : zlen (concat (map entry_image es)) = 64 * count) by (rewrite zlen_images by done; lia).
  assert (Eb : blits (table 128 64 (map entry_image es)) q = blit 128 (concat (map entry_image es)) q).
  { rewrite blits_table; [|lia|apply Forall_map; eapply Forall_impl; [exact He|intros e; apply zlen_entry_image]|rewrite zlen_map; lia].
    destruct es; [|done]. cbn. by rewrite blit_nil. }
  rewrite Eb. split_and!.
  - rewrite zlen_blit by lia. done.
  - rewrite <- Hi. apply slice_blit_same; lia.
  - intros o n Ho Hn' Hon. apply slice_blit_disj; lia.
Qed.

(** Reads a field of the header back, in a page of any length. *)
Ltac head_back :=
  first [eapply get32_blits | eapply get64_blits | eapply slice_blits];
  [eassumption|reflexivity|eassumption|lia|reflexivity|reflexivity|].

Lemma catalog_head full v nonce rev count base : volume_wf v -> zlen nonce = 16 -> dv_generation v < 2 ^ 64 ->
  0 <= rev < 2 ^ 64 -> 0 <= count < 2 ^ 32 -> 128 <= zlen base ->
  let h := blits (catalog_header full v nonce rev count) base in
  catalog_volume h = v /\ slice 56 16 h = nonce /\ get64 72 h = rev /\ get32 112 h = count.
Proof.
  intros Hv Hn Hg Hr Hc Hb h. pose proof (catalog_header_shape full v nonce rev count Hv Hn) as Hsh.
  pose proof (catalog_fits _ Hb) as Hfit. pose proof (eq_refl (zlen base)) as Hlen. pose proof Hv as [].
  assert (E : dv_device v = slice 16 16 h /\ dv_volume v = slice 32 16 h /\ dv_fingerprint v = slice 80 32 h /\ dv_generation v = get64 48 h).
  { split_and!; symmetry; unfold h; head_back; done. }
  destruct E as (E1 & E2 & E3 & E4). split_and!; [|unfold h; head_back; done..].
  unfold catalog_volume. rewrite <- E1, <- E2, <- E3, <- E4. by destruct v.
Qed.

Lemma catalog_entries_read es count page : Forall entry_wf es -> zlen es = count -> Forall (fun e => exists full, db_entry_valid full e = true) es ->
  slice 128 (64 * count) page = concat (map entry_image es) -> get32 112 page = count -> catalog_entries page = es.
Proof.
  intros He Hc Hv Hs Hn. unfold catalog_entries. rewrite Hn. apply list_eq. intros i. unfold zseq. rewrite list_lookup_fmap.
  destruct (es !! i) as [e|] eqn:E.
  - pose proof (lookup_lt_Some _ _ _ E) as Hi. rewrite lookup_seqZ_lt by (unfold zlen in *; lia). cbn [fmap option_fmap option_map]. f_equal.
    rewrite Forall_lookup in He, Hv. destruct (Hv i e E) as [full Hve]. rewrite <- (decode_entry_image e full) by eauto. f_equal.
    rewrite <- (slice_concat 64 (map entry_image es) i) ; [|lia| |by rewrite list_lookup_fmap, E].
    + rewrite <- Hs. rewrite slice_slice by (unfold zlen in *; lia). by rewrite Z.add_0_l.
    + apply Forall_map, Forall_lookup. intros k x Hx. apply zlen_entry_image. by eapply He.
  - apply lookup_ge_None in E. rewrite lookup_seqZ_ge by (unfold zlen in *; lia). done.
Qed.

(** C37. A catalog page that is built says what was put in: a reader finds the
    volume, the session's nonce, the snapshot and the entries; and each entry names
    a recording once, in ascending order, with a revision that is four times its
    segments plus its state. *)
Theorem db_catalog_describes (out : ptr bytes) (v : obj db_volume) (nonce : obj bytes) (rev count : Z)
    (entries : obj (list db_catalog_entry)) (capacity : Z) (full : bool) (page : bytes)
    (Hv : volume_wf (deref v)) (Hn : 16 <= zlen (deref nonce)) (Hr : 0 <= rev)
    (Hc : zlen (deref entries) = count) (He : Forall entry_wf (deref entries))
    (Hok : catalog_build out capacity (Some v) (Some nonce) rev (Some entries) count full = (DB_OK, Some page)) :
  zlen page = 128 + 64 * count /\ catalog_volume page = deref v /\ slice 56 16 page = slice 0 16 (deref nonce) /\
  get64 72 page = rev /\ catalog_entries page = deref entries /\ StronglySorted before (deref entries) /\
  NoDup (map de_recording (deref entries)) /\
  Forall (fun e => de_revision e = 4 * de_segments e + de_state e) (deref entries).
Proof.
  unfold catalog_build in Hok. destruct (_ || _) eqn:E1 in Hok; [done|]. cbn [deref] in Hok.
  rewrite !orb_false_iff in E1. destruct E1 as [[[[[Hmax Hcap] _] _] _] _]. apply negb_false_iff, Z.eqb_eq in Hcap.
  unfold DB_CATALOG_HEADER, DB_CATALOG_ENTRY in Hcap. rewrite take_ge in Hok by (unfold zlen in *; lia).
  destruct (_ || _) eqn:E2 in Hok; [done|]. injection Hok as <-.
  rewrite !orb_false_iff, !negb_false_iff, !Z.ltb_ge in E2. destruct_and! E2.
  assert (Hn' : zlen (slice 0 16 (deref nonce)) = 16) by (apply zlen_slice; lia).
  destruct (catalog_image full (deref v) _ rev count (deref entries) _ Hv Hn' He Hc eq_refl) as (Hl & Himg & Hhead).
  rewrite Hcap. set (page := blits _ _) in *. pose proof (zlen_nonneg (deref entries)) as Hnn.
  destruct (entries_valid_sorted full (deref entries) None ltac:(done)) as (Hval & Hsort & _).
  assert (Hcb : 0 <= count <= 32) by (unfold DB_FULL_MAX_RECORDINGS, DB_MAX_RECORDINGS in *; destruct full; lia).
  destruct (catalog_head full (deref v) (slice 0 16 (deref nonce)) rev count (fill (128 + 64 * count) 0)) as (E1 & E2' & E3 & E4);
    [done|done|unfold INT64_MAX in *; lia|unfold INT64_MAX in *; lia|lia|rewrite zlen_fill; lia|].
  unfold catalog_volume, get64, get32 in E1, E3, E4. rewrite <- (Hhead 16), <- (Hhead 32), <- (Hhead 80), <- (Hhead 48) in E1 by lia.
  rewrite <- Hhead in E2', E3, E4 by lia.
  split_and!; try done.
  - eapply catalog_entries_read; [done|done| |done|done]. eapply Forall_impl; [exact Hval|]. by exists full.
  - clear -Hsort. induction Hsort as [|e es Hs IH Hf]; [constructor|]. cbn. constructor; [|done].
    intros (x & Hx & Hin)%list_elem_of_fmap. rewrite Forall_forall in Hf. apply Hf in Hin. unfold before in Hin. by rewrite Hx, memcmp_lt_irrefl in Hin.
  - eapply Forall_impl; [exact Hval|]. intros e. unfold db_entry_valid. rewrite !andb_true_iff, Z.eqb_eq. intros [_ ->]. lia.
Qed.

Definition sample_catalog_entry (k : Z) : db_catalog_entry := DbEntry (fill 16 k) (fill 32 (k + 1)) (4 * k + 2) k 2.
Definition sample_db_volume : db_volume := DbVolume (fill 16 1) (fill 16 2) (fill 32 3) 7.
Lemma db_catalog_describes_witness : exists page,
  catalog_build (Some (Obj 0x1000 [])) 320 (Some (Obj 0x2000 sample_db_volume)) (Some (Obj 0x3000 (fill 16 9))) 5
    (Some (Obj 0x4000 [sample_catalog_entry 3; sample_catalog_entry 4; sample_catalog_entry 200])) 3 true = (DB_OK, Some page) /\
  catalog_entries page = [sample_catalog_entry 3; sample_catalog_entry 4; sample_catalog_entry 200].
Proof.
  eexists. split; [vm_compute; reflexivity|].
  refine (proj1 (proj2 (proj2 (proj2 (proj2 (db_catalog_describes (Some (Obj 0x1000 [])) (Obj 0x2000 sample_db_volume)
    (Obj 0x3000 (fill 16 9)) 5 3 (Obj 0x4000 [sample_catalog_entry 3; sample_catalog_entry 4; sample_catalog_entry 200]) 320 true _
    _ _ _ _ _ _)))))).
  - constructor; by vm_compute.
  - by vm_compute.
  - done.
  - done.
  - repeat (apply Forall_cons; split; [constructor; by vm_compute|]). by apply Forall_nil.
  - vm_compute. reflexivity.
Defined.
