(* ===== verification/RecoveryAuthorizer.v ===== *)
(** The recovery authorizer ([recovery_authorizer.c/.h]): the single-use gate in
    front of the recovery of a volume.  It recomputes the canonical record of the
    recovery, takes the shared lock, consumes an independent permit, and only then
    publishes the record in the settings and reads it back.

    The port's callbacks act on a world [W]; a call made while the gate is held
    answers [RA_BUSY] without touching anything, so calls are atomic steps. *)
From S2P Require Import Prelude OwnedPage OwnedVolume Wp.

Definition RA_MAGIC : Z := 0x52415531.
Definition RA_RECORD_BYTES : Z := 1024.
Definition RA_DIGEST_OFFSET : Z := 992.
Definition RA_MAX_MS : Z := 5000.
Definition RA_OK : Z := 0.
Definition RA_ABSENT : Z := 1.
Definition RA_ARGUMENT : Z := -1.
Definition RA_REFUSED : Z := -2.
Definition RA_FAULT : Z := -3.
Definition RA_BUSY : Z := -4.
Definition RCFG_PROVISIONING : Z := 2.

Record recording_configuration := RecordingConfiguration {
  rcf_spec : owned_volume_spec; rcf_descriptor : bytes; rcf_recipient : bytes; rcf_revision : Z; rcf_phase : Z;
  rcf_fault_banks : Z
}.
Record rv_recovery_proof := RvRecoveryProof {
  pf_transaction : bytes; pf_configuration_sha256 : bytes; pf_preimage_sha256 : bytes; pf_control_digest : bytes;
  pf_capture_firmware_digest : bytes; pf_control_epoch : Z; pf_lease_high_water : Z
}.
Record ra_evidence := RaEvidence {
  ev_expected_device : bytes; ev_current_manifest : bytes; ev_original_manifest : bytes; ev_control_scan : bytes
}.
(** Sizes and offsets under the target ABI. *)
Definition sizeof_recording_configuration : Z := 840.
Definition offset_descriptor : Z := 240.
Definition sizeof_rv_recovery_proof : Z := 160.
Definition sizeof_ra_evidence : Z := 112.
Definition sizeof_ra_port : Z := 28.
Definition sizeof_recovery_authorizer : Z := 2240.
Definition offset_hash : Z := 68.

(** A read yields its code, the bytes of the buffer and the length it reports. *)
Record ra_port (W : Type) := RaPort {
  ap_set : bool; (* no callback is NULL *)
  ap_now_ms : W -> Z * W;
  ap_acquire : W -> Z * W;
  ap_release : W -> Z * W;
  ap_consume_permit : bytes -> bytes -> Z -> W -> Z * W;
  ap_read : Z -> W -> (Z * bytes * Z) * W;
  ap_write : bytes -> Z -> W -> Z * W
}.
Arguments RaPort {W}.
Arguments ap_set {W} _.
Arguments ap_now_ms {W} _ _.
Arguments ap_acquire {W} _ _.
Arguments ap_release {W} _ _.
Arguments ap_consume_permit {W} _ _ _ _ _.
Arguments ap_read {W} _ _ _.
Arguments ap_write {W} _ _ _ _.

Record recovery_authorizer := RecoveryAuthorizer {
  au_gate : Z; au_magic : Z; au_attempted : Z; au_fault : Z; au_held : Z; au_deadline : Z; au_last_now : Z;
  au_hash : owned_page_hash; au_evidence : ra_evidence; au_expected : bytes; au_work : bytes
}.
#[export] Instance eta_recovery_authorizer : Eta recovery_authorizer := fun a =>
  RecoveryAuthorizer (au_gate a) (au_magic a) (au_attempted a) (au_fault a) (au_held a) (au_deadline a) (au_last_now a)
    (au_hash a) (au_evidence a) (au_expected a) (au_work a).
Definition wiped : bytes := fill RA_RECORD_BYTES 0.
Definition zero_authorizer : recovery_authorizer :=
  RecoveryAuthorizer 0 0 0 0 0 0 0 {| sha256 := None |} (RaEvidence (fill 16 0) (fill 32 0) (fill 32 0) (fill 32 0)) wiped wiped.

Definition same_array (a b : bytes) : bool := bool_decide (a = b).
Definition ra_outside {A} (self : Z) (p : ptr A) (n : Z) : bool :=
  match p with
  | Some p => (self <=? UINTPTR_MAX - sizeof_recovery_authorizer) && (addr p <=? UINTPTR_MAX - n) &&
              negb ((self <? addr p + n) && (addr p <? self + sizeof_recovery_authorizer))
  | None => false
  end.

(** "OpenPendant recipient public key v1" and "OpenPendant phase2 recovery
    configuration v1", each with its final zero byte. *)
Definition recipient_domain : bytes :=
  [79; 112; 101; 110; 80; 101; 110; 100; 97; 110; 116; 32; 114; 101; 99; 105; 112; 105; 101; 110; 116; 32; 112; 117; 98;
   108; 105; 99; 32; 107; 101; 121; 32; 118; 49; 0].
Definition configuration_domain : bytes :=
  [79; 112; 101; 110; 80; 101; 110; 100; 97; 110; 116; 32; 112; 104; 97; 115; 101; 50; 32; 114; 101; 99; 111; 118; 101;
   114; 121; 32; 99; 111; 110; 102; 105; 103; 117; 114; 97; 116; 105; 111; 110; 32; 118; 49; 0].

Section Authorizer.
Context {W : Type} (port : ra_port W).
(** The address of the authorizer, and of the descriptor [build] decodes into. *)
Context (self decoded_at : Z).
Definition AC : Type := recovery_authorizer * W.

(** The shape of the recovery: the configuration and the proof [build] admits. *)
Definition admitted_shape (e : ra_evidence) (c : recording_configuration) (p : rv_recovery_proof) : bool :=
  let s := rcf_spec c in
  (rcf_phase c =? RCFG_PROVISIONING) && (rcf_revision c =? 2) && (rcf_fault_banks c =? 0) && (vs_generation s =? 1) &&
  same_array (vs_device_id s) (ev_expected_device e) &&
  same_array (vs_preservation_manifest_sha256 s) (ev_original_manifest e) &&
  (pf_control_epoch p =? 5) && (pf_lease_high_water p =? 130) && (znth 0 (rcf_recipient c) =? 4) &&
  identity (pf_transaction p) && identity (pf_configuration_sha256 p) && identity (pf_preimage_sha256 p) &&
  identity (pf_control_digest p) && identity (pf_capture_firmware_digest p) &&
  forallb (fun i => znth i (vs_map_blocks s) =? 1025 + i) (zseq 32) &&
  (znth 0 (vs_control_blocks s) =? 1057) && (znth 1 (vs_control_blocks s) =? 1058).
Definition descriptor_accepted (h : owned_page_hash) (c : obj recording_configuration) : bool :=
  bool_decide (fst (owned_volume_descriptor_validate
    (Some (Obj (addr c + offset_descriptor) (rcf_descriptor (deref c)))) 512 (Some (Obj (addr c) (rcf_spec (deref c))))
    (Some (Obj (self + offset_hash) h)) (Some (Obj decoded_at cleared_decoded))) = OWNED_VOLUME_VALID).
Definition recipient_bytes (c : recording_configuration) : bytes :=
  recipient_domain ++ [0; 16] ++ rcf_recipient c.
Definition configuration_bytes (c : recording_configuration) : bytes :=
  configuration_domain ++ rcf_descriptor c ++ rcf_recipient c ++ le 8 (rcf_revision c) ++ le 4 (rcf_phase c) ++
  le 4 (rcf_fault_banks c).
Definition record_fields (e : ra_evidence) (c : recording_configuration) (p : rv_recovery_proof) : list field :=
  [(0, [79; 80; 78; 68; 82; 65; 49]); put16 8 1; put16 10 RA_RECORD_BYTES; put32 12 1; (16, ev_expected_device e);
   (32, pf_transaction p); (48, pf_configuration_sha256 p); (80, pf_preimage_sha256 p); (112, pf_control_digest p);
   (144, pf_capture_firmware_digest p); put64 176 (pf_control_epoch p); put64 184 (pf_lease_high_water p);
   (192, ev_current_manifest e); (224, ev_original_manifest e); (256, ev_control_scan e); (288, rcf_descriptor c);
   (800, rcf_recipient c); put64 865 (rcf_revision c); put32 873 (rcf_phase c); put32 877 (rcf_fault_banks c)].
Definition record_head (e : ra_evidence) (c : recording_configuration) (p : rv_recovery_proof) : bytes :=
  blits (record_fields e c p) (fill RA_RECORD_BYTES 0).
(** [build]: its code, and what it leaves in the work buffer when it writes it. *)
Definition build (h : owned_page_hash) (e : ra_evidence) (c : obj recording_configuration) (p : rv_recovery_proof)
  : Z * option bytes :=
  let k := deref c in
  if negb (admitted_shape e k p) || negb (descriptor_accepted h c) then (RA_REFUSED, None) else
  match sha_digest h (recipient_bytes k) with
  | None => (RA_FAULT, None)
  | Some sum =>
      if negb (same_array sum (vs_recipient_fingerprint (rcf_spec k))) then (RA_REFUSED, None) else
      match sha_digest h (configuration_bytes k) with
      | None => (RA_FAULT, None)
      | Some sum =>
          if negb (same_array sum (pf_configuration_sha256 p)) then (RA_REFUSED, None) else
          let r := record_head e k p in
          match sha_digest h (slice 0 RA_DIGEST_OFFSET r) with
          | None => (RA_FAULT, Some r)
          | Some d => (RA_OK, Some (blit RA_DIGEST_OFFSET d r))
          end
      end
  end.
Definition build_work (c : obj recording_configuration) (p : rv_recovery_proof) : M AC Z :=
  own (fun a =>
    let '(rc, r) := build (au_hash a) (au_evidence a) c p in
    run change (fun a => match r with Some r => a <| au_work := r |> | None => a end);
    ret rc).
Definition wipe_work : M AC unit := change (fun a => a <| au_work := wiped |>).

(** [check]: true when it is late or the clock went back. *)
Definition late : M AC bool :=
  do t <- call (ap_now_ms port);
  own (fun a =>
    if (t <? au_last_now a) || (au_deadline a <=? t) then ret true
    else run change (fun a => a <| au_last_now := t |>); ret false).

Definition ra_init (a : obj recovery_authorizer) (p : ptr unit) (h : ptr owned_page_hash)
    (c : ptr recording_configuration) (proof : ptr rv_recovery_proof) (e : ptr ra_evidence) (lock_free : bool)
  : Z * recovery_authorizer :=
  match h, c, proof, e with
  | Some ho, Some co, Some po, Some eo =>
      if negb (ra_outside self p sizeof_ra_port) || negb (ra_outside self h sizeof_owned_page_hash) ||
         negb (ra_outside self c sizeof_recording_configuration) || negb (ra_outside self proof sizeof_rv_recovery_proof) ||
         negb (ra_outside self e sizeof_ra_evidence) || negb (au_magic (deref a) =? 0) ||
         match sha256 (deref ho) with None => true | Some _ => false end || negb (ap_set port) ||
         negb (identity (ev_expected_device (deref eo))) || negb (identity (ev_current_manifest (deref eo))) ||
         negb (identity (ev_original_manifest (deref eo))) || negb (identity (ev_control_scan (deref eo))) || negb lock_free
      then (RA_ARGUMENT, deref a) else
      let a := (deref a) <| au_magic := RA_MAGIC |> <| au_hash := deref ho |> <| au_evidence := deref eo |> in
      let '(rc, r) := build (au_hash a) (au_evidence a) co (deref po) in
      let a := match r with Some r => a <| au_work := r |> | None => a end in
      let a := if rc =? 0 then a <| au_expected := au_work a |> else a <| au_fault := 1 |> in
      (rc, a <| au_work := wiped |>)
  | _, _, _, _ => (RA_ARGUMENT, deref a)
  end.

(** What a read leaves in the work buffer. *)
Definition read_back_bytes (p : bytes) : bytes := slice 0 RA_RECORD_BYTES (map u8 p ++ wiped).
Definition read_record : M AC (Z * Z) :=
  own (fun a =>
    do r <- call (ap_read port (au_deadline a));
    let '(rc, p, actual) := r in
    run change (fun a => a <| au_work := read_back_bytes p |>);
    ret (rc, actual)).

(** The record is absent, is written once, and reads back as it was written. *)
Definition publish_record : M AC Z :=
  run wipe_work;
  do r <- read_record;
  do out_of_time <- late;
  if out_of_time || negb (fst r =? RA_ABSENT) || negb (snd r =? 0) then ret RA_REFUSED else
  own (fun a =>
    do rc <- call (ap_write port (au_expected a) (au_deadline a));
    if negb (rc =? 0) then ret RA_FAULT else
    do out_of_time <- late;
    if out_of_time then ret RA_FAULT else
    run wipe_work;
    do r <- read_record;
    if negb (fst r =? 0) then ret RA_FAULT else
    do out_of_time <- late;
    own (fun a =>
      if out_of_time || negb (snd r =? RA_RECORD_BYTES) || negb (same_array (au_work a) (au_expected a))
      then ret RA_FAULT else ret RA_OK)).
(** The permit is consumed before the settings are touched. *)
Definition consume_permit (p : rv_recovery_proof) : M AC Z :=
  do out_of_time <- late;
  if out_of_time then ret RA_FAULT else
  own (fun a =>
    do rc <- call (ap_consume_permit port (pf_transaction p) (slice RA_DIGEST_OFFSET 32 (au_expected a)) (au_deadline a));
    if negb (rc =? 0) then ret RA_FAULT else
    do out_of_time <- late;
    if out_of_time then ret RA_FAULT else publish_record).
Definition attempt (c : obj recording_configuration) (p : rv_recovery_proof) : M AC Z :=
  do out_of_time <- late;
  if out_of_time then ret RA_FAULT else
  do rc <- build_work c p;
  if negb (rc =? 0) then ret RA_FAULT else
  own (fun a =>
    if negb (same_array (au_expected a) (au_work a)) then ret RA_FAULT else
    do out_of_time <- late;
    if out_of_time then ret RA_FAULT else
    do rc <- call (ap_acquire port);
    if negb (rc =? 0) then ret RA_BUSY else
    run change (fun a => a <| au_held := 1 |>);
    consume_permit p).
(** [finished]: the lock goes back, a failure is latched, the buffer is wiped. *)
Definition finished (rc : Z) : M AC Z :=
  own (fun a =>
    do rc <- (if negb (au_held a =? 0)
              then do released <- call (ap_release port);
                   if negb (released =? 0) then run change (fun a => a <| au_fault := 1 |>); ret RA_FAULT
                   else run change (fun a => a <| au_held := 0 |>); ret rc
              else ret rc);
    do rc <- (if rc =? 0 then do out_of_time <- late; ret (if out_of_time then RA_FAULT else rc) else ret rc);
    run change (fun a => if rc =? 0 then a else a <| au_fault := 1 |>);
    run wipe_work;
    run change (fun a => a <| au_gate := 0 |>);
    ret rc).
Definition ra_consume (c : ptr recording_configuration) (p : ptr rv_recovery_proof) (d : Z) : M AC Z :=
  own (fun a =>
    if negb (au_magic a =? RA_MAGIC) || negb (ra_outside self c sizeof_recording_configuration) ||
       negb (ra_outside self p sizeof_rv_recovery_proof) then ret RA_ARGUMENT else
    if negb (au_gate a =? 0) then ret RA_BUSY else
    run change (fun a => a <| au_gate := 1 |>);
    if negb (au_attempted a =? 0) || negb (au_fault a =? 0)
    then run change (fun a => a <| au_gate := 0 |>); ret RA_REFUSED else
    match c, p with
    | Some co, Some po =>
        run change (fun a => a <| au_attempted := 1 |>);
        do t <- call (ap_now_ms port);
        run change (fun a => a <| au_last_now := t |>
                               <| au_deadline := if (t <? d) && (RA_MAX_MS <? d - t) then t + RA_MAX_MS else d |>);
        do rc <- attempt co (deref po);
        finished rc
    | _, _ => ret RA_ARGUMENT (* excluded by [ra_outside] *)
    end).

(** A second and a third call, in any number, each with what its caller passes. *)
Fixpoint ra_calls (calls : list (ptr recording_configuration * ptr rv_recovery_proof * Z)) : M AC (list Z) :=
  match calls with
  | [] => ret []
  | (c, p, d) :: calls => do rc <- ra_consume c p d; do rcs <- ra_calls calls; ret (rc :: rcs)
  end.
End Authorizer.
