(* ===== verification/RecoverySafety.v ===== *)
(** The recovery authorizer, proved: whatever the port answers and however often
    it is asked, one ceremony takes place, and only a complete one is a success. *)
From S2P Require Import Prelude OwnedPage OwnedVolume Wp RecoveryAuthorizer.

(** * The log of port calls, and the ceremony *)
Inductive ra_event :=
  | EvAcquire (rc : Z)
  | EvPermit (transaction digest : bytes) (rc : Z)
  | EvRecord (rc : Z) (record : bytes) (actual : Z)
  | EvPublish (record : bytes) (rc : Z)
  | EvRelease (rc : Z).
Definition ra_logged {W} (port : ra_port W) : ra_port (list ra_event * W) := {|
  ap_set := ap_set port;
  ap_now_ms := fun '(t, w) => let '(n, w) := ap_now_ms port w in (n, (t, w));
  ap_acquire := fun '(t, w) => let '(rc, w) := ap_acquire port w in (rc, (t ++ [EvAcquire rc], w));
  ap_release := fun '(t, w) => let '(rc, w) := ap_release port w in (rc, (t ++ [EvRelease rc], w));
  ap_consume_permit := fun tx dg d '(t, w) =>
    let '(rc, w) := ap_consume_permit port tx dg d w in (rc, (t ++ [EvPermit tx dg rc], w));
  ap_read := fun d '(t, w) =>
    let '(rc, p, n, w) := ap_read port d w in ((rc, p, n), (t ++ [EvRecord rc (read_back_bytes p) n], w));
  ap_write := fun r d '(t, w) => let '(rc, w) := ap_write port r d w in (rc, (t ++ [EvPublish r rc], w))
|}.

(** How far the ceremony of a record has come; [Failed] still holds the lock. *)
Inductive ra_phase := Before | Locked | Permitted | Vacant | Written | Verified | Failed | Given_up | Complete.
#[export] Instance ra_phase_eq : EqDecision ra_phase.
Proof. solve_decision. Defined.
Definition then_to (ok : bool) (ph : ra_phase) : option ra_phase := Some (if ok then ph else Failed).
Definition ceremony_step (x : bytes) (ph : ra_phase) (e : ra_event) : option ra_phase :=
  match ph, e with
  | Before, EvAcquire rc => Some (if rc =? 0 then Locked else Given_up)
  | Locked, EvPermit tx dg rc =>
      if same_array tx (slice 32 16 x) && same_array dg (slice RA_DIGEST_OFFSET 32 x) then then_to (rc =? 0) Permitted else None
  | Permitted, EvRecord rc _ actual => then_to ((rc =? RA_ABSENT) && (actual =? 0)) Vacant
  | Vacant, EvPublish r rc => if same_array r x then then_to (rc =? 0) Written else None
  | Written, EvRecord rc r actual => then_to ((rc =? 0) && (actual =? RA_RECORD_BYTES) && same_array r x) Verified
  | (Locked | Permitted | Vacant | Written | Failed), EvRelease _ => Some Given_up
  | Verified, EvRelease rc => Some (if rc =? 0 then Complete else Given_up)
  | _, _ => None
  end.
Definition ceremony (x : bytes) (t : list ra_event) : option ra_phase :=
  foldl (fun ph e => match ph with Some ph => ceremony_step x ph e | None => None end) (Some Before) t.
Definition holding (ph : ra_phase) : bool :=
  match ph with Before | Given_up | Complete => false | _ => true end.

Lemma ceremony_snoc x t e : ceremony x (t ++ [e]) = match ceremony x t with Some ph => ceremony_step x ph e | None => None end.
Proof. unfold ceremony. by rewrite foldl_app. Qed.

Lemma ceremony_stuck x t : foldl (fun ph e => match ph with Some ph => ceremony_step x ph e | None => None end) None t = None.
Proof. induction t; done. Qed.

Lemma same_array_eq a b : same_array a b = true <-> a = b.
Proof. unfold same_array. apply bool_decide_eq_true. Qed.

(** The log at each phase that nothing has failed before. *)
Definition ceremony_log (x p : bytes) : list ra_event :=
  [EvAcquire 0; EvPermit (slice 32 16 x) (slice RA_DIGEST_OFFSET 32 x) 0; EvRecord RA_ABSENT p 0;
   EvPublish x 0; EvRecord 0 x RA_RECORD_BYTES; EvRelease 0].
Definition phase_length (ph : ra_phase) : option nat :=
  match ph with
  | Before => Some 0 | Locked => Some 1 | Permitted => Some 2 | Vacant => Some 3 | Written => Some 4 | Verified => Some 5
  | Complete => Some 6 | Failed | Given_up => None
  end%nat.

Lemma ceremony_shape x t : forall ph n, ceremony x t = Some ph -> phase_length ph = Some n ->
  exists p, t = take n (ceremony_log x p).
Proof.
  induction t as [|e t IH] using rev_ind; [intros ph n [= <-] [= <-]; by exists []|].
  intros ph n. rewrite ceremony_snoc. destruct (ceremony x t) as [q|]; [|done]. intros H Hn.
  destruct q, e; cbn in H; unfold then_to in H; try done;
    repeat match type of H with
    | (if ?b then _ else _) = _ => destruct b eqn:?; [|done]
    | Some (if ?b then _ else _) = _ => destruct b eqn:?
    end; injection H as <-; try done; injection Hn as <-; destruct (IH _ _ eq_refl eq_refl) as [p ->];
    rewrite ?andb_true_iff, ?same_array_eq, ?Z.eqb_eq in *; destruct_and?; subst;
    first [by exists p|by eexists].
Qed.

Lemma ceremony_complete x t : ceremony x t = Some Complete -> exists p, t = ceremony_log x p.
Proof. intros H. by destruct (ceremony_shape x t _ 6%nat H eq_refl) as [p ->]; exists p. Qed.

(** * One call *)
Record configuration_wf (c : recording_configuration) : Prop := {
  cw_descriptor : zlen (rcf_descriptor c) = 512; cw_recipient : zlen (rcf_recipient c) = 65
}.
Record proof_wf (p : rv_recovery_proof) : Prop := {
  pw_transaction : zlen (pf_transaction p) = 16; pw_configuration : zlen (pf_configuration_sha256 p) = 32;
  pw_preimage : zlen (pf_preimage_sha256 p) = 32; pw_control : zlen (pf_control_digest p) = 32;
  pw_firmware : zlen (pf_capture_firmware_digest p) = 32
}.
Record evidence_wf (e : ra_evidence) : Prop := {
  ew_device : zlen (ev_expected_device e) = 16; ew_current : zlen (ev_current_manifest e) = 32;
  ew_original : zlen (ev_original_manifest e) = 32; ew_scan : zlen (ev_control_scan e) = 32
}.

Definition record_shape : list (Z * Z) :=
  [(0, 7); (8, 2); (10, 2); (12, 4); (16, 16); (32, 16); (48, 32); (80, 32); (112, 32); (144, 32); (176, 8); (184, 8);
   (192, 32); (224, 32); (256, 32); (288, 512); (800, 65); (865, 8); (873, 4); (877, 4)].
Lemma record_fields_shape e c p : evidence_wf e -> configuration_wf c -> proof_wf p -> shape_of (record_fields e c p) = record_shape.
Proof.
  intros [] [] []. unfold record_fields, put16, put32, put64, shape_of. cbn [map].
  rewrite !zlen_le. by repeat (f_equal; try done).
Qed.

Section Call.
Context {W : Type} (port : ra_port W) (self decoded_at : Z).
Abbreviation P := (ra_logged port).
Abbreviation S := (recovery_authorizer * (list ra_event * W))%type.

Lemma build_some h e c p rc : build self decoded_at h e c p = (rc, None) -> rc <> RA_OK.
Proof.
  unfold build. repeat match goal with
  | |- (if ?b then _ else _) = _ -> _ => destruct b
  | |- match ?o with Some _ => _ | None => _ end = _ -> _ => destruct o
  end; by intros [= <-].
Qed.

(** The record [build] makes names the transaction it is made for. *)
Lemma build_names h e c p r : evidence_wf e -> configuration_wf (deref c) -> proof_wf p ->
  build self decoded_at h e c p = (RA_OK, Some r) -> slice 32 16 r = pf_transaction p.
Proof.
  intros He Hc Hp. unfold build. destruct (_ || _); [done|]. destruct (sha_digest _ _); [|done]. destruct (negb _); [done|].
  destruct (sha_digest _ _); [|done]. destruct (negb _); [done|]. destruct (sha_digest _ (slice _ _ _)) as [d|] eqn:Ed; [|done].
  intros [= <-]. destruct (sha_digest_wf _ _ _ Ed) as [Hd _]. pose proof (record_fields_shape e (deref c) p He Hc Hp) as Hsh.
  assert (Hlen : zlen (fill RA_RECORD_BYTES 0) = 1024) by done. unfold record_head.
  rewrite slice_blit_disj; [read_back; apply Hp|done| |lia|lia|rewrite Hd; unfold RA_DIGEST_OFFSET; lia].
  rewrite zlen_blits by (by rewrite Hlen, Hsh). rewrite Hlen, Hd. done.
Qed.

Context (x : bytes).
(** The ceremony has come to [ph], and the context holds the lock just then. *)
Definition at_phase (ph : ra_phase) (s : S) : Prop :=
  ceremony x (fst (snd s)) = Some ph /\ au_expected (fst s) = x /\ au_attempted (fst s) = 1 /\
  au_held (fst s) = (if holding ph then 1 else 0).
(** How [attempt] ends. *)
Definition attempted (rc : Z) (s : S) : Prop :=
  exists ph, at_phase ph s /\ (rc = RA_OK -> ph = Verified) /\ ph <> Complete.

Lemma at_phase_change ph f a tw : at_phase ph (a, tw) ->
  au_expected (f a) = au_expected a -> au_attempted (f a) = au_attempted a -> au_held (f a) = au_held a ->
  at_phase ph (f a, tw).
Proof. unfold at_phase. cbn. intros (? & ? & ? & ?) -> -> ->. done. Qed.

Lemma wp_late ph s : at_phase ph s -> wp (late P) (fun _ s' => at_phase ph s' /\ au_work (fst s') = au_work (fst s) /\ au_evidence (fst s') = au_evidence (fst s)) s.
Proof.
  destruct s as [a [t w]]. intros H. unfold late. apply wp_bind, wp_call. intros n [t' w'] E. cbn in E.
  destruct (ap_now_ms port w) as [? ?]. injection E as <- <- <-. apply wp_own. destruct (_ || _); [by apply wp_ret|].
  apply wp_bind, wp_change, wp_ret. split; [by apply at_phase_change|done].
Qed.

(** Goes on when the clock allows, and fails where it does not. *)
Lemma wp_in_time {A} ph (k : bool -> M S A) Q s : at_phase ph s ->
  (forall b s', at_phase ph s' -> au_work (fst s') = au_work (fst s) -> au_evidence (fst s') = au_evidence (fst s) -> wp (k b) Q s') -> wp (bind (late P) k) Q s.
Proof. intros H Hk. apply wp_bind. eapply wp_mono; [by apply wp_late|]. intros b s' (? & ? & ?). by apply Hk. Qed.

Lemma gives_up ph rc s : at_phase ph s -> rc <> RA_OK -> ph <> Complete -> attempted rc s.
Proof. intros H Hr Hp. exists ph. done. Qed.

Lemma wp_read_record ph ph' Q s :
  at_phase ph s ->
  (forall rc p n, ceremony_step x ph (EvRecord rc p n) = Some (ph' rc p n) /\ holding (ph' rc p n) = holding ph) ->
  (forall rc n s, at_phase (ph' rc (au_work (fst s)) n) s -> Q (rc, n) s) -> wp (read_record P) Q s.
Proof.
  destruct s as [a [t w]]. intros (Hc & Hx & Ha & Hh) Hstep HQ. cbn [fst snd] in *. unfold read_record. apply wp_own, wp_bind, wp_call.
  intros [[rc p] n] [t' w'] E. cbn in E. destruct (ap_read port _ w) as [[[rc' p'] n'] w'']. injection E as <- <- <- <- <-.
  apply wp_bind, wp_change, wp_ret. apply HQ. destruct (Hstep rc' (read_back_bytes p') n') as [E Eh].
  split_and!; [|done|done|]; [cbn [fst snd]; by rewrite ceremony_snoc, Hc|].
  change (au_held a = (if holding (ph' rc' (read_back_bytes p') n') then 1 else 0)). by rewrite Eh.
Qed.

Lemma wp_wipe_work ph s : at_phase ph s -> wp wipe_work (fun _ s => at_phase ph s) s.
Proof. destruct s as [a tw]. intros H. apply wp_change. by apply at_phase_change. Qed.

Lemma wp_publish_record s : at_phase Permitted s -> wp (publish_record P) attempted s.
Proof.
  intros H. unfold publish_record. apply wp_bind. eapply wp_mono; [by apply wp_wipe_work|]. clear H s. intros [] s H.
  apply wp_bind. eapply wp_read_record with (ph' := fun rc _ n => if (rc =? RA_ABSENT) && (n =? 0) then Vacant else Failed); [exact H| |].
  { intros. unfold ceremony_step, then_to. by destruct (_ && _). }
  clear H s. intros rc n s H. eapply wp_in_time; [exact H|]. intros b s1 H1 _ _. clear H s. rename s1 into s, H1 into H. cbn [fst snd].
  destruct b; cbn [orb]; [apply wp_ret; eapply gives_up; [exact H|done|by destruct (_ && _)]|].
  destruct (rc =? RA_ABSENT), (n =? 0); cbn [negb orb andb] in *; try (apply wp_ret; by eapply gives_up).
  destruct s as [a [t w]]. apply wp_own, wp_bind, wp_call. intros r [t' w'] E. cbn in E. destruct (ap_write port _ _ w) as [r' w''].
  injection E as <- <- <-. destruct H as (Hc & Hx & Ha & Hh). cbn [fst snd] in *.
  assert (H : at_phase (if r' =? 0 then Written else Failed) (a, (t ++ [EvPublish (au_expected a) r'], w''))).
  { split_and!; [|done|done|by destruct (r' =? 0)]. cbn [fst snd]. rewrite ceremony_snoc, Hc. cbn [ceremony_step].
    by rewrite (proj2 (same_array_eq _ _) Hx). }
  clear Hc Hx Ha Hh. destruct (r' =? 0); cbn [negb]; [|apply wp_ret; by eapply gives_up].
  eapply wp_in_time; [exact H|]. intros b s H1 _ _. clear H. rename H1 into H. destruct b; [apply wp_ret; by eapply gives_up|].
  apply wp_bind. eapply wp_mono; [by apply wp_wipe_work|]. clear H s. intros [] s H.
  apply wp_bind. eapply wp_read_record with (ph' := fun rc r n => if (rc =? 0) && (n =? RA_RECORD_BYTES) && same_array r x then Verified else Failed); [exact H| |].
  { intros. unfold ceremony_step, then_to. by destruct (_ && _). }
  clear. intros rc n s H. cbn [fst snd]. destruct (rc =? 0); cbn [negb andb] in *; [|apply wp_ret; by eapply gives_up].
  eapply wp_in_time; [exact H|]. intros b s' H' Ew _. destruct s' as [a' [t' w']]. apply wp_own. cbn [fst snd] in *. rewrite <- Ew in *.
  pose proof H' as (_ & Hx & _). cbn [fst snd] in Hx. rewrite Hx.
  destruct (n =? RA_RECORD_BYTES), (same_array (au_work a') x), b; cbn [negb orb andb] in *; apply wp_ret; try by eapply gives_up.
  by exists Verified.
Qed.

Lemma wp_consume_permit p s : at_phase Locked s -> pf_transaction p = slice 32 16 x -> wp (consume_permit P p) attempted s.
Proof.
  intros H Hp. unfold consume_permit. eapply wp_in_time; [exact H|]. intros b s1 H1 _ _. clear H s. rename s1 into s, H1 into H. destruct b; [apply wp_ret; by eapply gives_up|].
  destruct s as [a [t w]]. apply wp_own, wp_bind, wp_call. intros r [t' w'] E. cbn in E. destruct (ap_consume_permit port _ _ _ w) as [r' w''].
  injection E as <- <- <-. destruct H as (Hc & Hx & Ha & Hh). cbn [fst snd] in *.
  set (e := EvPermit (pf_transaction p) (slice RA_DIGEST_OFFSET 32 (au_expected a)) r').
  assert (H : at_phase (if r' =? 0 then Permitted else Failed) (a, (t ++ [e], w''))).
  { split_and!; [|done|done|by destruct (r' =? 0)]. cbn [fst snd]. rewrite ceremony_snoc, Hc. cbn [ceremony_step e].
    by rewrite (proj2 (same_array_eq _ _) Hp), Hx, (proj2 (same_array_eq _ _) eq_refl). }
  clearbody e. clear Hc Hx Ha Hh. destruct (r' =? 0); cbn [negb]; [|apply wp_ret; by eapply gives_up].
  eapply wp_in_time; [exact H|]. intros b s H1 _ _. clear H. rename H1 into H. destruct b; [apply wp_ret; by eapply gives_up|]. by apply wp_publish_record.
Qed.

Lemma wp_attempt c p s : evidence_wf (au_evidence (fst s)) -> configuration_wf (deref c) -> proof_wf p -> at_phase Before s ->
  wp (attempt P self decoded_at c p) attempted s.
Proof.
  intros He Hc Hp H. unfold attempt. eapply wp_in_time; [exact H|]. intros b [a [t w]] H' _ Ee. clear H. rename H' into H. cbn [fst] in Ee.
  destruct b; [apply wp_ret; by eapply gives_up|]. unfold build_work. apply wp_bind, wp_own.
  destruct (build self decoded_at (au_hash a) (au_evidence a) c p) as [rc r] eqn:Eb. apply wp_bind, wp_change, wp_ret.
  set (a1 := match r with Some r => a <| au_work := r |> | None => a end).
  assert (H1 : at_phase Before (a1, (t, w))) by (unfold a1; destruct r; [by apply at_phase_change|done]).
  destruct (Z.eqb_spec rc 0) as [->|]; cbn [negb]; [|apply wp_ret; by eapply gives_up].
  apply wp_own. destruct (same_array _ _) eqn:Es; cbn [negb]; [|apply wp_ret; by eapply gives_up]. apply same_array_eq in Es.
  assert (Htx : pf_transaction p = slice 32 16 x).
  { destruct r as [r|]; [|by apply build_some in Eb]. rewrite Ee in Eb. rewrite <- (build_names _ _ _ _ _ He Hc Hp Eb).
    destruct H1 as (_ & Hx & _). cbn [fst] in Hx. rewrite <- Hx, Es. done. }
  clear Eb Es. eapply wp_in_time; [exact H1|]. intros b [a2 [t2 w2]] H2 _ _. clear H H1. rename H2 into H. destruct b; [apply wp_ret; by eapply gives_up|].
  apply wp_bind, wp_call. intros rc [t' w'] E. cbn in E. destruct (ap_acquire port w2) as [rc' w'']. injection E as <- <- <-.
  destruct H as (Hcer & Hx & Ha & Hh). cbn [fst snd] in *.
  assert (Hcer' : ceremony x (t2 ++ [EvAcquire rc']) = Some (if rc' =? 0 then Locked else Given_up)) by by rewrite ceremony_snoc, Hcer.
  destruct (rc' =? 0); cbn [negb].
  - apply wp_bind, wp_change. by apply wp_consume_permit.
  - apply wp_ret. by apply (gives_up Given_up).
Qed.

(** How a call that was not refused ends. *)
Definition ended (rc : Z) (s : S) : Prop :=
  au_attempted (fst s) = 1 /\ exists ph, ceremony x (fst (snd s)) = Some ph /\ (rc = RA_OK -> ph = Complete).

Lemma ended_worse rc rc' s : ended rc s -> rc' <> RA_OK -> ended rc' s.
Proof. intros (Ha & ph & Hc & _) Hr. split; [done|]. by exists ph. Qed.

Lemma wp_ra_settle rc s : ended rc s ->
  wp (do rc <- (if rc =? 0 then do out_of_time <- late P; ret (if out_of_time then RA_FAULT else rc) else ret rc);
      run change (fun a => if rc =? 0 then a else a <| au_fault := 1 |>); run wipe_work;
      run change (fun a => a <| au_gate := 0 |>); ret rc) ended s.
Proof.
  intros H. assert (Hend : forall rc s, ended rc s ->
    wp (run change (fun a => if rc =? 0 then a else a <| au_fault := 1 |>); run wipe_work;
        run change (fun a => a <| au_gate := 0 |>); ret rc) ended s).
  { clear. intros rc [a tw] H. apply wp_bind, wp_change, wp_bind, wp_change, wp_bind, wp_change, wp_ret. by destruct (rc =? 0). }
  apply wp_bind. destruct (rc =? 0); [|by apply wp_ret, Hend]. apply wp_bind. destruct s as [a [t w]].
  unfold late. apply wp_bind, wp_call. intros n [t' w'] E. cbn in E. destruct (ap_now_ms port w) as [n' w'']. injection E as <- <- <-.
  apply wp_own. destruct (_ || _).
  - apply wp_ret, wp_ret, Hend. by apply (ended_worse rc).
  - apply wp_bind, wp_change, wp_ret, wp_ret, Hend. exact H.
Qed.

Lemma wp_finished rc s : attempted rc s -> wp (finished P rc) ended s.
Proof.
  intros (ph & H & Hok & Hnc). destruct s as [a [t w]]. unfold finished. apply wp_own.
  destruct H as (Hc & Hx & Ha & Hh). cbn [fst snd] in *. apply wp_bind. rewrite Hh.
  assert (Hstep : holding ph = true -> forall r, ceremony_step x ph (EvRelease r) =
    Some (if bool_decide (ph = Verified) && (r =? 0) then Complete else Given_up)) by (by destruct ph).
  destruct (holding ph) eqn:Eh; cbn [negb Z.eqb].
  - apply wp_bind, wp_call. intros r [t' w'] E. cbn in E. destruct (ap_release port w) as [r' w'']. injection E as <- <- <-.
    assert (Hc' : ceremony x (t ++ [EvRelease r']) = Some (if bool_decide (ph = Verified) && (r' =? 0) then Complete else Given_up)).
    { rewrite ceremony_snoc, Hc. by apply Hstep. }
    destruct (r' =? 0); cbn [negb].
    + apply wp_bind, wp_change, wp_ret, wp_ra_settle. split; [done|]. eexists. split; [exact Hc'|]. intros ->%Hok. done.
    + apply wp_bind, wp_change, wp_ret, wp_ra_settle. split; [done|]. eexists. split; [exact Hc'|done].
  - apply wp_ret, wp_ra_settle. split; [done|]. exists ph. split; [done|]. intros ->%Hok. done.
Qed.

(** * Any number of calls *)
(** Before the first call that is let in, and after it. *)
Definition fresh (s : S) : Prop :=
  at_phase Before ((fst s) <| au_attempted := 1 |>, snd s) /\ au_attempted (fst s) = 0 /\ evidence_wf (au_evidence (fst s)).
Definition call_wf (k : ptr recording_configuration * ptr rv_recovery_proof * Z) : Prop :=
  (forall c, fst (fst k) = Some c -> configuration_wf (deref c)) /\ (forall p, snd (fst k) = Some p -> proof_wf (deref p)).

Lemma wp_spent c p d s : ended RA_REFUSED s ->
  wp (ra_consume P self decoded_at c p d) (fun rc s' => rc <> RA_OK /\ snd s' = snd s /\ ended RA_REFUSED s') s.
Proof.
  destruct s as [a tw]. intros H. unfold ra_consume. apply wp_own. destruct (_ || _); [by apply wp_ret|].
  destruct (negb (au_gate a =? 0)); [by apply wp_ret|]. apply wp_bind, wp_change.
  rewrite (proj1 H : au_attempted a = 1). apply wp_bind, wp_change, wp_ret. done.
Qed.

Lemma wp_first c p d s : fresh s -> call_wf (c, p, d) ->
  wp (ra_consume P self decoded_at c p d) (fun rc s' => ended rc s' \/ rc <> RA_OK /\ snd s' = snd s /\ fresh s') s.
Proof.
  destruct s as [a tw]. intros (H & Ha & He) [Hc Hp]. unfold ra_consume. apply wp_own. destruct (_ || _); [apply wp_ret; by right|].
  destruct (negb (au_gate a =? 0)); [apply wp_ret; by right|]. apply wp_bind, wp_change. cbn [fst] in Ha. rewrite Ha. cbn [Z.eqb negb orb].
  destruct (negb (au_fault a =? 0)); [apply wp_bind, wp_change, wp_ret; by right|].
  destruct c as [co|], p as [po|]; [|by apply wp_ret; right..]. apply wp_bind, wp_change, wp_bind, wp_call. intros n [t' w'] E.
  destruct tw as [t w]. cbn in E. destruct (ap_now_ms port w) as [n' w'']. injection E as <- <- <-. apply wp_bind, wp_change, wp_bind.
  eapply wp_mono; [apply wp_attempt; [done|by apply Hc|by apply Hp|exact H]|]. intros rc s' Hr.
  eapply wp_mono; [by apply wp_finished|]. intros rc' s'' H'. by left.
Qed.

Lemma wp_calls_spent calls : forall s, ended RA_REFUSED s ->
  wp (ra_calls P self decoded_at calls) (fun rcs s' => ~ In RA_OK rcs /\ snd s' = snd s) s.
Proof.
  induction calls as [|[[c p] d] calls IH]; intros s H; [apply wp_ret; split; [by intros []|done]|].
  apply wp_bind. eapply wp_mono; [by apply wp_spent|].
  intros rc s1 (Hr & E & H1). apply wp_bind. eapply wp_mono; [by apply IH|]. intros rcs s2 [Hin E']. apply wp_ret.
  split; [by intros [?|?]|by rewrite E', E].
Qed.

Lemma wp_calls calls : forall s, fresh s -> Forall call_wf calls ->
  wp (ra_calls P self decoded_at calls) (fun rcs s' => (exists ph, ceremony x (fst (snd s')) = Some ph /\ (In RA_OK rcs -> ph = Complete)) /\
    (count_occ Z.eq_dec rcs RA_OK <= 1)%nat) s.
Proof.
  induction calls as [|[[c p] d] calls IH]; intros s H Hwf.
  - apply wp_ret. destruct H as [(Hc & _) _]. split; [by exists Before|by apply Nat.le_0_l].
  - apply Forall_cons in Hwf as [Hk Hwf]. apply wp_bind. eapply wp_mono; [by apply wp_first|].
    intros rc s1 [H1|(Hr & E & H1)]; apply wp_bind.
    + eapply wp_mono; [apply wp_calls_spent; destruct H1 as (Ha & ph & Hph & _); split; [done|by exists ph]|].
      intros rcs s2 [Hin E]. apply wp_ret. destruct H1 as (_ & ph & Hph & Hok). rewrite E. split.
      * exists ph. split; [done|]. intros [E0|E0]; [by apply Hok|done].
      * cbn. rewrite (proj1 (count_occ_not_In Z.eq_dec rcs RA_OK) Hin). destruct (Z.eq_dec _ _); auto.
    + eapply wp_mono; [by apply IH|]. intros rcs s2 [(ph & Hph & Hok) Hn]. apply wp_ret. split.
      * exists ph. split; [done|]. intros [E0|E0]; [done|by apply Hok].
      * cbn. by destruct (Z.eq_dec _ _).
Qed.
End Call.

Lemma ra_init_fresh {W} (port : ra_port (list ra_event * W)) self decoded_at p h c proof e lock_free a w :
  (forall eo, e = Some eo -> evidence_wf (deref eo)) ->
  ra_init port self decoded_at (Obj self zero_authorizer) p h c proof e lock_free = (RA_OK, a) ->
  fresh (au_expected a) (a, ([], w) : list ra_event * W).
Proof.
  intros He. unfold ra_init. destruct h as [ho|], c as [co|], proof as [po|], e as [eo|]; try done.
  destruct (_ || _); [done|]. destruct (build _ _ _ _ _ _) as [rc r]. intros [= -> <-].
  split; [|by destruct r; split; [done|apply He|done|apply He]].
  by destruct r.
Qed.

(** C14. Recovery is authorized by one ceremony: over any number of calls, whatever
    configurations, proofs and deadlines they pass and whatever the port answers, the
    port sees no call out of order - the lock first, then the permit for exactly the
    record fixed at initialization and its transaction, only then the settings, which
    are written once and with that record - and at most one call succeeds, for which
    every step was answered as required and the record read back as written. *)
Theorem ra_single_ceremony {W} (port : ra_port W) (self decoded_at : Z) (p : ptr unit) (h : ptr owned_page_hash)
    (c : ptr recording_configuration) (proof : ptr rv_recovery_proof) (e : ptr ra_evidence) (lock_free : bool)
    (a : recovery_authorizer) (w : W) (calls : list (ptr recording_configuration * ptr rv_recovery_proof * Z))
    (He : forall eo, e = Some eo -> evidence_wf (deref eo)) (Hcalls : Forall call_wf calls)
    (Hinit : ra_init (ra_logged port) self decoded_at (Obj self zero_authorizer) p h c proof e lock_free = (RA_OK, a)) :
  let '(rcs, (_, (t, _))) := ra_calls (ra_logged port) self decoded_at calls (a, ([], w)) in
  is_Some (ceremony (au_expected a) t) /\
  (In RA_OK rcs -> exists q, t = ceremony_log (au_expected a) q) /\
  (count_occ Z.eq_dec rcs RA_OK <= 1)%nat.
Proof.
  pose proof (wp_calls port self decoded_at (au_expected a) calls _ (ra_init_fresh _ _ _ _ _ _ _ _ _ _ w He Hinit) Hcalls) as H.
  destruct (ra_calls _ _ _ _ _) as [rcs [a' [t w']]] eqn:E. apply (wp_elim _ _ _ _ _ H) in E as [(ph & Hph & Hok) Hn].
  cbn [fst snd] in Hph. split; [by exists ph|]. split; [|done]. intros ->%Hok. by apply ceremony_complete.
Qed.

(** * A concrete recovery: the settings leaf is absent, and holds the record after it *)
Definition rescue_recipient : bytes := 4 :: fill 64 0x61.
Definition rescue_digest (m : bytes) : bytes := le 32 (crc32 (fun _ => false) m).
Definition rescue_spec : owned_volume_spec :=
  {| vs_device_id := fill 16 0x11; vs_volume_id := fill 16 0x22; vs_generation := 1;
     vs_recipient_fingerprint := rescue_digest (recipient_domain ++ [0; 16] ++ rescue_recipient);
     vs_preservation_manifest_sha256 := fill 32 0x55;
     vs_map_blocks := map (fun i => 1025 + i) (zseq 32); vs_control_blocks := [1057; 1058] |}.
Definition rescue_configuration : obj recording_configuration :=
  Obj 0x50000 (RecordingConfiguration rescue_spec
    (written (owned_volume_descriptor_build at_out 512 (Some (Obj 0x51000 rescue_spec)) (Some p_hash))) rescue_recipient 2 2 0).
Definition rescue_evidence : obj ra_evidence :=
  Obj 0x52000 (RaEvidence (fill 16 0x11) (fill 32 0x54) (fill 32 0x55) (fill 32 0x56)).
Definition rescue_proof : obj rv_recovery_proof :=
  Obj 0x53000 (RvRecoveryProof (fill 16 0x71) (rescue_digest (configuration_bytes (deref rescue_configuration)))
    (fill 32 0x73) (fill 32 0x74) (fill 32 0x75) 5 130).
Definition rescue_port : ra_port (option bytes) := {|
  ap_set := true;
  ap_now_ms := fun w => (10, w);
  ap_acquire := fun w => (0, w);
  ap_release := fun w => (0, w);
  ap_consume_permit := fun _ _ _ w => (0, w);
  ap_read := fun _ w => match w with None => ((RA_ABSENT, [], 0), w) | Some r => ((0, r, RA_RECORD_BYTES), w) end;
  ap_write := fun r _ _ => (0, Some r)
|}.
Definition rescue_init : Z * recovery_authorizer :=
  ra_init (ra_logged rescue_port) 0x60000 0x70000 (Obj 0x60000 zero_authorizer) (Some (Obj 0x54000 tt)) (Some p_hash)
    (Some rescue_configuration) (Some rescue_proof) (Some rescue_evidence) true.
Definition rescue_calls : list (ptr recording_configuration * ptr rv_recovery_proof * Z) :=
  [(Some rescue_configuration, Some rescue_proof, 2000); (Some rescue_configuration, Some rescue_proof, 3000)].
Definition rescue_run := ra_calls (ra_logged rescue_port) 0x60000 0x70000 rescue_calls (snd rescue_init, ([], None)).

Lemma ra_single_ceremony_witness :
  fst rescue_run = [RA_OK; RA_REFUSED] /\
  exists q, fst (snd (snd rescue_run)) = ceremony_log (au_expected (snd rescue_init)) q.
Proof.
  assert (H0 : fst rescue_run = [RA_OK; RA_REFUSED]) by by vm_compute. split; [done|].
  pose proof (ra_single_ceremony rescue_port 0x60000 0x70000 (Some (Obj 0x54000 tt)) (Some p_hash)
    (Some rescue_configuration) (Some rescue_proof) (Some rescue_evidence) true (snd rescue_init) None rescue_calls) as H.
  fold rescue_run in H. destruct rescue_run as [rcs [a [t w]]]. cbn [fst snd] in *. subst rcs. destruct H as (_ & Hok & _).
  - intros eo [= <-]. constructor; by vm_compute.
  - repeat (apply Forall_cons; split); [..|by apply Forall_nil]; split; intros ? [= <-]; constructor; by vm_compute.
  - change (rescue_init = (RA_OK, snd rescue_init)). assert (E : fst rescue_init = RA_OK) by (vm_compute; reflexivity).
    rewrite (surjective_pairing rescue_init) at 1. by rewrite E.
  - apply Hok. by left.
Defined.
